(* ===== verification/_CoqProject ===== *)
-Q . S2P
Prelude.v
Status.v
Types.v
Path.v
Proto.v
System.v
Prog.v
UniqueFd.v
Blake3.v
MemOS.v
FileIO.v
IoTheorems.v
Files.v
ChunkFormat.v
Streams.v
ChunkStore.v
FileStore.v
StorePaths.v
StoreRead.v
StorePut.v
StoreSpec.v
Sequence.v
StoreTheorems.v
Crash.v
Concurrent.v
Protocol.v
Interference.v
Names.v
Interleaving.v
Linearize.v
OneWinner.v
Answers.v
ConcurrencyTheorems.v
DataPlane.v
Services.v
HandlerSpec.v
ServerConcurrency.v
Client.v
ClientSpec.v
StorageClient.v
ObjectSpec.v
Config.v
Mains.v
ClientTheorems.v
Fuel.v
ServiceTheorems.v
EndToEnd.v
ServerTheorems.v
BusyWorker.v
Availability.v
MainTheorems.v
