(* ===== verification/Prelude.v ===== *)
(** * A verification of the distributed object store

    ** The program

    The repository is version 0 of a storage service in C++: a worker keeps
    immutable chunks as files and serves them over RPC, a client sends and
    fetches whole objects, a control node answers health inquiries.  From the
    disk upwards:

    - [FileChunkStore] (src/src/storage/worker/file_chunk_store.cpp) keeps one
      file per chunk under a root directory: 80 bytes of header (magic, size,
      checksum) and the payload.  [Put] writes a temporary file, synchronizes it,
      links it to its name and synchronizes the directory; [Get], [Head] and
      [Delete] open, check, read and unlink it.
    - [DataPlaneService] (src/src/storage/worker/data_plane_service.cpp) offers
      the operations over any [ChunkStore].
    - [WorkerService] and [ControlPlaneService] (src/src/rpc/services.cpp) turn RPC
      calls into operations, with adapters from RPC streams to the streams of
      the store and conversions between status types.
    - [GrpcDataPlaneClient] (src/src/storage/client/data_plane_client.cpp) is
      the other end of those calls; [StorageClient]
      (src/src/storage/client/storage_client.cpp) builds the object operations
      on it: hash, announce and send; describe, fetch, verify and commit.
    - Three programs (src/src/worker, src/src/control, src/src/client) load a
      configuration, set up the log and run a server or one object operation.

    Errors are values ([Status], [StatusOr]) throughout.

    ** How it is modelled

    A function of the code that makes system calls is a value of [Prog.prog]: a
    tree of the calls of [System.call], each with a continuation for every
    reply.  The environment is a parameter, the class [System.Posix]: a type of
    worlds, one function for all calls, a view of a world as a [System.state]
    (directory entries, inodes, descriptors, [errno], RPC traffic) and the
    hypothesis [sys_ok], which says that each call does one of the things its
    documentation allows: succeed, transfer less than was asked for, be
    interrupted, or fail with an error.  A theorem that quantifies over the
    environment therefore covers every schedule of faults and every behaviour of
    the peer.  A state is quiet when no call fails without a reason that lies in
    the state; completeness statements are about quiet states.  [MemOS] is an
    executable environment with a script of faults and a peer: it shows that
    the hypotheses can be met and runs the witnesses.

    Other code that is not in the repository is a parameter as well: BLAKE3
    ([Blake3.Blake3], with the documented laws of its incremental interface),
    [strerror] ([System.Libc]), the command-line library ([Config.Cli],
    [Mains.ClientCli]; what the programs declare to it is data of the model) and the logging library ([Config.Spdlog]).  No theorem assumes that
    the hash is free of collisions.  Messages of the RPC library are records in
    [Proto]; the library may answer anything, within the types of the messages
    and its limit of four megabytes for a received one.

    ** The files

    - [Prelude]: machine integers, bytes, strings, generic lemmas.
    - [Status], [Types], [Path], [Proto]: [Status], [StatusOr]; identifiers,
      ranges, checksums, requests and their validators; the part of
      [std::filesystem::path] the code uses; wire messages.
    - [System], [Prog], [MemOS]: the calls and what they may do; programs,
      [run], the calculus [wp] over all replies; an executable environment.
    - [UniqueFd], [Blake3], [FileIO], [IoTheorems], [Files]: the owner of a
      descriptor; the hash; the retry loops [WriteAll], [PreadSome] and reads
      repeated on EINTR; what opening, creating and discarding do to the files.
    - [ChunkFormat]: the header, written and read back.
    - [Streams], [ChunkStore]: the C++ interfaces of these names as classes, and
      what an implementation promises as classes over them
      ([ChunkInputStream_contract], [ChunkOutputStream_contract],
      [ChunkStoreContract]).
    - [FileStore] translates file_chunk_store.cpp; [StorePaths] is about its file
      names, [StoreRead] about Head and Get, [StorePut] about Put and Delete;
      [StoreSpec] discharges the contract; [Sequence] lifts it to sequences of
      commands; [StoreTheorems] states the results; [Crash] adds power failures.
    - Operations that overlap.  [Concurrent]: threads that share the files, and
      schedules of their turns, one system call each.  [Protocol]: the phases an
      operation goes through and the calls it makes in each, proved of the code
      of every operation.  [Interference]: what a thread owns (a temporary file,
      a descriptor) and what the others cannot touch.  [Names]: the temporary
      names an operation may create.  [Interleaving]: an operation between two of
      its calls, and that the turns of the other threads leave it there.
      [Linearize]: the abstract machine, what has to be shown of
      the code of each operation run alone ([Linearizable]), and the simulation;
      [OneWinner]: of several operations that store a chunk one does, and the others
      saw what it stored or nothing.  [Answers]:
      the operations of the store are linearizable; [ConcurrencyTheorems] states
      the results.
    - [DataPlane], [Services], [HandlerSpec], [ServiceTheorems]: the service, its
      handlers and stream adapters, proved against the contract of the store.
      [ServerConcurrency]: the handlers over one FileChunkStore are linearizable as
      well, their traffic included; [ServerTheorems] states the results.
    - [Client], [ClientSpec], [StorageClient], [ObjectSpec], [ClientTheorems]: the
      client side, over the class [DataPlaneClient] and its contract.
    - [EndToEnd]: client and worker joined by a connection, one call at a time;
      [BusyWorker]: clients whose calls are served among any number of others;
      [Availability]: what succeeds when nothing hinders it.
    - [Config], [Mains], [MainTheorems]: configuration, logging, the programs.
    - [Fuel]: loop bounds do not matter.

    ** What is shown

    - The store.  [FileChunkStore_refines_map]: on a healthy machine a sound store
      without leftover temporary files answers any sequence of admissible commands
      (names and sizes the file system can hold) as a finite map does.  Under every
      fault:
      [Put_all_or_nothing], [Put_never_overwrites], [Put_ok_is_durable],
      [Store_survives_faults], [Get_delivers_range], [Head_detects_corruption],
      [Delete_removes_one]; names are confined and injective
      ([PathFor_confined]); the format is an exact round trip
      ([chunk_format_roundtrip]).
    - Crashes.  [Put_is_atomic] at every call of Put; [Crash_recovers] and
      [Acknowledged_survives] for a power failure at any call of any sequence of
      operations, when entries and contents that were not synchronized may be
      lost.
    - Concurrency.  [FileChunkStore_linearizable]: any number of operations on one
      store, interleaved at their system calls in any way and under any faults,
      are accounted for by an abstract store on which each acts at one moment
      between its invocation and its return, a Get at two; on a healthy machine,
      when the commands are admissible, the store is clean and the Puts read from
      streams of their own, each but Get answers exactly as the abstract operation,
      and a Get does when the chunk is the same at its two moments.
      [Concurrent_Put_once]: one of several overlapping Puts of a chunk wins.
      [Worker_linearizable], [Concurrent_uploads_once]: the same of the handlers of
      a worker, whatever their clients send while they overlap.
    - The worker.  What each handler does to the store and answers
      ([Worker_PutChunk_stores_frames], [Worker_GetChunk_streams_range],
      [Worker_Head_and_Delete]); status values cross the wire unchanged
      ([status_wire_roundtrip]) and no unknown code is a success.
    - The client.  An operation that reports success did what it says, in every
      environment, and a failure leaves existing files alone
      ([Client_PutChunk_success], [Client_GetChunk_complete],
      [Object_Put_announces], [Object_Get_verified], [HashFile_spec]).
    - Both ends.  [Put_reaches_store], [Get_fetches_stored], [Object_roundtrip]: a
      client and the handlers of its calls.  [Put_reaches_busy_worker],
      [Busy_roundtrip]: the same when these handlers are some of the threads of a
      run of the worker, in any order; they join the specification of the client, of
      a program run alone, to the linearization of the handlers.  [Put_succeeds] and
      [Get_succeeds] promise success when nothing stands against it.
    - The programs.  [client_main_exit]: from the line to the exit status;
      [worker_main_confined], [control_main_offers], [LoadWorkerConfig_spec],
      [InitLogging_once].
    - Building blocks: [StatusOr_invariant], the validators, [UniqueFd_ownership],
      [WriteAll_appends].

    Three of the theorems describe defects: [id_length_limits] (identifiers that
    pass validation and can never be stored), [Get_removes_foreign_temp] and
    [Get_reopens] (any Get of a chunk that is replaced between its two looks
    checks the range against one chunk and reads another, which is why a Get has
    two moments above).

    ** Integers, bounds and fuel

    [std::uint64_t] and [off_t] are [Z] with their ranges; additions and
    subtractions of the code wrap around by [u64_add] and [u64_sub], and the
    theorems show that no wrap-around happens behind the checks.  A loop takes
    [fuel], a bound on its iterations; a program that uses it up ends in
    [OutOfFuel], which no theorem accepts as a result: each says how much fuel is
    enough, in terms of the bytes to move and of the asynchronous events
    (signals, messages) still to come, [s_events], for instance
    [StoreSpec.store_need].  A process receives finitely many signals while an
    operation runs, so such a number exists.  [fuel_is_only_a_bound]: a larger
    bound makes the same calls.

    ** What is not modelled

    - The RPC library, its generated code, BLAKE3, CLI11 and spdlog beyond the
      parameters above, because their code is not in the repository; the shutdown of
      the server, which the programs leave to the library; the resource quota of the
      client's channel, which has no effect on what it sends.
    - The threads of the server are the threads of a schedule; that the library
      starts one for each call is its documented behaviour.  They share the files
      and the descriptors; [errno], signals and the messages of its call belong to
      a thread.  A client runs alone, with an environment that changes only what
      the calls say.
    - In a crash image every entry and every content is either the last one or
      the one last synchronized, not one in between.
    - The test programs and the build files.

    ** How it may grow

    Every function of the programs is a definition here.  What could be added is the
    other side of the parameters, code that is not in the repository: the wire
    format of the generated messages, and a connection that both ends share, in
    place of the links of [EndToEnd]. *)
From Stdlib Require Import Ascii.
From Stdlib Require String.
From stdpp Require Export base gmap strings list numbers.
From Stdlib Require Export ZArith Lia Ascii.
From Stdlib Require Export Strings.Byte.

Open Scope Z_scope.

(** ** Machine integers: [std::uint64_t] and [off_t] as [Z] with their bounds *)

Definition u64_modulus : Z := 2 ^ 64.
Definition u64_max : Z := u64_modulus - 1.
Definition off_max : Z := 2 ^ 63 - 1.
Definition u64 (z : Z) : Z := z mod u64_modulus.
Definition u64_add (a b : Z) : Z := u64 (a + b).
Definition u64_sub (a b : Z) : Z := u64 (a - b).
Definition is_u64 (z : Z) : Prop := 0 <= z < u64_modulus.
Definition is_u64b (z : Z) : bool := bool_decide (0 <= z < u64_modulus).

(** The size of a buffer, a span or a string, as the code's [std::size_t]. *)
Definition blen {A} (l : list A) : Z := Z.of_nat (length l).
(** The first [n] elements of a span, [n] a machine integer. *)
Definition ztake {A} (n : Z) (l : list A) : list A := take (Z.to_nat n) l.
Definition zdrop {A} (n : Z) (l : list A) : list A := drop (Z.to_nat n) l.

(** ** Bytes *)

Definition byte_to_Z (b : byte) : Z := Z.of_N (Byte.to_N b).
Definition byte_of_Z (z : Z) : byte :=
  default x00 (Byte.of_N (Z.to_N (z mod 256))).

#[export] Instance byte_eq_dec : EqDecision byte := Byte.byte_eq_dec.

(** [memcpy(dst + off, src, n)] into a buffer: the bytes of [src] replace those
    of [dst] from [off] on.  A file written past its end grows, the hole reads
    as zero bytes. *)
Definition splice (off : nat) (src dst : list byte) : list byte :=
  take off dst ++ replicate (off - length dst) x00 ++ src ++ drop (off + length src) dst.

(** Little-endian digits of an integer, the reference for the header codec. *)
Fixpoint le_bytes (n : nat) (z : Z) : list byte :=
  match n with
  | O => []
  | S n => byte_of_Z (Z.land z 255) :: le_bytes n (Z.shiftr z 8)
  end.

Fixpoint le_value (l : list byte) : Z :=
  match l with
  | [] => 0
  | b :: l => Z.lor (byte_to_Z b) (Z.shiftl (le_value l) 8)
  end.

(** ** Lower-case hexadecimal, the reference for the two encoders of the code *)

Definition kHex : list ascii := String.list_ascii_of_string "0123456789abcdef".
Definition hex_digit (z : Z) : ascii := default "0"%char (kHex !! Z.to_nat z).
Definition hex_pair (b : byte) : list ascii :=
  [hex_digit (Z.shiftr (byte_to_Z b) 4); hex_digit (Z.land (byte_to_Z b) 15)].
Fixpoint hex_chars (bs : list byte) : list ascii :=
  match bs with
  | [] => []
  | b :: bs => hex_pair b ++ hex_chars bs
  end.
Definition hex_string (bs : list byte) : string :=
  String.string_of_list_ascii (hex_chars bs).

Arguments hex_pair : simpl never.
Arguments hex_digit : simpl never.
Arguments byte_of_Z : simpl never.
Arguments byte_to_Z : simpl never.
Arguments u64 : simpl never.

(** ** Lemmas on machine integers *)

Lemma u64_small z : is_u64 z -> u64 z = z.
Proof. intros H. apply Z.mod_small, H. Qed.

Lemma u64_range z : is_u64 (u64 z).
Proof. apply Z.mod_pos_bound. done. Qed.

Lemma u64_add_small a b : is_u64 a -> 0 <= b -> a + b < u64_modulus -> u64_add a b = a + b.
Proof. intros Ha Hb H. apply u64_small. unfold is_u64 in *. lia. Qed.

Lemma u64_sub_small a b : is_u64 a -> 0 <= b <= a -> u64_sub a b = a - b.
Proof. intros Ha Hb. apply u64_small. unfold is_u64 in *. lia. Qed.

Lemma is_u64b_true z : is_u64b z = true <-> is_u64 z.
Proof. apply bool_decide_eq_true. Qed.

(** ** Lemmas on buffers *)

Lemma blen_nonneg {A} (l : list A) : 0 <= blen l.
Proof. unfold blen. lia. Qed.

Lemma blen_nil {A} : blen (@nil A) = 0.
Proof. done. Qed.

Lemma blen_app {A} (l k : list A) : blen (l ++ k) = blen l + blen k.
Proof. unfold blen. rewrite length_app. lia. Qed.

Lemma blen_cons {A} (x : A) l : blen (x :: l) = 1 + blen l.
Proof. unfold blen. simpl. lia. Qed.

Lemma blen_ztake {A} n (l : list A) : 0 <= n -> blen (ztake n l) = Z.min n (blen l).
Proof. intros Hn. unfold blen, ztake. rewrite length_take. lia. Qed.

Lemma blen_zdrop {A} n (l : list A) : 0 <= n -> blen (zdrop n l) = Z.max 0 (blen l - n).
Proof. intros Hn. unfold blen, zdrop. rewrite length_drop. lia. Qed.

Lemma ztake_zdrop {A} n (l : list A) : ztake n l ++ zdrop n l = l.
Proof. apply take_drop. Qed.

Lemma zdrop_zdrop {A} n m (l : list A) : 0 <= n -> 0 <= m -> zdrop n (zdrop m l) = zdrop (m + n) l.
Proof. intros Hn Hm. unfold zdrop. rewrite drop_drop. f_equal. lia. Qed.

Lemma zdrop_0 {A} (l : list A) : zdrop 0 l = l.
Proof. done. Qed.

Lemma zdrop_all {A} n (l : list A) : blen l <= n -> zdrop n l = [].
Proof. unfold blen, zdrop. intros H. apply drop_ge. lia. Qed.

Lemma ztake_all {A} n (l : list A) : blen l <= n -> ztake n l = l.
Proof. unfold blen, ztake. intros H. apply take_ge. lia. Qed.

Lemma ztake_app_zdrop {A} n m (l : list A) :
  0 <= n -> 0 <= m -> ztake n l ++ ztake m (zdrop n l) = ztake (n + m) l.
Proof.
  intros Hn Hm. unfold ztake, zdrop.
  rewrite take_take_drop. f_equal. lia.
Qed.

Lemma ztake_ztake {A} n m (l : list A) : 0 <= n <= m -> ztake n (ztake m l) = ztake n l.
Proof. intros H. unfold ztake. rewrite take_take. f_equal. lia. Qed.

Lemma blen_zero_nil {A} (l : list A) : blen l = 0 -> l = [].
Proof. destruct l; [done|]. rewrite blen_cons. pose proof (blen_nonneg l). lia. Qed.

Lemma zdrop_nonempty {A} n (l : list A) : 0 <= n < blen l -> zdrop n l <> [].
Proof.
  intros Hn E. pose proof (blen_zdrop n l ltac:(lia)) as H. rewrite E in H.
  change (blen []) with 0 in H. lia.
Qed.

Lemma take_zdrop_step {A} k n (l : list A) :
  0 <= n -> take k (zdrop n l) ++ zdrop (n + Z.of_nat k) l = zdrop n l.
Proof.
  intros Hn. unfold zdrop.
  replace (Z.to_nat (n + Z.of_nat k)) with (Z.to_nat n + k)%nat by lia.
  by rewrite <- drop_drop, take_drop.
Qed.

Lemma app_cons_inj {A} (x : A) l k r r' :
  x ∉ l -> x ∉ k -> l ++ x :: r = k ++ x :: r' -> l = k /\ r = r'.
Proof.
  revert k. induction l as [|a l IH]; intros [|b k] Hl Hk H; simplify_list_eq.
  - done.
  - set_solver.
  - set_solver.
  - destruct (IH k) as [-> ->]; set_solver.
Qed.

Lemma splice_end off src dst : off = length dst -> splice off src dst = dst ++ src.
Proof.
  intros ->. unfold splice.
  rewrite take_ge, Nat.sub_diag, drop_ge, app_nil_r by lia. done.
Qed.

Lemma length_splice off src dst :
  (off + length src <= length dst)%nat -> length (splice off src dst) = length dst.
Proof.
  intros H. unfold splice.
  rewrite !length_app, length_take, length_replicate, length_drop. lia.
Qed.

(** ** Lemmas on bytes and their codecs *)

Lemma byte_to_Z_range b : 0 <= byte_to_Z b < 256.
Proof.
  unfold byte_to_Z. pose proof (Byte.to_N_bounded b). lia.
Qed.

Lemma byte_of_to_Z b : byte_of_Z (byte_to_Z b) = b.
Proof.
  unfold byte_of_Z. rewrite Z.mod_small by apply byte_to_Z_range.
  unfold byte_to_Z. by rewrite N2Z.id, Byte.of_to_N.
Qed.

Lemma byte_to_of_Z z : byte_to_Z (byte_of_Z z) = z mod 256.
Proof.
  unfold byte_of_Z. pose proof (Z.mod_pos_bound z 256 ltac:(done)) as Hz.
  destruct (Byte.of_N (Z.to_N (z mod 256))) as [b|] eqn:E; simpl.
  - unfold byte_to_Z. apply Byte.to_of_N in E. rewrite E. lia.
  - apply Byte.of_N_None_iff in E. lia.
Qed.

Lemma byte_to_Z_inj a b : byte_to_Z a = byte_to_Z b -> a = b.
Proof. intros H. by rewrite <- (byte_of_to_Z a), H, byte_of_to_Z. Qed.

Lemma length_le_bytes n z : length (le_bytes n z) = n.
Proof. revert z. induction n; intros; simpl; auto. Qed.

Lemma land_255 z : Z.land z 255 = z mod 256.
Proof. change 255 with (Z.ones 8). rewrite Z.land_ones by lia. done. Qed.

Lemma le_value_le_bytes n z :
  0 <= z -> le_value (le_bytes n z) = z mod 2 ^ (8 * Z.of_nat n).
Proof.
  revert z. induction n as [|n IH]; intros z Hz; simpl.
  { by rewrite Z.mod_1_r. }
  rewrite byte_to_of_Z, land_255, Z.mod_mod by lia.
  rewrite IH by (by apply Z.shiftr_nonneg).
  change 256 with (2 ^ 8). rewrite <- !Z.land_ones by lia.
  apply Z.bits_inj'. intros i Hi.
  rewrite Z.lor_spec, !Z.land_spec, Z.shiftl_spec, !Z.testbit_ones_nonneg by lia.
  destruct (decide (i < 8)).
  - rewrite (Z.testbit_neg_r _ (i - 8)) by lia.
    rewrite !(proj2 (Z.ltb_lt i _)) by lia. by rewrite orb_false_r.
  - rewrite (proj2 (Z.ltb_ge i 8)) by lia. rewrite andb_false_r. simpl.
    rewrite Z.land_spec, Z.testbit_ones_nonneg, Z.shiftr_spec by lia.
    rewrite Z.sub_add. f_equal. apply eq_true_iff_eq. rewrite !Z.ltb_lt. lia.
Qed.

Lemma kHex_lookup_inj i j c : kHex !! i = Some c -> kHex !! j = Some c -> i = j.
Proof.
  assert (H : NoDup kHex) by (apply (bool_decide_unpack _); vm_compute; exact I).
  intros Hi Hj. eapply (proj1 (NoDup_alt _) H); eauto.
Qed.

Lemma hex_digit_inj a b : 0 <= a < 16 -> 0 <= b < 16 -> hex_digit a = hex_digit b -> a = b.
Proof.
  intros Ha Hb. unfold hex_digit.
  destruct (lookup_lt_is_Some_2 kHex (Z.to_nat a)) as [c Hc]; [change (length kHex) with 16%nat; lia|].
  destruct (lookup_lt_is_Some_2 kHex (Z.to_nat b)) as [d Hd]; [change (length kHex) with 16%nat; lia|].
  rewrite Hc, Hd. simpl. intros <-.
  pose proof (kHex_lookup_inj _ _ _ Hc Hd). lia.
Qed.

Lemma nibbles b :
  let z := byte_to_Z b in
  0 <= Z.shiftr z 4 < 16 /\ 0 <= Z.land z 15 < 16 /\ z = 16 * Z.shiftr z 4 + Z.land z 15.
Proof.
  intros z. pose proof (byte_to_Z_range b) as H. fold z in H.
  change 15 with (Z.ones 4). rewrite Z.land_ones, Z.shiftr_div_pow2 by lia.
  change (2 ^ 4) with 16. pose proof (Z.div_mod z 16). pose proof (Z.mod_pos_bound z 16).
  split_and!; lia.
Qed.

Lemma hex_pair_inj a b : hex_pair a = hex_pair b -> a = b.
Proof.
  unfold hex_pair. intros [= Hhi Hlo].
  pose proof (nibbles a) as (?&?&Ea). pose proof (nibbles b) as (?&?&Eb).
  apply hex_digit_inj in Hhi; [|done..]. apply hex_digit_inj in Hlo; [|done..].
  apply byte_to_Z_inj. congruence.
Qed.

Lemma length_hex_chars bs : length (hex_chars bs) = (2 * length bs)%nat.
Proof. induction bs as [|b bs IH]; simpl; [done|]. rewrite IH. lia. Qed.

Lemma hex_chars_app a b : hex_chars (a ++ b) = hex_chars a ++ hex_chars b.
Proof. induction a as [|x a IH]; simpl; [done|]. by rewrite IH. Qed.

Lemma hex_chars_inj a b : hex_chars a = hex_chars b -> a = b.
Proof.
  revert b. induction a as [|x a IH]; intros [|y b]; [done..|].
  intros [= H1 H2 H3]. f_equal; [|by apply IH].
  apply hex_pair_inj. unfold hex_pair. by rewrite H1, H2.
Qed.

Lemma hex_string_inj a b : hex_string a = hex_string b -> a = b.
Proof.
  unfold hex_string. intros H%(f_equal String.list_ascii_of_string).
  rewrite !String.list_ascii_of_string_of_list_ascii in H. by apply hex_chars_inj.
Qed.

(** Strings and their bytes. *)
Definition string_bytes (s : string) : list byte := String.list_byte_of_string s.
Definition bytes_string (l : list byte) : string := String.string_of_list_byte l.

Lemma bytes_string_bytes s : bytes_string (string_bytes s) = s.
Proof. apply String.string_of_list_byte_of_string. Qed.

Lemma string_bytes_string l : string_bytes (bytes_string l) = l.
Proof. apply String.list_byte_of_string_of_list_byte. Qed.

Lemma length_string_bytes s : length (string_bytes s) = String.length s.
Proof.
  unfold string_bytes, String.list_byte_of_string.
  rewrite length_map. induction s; simpl; auto.
Qed.
