(* ===== verification/Status.v ===== *)
(** * Status and StatusOr: the error values of the program
    (src/include/storage/common/status.h, src/src/common/status.cpp,
    src/include/storage/common/status_or.h). *)
From S2P Require Import Prelude.

(** ** Definitions *)

Inductive StatusCode :=
| kOk
| kInvalidArgument
| kNotFound
| kAlreadyExists
| kUnavailable
| kTimeout
| kIoError
| kCorruption
| kResourceExhausted
| kInternal.

#[export] Instance StatusCode_eq_dec : EqDecision StatusCode.
Proof. solve_decision. Defined.

(** The members of [class Status]; they are private, so a value is built by
    one of the two constructors below. *)
Record Status := mkStatus { code : StatusCode; message : string }.

#[export] Instance Status_eq_dec : EqDecision Status.
Proof. solve_decision. Defined.

(** [Status::Status()] *)
Definition Status_default : Status := mkStatus kOk "".

(** [Status::Status(StatusCode, std::string)] *)
Definition Status_make (c : StatusCode) (m : string) : Status :=
  mkStatus c (if decide (c = kOk) then "" else m).

(** [Status::Ok] *)
Definition Status_Ok : Status := Status_default.

(** [Status::ok] *)
Definition ok (s : Status) : bool := bool_decide (code s = kOk).

(** What the two constructors establish. *)
Definition Status_wf (s : Status) : Prop := code s = kOk -> message s = ""%string.

(** The members of [StatusOr<T>]. *)
Record StatusOr (T : Type) := mkStatusOr { so_status : Status; so_value : option T }.
Arguments mkStatusOr {T} _ _.
Arguments so_status {T} _.
Arguments so_value {T} _.

(** [StatusOr::NormalizeError] *)
Definition NormalizeError (s : Status) : Status :=
  if ok s then Status_make kInternal "StatusOr cannot be constructed from an OK status" else s.

(** [StatusOr::StatusOr(const Status &)], also used for [Status &&]. *)
Definition SO_error {T} (s : Status) : StatusOr T := mkStatusOr (NormalizeError s) None.

(** [StatusOr::StatusOr(U &&)] *)
Definition SO_value {T} (v : T) : StatusOr T := mkStatusOr Status_Ok (Some v).

(** [StatusOr::ok] *)
Definition so_ok {T} (r : StatusOr T) : bool := bool_decide (is_Some (so_value r)).

(** [StatusOr::value]: [assert(ok())] fails on [None]. *)
Definition so_get {T} (r : StatusOr T) : option T := if so_ok r then so_value r else None.

(** The class invariant: a value exactly when the status is OK. *)
Definition SO_wf {T} (r : StatusOr T) : Prop :=
  Status_wf (so_status r) /\ (so_ok r = true <-> ok (so_status r) = true).

(** A [StatusOr] is one of the two constructors applied to an argument. *)
Inductive SO_built {T} : StatusOr T -> Prop :=
| SO_built_error s : Status_wf s -> SO_built (SO_error s)
| SO_built_value v : SO_built (SO_value v).

(** ** Lemmas *)

Lemma ok_code s : ok s = true <-> code s = kOk.
Proof. unfold ok. by rewrite bool_decide_eq_true. Qed.

Lemma not_ok_code s : ok s = false <-> code s <> kOk.
Proof. unfold ok. by rewrite bool_decide_eq_false. Qed.

Lemma Status_make_wf c m : Status_wf (Status_make c m).
Proof. unfold Status_wf, Status_make; simpl. intros ->. by rewrite decide_True. Qed.

Lemma Status_make_error c m : c <> kOk -> Status_make c m = mkStatus c m.
Proof. intros H. unfold Status_make. by rewrite decide_False. Qed.

Lemma NormalizeError_not_ok s : ok (NormalizeError s) = false.
Proof.
  unfold NormalizeError. destruct (ok s) eqn:E; [|done]. done.
Qed.

Lemma NormalizeError_id s : ok s = false -> NormalizeError s = s.
Proof. intros H. unfold NormalizeError. by rewrite H. Qed.

Lemma SO_built_wf {T} (r : StatusOr T) : SO_built r -> SO_wf r.
Proof.
  intros [s Hs|v]; split; simpl.
  - unfold NormalizeError. destruct (ok s); [apply Status_make_wf|done].
  - rewrite NormalizeError_not_ok. done.
  - done.
  - done.
Qed.

(** ** Properties *)

(** C36: a constructed [StatusOr] has a value exactly when its status is OK, and
    [value()] then returns what was stored; an OK status without a value is
    turned into kInternal. *)
Theorem StatusOr_invariant {T} (r : StatusOr T) (H : SO_built r) :
  SO_wf r /\ (forall v, r = SO_value v -> so_get r = Some v) /\
  (forall s, r = SO_error s -> so_get r = None /\
     code (so_status r) = if ok s then kInternal else code s).
Proof.
  split; [by apply SO_built_wf|]. split.
  - by intros v ->.
  - intros s ->. split; [done|]. simpl. unfold NormalizeError. by destruct (ok s).
Qed.

Lemma StatusOr_invariant_witness :
  so_get (SO_value 7) = Some 7 /\ code (so_status (SO_error (T:=Z) Status_Ok)) = kInternal.
Proof.
  split.
  - exact (proj1 (proj2 (StatusOr_invariant (SO_value 7) (SO_built_value 7))) 7 eq_refl).
  - exact (proj2 (proj2 (proj2 (StatusOr_invariant (SO_error Status_Ok)
             (SO_built_error Status_Ok (fun _ => eq_refl)))) Status_Ok eq_refl)).
Defined.
