(* ===== verification/Types.v ===== *)
(** * Value types: identifiers, byte ranges, checksums and the data-plane
    requests (src/include/storage/storage/types/*.h,
    src/src/storage/types/byte_range.cpp, src/src/storage/types/checksum.cpp,
    src/include/storage/storage/worker/data_plane_types.h). *)
From S2P Require Import Prelude Status.

(** ** Definitions *)

(** [STORAGE_DEFINE_ID_TYPE(Name)] declares one distinct type per use. *)
Record ObjectId := mkObjectId { object_id_value : string }.
Record ChunkId := mkChunkId { chunk_id_value : string }.
Record ReplicaId := mkReplicaId { replica_id_value : string }.
Record WorkerId := mkWorkerId { worker_id_value : string }.

#[export] Instance ChunkId_eq_dec : EqDecision ChunkId.
Proof. solve_decision. Defined.
#[export] Instance ObjectId_eq_dec : EqDecision ObjectId.
Proof. solve_decision. Defined.

(** [Name::valid]: the string is not empty. *)
Definition id_valid (value : string) : bool := bool_decide (value <> ""%string).
Definition ObjectId_valid (i : ObjectId) : bool := id_valid (object_id_value i).
Definition ChunkId_valid (i : ChunkId) : bool := id_valid (chunk_id_value i).
Definition WorkerId_valid (i : WorkerId) : bool := id_valid (worker_id_value i).

Inductive ObjectState := OS_kAllocating | OS_kWriting | OS_kReady | OS_kFailed | OS_kDeleting.
Inductive ReplicaState := RS_kAllocating | RS_kWriting | RS_kReady | RS_kFailed | RS_kDeleting.
Inductive WorkerState := WS_kHealthy | WS_kSuspect | WS_kDead.

(** [struct ByteRange]: two [std::uint64_t]. *)
Record ByteRange := mkByteRange { offset : Z; size : Z }.

Definition ValidateByteRange (range : ByteRange) (total_size : Z) : Status :=
  if bool_decide (offset range > total_size) then
    Status_make kInvalidArgument "byte range offset exceeds object size"
  else if bool_decide (size range > u64_sub total_size (offset range)) then
    Status_make kInvalidArgument "byte range size exceeds object boundary"
  else Status_Ok.

Inductive ChecksumAlgorithm := kBlake3.

#[export] Instance ChecksumAlgorithm_eq_dec : EqDecision ChecksumAlgorithm.
Proof. solve_decision. Defined.

Record Checksum := mkChecksum { algorithm : ChecksumAlgorithm; value : string }.

(** [operator==], defaulted member by member. *)
#[export] Instance Checksum_eq_dec : EqDecision Checksum.
Proof. solve_decision. Defined.

Definition kBlake3HexLength : Z := 64.

(** The [unsigned char] of a character. *)
Definition char_code (c : ascii) : Z := Z.of_N (N_of_ascii c).

(** The lambda of [ValidateChecksum]; [std::isdigit] in the C locale. *)
Definition isdigit (c : ascii) : bool :=
  bool_decide (char_code "0" <= char_code c) && bool_decide (char_code c <= char_code "9").
Definition lower_hex (c : ascii) : bool :=
  isdigit c ||
  (bool_decide (char_code c >= char_code "a") && bool_decide (char_code c <= char_code "f")).

Definition string_size (s : string) : Z := Z.of_nat (String.length s).

Definition ValidateChecksum (checksum : Checksum) : Status :=
  if decide (algorithm checksum <> kBlake3) then
    Status_make kInvalidArgument "unsupported checksum algorithm"
  else if bool_decide (string_size (value checksum) <> kBlake3HexLength) then
    Status_make kInvalidArgument "BLAKE3 checksum must be 64 lowercase hex characters"
  else if negb (forallb lower_hex (String.list_ascii_of_string (value checksum))) then
    Status_make kInvalidArgument "BLAKE3 checksum contains invalid characters"
  else Status_Ok.

(** data_plane_types.h *)
Record WorkerEndpoint := mkWorkerEndpoint { host : string; control_port : Z; data_port : Z }.

Record PutChunkRequest := mkPutChunkRequest {
  put_chunk_id : ChunkId; expected_size : Z; expected_checksum : Checksum }.
Record GetChunkRequest := mkGetChunkRequest { get_chunk_id : ChunkId; range : ByteRange }.
Record DeleteChunkRequest := mkDeleteChunkRequest { delete_chunk_id : ChunkId }.
Record HeadChunkRequest := mkHeadChunkRequest { head_chunk_id : ChunkId }.
Record HeadChunkResponse := mkHeadChunkResponse {
  hr_chunk_id : ChunkId; hr_size : Z; hr_checksum : Checksum }.

#[export] Instance HeadChunkResponse_eq_dec : EqDecision HeadChunkResponse.
Proof. solve_decision. Defined.

(** ** Lemmas *)

Lemma id_valid_true s : id_valid s = true <-> s <> ""%string.
Proof. unfold id_valid. by rewrite bool_decide_eq_true. Qed.

Lemma ValidateByteRange_ok r total :
  is_u64 (offset r) -> is_u64 (size r) -> is_u64 total ->
  (ok (ValidateByteRange r total) = true <-> offset r + size r <= total).
Proof.
  intros Ho Hs Ht. unfold ValidateByteRange.
  case_bool_decide as H1; [split; [done|unfold is_u64 in *; lia]|].
  rewrite u64_sub_small by (unfold is_u64 in *; lia).
  case_bool_decide as H2; split; intros; unfold is_u64 in *; first [done|lia].
Qed.

Lemma ValidateByteRange_code r total :
  ok (ValidateByteRange r total) = false -> code (ValidateByteRange r total) = kInvalidArgument.
Proof. unfold ValidateByteRange. by repeat case_bool_decide. Qed.

(** A sixteen-way case analysis on a character class, done once. *)
Lemma lower_hex_digit c :
  lower_hex c = true <-> exists d, 0 <= d < 16 /\ c = hex_digit d.
Proof.
  split.
  - intros H.
    assert (Hd : existsb (fun d => bool_decide (c = hex_digit (Z.of_nat d))) (seq 0 16) = true).
    { destruct c as [[] [] [] [] [] [] [] []]; vm_compute in H |- *; done. }
    apply List.existsb_exists in Hd as (d & Hin & Hc).
    apply bool_decide_eq_true in Hc. apply List.in_seq in Hin. exists (Z.of_nat d). split; [lia|done].
  - intros (d & Hd & ->).
    assert (Hf : forallb (fun d => lower_hex (hex_digit (Z.of_nat d))) (seq 0 16) = true) by done.
    rewrite List.forallb_forall in Hf.
    rewrite <- (Z2Nat.id d) by lia. apply Hf. apply List.in_seq. lia.
Qed.

Lemma hex_pair_split hi lo :
  0 <= hi < 16 -> 0 <= lo < 16 ->
  hex_pair (byte_of_Z (16 * hi + lo)) = [hex_digit hi; hex_digit lo].
Proof.
  intros Hh Hl. unfold hex_pair. rewrite byte_to_of_Z, Z.mod_small by lia.
  change 15 with (Z.ones 4). rewrite Z.land_ones, Z.shiftr_div_pow2 by lia.
  change (2 ^ 4) with 16. do 2 f_equal.
  - rewrite Z.mul_comm, Z.div_add_l, Z.div_small by lia. lia.
  - f_equal. rewrite Z.mul_comm, Z.add_comm, Z.mod_add, Z.mod_small by lia. done.
Qed.

Lemma hex_chars_onto n l :
  length l = (2 * n)%nat -> forallb lower_hex l = true ->
  exists bs, length bs = n /\ l = hex_chars bs.
Proof.
  revert l. induction n as [|n IH]; intros l Hlen Hl.
  { destruct l; [|done]. by exists []. }
  destruct l as [|a [|b l]]; simpl in Hlen; [lia..|].
  simpl in Hl. apply andb_prop in Hl as [Ha [Hb Hl]%andb_prop].
  apply lower_hex_digit in Ha as (hi & Hhi & ->).
  apply lower_hex_digit in Hb as (lo & Hlo & ->).
  destruct (IH l) as (bs & Hbs & ->); [lia|done|].
  exists (byte_of_Z (16 * hi + lo) :: bs). split; [simpl; lia|].
  cbn [hex_chars]. by rewrite hex_pair_split.
Qed.

Lemma hex_chars_lower bs : forallb lower_hex (hex_chars bs) = true.
Proof.
  induction bs as [|b bs IH]; [done|]. simpl. rewrite IH.
  pose proof (nibbles b) as (?&?&_).
  rewrite !(proj2 (lower_hex_digit _)) by eauto. done.
Qed.

Lemma string_length_list s : String.length s = length (String.list_ascii_of_string s).
Proof. induction s; simpl; auto. Qed.

Lemma string_size_hex bs : string_size (hex_string bs) = 2 * blen bs.
Proof.
  unfold string_size, hex_string, blen.
  rewrite string_length_list, String.list_ascii_of_string_of_list_ascii, length_hex_chars. lia.
Qed.

Lemma ValidateChecksum_ok c :
  ok (ValidateChecksum c) = true <-> exists d, length d = 32%nat /\ value c = hex_string d.
Proof.
  unfold ValidateChecksum. destruct c as [[] v]; simpl.
  case_bool_decide as H1.
  { split; [done|]. intros (d & Hd & ->). rewrite string_size_hex in H1.
    unfold blen, kBlake3HexLength in H1. lia. }
  destruct (forallb lower_hex (String.list_ascii_of_string v)) eqn:H2; simpl; split; try done.
  - intros _. assert (H3 : string_size v = kBlake3HexLength).
    { destruct (Z.eq_dec (string_size v) kBlake3HexLength); [done|]. by destruct H1. }
    destruct (hex_chars_onto 32 (String.list_ascii_of_string v)) as (bs & Hbs & E);
      [|done|].
    { rewrite <- string_length_list. unfold string_size, kBlake3HexLength in H3. lia. }
    exists bs. split; [done|]. unfold hex_string. rewrite <- E.
    by rewrite String.string_of_list_ascii_of_string.
  - intros (d & Hd & ->). unfold hex_string in H2.
    by rewrite String.list_ascii_of_string_of_list_ascii, hex_chars_lower in H2.
Qed.

Lemma ValidateChecksum_code c :
  ok (ValidateChecksum c) = false -> code (ValidateChecksum c) = kInvalidArgument.
Proof.
  unfold ValidateChecksum. destruct c as [[] v]; simpl.
  case_bool_decide; [done|]. by destruct (forallb _ _).
Qed.

Lemma ValidateChecksum_length c :
  ok (ValidateChecksum c) = true -> length (string_bytes (value c)) = 64%nat.
Proof.
  intros (d & Hd & E)%ValidateChecksum_ok. rewrite E, length_string_bytes.
  pose proof (string_size_hex d) as H. unfold string_size, blen in H. lia.
Qed.

(** ** Properties *)

(** A byte range is accepted exactly when it lies inside the object; the
    64-bit computation of the check neither wraps nor lets a wrapped sum pass. *)
Theorem ValidateByteRange_spec r total
  (Ho : is_u64 (offset r)) (Hs : is_u64 (size r)) (Ht : is_u64 total) :
  (offset r + size r <= total -> ValidateByteRange r total = Status_Ok) /\
  (total < offset r + size r -> code (ValidateByteRange r total) = kInvalidArgument).
Proof.
  pose proof (ValidateByteRange_ok r total Ho Hs Ht) as H. split; intros Hr.
  - apply H in Hr. revert Hr. unfold ValidateByteRange. by repeat case_bool_decide.
  - apply ValidateByteRange_code. apply not_true_is_false. rewrite H. lia.
Qed.

Lemma ValidateByteRange_spec_witness :
  code (ValidateByteRange (mkByteRange (u64_max - 5) 10) u64_max) = kInvalidArgument /\
  ValidateByteRange (mkByteRange 100 0) 100 = Status_Ok.
Proof.
  split.
  - apply (ValidateByteRange_spec (mkByteRange (u64_max - 5) 10) u64_max); by compute.
  - apply (ValidateByteRange_spec (mkByteRange 100 0) 100); by compute.
Defined.

(** A checksum is accepted exactly when its value is the lower-case
    hexadecimal text of some 32-byte digest; anything else is kInvalidArgument. *)
Theorem ValidateChecksum_spec c :
  (ValidateChecksum c = Status_Ok <-> exists d, length d = 32%nat /\ value c = hex_string d) /\
  (ValidateChecksum c <> Status_Ok -> code (ValidateChecksum c) = kInvalidArgument).
Proof.
  assert (E : ValidateChecksum c = Status_Ok <-> ok (ValidateChecksum c) = true).
  { split; [by intros ->|]. unfold ValidateChecksum. destruct c as [[] v]; simpl.
    case_bool_decide; [done|]. by destruct (forallb _ _). }
  split; [by rewrite E, ValidateChecksum_ok|].
  intros H. apply ValidateChecksum_code. apply not_true_is_false. by rewrite <- E.
Qed.
