(* ===== verification/Path.v ===== *)
(** * Paths: the members of [std::filesystem::path] the program uses, on POSIX
    (no root names, '/' the only separator).  They are part of the C++ standard
    library, so they are defined here rather than assumed. *)
From stdpp Require Import pretty.
From S2P Require Import Prelude.

(** ** Definitions *)

Definition slash : ascii := "/".
Definition is_slash (c : ascii) : bool := bool_decide (c = slash).
Definition chars (s : string) : list ascii := String.list_ascii_of_string s.
Definition of_chars (l : list ascii) : string := String.string_of_list_ascii l.

(** [filename()]: what follows the last separator. *)
Fixpoint filename_chars (l : list ascii) : list ascii :=
  match l with
  | [] => []
  | c :: l' => if existsb is_slash l then filename_chars l' else l
  end.
Definition path_filename (p : string) : string := of_chars (filename_chars (chars p)).

(** [is_absolute()] *)
Definition path_absolute (p : string) : bool :=
  match chars p with c :: _ => is_slash c | [] => false end.

(** [operator/]: an absolute right operand replaces the left one; a separator
    is added when the left one has a filename. *)
Definition path_append (p q : string) : string :=
  if path_absolute q then q
  else if bool_decide (path_filename p <> ""%string)
  then (p +:+ "/" +:+ q)%string
  else (p +:+ q)%string.

Fixpoint drop_slashes (l : list ascii) : list ascii :=
  match l with
  | c :: l' => if is_slash c then drop_slashes l' else l
  | [] => []
  end.

(** [parent_path()]: the path without its filename and the separators before
    it; a path with nothing but separators is its own parent. *)
Definition path_parent (p : string) : string :=
  let l := chars p in
  if forallb is_slash l then p
  else
    let dir := take (length l - length (filename_chars l)) l in
    if forallb is_slash dir then of_chars (take 1 dir)
    else of_chars (rev (drop_slashes (rev dir))).

(** The longest file name the file system accepts ([NAME_MAX], 255 on ext4). *)
Definition NAME_MAX : Z := 255.
Definition name_fits (p : string) : bool :=
  bool_decide (Z.of_nat (String.length (path_filename p)) <= NAME_MAX).

(** [std::to_string] of an unsigned integer. *)
Definition to_string (z : Z) : string := pretty (Z.to_N z).

(** ** Lemmas *)

Lemma chars_of_chars l : chars (of_chars l) = l.
Proof. apply String.list_ascii_of_string_of_list_ascii. Qed.

Lemma of_chars_chars s : of_chars (chars s) = s.
Proof. apply String.string_of_list_ascii_of_string. Qed.

Lemma chars_inj s t : chars s = chars t -> s = t.
Proof. intros H. by rewrite <- (of_chars_chars s), H, of_chars_chars. Qed.

Lemma chars_app s t : chars (s +:+ t) = chars s ++ chars t.
Proof. unfold chars. induction s as [|c s IH]; simpl; [done|]. by rewrite IH. Qed.

Lemma length_chars s : length (chars s) = String.length s.
Proof. unfold chars. induction s; simpl; auto. Qed.

Definition no_slash (l : list ascii) : Prop := existsb is_slash l = false.

Lemma no_slash_app l k : no_slash (l ++ k) <-> no_slash l /\ no_slash k.
Proof. unfold no_slash. rewrite existsb_app. rewrite orb_false_iff. done. Qed.

Lemma filename_no_slash l : no_slash l -> filename_chars l = l.
Proof. unfold no_slash. destruct l as [|c l]; [done|]. cbn [filename_chars]. by intros ->. Qed.

Lemma filename_app_slash l k : no_slash k -> filename_chars (l ++ slash :: k) = k.
Proof.
  intros Hk. induction l as [|c l IH].
  - simpl. unfold no_slash in Hk. by apply filename_no_slash.
  - cbn [app filename_chars].
    destruct (existsb is_slash (c :: l ++ slash :: k)) eqn:E; [done|].
    exfalso. cbn in E. rewrite existsb_app in E. cbn in E.
    by rewrite !orb_true_r in E.
Qed.

Lemma filename_trailing l : l <> [] -> filename_chars l = [] -> exists l', l = l' ++ [slash].
Proof.
  induction l as [|c l IH]; [done|]. intros _. cbn [filename_chars].
  destruct (existsb is_slash (c :: l)) eqn:E; [|done].
  destruct l as [|d l].
  - cbn in E. rewrite orb_false_r in E. unfold is_slash in E.
    apply bool_decide_eq_true in E as ->. intros _. by exists [].
  - intros (l' & E')%IH; [|done]. exists (c :: l'). by rewrite E'.
Qed.

Lemma chars_nonempty s : s <> ""%string -> chars s <> [].
Proof. destruct s; done. Qed.

(** Appending a plain file name to a non-empty directory. *)
Lemma path_append_plain p q :
  no_slash (chars q) -> chars q <> [] ->
  chars (path_append p q) =
    if bool_decide (path_filename p <> ""%string) then chars p ++ slash :: chars q
    else chars p ++ chars q.
Proof.
  intros Hq Hne. unfold path_append, path_absolute.
  destruct (chars q) as [|c l] eqn:E; [done|].
  unfold no_slash in Hq. cbn in Hq. apply orb_false_iff in Hq as [-> _].
  case_bool_decide; rewrite ?chars_app, ?E; done.
Qed.

Lemma path_filename_append p q :
  no_slash (chars q) -> chars q <> [] -> path_filename (path_append p q) = q.
Proof.
  intros Hq Hne. unfold path_filename at 1. rewrite path_append_plain by done.
  rewrite <- (of_chars_chars q) at 3. f_equal. case_bool_decide as Hp.
  - by apply filename_app_slash.
  - destruct (decide (p = ""%string)) as [->|Hpe].
    + by apply filename_no_slash.
    + assert (Hf : filename_chars (chars p) = []).
      { destruct (filename_chars (chars p)) as [|c l] eqn:E; [done|].
        exfalso. unfold path_filename in Hp. by rewrite E in Hp. }
      destruct (filename_trailing (chars p)) as (l' & ->);
        [by apply chars_nonempty|done|].
      rewrite <- app_assoc. by apply filename_app_slash.
Qed.

Lemma path_append_ne p q : no_slash (chars q) -> chars q <> [] -> path_append p q <> p.
Proof.
  intros Hq Hne H%(f_equal chars)%(f_equal length). rewrite path_append_plain in H by done.
  case_bool_decide; rewrite length_app in H; cbn [length] in H; destruct (chars q); cbn [length] in *; [lia..|done|lia].
Qed.

Lemma path_append_inj p q r :
  no_slash (chars q) -> chars q <> [] -> no_slash (chars r) -> chars r <> [] ->
  path_append p q = path_append p r -> q = r.
Proof.
  intros Hq Hq' Hr Hr' H.
  rewrite <- (path_filename_append p q), H by done. by apply path_filename_append.
Qed.

(** Decimal numerals are plain names. *)
Lemma pretty_go_plain (P : ascii -> bool) x s :
  (forall d, P (pretty_N_char d) = false) -> existsb P (chars s) = false ->
  existsb P (chars (pretty_N_go x s)) = false.
Proof.
  intros HP. revert s. induction (N.lt_wf_0 x) as [x _ IH]; intros s Hs.
  destruct (decide (0 < x)%N) as [Hx|Hx].
  - rewrite pretty_N_go_step by done. apply IH; [by apply N.div_lt|].
    unfold chars in *. cbn. by rewrite HP.
  - replace x with 0%N by lia. by rewrite pretty_N_go_0.
Qed.

Lemma to_string_plain (P : ascii -> bool) z :
  (forall d, P (pretty_N_char d) = false) -> existsb P (chars (to_string z)) = false.
Proof.
  intros HP. unfold to_string, pretty, pretty_N. case_decide; [|by apply pretty_go_plain].
  specialize (HP 0%N). cbn in *. by rewrite HP.
Qed.

Lemma to_string_no_slash z : no_slash (chars (to_string z)).
Proof. apply to_string_plain. intros d. unfold pretty_N_char. by repeat case_match. Qed.

Lemma to_string_no_dot z : "."%char ∉ chars (to_string z).
Proof.
  intros Hin%list_elem_of_In.
  assert (H : existsb (fun c => bool_decide (c = "."%char)) (chars (to_string z)) = false).
  { apply to_string_plain. intros d. unfold pretty_N_char. by repeat case_match. }
  apply not_true_iff_false in H. apply H, List.existsb_exists. exists "."%char. by rewrite bool_decide_true.
Qed.

Lemma to_string_inj a b : 0 <= a -> 0 <= b -> to_string a = to_string b -> a = b.
Proof. unfold to_string. intros ?? H%(inj pretty). lia. Qed.
