(* ===== verification/Proto.v ===== *)
(** * Wire types: the messages of src/proto/common.proto and
    src/proto/worker.proto, and the status values of the RPC library. *)
From S2P Require Import Prelude.

(** ** Definitions *)

Module rpc.

(** [enum StatusCode]; a proto3 enum is open, so a received value is any
    32-bit integer. *)
Definition StatusCode : Type := Z.
Definition STATUS_CODE_OK : StatusCode := 0.
Definition STATUS_CODE_INVALID_ARGUMENT : StatusCode := 1.
Definition STATUS_CODE_NOT_FOUND : StatusCode := 2.
Definition STATUS_CODE_ALREADY_EXISTS : StatusCode := 3.
Definition STATUS_CODE_UNAVAILABLE : StatusCode := 4.
Definition STATUS_CODE_TIMEOUT : StatusCode := 5.
Definition STATUS_CODE_IO_ERROR : StatusCode := 6.
Definition STATUS_CODE_CORRUPTION : StatusCode := 7.
Definition STATUS_CODE_RESOURCE_EXHAUSTED : StatusCode := 8.
Definition STATUS_CODE_INTERNAL : StatusCode := 9.

Record Status := mkStatus { code : StatusCode; message : string }.

(** A message field that was never set reads as its default value. *)
Definition Status_default : Status := mkStatus STATUS_CODE_OK "".

Record HealthResponse := mkHealthResponse { health_status : Status; service : string }.
Definition HealthResponse_default : HealthResponse := mkHealthResponse Status_default "".

Record PutChunkMetadata := mkPutChunkMetadata {
  md_chunk_id : string; md_expected_size : Z; md_expected_checksum : string }.

(** [oneof payload] *)
Inductive PutChunkFrame :=
| payload_not_set
| payload_metadata (m : PutChunkMetadata)
| payload_data (d : list byte).

Record GetChunkRequest := mkGetChunkRequest { gr_chunk_id : string; gr_offset : Z; gr_size : Z }.
Record ChunkData := mkChunkData { data : list byte }.
Record HeadChunkRequest := mkHeadChunkRequest { hq_chunk_id : string }.
Record DeleteChunkRequest := mkDeleteChunkRequest { dq_chunk_id : string }.
Record HeadChunkResponse := mkHeadChunkResponse {
  hresp_status : Status; hresp_chunk_id : string; hresp_size : Z; hresp_checksum : string }.
Record OperationResponse := mkOperationResponse { or_status : Status }.

Definition OperationResponse_default : OperationResponse := mkOperationResponse Status_default.
Definition HeadChunkResponse_default : HeadChunkResponse :=
  mkHeadChunkResponse Status_default "" 0 "".

End rpc.

Module grpc.

(** [grpc::StatusCode], the canonical codes of the RPC library. *)
Inductive StatusCode :=
| OK | CANCELLED | UNKNOWN | INVALID_ARGUMENT | DEADLINE_EXCEEDED | NOT_FOUND
| ALREADY_EXISTS | PERMISSION_DENIED | RESOURCE_EXHAUSTED | FAILED_PRECONDITION
| ABORTED | OUT_OF_RANGE | UNIMPLEMENTED | INTERNAL | UNAVAILABLE | DATA_LOSS
| UNAUTHENTICATED.

#[export] Instance StatusCode_eq_dec : EqDecision StatusCode.
Proof. solve_decision. Defined.

(** [grpc::Status]: [error_code()], [error_message()], [ok()]. *)
Record Status := mkStatus { error_code : StatusCode; error_message : string }.
Definition Status_OK : Status := mkStatus OK "".
Definition ok (s : Status) : bool := bool_decide (error_code s = OK).

End grpc.
