(* ===== verification/System.v ===== *)
(** * The environment of the program: the POSIX calls and RPC operations the
    code makes, the state they act on, and what their documentation promises.

    Nothing here is code of the repository.  An environment is a parameter of
    the development, the class [Posix]: a type of worlds, a function for every
    call, and a view of the world as a [state].  The field [sys_ok] bundles the
    hypotheses on it: every call does one of the things [call_post] lists. *)
From S2P Require Import Prelude Path Proto.

(** ** The calls *)

Inductive oflag :=
| O_RDONLY | O_WRONLY | O_CREAT | O_EXCL | O_CLOEXEC | O_NOFOLLOW | O_DIRECTORY.

#[export] Instance oflag_eq_dec : EqDecision oflag.
Proof. solve_decision. Defined.

(** The call context of a stub: the channel's target and the deadline in
    seconds from now. *)
Record rpc_context := mkContext { target : string; deadline : Z }.

(** Operations on streams and stubs of the RPC library.  The server side of a
    call reads and writes the messages of that call; the client side starts
    it, exchanges messages and collects the final status. *)
Inductive rpc_call :=
| ServerRead
| ServerWrite (m : rpc.ChunkData)
| StartPut (ctx : rpc_context)
| ClientWrite (m : rpc.PutChunkFrame)
| WritesDone
| FinishPut
| StartGet (ctx : rpc_context) (m : rpc.GetChunkRequest)
| ClientRead
| FinishGet
| TryCancel
| CallHead (ctx : rpc_context) (m : rpc.HeadChunkRequest)
| CallDelete (ctx : rpc_context) (m : rpc.DeleteChunkRequest).

Definition rpc_reply (c : rpc_call) : Type :=
  match c with
  | ServerRead => option rpc.PutChunkFrame
  | ServerWrite _ => bool
  | StartPut _ => unit
  | ClientWrite _ => bool
  | WritesDone => bool
  | FinishPut => grpc.Status * rpc.OperationResponse
  | StartGet _ _ => unit
  | ClientRead => option rpc.ChunkData
  | FinishGet => grpc.Status
  | TryCancel => unit
  | CallHead _ _ => grpc.Status * rpc.HeadChunkResponse
  | CallDelete _ _ => grpc.Status * rpc.OperationResponse
  end.

Inductive call :=
| Open (p : string) (flags : list oflag)
| Write (fd : Z) (d : list byte)
| Read (fd n : Z)
| Pread (fd n off : Z)
| Fstat (fd : Z)
| Fdatasync (fd : Z)
| Fsync (fd : Z)
| Link (a b : string)
| Unlink (p : string)
| Close (fd : Z)
| CreateDirectories (p : string)
| Exists (p : string)
| Getpid
| GetErrno
| SetErrno (e : Z)
| Rpc (c : rpc_call).

(** Results as the code sees them: a C [int] with -1 for failure, the bytes
    placed in the buffer ([None] for -1), [st_size], the message of an
    [std::error_code] if it is set, [None] for a thrown exception. *)
Definition reply (c : call) : Type :=
  match c with
  | Open _ _ | Write _ _ | Fdatasync _ | Fsync _ | Link _ _ | Unlink _ | Close _ => Z
  | Read _ _ | Pread _ _ _ => option (list byte)
  | Fstat _ => option Z
  | CreateDirectories _ => option string
  | Exists _ => option bool
  | Getpid | GetErrno => Z
  | SetErrno _ => unit
  | Rpc c => rpc_reply c
  end.

Definition EINTR : Z := 4.
Definition ENOENT : Z := 2.
Definition EEXIST : Z := 17.

(** ** The state the calls act on *)

(** The content of a file, and whether all of it has reached stable storage. *)
Record inode := mkInode { i_data : list byte; i_synced : bool }.

(** An open file description: a regular file with its offset and mode, or a
    directory. *)
Inductive fdobj :=
| FdFile (i : positive) (pos : nat) (writable : bool)
| FdDir (p : string).

(** Directory entries (name to inode), the entries on stable storage, the
    inodes and the descriptors of the process. *)
Record fs := mkFs {
  f_names : gmap string positive;
  f_stable : gmap string positive;
  f_inodes : gmap positive inode;
  f_fds : gmap Z fdobj }.

Inductive rpc_event := ev (c : rpc_call) (r : rpc_reply c).

(** [s_events] bounds the asynchronous events still to come (signals, messages
    of the peer); in a [s_quiet] world no call fails without a reason that
    lies in the state; [s_trace] is the RPC traffic so far. *)
Record state := mkState {
  s_errno : Z;
  s_events : nat;
  s_quiet : bool;
  s_trace : list rpc_event;
  s_fs : fs }.

Definition set_names (m : gmap string positive) (f : fs) : fs :=
  mkFs m (f_stable f) (f_inodes f) (f_fds f).
Definition set_stable (m : gmap string positive) (f : fs) : fs :=
  mkFs (f_names f) m (f_inodes f) (f_fds f).
Definition set_inodes (m : gmap positive inode) (f : fs) : fs :=
  mkFs (f_names f) (f_stable f) m (f_fds f).
Definition set_fds (m : gmap Z fdobj) (f : fs) : fs :=
  mkFs (f_names f) (f_stable f) (f_inodes f) m.

(** The state after a call that leaves [errno] at [e] and the files at [f]. *)
Definition ret_st (s : state) (e : Z) (f : fs) : state :=
  mkState e (s_events s) (s_quiet s) (s_trace s) f.
(** The state after a call interrupted by a signal. *)
Definition intr_st (s : state) (n : nat) : state :=
  mkState EINTR n (s_quiet s) (s_trace s) (s_fs s).

(** No open file of the given mode stands behind the descriptor. *)
Definition bad_fd (s : state) (fd : Z) (w : bool) : Prop :=
  forall i pos, f_fds (s_fs s) !! fd = Some (FdFile i pos w) -> f_inodes (s_fs s) !! i = None.

Definition has (f : oflag) (l : list oflag) : bool := bool_decide (f ∈ l).
Definition exclusive (l : list oflag) : bool := has O_CREAT l && has O_EXCL l.

(** ** What the calls may do

    A failure that is not explained by the state needs a world that is not
    quiet; [errno] after a success is unspecified. *)

Inductive open_post (p : string) (l : list oflag) (s : state) : Z -> state -> Prop :=
| open_existing r i e :
    exclusive l = false -> has O_DIRECTORY l = false ->
    f_names (s_fs s) !! p = Some i -> 0 <= r -> f_fds (s_fs s) !! r = None ->
    open_post p l s r
      (ret_st s e (set_fds (<[r := FdFile i 0 (has O_WRONLY l)]> (f_fds (s_fs s))) (s_fs s)))
| open_create r i e :
    has O_CREAT l = true -> f_names (s_fs s) !! p = None -> name_fits p = true ->
    f_inodes (s_fs s) !! i = None -> 0 <= r -> f_fds (s_fs s) !! r = None ->
    open_post p l s r
      (ret_st s e (mkFs (<[p := i]> (f_names (s_fs s))) (f_stable (s_fs s))
         (<[i := mkInode [] false]> (f_inodes (s_fs s)))
         (<[r := FdFile i 0 (has O_WRONLY l)]> (f_fds (s_fs s)))))
| open_directory r e :
    has O_DIRECTORY l = true -> 0 <= r -> f_fds (s_fs s) !! r = None ->
    open_post p l s r
      (ret_st s e (set_fds (<[r := FdDir p]> (f_fds (s_fs s))) (s_fs s)))
| open_missing :
    f_names (s_fs s) !! p = None ->
    (s_quiet s = true -> has O_CREAT l = false /\ has O_DIRECTORY l = false) ->
    open_post p l s (-1) (ret_st s ENOENT (s_fs s))
| open_taken :
    exclusive l = true -> is_Some (f_names (s_fs s) !! p) ->
    open_post p l s (-1) (ret_st s EEXIST (s_fs s))
| open_error e :
    e <> ENOENT -> e <> EEXIST ->
    (s_quiet s = true -> name_fits p = false) ->
    open_post p l s (-1) (ret_st s e (s_fs s)).

(** A file does not grow beyond the largest offset. *)
Inductive write_post (fd : Z) (d : list byte) (s : state) : Z -> state -> Prop :=
| write_some i pos nd k e :
    f_fds (s_fs s) !! fd = Some (FdFile i pos true) ->
    f_inodes (s_fs s) !! i = Some nd ->
    (k <= length d)%nat -> (s_quiet s = true -> d <> [] -> (0 < k)%nat) ->
    Z.of_nat (pos + k) <= off_max ->
    write_post fd d s (Z.of_nat k)
      (ret_st s e (mkFs (f_names (s_fs s)) (f_stable (s_fs s))
         (<[i := mkInode (splice pos (take k d) (i_data nd)) false]> (f_inodes (s_fs s)))
         (<[fd := FdFile i (pos + k) true]> (f_fds (s_fs s)))))
| write_intr n : s_events s = S n -> write_post fd d s (-1) (intr_st s n)
| write_error e :
    e <> EINTR ->
    (s_quiet s = true -> bad_fd s fd true \/
       exists i pos, f_fds (s_fs s) !! fd = Some (FdFile i pos true) /\
                     off_max < Z.of_nat (pos + length d)) ->
    write_post fd d s (-1) (ret_st s e (s_fs s)).

(** At most [n] bytes from [pos] on, none only at the end of the file. *)
Definition read_bytes (d : list byte) (pos : nat) (n : Z) (k : nat) : Prop :=
  (k <= Z.to_nat n)%nat /\ (k <= length d - pos)%nat /\
  (k = 0%nat -> n <= 0 \/ (length d <= pos)%nat).

Inductive read_post (fd n : Z) (s : state) : option (list byte) -> state -> Prop :=
| read_some i pos nd k e :
    f_fds (s_fs s) !! fd = Some (FdFile i pos false) ->
    f_inodes (s_fs s) !! i = Some nd -> read_bytes (i_data nd) pos n k ->
    read_post fd n s (Some (take k (drop pos (i_data nd))))
      (ret_st s e (set_fds (<[fd := FdFile i (pos + k) false]> (f_fds (s_fs s))) (s_fs s)))
| read_intr m : s_events s = S m -> read_post fd n s None (intr_st s m)
| read_error e :
    e <> EINTR -> (s_quiet s = true -> bad_fd s fd false) ->
    read_post fd n s None (ret_st s e (s_fs s)).

Inductive pread_post (fd n off : Z) (s : state) : option (list byte) -> state -> Prop :=
| pread_some i pos nd k e :
    f_fds (s_fs s) !! fd = Some (FdFile i pos false) ->
    f_inodes (s_fs s) !! i = Some nd -> 0 <= off -> read_bytes (i_data nd) (Z.to_nat off) n k ->
    pread_post fd n off s (Some (take k (drop (Z.to_nat off) (i_data nd))))
      (ret_st s e (s_fs s))
| pread_intr m : s_events s = S m -> pread_post fd n off s None (intr_st s m)
| pread_error e :
    e <> EINTR -> (s_quiet s = true -> bad_fd s fd false \/ off < 0) ->
    pread_post fd n off s None (ret_st s e (s_fs s)).

Inductive fstat_post (fd : Z) (s : state) : option Z -> state -> Prop :=
| fstat_some i pos w nd e :
    f_fds (s_fs s) !! fd = Some (FdFile i pos w) -> f_inodes (s_fs s) !! i = Some nd ->
    fstat_post fd s (Some (blen (i_data nd))) (ret_st s e (s_fs s))
| fstat_error e :
    (s_quiet s = true -> bad_fd s fd true /\ bad_fd s fd false) ->
    fstat_post fd s None (ret_st s e (s_fs s)).

Definition sync_inode (i : positive) (nd : inode) (f : fs) : fs :=
  set_inodes (<[i := mkInode (i_data nd) true]> (f_inodes f)) f.

(** [fdatasync], and [fsync] of a file or of a directory; the entries of a
    directory are the plain names under it. *)
Inductive sync_post (fd : Z) (s : state) : Z -> state -> Prop :=
| sync_file i pos w nd e :
    f_fds (s_fs s) !! fd = Some (FdFile i pos w) -> f_inodes (s_fs s) !! i = Some nd ->
    sync_post fd s 0 (ret_st s e (sync_inode i nd (s_fs s)))
| sync_directory p m e :
    f_fds (s_fs s) !! fd = Some (FdDir p) ->
    (forall q, no_slash (chars q) -> q <> ""%string ->
       m !! path_append p q = f_names (s_fs s) !! path_append p q) ->
    sync_post fd s 0 (ret_st s e (set_stable m (s_fs s)))
| sync_error e :
    (s_quiet s = true -> bad_fd s fd true /\ bad_fd s fd false /\
       forall p, f_fds (s_fs s) !! fd <> Some (FdDir p)) ->
    sync_post fd s (-1) (ret_st s e (s_fs s)).

(** [link] never replaces an existing name. *)
Inductive link_post (a b : string) (s : state) : Z -> state -> Prop :=
| link_new i e :
    f_names (s_fs s) !! a = Some i -> f_names (s_fs s) !! b = None ->
    link_post a b s 0 (ret_st s e (set_names (<[b := i]> (f_names (s_fs s))) (s_fs s)))
| link_taken :
    is_Some (f_names (s_fs s) !! b) -> link_post a b s (-1) (ret_st s EEXIST (s_fs s))
| link_error e :
    e <> EEXIST ->
    (s_quiet s = true -> f_names (s_fs s) !! a = None \/ name_fits b = false) ->
    link_post a b s (-1) (ret_st s e (s_fs s)).

Inductive unlink_post (p : string) (s : state) : Z -> state -> Prop :=
| unlink_some e :
    is_Some (f_names (s_fs s) !! p) ->
    unlink_post p s 0 (ret_st s e (set_names (delete p (f_names (s_fs s))) (s_fs s)))
| unlink_missing :
    f_names (s_fs s) !! p = None -> unlink_post p s (-1) (ret_st s ENOENT (s_fs s))
| unlink_error e :
    e <> ENOENT -> (s_quiet s = true -> name_fits p = false) ->
    unlink_post p s (-1) (ret_st s e (s_fs s)).

(** The descriptor is gone whatever [close] returns. *)
Inductive close_post (fd : Z) (s : state) : Z -> state -> Prop :=
| close_done r e : close_post fd s r (ret_st s e (set_fds (delete fd (f_fds (s_fs s))) (s_fs s))).

Inductive mkdirs_post (p : string) (s : state) : option string -> state -> Prop :=
| mkdirs_ok e : mkdirs_post p s None (ret_st s e (s_fs s))
| mkdirs_error e m : s_quiet s = false -> mkdirs_post p s (Some m) (ret_st s e (s_fs s)).

Inductive exists_post (p : string) (s : state) : option bool -> state -> Prop :=
| exists_yes e : is_Some (f_names (s_fs s) !! p) -> exists_post p s (Some true) (ret_st s e (s_fs s))
| exists_no e : f_names (s_fs s) !! p = None -> exists_post p s (Some false) (ret_st s e (s_fs s))
| exists_other e r :
    (s_quiet s = true -> False) -> (r = Some false -> f_names (s_fs s) !! p = None) ->
    exists_post p s r (ret_st s e (s_fs s)).

(** The RPC library neither touches the files nor is trusted with an answer;
    only the messages a peer still sends are bounded. *)
Definition rpc_events (c : rpc_call) : rpc_reply c -> nat -> nat -> Prop :=
  match c return rpc_reply c -> nat -> nat -> Prop with
  | ClientRead => fun r n n' => match r with Some _ => n = S n' | None => n = n' end
  | _ => fun _ n n' => n = n'
  end.

(** The largest message the library receives with its default settings. *)
Definition max_message : nat := Z.to_nat (4 * 1024 * 1024).

(** A [uint64] field of a received message is a 64-bit integer, and a message
    is not larger than the limit. *)
Definition rpc_typed (c : rpc_call) : rpc_reply c -> bool :=
  match c return rpc_reply c -> bool with
  | ServerRead => fun r =>
      match r with
      | Some (rpc.payload_metadata m) => is_u64b (rpc.md_expected_size m)
      | _ => true
      end
  | ClientRead => fun r =>
      match r with
      | Some m => bool_decide (blen (rpc.data m) <= Z.of_nat max_message)
      | None => true
      end
  | CallHead _ _ => fun r => is_u64b (rpc.hresp_size r.2)
  | _ => fun _ => true
  end.

Inductive rpc_post (c : rpc_call) (s : state) : rpc_reply c -> state -> Prop :=
| rpc_any r n e :
    rpc_events c r (s_events s) n -> rpc_typed c r = true ->
    rpc_post c s r (mkState e n (s_quiet s) (s_trace s ++ [ev c r]) (s_fs s)).

Definition call_post (c : call) (s : state) : reply c -> state -> Prop :=
  match c return reply c -> state -> Prop with
  | Open p l => open_post p l s
  | Write fd d => write_post fd d s
  | Read fd n => read_post fd n s
  | Pread fd n off => pread_post fd n off s
  | Fstat fd => fstat_post fd s
  | Fdatasync fd => sync_post fd s
  | Fsync fd => sync_post fd s
  | Link a b => link_post a b s
  | Unlink p => unlink_post p s
  | Close fd => close_post fd s
  | CreateDirectories p => mkdirs_post p s
  | Exists p => exists_post p s
  | Getpid => fun r s' => 0 <= r < 2 ^ 31 /\ s' = s
  | GetErrno => fun r s' => r = s_errno s /\ s' = s
  | SetErrno e => fun _ s' => s' = ret_st s e (s_fs s)
  | Rpc c => rpc_post c s
  end.

(** ** The environment as a parameter *)

Class Posix := {
  os : Type;
  sys : forall c : call, os -> reply c * os;
  view : os -> state;
  sys_ok : forall (c : call) (w : os), call_post c (view w) (sys c w).1 (view (sys c w).2)
}.

(** [std::strerror] of the C library. *)
Class Libc := { strerror : Z -> string }.

(** ** Lemmas *)

(** Files, names and descriptors refer to inodes that exist, and no file is
    larger than an [off_t] can say. *)
Record fs_wf (f : fs) : Prop := {
  wf_names : forall p i, f_names f !! p = Some i -> is_Some (f_inodes f !! i);
  wf_fds : forall fd i pos w, f_fds f !! fd = Some (FdFile i pos w) -> is_Some (f_inodes f !! i);
  wf_size : forall i nd, f_inodes f !! i = Some nd -> blen (i_data nd) <= off_max }.

Lemma ret_st_fs s e f : s_fs (ret_st s e f) = f.
Proof. done. Qed.

Lemma read_bytes_some d pos n k :
  read_bytes d pos n k -> length (take k (drop pos d)) = k.
Proof. intros (?&?&?). rewrite length_take, length_drop. lia. Qed.
