(* ===== verification/Prog.v ===== *)
(** * Programs over the environment, how they run, and a calculus of weakest
    preconditions for them.

    A handler of the code is a value of [prog A]: a tree of calls, each with a
    continuation for every reply.  The tree keeps the calls in the order the
    code makes them, so one definition can be run to its end ([run]), reasoned
    about over all replies the environment may give ([wp]), or interleaved
    with others. *)
From S2P Require Import Prelude Path Proto System.

(** ** Definitions *)

(** A program returns, leaves with an exception, or stops because the bound of
    one of its loops is used up. *)
Inductive outcome (A : Type) :=
| Done (a : A)
| Threw (what : string)
| OutOfFuel.
Arguments Done {A} _.
Arguments Threw {A} _.
Arguments OutOfFuel {A}.

Inductive prog (A : Type) : Type :=
| Ret (a : A)
| Throw (what : string)
| Fuel
| Sys (c : call) (k : reply c -> prog A).
Arguments Ret {A} _.
Arguments Throw {A} _.
Arguments Fuel {A}.
Arguments Sys {A} _ _.

#[export] Instance prog_ret : MRet prog := @Ret.

#[export] Instance prog_bind : MBind prog :=
  fun A B f =>
    fix go (p : prog A) : prog B :=
      match p with
      | Ret a => f a
      | Throw w => Throw w
      | Fuel => Fuel
      | Sys c k => Sys c (fun r => go (k r))
      end.

(** One call, returning its reply. *)
Definition perform (c : call) : prog (reply c) := Sys c Ret.

(** Sequential execution in an environment. *)
Fixpoint run `{Posix} {A} (p : prog A) (w : os) : outcome A * os :=
  match p with
  | Ret a => (Done a, w)
  | Throw m => (Threw m, w)
  | Fuel => (OutOfFuel, w)
  | Sys c k => let '(r, w') := sys c w in run (k r) w'
  end.

(** [wp p Q s]: whatever the environment replies, [p] started in [s] ends with
    an outcome and a state that satisfy [Q]. *)
Fixpoint wp {A} (p : prog A) (Q : outcome A -> state -> Prop) (s : state) : Prop :=
  match p with
  | Ret a => Q (Done a) s
  | Throw m => Q (Threw m) s
  | Fuel => Q OutOfFuel s
  | Sys c k => forall r s', call_post c s r s' -> wp (k r) Q s'
  end.

(** A postcondition for programs that must return. *)
Definition returns {A} (Q : A -> state -> Prop) (o : outcome A) (s : state) : Prop :=
  match o with Done a => Q a s | _ => False end.

(** ** Lemmas *)

Lemma wp_run `{Posix} {A} (p : prog A) Q w :
  wp p Q (view w) -> Q (run p w).1 (view (run p w).2).
Proof.
  revert w. induction p as [a|m| |c k IH]; intros w; simpl; [done..|].
  intros Hk. pose proof (sys_ok c w) as Hc.
  destruct (sys c w) as [r w'] eqn:E. simpl in Hc. apply IH. by apply Hk.
Qed.

Lemma wp_mono {A} (p : prog A) (Q R : outcome A -> state -> Prop) s :
  wp p Q s -> (forall o s', Q o s' -> R o s') -> wp p R s.
Proof.
  intros Hp HQR. revert s Hp. induction p as [a|m| |c k IH]; simpl; eauto.
Qed.

Lemma wp_and {A} (p : prog A) (Q R : outcome A -> state -> Prop) s :
  wp p Q s -> wp p R s -> wp p (fun o s' => Q o s' /\ R o s') s.
Proof. revert s. induction p; simpl; eauto. Qed.

Lemma wp_bind {A B} (p : prog A) (f : A -> prog B) Q s :
  wp p (fun o s' => match o with
                    | Done a => wp (f a) Q s'
                    | Threw m => Q (Threw m) s'
                    | OutOfFuel => Q OutOfFuel s'
                    end) s ->
  wp (p ≫= f) Q s.
Proof. revert s. induction p as [a|m| |c k IH]; simpl; eauto. Qed.

(** The rule for a program that must return. *)
Lemma wp_bind_returns {A B} (p : prog A) (f : A -> prog B) P Q s :
  wp p (returns P) s -> (forall a s', P a s' -> wp (f a) Q s') -> wp (p ≫= f) Q s.
Proof.
  intros Hp Hf. apply wp_bind. eapply wp_mono; [exact Hp|].
  intros [a|m|] s'; simpl; [apply Hf|done..].
Qed.

Lemma wp_returns_mono {A} (p : prog A) (P R : A -> state -> Prop) s :
  wp p (returns P) s -> (forall a s', P a s' -> R a s') -> wp p (returns R) s.
Proof.
  intros Hp H. eapply wp_mono; [exact Hp|]. intros [a|m|] s'; simpl; [apply H|done..].
Qed.

Lemma wp_sys {A} (c : call) (k : reply c -> prog A) Q s :
  wp (Sys c k) Q s -> forall r s', call_post c s r s' -> wp (k r) Q s'.
Proof. done. Qed.

Lemma wp_returns_and {A} (p : prog A) (P R : A -> state -> Prop) s :
  wp p (returns P) s -> wp p (returns R) s -> wp p (returns (fun a s' => P a s' /\ R a s')) s.
Proof.
  intros HP HR. eapply wp_mono; [exact (wp_and _ _ _ _ HP HR)|]. intros [a|m|] s' [H1 H2]; simpl in *; [by split|done..].
Qed.

(** Programs that must return neither throw nor use up their bounds. *)
Lemma wp_returns_inv {A} (p : prog A) P s :
  wp p (returns P) s -> match p with Ret a => P a s | Sys _ _ => True | _ => False end.
Proof. by destruct p. Qed.

Lemma wp_ret {A} (a : A) (Q : outcome A -> state -> Prop) s : Q (Done a) s -> wp (mret a) Q s.
Proof. done. Qed.

Lemma wp_perform (c : call) (Q : outcome (reply c) -> state -> Prop) s :
  (forall r s', call_post c s r s' -> Q (Done r) s') -> wp (perform c) Q s.
Proof. done. Qed.

Lemma wp_perform_bind {B} (c : call) (f : reply c -> prog B) Q s :
  (forall r s', call_post c s r s' -> wp (f r) Q s') -> wp (perform c ≫= f) Q s.
Proof. done. Qed.

(** No call takes back RPC traffic. *)
Lemma call_post_trace c s r s' : call_post c s r s' -> s_trace s `prefix_of` s_trace s'.
Proof.
  destruct c; cbn [call_post]; try (intros Hpost; destruct Hpost; done).
  - by intros [_ ->].
  - by intros [_ ->].
  - by intros ->.
  - intros Hpost; destruct Hpost. cbn. by apply prefix_app_r.
Qed.

(** A run only adds to the traffic. *)
Lemma wp_extends {A} (p : prog A) s : wp p (fun _ s' => s_trace s `prefix_of` s_trace s') s.
Proof.
  assert (H : forall tr, tr `prefix_of` s_trace s -> wp p (fun _ s' => tr `prefix_of` s_trace s') s).
  { revert s. induction p as [a|m| |c k IH]; intros s tr Htr; simpl; try done.
    intros r s' Hc. apply IH. transitivity (s_trace s); [done|by eapply call_post_trace]. }
  by apply H.
Qed.

Lemma wp_returns_extends {A} (p : prog A) (P : A -> state -> Prop) s :
  wp p (returns P) s -> wp p (returns (fun a s' => P a s' /\ s_trace s `prefix_of` s_trace s')) s.
Proof.
  intros Hp. eapply wp_mono; [exact (wp_and _ _ _ _ Hp (wp_extends p s))|].
  intros [a|m|] s' [HP Htr]; simpl; [done|done..].
Qed.

(** What every environment guarantees for a program that must return. *)
Lemma returns_run `{Posix} {A} (p : prog A) P w :
  wp p (returns P) (view w) ->
  exists a, (run p w).1 = Done a /\ P a (view (run p w).2).
Proof.
  intros Hp%wp_run. destruct (run p w) as [[a|m|] w']; simpl in *; [by exists a|done..].
Qed.

Lemma run_perform_bind `{Posix} {B} (c : call) (k : reply c -> prog B) (w : os) :
  run (perform c ≫= k) w = run (k (sys c w).1) (sys c w).2.
Proof. cbn. by destruct (sys c w). Qed.

(** What a call promises, at the call itself. *)
Lemma sys_rule `{Posix} (c : call) P (w : os) :
  wp (perform c) (returns P) (view w) -> P (sys c w).1 (view (sys c w).2).
Proof.
  intros Hwp%returns_run. destruct Hwp as (a & Hr & HP). cbn in Hr, HP.
  destruct (sys c w) as [r w']. cbn in *. by injection Hr as ->.
Qed.

Lemma run_ret_bind `{Posix} {A B} (p : prog A) (k : A -> B) (w : os) a :
  (run p w).1 = Done a -> run (x ← p; mret (k x)) w = (Done (k a), (run p w).2).
Proof.
  revert w. induction p as [b|m| |c h IH]; intros w Hr; cbn in *; try congruence.
  destruct (sys c w) as [r w'] eqn:E. by rewrite IH.
Qed.

#[export] Instance wp_proper {A} (p : prog A) :
  Proper (pointwise_relation _ (pointwise_relation _ impl) ==> eq ==> impl) (wp p).
Proof. intros Q R HQR s ? <- Hp. eapply wp_mono; [exact Hp|]. intros o s'. apply HQR. Qed.

Arguments wp : simpl never.

#[global] Opaque wp.
