(* ===== verification/UniqueFd.v ===== *)
(** * UniqueFd: the owner of a file descriptor
    (src/include/storage/common/unique_fd.h). *)
From S2P Require Import Prelude Path Proto System Prog.

(** ** Definitions *)

Module UniqueFd.

(** The member [fd_]. *)
Record t := mk { fd_ : Z }.

Definition default : t := mk (-1).
(** [explicit UniqueFd(int fd)] *)
Definition make (fd : Z) : t := mk fd.
Definition get (self : t) : Z := fd_ self.
Definition valid (self : t) : bool := bool_decide (fd_ self >= 0).

(** [std::exchange(fd_, -1)]: the old descriptor and the new owner. *)
Definition release (self : t) : Z * t := (fd_ self, mk (-1)).

Definition reset (self : t) (fd : Z) : prog t :=
  if bool_decide (fd_ self >= 0) && bool_decide (fd_ self <> fd) then
    _ ← perform (Close (fd_ self)); mret (mk fd)
  else mret (mk fd).

(** [~UniqueFd()] *)
Definition destroy (self : t) : prog unit := _ ← reset self (-1); mret tt.

(** [UniqueFd(UniqueFd &&other)]: the new object and [other]. *)
Definition move_construct (other : t) : t * t :=
  let '(fd, other) := release other in (mk fd, other).

(** [operator=(UniqueFd &&other)]: [*this] and [other]; [same] is
    [this == &other]. *)
Definition move_assign (same : bool) (self other : t) : prog (t * t) :=
  if same then mret (self, self)
  else
    let '(fd, other) := release other in
    self ← reset self fd; mret (self, other).

(** A scope that owns the descriptor [raw]: the body may reset the object, and
    the destructor runs when the scope is left. *)
Definition scope {A} (raw : Z) (body : t -> prog (A * t)) : prog A :=
  x ← body (make raw);
  _ ← destroy x.2;
  mret x.1.

(** A scope whose body only reads the object. *)
Definition scope_const {A} (raw : Z) (body : t -> prog A) : prog A :=
  scope raw (fun fd => a ← body fd; mret (a, fd)).

End UniqueFd.

(** ** Lemmas *)

Lemma valid_make r : 0 <= r -> UniqueFd.valid (UniqueFd.make r) = true.
Proof. intros Hr. apply bool_decide_eq_true. simpl. lia. Qed.

Lemma valid_failed : UniqueFd.valid (UniqueFd.make (-1)) = false.
Proof. done. Qed.

(** The files after [close(fd)]. *)
Definition close_fs (fd : Z) (f : fs) : fs := set_fds (delete fd (f_fds f)) f.

Lemma wp_close fd (Q : outcome Z -> state -> Prop) s :
  (forall r e, Q (Done r) (ret_st s e (close_fs fd (s_fs s)))) -> wp (perform (Close fd)) Q s.
Proof. intros H. apply wp_perform. intros r s' [r' e]. apply H. Qed.

Lemma UniqueFd_reset_wp self fd (Q : outcome UniqueFd.t -> state -> Prop) s :
  (UniqueFd.fd_ self < 0 \/ UniqueFd.fd_ self = fd -> Q (Done (UniqueFd.mk fd)) s) ->
  (0 <= UniqueFd.fd_ self -> UniqueFd.fd_ self <> fd ->
   forall e, Q (Done (UniqueFd.mk fd)) (ret_st s e (close_fs (UniqueFd.fd_ self) (s_fs s)))) ->
  wp (UniqueFd.reset self fd) Q s.
Proof.
  intros H1 H2. unfold UniqueFd.reset.
  case_bool_decide as Hge; cbn [andb]; [|apply wp_ret, H1; lia].
  case_bool_decide as Hne; [|apply wp_ret, H1; by right].
  apply wp_bind, wp_close. intros r e. apply wp_ret, H2; [lia|done].
Qed.

Lemma UniqueFd_destroy_wp self (Q : outcome unit -> state -> Prop) s :
  (UniqueFd.fd_ self < 0 -> Q (Done tt) s) ->
  (0 <= UniqueFd.fd_ self ->
   forall e, Q (Done tt) (ret_st s e (close_fs (UniqueFd.fd_ self) (s_fs s)))) ->
  wp (UniqueFd.destroy self) Q s.
Proof.
  intros H1 H2. apply wp_bind, UniqueFd_reset_wp.
  - intros [?|?]; apply wp_ret, H1; lia.
  - intros ? ? e. by apply wp_ret, H2.
Qed.

(** A body that returns the object it was given keeps the descriptor until the
    end of the scope. *)
Lemma scope_wp {A} raw (body : UniqueFd.t -> prog (A * UniqueFd.t)) P (Q : A -> state -> Prop) s :
  wp (body (UniqueFd.make raw)) (returns P) s ->
  (forall a fd s', P (a, fd) s' -> UniqueFd.fd_ fd < 0 -> Q a s') ->
  (forall a fd s' e, P (a, fd) s' -> 0 <= UniqueFd.fd_ fd ->
     Q a (ret_st s' e (close_fs (UniqueFd.fd_ fd) (s_fs s')))) ->
  wp (UniqueFd.scope raw body) (returns Q) s.
Proof.
  intros Hb H1 H2. eapply wp_bind_returns; [exact Hb|].
  intros [a fd] s' HP. cbn [fst snd]. apply wp_bind, UniqueFd_destroy_wp; intros.
  - apply wp_ret. by eapply H1.
  - apply wp_ret. by eapply H2.
Qed.

Lemma scope_const_wp {A} raw (body : UniqueFd.t -> prog A) P (Q : A -> state -> Prop) s :
  wp (body (UniqueFd.make raw)) (returns P) s ->
  (raw < 0 -> forall a s', P a s' -> Q a s') ->
  (0 <= raw -> forall a s' e, P a s' -> Q a (ret_st s' e (close_fs raw (s_fs s')))) ->
  wp (UniqueFd.scope_const raw body) (returns Q) s.
Proof.
  intros Hb H1 H2.
  eapply (scope_wp _ _ (fun x s' => P x.1 s' /\ x.2 = UniqueFd.make raw)).
  - eapply wp_bind_returns; [exact Hb|]. intros a s' HP. by apply wp_ret.
  - intros a fd s' [HP E] Hr. cbn in E. subst. by apply H1.
  - intros a fd s' e [HP E] Hr. cbn in E. subst. by apply H2.
Qed.

(** ** Properties *)

(** C35: move assignment between distinct objects hands the descriptor over,
    leaves the source empty and closes the descriptor the target owned (and
    nothing else) unless it is the one received; self-assignment and [release]
    close nothing; resetting or destroying closes the owned descriptor once. *)
Theorem UniqueFd_ownership (a b : UniqueFd.t) s :
  wp (UniqueFd.move_assign false a b)
     (returns (fun r s' =>
        r = (UniqueFd.make (UniqueFd.get b), UniqueFd.default) /\
        f_names (s_fs s') = f_names (s_fs s) /\ f_inodes (s_fs s') = f_inodes (s_fs s) /\
        f_fds (s_fs s') =
          if UniqueFd.valid a && bool_decide (UniqueFd.get a <> UniqueFd.get b)
          then delete (UniqueFd.get a) (f_fds (s_fs s)) else f_fds (s_fs s))) s /\
  wp (UniqueFd.move_assign true a a) (returns (fun r s' => r = (a, a) /\ s' = s)) s /\
  UniqueFd.release a = (UniqueFd.get a, UniqueFd.default) /\
  UniqueFd.move_construct a = (UniqueFd.make (UniqueFd.get a), UniqueFd.default) /\
  wp (UniqueFd.destroy a)
     (returns (fun _ s' => f_fds (s_fs s') =
        if UniqueFd.valid a then delete (UniqueFd.get a) (f_fds (s_fs s)) else f_fds (s_fs s))) s.
Proof.
  split_and!; [| by apply wp_ret | done | by destruct a |].
  - unfold UniqueFd.move_assign, UniqueFd.valid, UniqueFd.get. simpl.
    apply wp_bind, UniqueFd_reset_wp; intros; apply wp_ret; simpl; split_and!; try done.
    + destruct H as [H|H]; [rewrite bool_decide_false by lia; done|].
      rewrite (bool_decide_false (_ <> _)), andb_false_r by (intros []; done). done.
    + rewrite !bool_decide_true by (done || lia). done.
  - unfold UniqueFd.valid, UniqueFd.get.
    apply UniqueFd_destroy_wp; intros; simpl.
    + by rewrite bool_decide_false by lia.
    + by rewrite bool_decide_true by lia.
Qed.
