(* ===== verification/Blake3.v ===== *)
(** * The hash library and the hexadecimal text of a digest.

    BLAKE3 is not code of the repository: it is the class [Blake3], with the
    documented behaviour of its incremental interface as laws. *)
From S2P Require Import Prelude Path.

(** ** Definitions *)

(** [absorbed h d]: the hasher [h] has been fed the bytes [d], in any number of
    updates.  [blake3] is the hash function itself. *)
Class Blake3 := {
  hasher : Type;
  hasher_init : hasher;
  hasher_update : hasher -> list byte -> hasher;
  hasher_finalize : hasher -> nat -> list byte;
  blake3 : list byte -> list byte;
  absorbed : hasher -> list byte -> Prop;
  absorbed_init : absorbed hasher_init [];
  absorbed_update h d x : absorbed h d -> absorbed (hasher_update h x) (d ++ x);
  finalize_absorbed h d : absorbed h d -> hasher_finalize h 32 = blake3 d;
  blake3_length d : length (blake3 d) = 32%nat
}.

Definition BLAKE3_OUT_LEN : nat := 32.

(** The loop that writes two digits per byte into a string of zeros; it occurs
    in [FinalizeHex] and in [HashFile]. *)
Fixpoint hex_assign (digest : list byte) (index : nat) (result : list ascii) : list ascii :=
  match digest with
  | [] => result
  | b :: digest =>
      hex_assign digest (S index)
        (<[index * 2 + 1 := hex_digit (Z.land (byte_to_Z b) 15)]>
           (<[index * 2 := hex_digit (Z.shiftr (byte_to_Z b) 4)]> result))%nat
  end.

(** [FinalizeHex(blake3_hasher &)] *)
Definition FinalizeHex `{Blake3} (h : hasher) : string :=
  let digest := hasher_finalize h BLAKE3_OUT_LEN in
  of_chars (hex_assign digest 0 (replicate (length digest * 2) "0"%char)).

(** ** Lemmas *)

Lemma insert_two_middle (l m : list ascii) (a b x y : ascii) (n : nat) :
  length l = n -> <[(n + 1)%nat := b]> (<[n := a]> (l ++ x :: y :: m)) = l ++ a :: b :: m.
Proof.
  intros <-. rewrite insert_app_r_alt, Nat.sub_diag by lia. simpl.
  rewrite insert_app_r_alt by lia.
  replace (length l + 1 - length l)%nat with 1%nat by lia. done.
Qed.

Lemma hex_assign_spec d index l :
  length l = (index * 2)%nat ->
  hex_assign d index (l ++ replicate (length d * 2) "0"%char) = l ++ hex_chars d.
Proof.
  revert index l. induction d as [|b d IH]; intros index l Hl; [done|].
  cbn [length Nat.mul Nat.add replicate hex_assign hex_chars].
  rewrite insert_two_middle by done.
  change (l ++ ?a :: ?b :: ?m) with (l ++ [a; b] ++ m). rewrite app_assoc.
  rewrite IH by (rewrite length_app, Hl; simpl; lia).
  by rewrite <- app_assoc.
Qed.

(** The loop computes the reference encoding. *)
Lemma FinalizeHex_spec `{Blake3} h d :
  absorbed h d -> FinalizeHex h = hex_string (blake3 d).
Proof.
  intros Hd. unfold FinalizeHex, BLAKE3_OUT_LEN. rewrite (finalize_absorbed _ _ Hd).
  change (replicate ?n ?x) with ([] ++ replicate n x) at 1.
  by rewrite hex_assign_spec.
Qed.

Create HintDb blake3.
#[export] Hint Resolve absorbed_init absorbed_update : blake3.
