(* ===== verification/MemOS.v ===== *)
(** * An executable environment: files in memory, a script of faults and a peer.

    It instantiates the class [Posix], which shows that the hypotheses on the
    environment can be met, and lets programs be run on concrete inputs. *)
From S2P Require Import Prelude Path Proto System Prog Blake3.

(** ** Definitions *)

(** What happens to the next call that can fail: nothing, an interruption by a
    signal, a short transfer, an error. *)
Inductive fault := NoFault | Interrupt | Short | Broken.

Record memos := mkMem {
  ms : state;
  ms_script : list fault;
  ms_peer : forall c : rpc_call, list rpc_event -> rpc_reply c }.

Definition EIO : Z := 5.
Definition EBADF : Z := 9.
Definition EFBIG : Z := 27.
Definition ENAMETOOLONG : Z := 36.

Definition fresh_fd (m : gmap Z fdobj) : Z := 1 + map_fold (fun k _ => Z.max k) 2 m.
Definition fresh_inode (m : gmap positive inode) : positive := Pos.succ (map_fold (fun k _ => Pos.max k) 1%positive m).

(** The script is followed as far as the state allows: no failures in a quiet
    world, no interruption when no event is left. *)
Definition fault_of (f : fault) (s : state) : fault :=
  match f with
  | Broken => if s_quiet s then NoFault else Broken
  | Interrupt => match s_events s with O => NoFault | _ => Interrupt end
  | f => f
  end.

Definition mem_open (p : string) (l : list oflag) (f : fault) (s : state) : Z * state :=
  let x := s_fs s in
  let r := fresh_fd (f_fds x) in
  let i := fresh_inode (f_inodes x) in
  match f with
  | Broken => (-1, ret_st s EIO x)
  | _ =>
      if has O_DIRECTORY l then (r, ret_st s (s_errno s) (set_fds (<[r := FdDir p]> (f_fds x)) x))
      else match f_names x !! p with
           | Some i =>
               if exclusive l then (-1, ret_st s EEXIST x)
               else (r, ret_st s (s_errno s) (set_fds (<[r := FdFile i 0 (has O_WRONLY l)]> (f_fds x)) x))
           | None =>
               if has O_CREAT l then
                 if name_fits p then
                   (r, ret_st s (s_errno s) (mkFs (<[p := i]> (f_names x)) (f_stable x)
                         (<[i := mkInode [] false]> (f_inodes x))
                         (<[r := FdFile i 0 (has O_WRONLY l)]> (f_fds x))))
                 else (-1, ret_st s ENAMETOOLONG x)
               else (-1, ret_st s ENOENT x)
           end
  end.

Definition intr (s : state) : state := intr_st s (pred (s_events s)).

(** An open file of the given mode. *)
Definition open_file (s : state) (fd : Z) (w : bool) : option (positive * nat * inode) :=
  match f_fds (s_fs s) !! fd with
  | Some (FdFile i pos w') =>
      if Bool.eqb w w' then (fun nd => (i, pos, nd)) <$> f_inodes (s_fs s) !! i else None
  | _ => None
  end.

Definition count (f : fault) (n : nat) : nat := match f with Short => Nat.min 1 n | _ => n end.

Definition mem_write (fd : Z) (d : list byte) (f : fault) (s : state) : Z * state :=
  let x := s_fs s in
  match f, open_file s fd true with
  | Interrupt, _ => (-1, intr s)
  | Broken, _ => (-1, ret_st s EIO x)
  | _, None => (-1, ret_st s EBADF x)
  | f, Some (i, pos, nd) =>
      let k := count f (length d) in
      if bool_decide (Z.of_nat (pos + k) <= off_max) then
        (Z.of_nat k, ret_st s (s_errno s) (mkFs (f_names x) (f_stable x)
           (<[i := mkInode (splice pos (take k d) (i_data nd)) false]> (f_inodes x))
           (<[fd := FdFile i (pos + k) true]> (f_fds x))))
      else (-1, ret_st s EFBIG x)
  end.

Definition mem_read (fd n : Z) (f : fault) (s : state) : option (list byte) * state :=
  let x := s_fs s in
  match f, open_file s fd false with
  | Interrupt, _ => (None, intr s)
  | Broken, _ => (None, ret_st s EIO x)
  | _, None => (None, ret_st s EBADF x)
  | f, Some (i, pos, nd) =>
      let k := count f (Z.to_nat (Z.min n (Z.of_nat (length (i_data nd) - pos)))) in
      (Some (take k (drop pos (i_data nd))),
       ret_st s (s_errno s) (set_fds (<[fd := FdFile i (pos + k) false]> (f_fds x)) x))
  end.

Definition mem_pread (fd n off : Z) (f : fault) (s : state) : option (list byte) * state :=
  let x := s_fs s in
  match f, open_file s fd false with
  | Interrupt, _ => (None, intr s)
  | Broken, _ => (None, ret_st s EIO x)
  | _, None => (None, ret_st s EBADF x)
  | f, Some (i, pos, nd) =>
      if bool_decide (0 <= off) then
        let k := count f (Z.to_nat (Z.min n (Z.of_nat (length (i_data nd) - Z.to_nat off)))) in
        (Some (take k (drop (Z.to_nat off) (i_data nd))), ret_st s (s_errno s) x)
      else (None, ret_st s EBADF x)
  end.

Definition mem_sync (fd : Z) (f : fault) (s : state) : Z * state :=
  let x := s_fs s in
  match f, f_fds x !! fd with
  | Broken, _ => (-1, ret_st s EIO x)
  | _, Some (FdFile i pos w) =>
      match f_inodes x !! i with
      | Some nd => (0, ret_st s (s_errno s) (sync_inode i nd x))
      | None => (-1, ret_st s EBADF x)
      end
  | _, Some (FdDir p) => (0, ret_st s (s_errno s) (set_stable (f_names x) x))
  | _, None => (-1, ret_st s EBADF x)
  end.

Definition mem_fstat (fd : Z) (f : fault) (s : state) : option Z * state :=
  let x := s_fs s in
  match f, f_fds x !! fd with
  | Broken, _ => (None, ret_st s EIO x)
  | _, Some (FdFile i pos w) =>
      match f_inodes x !! i with
      | Some nd => (Some (blen (i_data nd)), ret_st s (s_errno s) x)
      | None => (None, ret_st s EBADF x)
      end
  | _, _ => (None, ret_st s EBADF x)
  end.

Definition mem_link (a b : string) (f : fault) (s : state) : Z * state :=
  let x := s_fs s in
  match f, f_names x !! b, f_names x !! a with
  | Broken, _, _ => (-1, ret_st s EIO x)
  | _, Some _, _ => (-1, ret_st s EEXIST x)
  | _, None, None => (-1, ret_st s ENOENT x)
  | _, None, Some i =>
      if name_fits b then (0, ret_st s (s_errno s) (set_names (<[b := i]> (f_names x)) x))
      else (-1, ret_st s ENAMETOOLONG x)
  end.

Definition mem_unlink (p : string) (f : fault) (s : state) : Z * state :=
  let x := s_fs s in
  match f, f_names x !! p with
  | Broken, _ => (-1, ret_st s EIO x)
  | _, Some _ => (0, ret_st s (s_errno s) (set_names (delete p (f_names x)) x))
  | _, None => (-1, ret_st s ENOENT x)
  end.

Definition is_broken (f : fault) : bool := match f with Broken => true | _ => false end.

(** The answers of a peer that agrees to everything and sends nothing. *)
Definition no_peer (c : rpc_call) : rpc_reply c :=
  match c with
  | ServerRead => None
  | ServerWrite _ => true
  | StartPut _ => tt
  | ClientWrite _ => true
  | WritesDone => true
  | FinishPut => (grpc.Status_OK, rpc.OperationResponse_default)
  | StartGet _ _ => tt
  | ClientRead => None
  | FinishGet => grpc.Status_OK
  | TryCancel => tt
  | CallHead _ _ => (grpc.Status_OK, rpc.HeadChunkResponse_default)
  | CallDelete _ _ => (grpc.Status_OK, rpc.OperationResponse_default)
  end.

(** The peer's answer, if it is well typed; a message it streams to the client uses up an event. *)
Definition mem_rpc (peer : forall c : rpc_call, list rpc_event -> rpc_reply c) (c : rpc_call) (s : state)
  : rpc_reply c * state :=
  let done r n := (r, mkState (s_errno s) n (s_quiet s) (s_trace s ++ [ev c r]) (s_fs s)) in
  match c as c return (rpc_reply c -> nat -> rpc_reply c * state) -> rpc_reply c -> rpc_reply c * state with
  | ClientRead => fun done r =>
      match r, s_events s with
      | Some m, S n => done (Some m) n
      | _, n => done None n
      end
  | _ => fun done r => done r (s_events s)
  end done (if rpc_typed c (peer c (s_trace s)) then peer c (s_trace s) else no_peer c).

Definition mem_call (peer : forall c : rpc_call, list rpc_event -> rpc_reply c) (c : call) (f : fault)
    (s : state) : reply c * state :=
  match c return reply c * state with
  | Open p l => mem_open p l f s
  | Write fd d => mem_write fd d f s
  | Read fd n => mem_read fd n f s
  | Pread fd n off => mem_pread fd n off f s
  | Fstat fd => mem_fstat fd f s
  | Fdatasync fd | Fsync fd => mem_sync fd f s
  | Link a b => mem_link a b f s
  | Unlink p => mem_unlink p f s
  | Close fd => (0, ret_st s (s_errno s) (set_fds (delete fd (f_fds (s_fs s))) (s_fs s)))
  | CreateDirectories p =>
      (if is_broken f then Some "error"%string else None, ret_st s (s_errno s) (s_fs s))
  | Exists p => (if is_broken f then None else Some (bool_decide (is_Some (f_names (s_fs s) !! p))),
                 ret_st s (s_errno s) (s_fs s))
  | Getpid => (42, s)
  | GetErrno => (s_errno s, s)
  | SetErrno e => (tt, ret_st s e (s_fs s))
  | Rpc c => mem_rpc peer c s
  end.

(** Calls that cannot fail leave the script alone. *)
Definition scripted (c : call) : bool :=
  match c with Getpid | GetErrno | SetErrno _ | Close _ | Rpc _ => false | _ => true end.

Definition mem_sys (c : call) (w : memos) : reply c * memos :=
  let f := if scripted c then fault_of (default NoFault (head (ms_script w))) (ms w) else NoFault in
  let '(r, s) := mem_call (ms_peer w) c f (ms w) in
  (r, mkMem s (if scripted c then tail (ms_script w) else ms_script w) (ms_peer w)).

(** ** Lemmas *)

Lemma fresh_fd_spec m : 0 <= fresh_fd m /\ m !! fresh_fd m = None.
Proof.
  assert (H : 2 <= map_fold (fun (k : Z) (_ : fdobj) => Z.max k) 2 m /\
    forall k o, m !! k = Some o -> k <= map_fold (fun (k : Z) (_ : fdobj) => Z.max k) 2 m).
  { apply (map_fold_weak_ind (fun r m => 2 <= r /\ forall (k : Z) (o : fdobj), m !! k = Some o -> k <= r)).
    - split; [lia|]. intros k o. by rewrite lookup_empty.
    - intros i x m' r Hi [H1 H2]. split; [lia|]. intros k o [[-> _]|[_ ?%H2]]%lookup_insert_Some; lia. }
  destruct H as [H1 H2]. unfold fresh_fd. split; [lia|].
  destruct (m !! _) eqn:E; [|done]. apply H2 in E. lia.
Qed.

Lemma fresh_inode_spec m : m !! fresh_inode m = None.
Proof.
  assert (H : forall k o, m !! k = Some o ->
    (k <= map_fold (fun (k : positive) (_ : inode) => Pos.max k) 1 m)%positive).
  { apply (map_fold_weak_ind (fun r m => forall (k : positive) (o : inode), m !! k = Some o -> (k <= r)%positive)).
    - intros k o. by rewrite lookup_empty.
    - intros i x m' r Hi H k o [[-> _]|[_ ?%H]]%lookup_insert_Some; lia. }
  unfold fresh_inode. destruct (m !! _) eqn:E; [|done]. apply H in E. lia.
Qed.

(** The faults a state allows. *)
Definition allowed (f : fault) (s : state) : Prop :=
  match f with
  | Broken => s_quiet s = false
  | Interrupt => s_events s <> 0%nat
  | _ => True
  end.

Lemma fault_of_allowed f s : allowed (fault_of f s) s.
Proof.
  destruct f; cbn; try done;
    [destruct (s_events s) eqn:E|destruct (s_quiet s) eqn:E]; cbn; by rewrite ?E.
Qed.

Lemma intr_events s : s_events s <> 0%nat -> s_events s = S (pred (s_events s)).
Proof. lia. Qed.

Lemma open_file_some s fd w i pos nd :
  open_file s fd w = Some (i, pos, nd) ->
  f_fds (s_fs s) !! fd = Some (FdFile i pos w) /\ f_inodes (s_fs s) !! i = Some nd.
Proof.
  unfold open_file. destruct (f_fds (s_fs s) !! fd) as [[j p w'|]|]; [|done..].
  destruct (Bool.eqb_spec w w') as [<-|]; [|done].
  destruct (f_inodes (s_fs s) !! j) eqn:E; [|done]. cbn. intros [= -> -> ->]. done.
Qed.

Lemma open_file_none s fd w : open_file s fd w = None -> bad_fd s fd w.
Proof.
  unfold open_file, bad_fd. intros H i pos E. rewrite E, eqb_reflx in H.
  by destruct (f_inodes (s_fs s) !! i).
Qed.

Lemma count_le f n : (count f n <= n)%nat.
Proof. unfold count. destruct f; lia. Qed.

Lemma count_pos f n : (0 < n)%nat -> (0 < count f n)%nat.
Proof. unfold count. destruct f; lia. Qed.

Lemma count_read_bytes f d pos n :
  read_bytes d pos n (count f (Z.to_nat (Z.min n (Z.of_nat (length d - pos))))).
Proof.
  pose proof (count_le f (Z.to_nat (Z.min n (Z.of_nat (length d - pos))))) as H1.
  pose proof (count_pos f (Z.to_nat (Z.min n (Z.of_nat (length d - pos))))) as H2.
  split_and!; [lia|lia|]. intros E. destruct (decide (n <= 0)); [by left|right]. lia.
Qed.

Ltac by_state := intros; unfold EIO, EBADF, EFBIG, ENAMETOOLONG, ENOENT, EEXIST, EINTR in *;
  try lia; try congruence.

Lemma mem_open_ok p l f s : allowed f s -> open_post p l s (mem_open p l f s).1 (mem_open p l f s).2.
Proof.
  intros Hf. unfold mem_open.
  destruct (fresh_fd_spec (f_fds (s_fs s))) as [Hr Hfd].
  pose proof (fresh_inode_spec (f_inodes (s_fs s))) as Hi.
  destruct f; cbn in Hf.
  4:{ apply open_error; by_state. }
  all: destruct (has O_DIRECTORY l) eqn:Hd; [by apply open_directory|];
    destruct (f_names (s_fs s) !! p) as [j|] eqn:Hn.
  all: try (destruct (exclusive l) eqn:He; [by apply open_taken; rewrite ?Hn|by apply open_existing]).
  all: destruct (has O_CREAT l) eqn:Hc; [|by apply open_missing].
  all: destruct (name_fits p) eqn:Hft; [by apply open_create|by apply open_error; by_state].
Qed.

Lemma mem_write_ok fd d f s : allowed f s -> write_post fd d s (mem_write fd d f s).1 (mem_write fd d f s).2.
Proof.
  intros Hf. unfold mem_write.
  destruct (open_file s fd true) as [[[i pos] nd]|] eqn:E.
  - apply open_file_some in E as [H1 H2].
    destruct f; cbn in Hf; cbn zeta.
    2:{ by apply write_intr, intr_events. }
    3:{ apply write_error; by_state. }
    all: case_bool_decide as Hmax; cbn [fst snd].
    1,3: eapply write_some; [done|done|apply count_le|intros; apply count_pos; destruct d; [done|cbn; lia]|done].
    all: apply write_error; [by_state|]; intros _; right; exists i, pos; split; [done|].
    + pose proof (count_le NoFault (length d)). lia.
    + pose proof (count_le Short (length d)). lia.
  - apply open_file_none in E. destruct f; cbn in Hf.
    2:{ by apply write_intr, intr_events. }
    all: apply write_error; by_state; auto.
Qed.

Lemma mem_read_ok fd n f s : allowed f s -> read_post fd n s (mem_read fd n f s).1 (mem_read fd n f s).2.
Proof.
  intros Hf. unfold mem_read.
  destruct (open_file s fd false) as [[[i pos] nd]|] eqn:E.
  - apply open_file_some in E as [H1 H2].
    destruct f; cbn in Hf; cbn zeta.
    2:{ by apply read_intr, intr_events. }
    3:{ apply read_error; by_state. }
    all: eapply read_some; try done; apply count_read_bytes.
  - apply open_file_none in E. destruct f; cbn in Hf.
    2:{ by apply read_intr, intr_events. }
    all: apply read_error; by_state; auto.
Qed.

Lemma mem_pread_ok fd n off f s :
  allowed f s -> pread_post fd n off s (mem_pread fd n off f s).1 (mem_pread fd n off f s).2.
Proof.
  intros Hf. unfold mem_pread.
  destruct (open_file s fd false) as [[[i pos] nd]|] eqn:E.
  - apply open_file_some in E as [H1 H2].
    destruct f; cbn in Hf; cbn zeta.
    2:{ by apply pread_intr, intr_events. }
    3:{ apply pread_error; by_state. }
    all: case_bool_decide; [|apply pread_error; by_state; right; lia].
    all: eapply pread_some; try done; apply count_read_bytes.
  - apply open_file_none in E. destruct f; cbn in Hf.
    2:{ by apply pread_intr, intr_events. }
    all: apply pread_error; by_state; auto.
Qed.

(** Nothing is open on a descriptor that is not a file of the process. *)
Lemma bad_inode s fd i pos w b :
  f_fds (s_fs s) !! fd = Some (FdFile i pos w) -> f_inodes (s_fs s) !! i = None -> bad_fd s fd b.
Proof. intros H1 H2 j p H3. congruence. Qed.

Lemma bad_other s fd b :
  (forall i pos w, f_fds (s_fs s) !! fd <> Some (FdFile i pos w)) -> bad_fd s fd b.
Proof. intros H1 j p H3. by apply H1 in H3. Qed.

Lemma mem_sync_ok fd f s : allowed f s -> sync_post fd s (mem_sync fd f s).1 (mem_sync fd f s).2.
Proof.
  intros Hf. unfold mem_sync. destruct (f_fds (s_fs s) !! fd) as [[i pos w|p]|] eqn:E.
  - destruct (f_inodes (s_fs s) !! i) as [nd|] eqn:Hi; destruct f; cbn in Hf.
    4,8: by apply sync_error; by_state.
    1-3: by eapply sync_file.
    all: apply sync_error; intros _; split_and!; [eapply bad_inode..|]; try done; congruence.
  - destruct f; cbn in Hf; [by eapply sync_directory..|]. apply sync_error; by_state.
  - destruct f; cbn in Hf; apply sync_error; by_state.
    all: split_and!; [apply bad_other..|]; congruence.
Qed.

Lemma mem_fstat_ok fd f s : allowed f s -> fstat_post fd s (mem_fstat fd f s).1 (mem_fstat fd f s).2.
Proof.
  intros Hf. unfold mem_fstat. destruct (f_fds (s_fs s) !! fd) as [[i pos w|p]|] eqn:E.
  - destruct (f_inodes (s_fs s) !! i) as [nd|] eqn:Hi; destruct f; cbn in Hf.
    4,8: by apply fstat_error; by_state.
    1-3: by eapply fstat_some.
    all: apply fstat_error; intros _; split; by eapply bad_inode.
  - destruct f; cbn in Hf; apply fstat_error; intros _; split; apply bad_other; congruence.
  - destruct f; cbn in Hf; apply fstat_error; intros _; split; apply bad_other; congruence.
Qed.

Lemma mem_link_ok a b f s : allowed f s -> link_post a b s (mem_link a b f s).1 (mem_link a b f s).2.
Proof.
  intros Hf. unfold mem_link. destruct f; cbn in Hf.
  4:{ apply link_error; by_state. }
  all: destruct (f_names (s_fs s) !! b) as [j|] eqn:Hb; [by apply link_taken; rewrite Hb|].
  all: destruct (f_names (s_fs s) !! a) as [i|] eqn:Ha; [|by apply link_error; auto].
  all: destruct (name_fits b) eqn:Hft; [by apply link_new|by apply link_error; auto].
Qed.

Lemma mem_unlink_ok p f s : allowed f s -> unlink_post p s (mem_unlink p f s).1 (mem_unlink p f s).2.
Proof.
  intros Hf. unfold mem_unlink. destruct f; cbn in Hf.
  4:{ apply unlink_error; by_state. }
  all: destruct (f_names (s_fs s) !! p) as [j|] eqn:Hp; [by apply unlink_some; rewrite Hp|by apply unlink_missing].
Qed.

Lemma no_peer_typed c : rpc_typed c (no_peer c) = true.
Proof. by destruct c. Qed.

Lemma mem_rpc_ok peer c s : rpc_post c s (mem_rpc peer c s).1 (mem_rpc peer c s).2.
Proof.
  unfold mem_rpc. set (r := if rpc_typed c _ then _ else _).
  assert (Hr : rpc_typed c r = true)
    by (unfold r; destruct (rpc_typed c (peer c _)) eqn:E; [done|apply no_peer_typed]).
  clearbody r. destruct c; try by apply rpc_any.
  destruct r, (s_events s) eqn:E; apply rpc_any; by rewrite ?E.
Qed.

Lemma mem_call_ok peer c f s :
  allowed f s -> call_post c s (mem_call peer c f s).1 (mem_call peer c f s).2.
Proof.
  intros Hf. destruct c; cbn [mem_call call_post].
  - by apply mem_open_ok.
  - by apply mem_write_ok.
  - by apply mem_read_ok.
  - by apply mem_pread_ok.
  - by apply mem_fstat_ok.
  - by apply mem_sync_ok.
  - by apply mem_sync_ok.
  - by apply mem_link_ok.
  - by apply mem_unlink_ok.
  - apply close_done.
  - destruct f; cbn in *; [apply mkdirs_ok..|by apply mkdirs_error].
  - destruct (is_broken f) eqn:Hb; cbn [fst snd].
    + destruct f; try done. cbn in Hf. apply exists_other; by_state.
    + case_bool_decide as Hx; [by apply exists_yes|apply exists_no]. by apply eq_None_not_Some.
  - done.
  - done.
  - done.
  - apply mem_rpc_ok.
Qed.

(** The environment. *)
#[export] Program Instance MemPosix : Posix := { os := memos; sys := mem_sys; view := ms }.
Next Obligation.
  intros c w. cbn. unfold mem_sys.
  set (f := if scripted c then _ else NoFault).
  assert (Hf : allowed f (ms w)) by (unfold f; destruct (scripted c); [apply fault_of_allowed|done]).
  pose proof (mem_call_ok (ms_peer w) c f (ms w) Hf) as H.
  destruct (mem_call (ms_peer w) c f (ms w)) as [r s]. done.
Qed.

(** ** A C library and a hash for concrete runs *)

#[export] Instance MemLibc : Libc := {
  strerror e := if bool_decide (e = EIO) then "Input/output error" else "error" }.

(** A stand-in for the hash: the length of the data and the sum of its bytes,
    in 32 bytes.  The theorems hold for every instance. *)
Definition sum_digest (d : list byte) : list byte :=
  le_bytes 16 (blen d) ++ le_bytes 16 (foldr (fun b z => byte_to_Z b + z) 0 d).

#[export] Program Instance SumHash : Blake3 := {
  hasher := list byte;
  hasher_init := [];
  hasher_update h d := h ++ d;
  hasher_finalize h n := take n (sum_digest h);
  blake3 := sum_digest;
  absorbed h d := h = d }.
Next Obligation. done. Qed.
Next Obligation. by intros h d x ->. Qed.
Next Obligation. intros h d ->. apply take_ge. unfold sum_digest. by rewrite length_app, !length_le_bytes. Qed.
Next Obligation. intros d. unfold sum_digest. by rewrite length_app, !length_le_bytes. Qed.

(** ** Initial worlds *)

Definition empty_fs : fs := mkFs ∅ ∅ ∅ ∅.
Definition quiet_state (f : fs) : state := mkState 0 0 true [] f.
Definition faulty_state (n : nat) (f : fs) : state := mkState 0 n false [] f.
Definition quiet_world (f : fs) : os := mkMem (quiet_state f) [] (fun c _ => no_peer c).
Definition faulty_world (n : nat) (script : list fault) (f : fs) : os :=
  mkMem (faulty_state n f) script (fun c _ => no_peer c).

(** A peer that sends the given frames to the server, one per read, or the given
    messages to the client. *)
Definition frame_peer (frames : list rpc.PutChunkFrame) (messages : list rpc.ChunkData)
    (c : rpc_call) (tr : list rpc_event) : rpc_reply c :=
  match c with
  | ServerRead => frames !! length tr
  | ClientRead => messages !! pred (length tr)
  | c => no_peer c
  end.

Lemma empty_fs_wf : fs_wf empty_fs.
Proof. split; cbn; intros *; by rewrite lookup_empty. Qed.
