(* ===== verification/FileIO.v ===== *)
(** * Retry loops over the I/O calls: [WriteAll] (the worker's and the
    client's, src/src/storage/worker/file_chunk_store.cpp and
    src/src/storage/client/data_plane_client.cpp), [PreadSome] and the
    [do read while EINTR] loops. *)
From S2P Require Import Prelude Status Path Proto System Prog UniqueFd.

(** ** Definitions

    Every loop takes [fuel], a bound on its iterations; the theorems say how
    much is enough. *)

Section FileIO.
Context `{Libc}.

(** [failed && errno == EINTR], reading [errno] only after a failure. *)
Definition interrupted (failed : bool) : prog bool :=
  if failed then e ← perform GetErrno; mret (bool_decide (e = EINTR)) else mret false.

Definition errno_status (prefix : string) : prog Status :=
  e ← perform GetErrno; mret (Status_make kIoError (prefix +:+ strerror e)).

Fixpoint WriteAll_loop (fuel : nat) (fd : Z) (data : list byte) (written : Z) : prog Status :=
  match fuel with
  | O => Fuel
  | S fuel =>
      if bool_decide (written < blen data) then
        result ← perform (Write fd (zdrop written data));
        again ← interrupted (bool_decide (result < 0));
        if (again : bool) then WriteAll_loop fuel fd data written
        else if bool_decide (result <= 0) then errno_status "write failed: "
        else WriteAll_loop fuel fd data (written + result)
      else mret Status_Ok
  end.

(** [Status WriteAll(int fd, std::span<const std::byte> data)] *)
Definition WriteAll (fuel : nat) (fd : Z) (data : list byte) : prog Status :=
  WriteAll_loop fuel fd data 0.

(** The client's [WriteAll(int fd, const char *data, std::size_t size)]. *)
Definition WriteAll_client (fuel : nat) (fd : Z) (data : list byte) (size : Z) : prog Status :=
  WriteAll_loop fuel fd (ztake size data) 0.

Fixpoint PreadSome_loop (fuel : nat) (fd n offset : Z) : prog (StatusOr (list byte)) :=
  match fuel with
  | O => Fuel
  | S fuel =>
      result ← perform (Pread fd n offset);
      again ← interrupted (bool_decide (result = None));
      if (again : bool) then PreadSome_loop fuel fd n offset
      else match result with
           | None => st ← errno_status "pread failed: "; mret (SO_error st)
           | Some bytes => mret (SO_value bytes)
           end
  end.

(** [PreadSome(int fd, std::span<std::byte> data, std::uint64_t offset)]: the
    value is the bytes placed at the front of the span of size [n]. *)
Definition PreadSome (fuel : nat) (fd n offset : Z) : prog (StatusOr (list byte)) :=
  if bool_decide (offset > off_max) then
    mret (SO_error (Status_make kInvalidArgument "file offset exceeds platform limit"))
  else PreadSome_loop fuel fd n offset.

(** [do { count = ::read(fd, ...); } while (count < 0 && errno == EINTR);] *)
Fixpoint read_retry (fuel : nat) (fd n : Z) : prog (option (list byte)) :=
  match fuel with
  | O => Fuel
  | S fuel =>
      count ← perform (Read fd n);
      again ← interrupted (bool_decide (count = None));
      if (again : bool) then read_retry fuel fd n else mret count
  end.

End FileIO.

(** ** How states evolve along a program *)

(** No fault is added and no asynchronous event is invented. *)
Definition later (s s' : state) : Prop :=
  s_quiet s' = s_quiet s /\ (s_events s' <= s_events s)%nat.

#[export] Instance later_preorder : PreOrder later.
Proof.
  split; [by intros s|]. intros a b c [? ?] [? ?]. split; [congruence|lia].
Qed.

(** [later], with the RPC traffic untouched. *)
Definition local_step (s s' : state) : Prop := later s s' /\ s_trace s' = s_trace s.

#[export] Instance local_step_preorder : PreOrder local_step.
Proof.
  split; [by intros s|]. intros a b c [? ?] [? ?]. split; [by transitivity b|congruence].
Qed.

Lemma local_step_ret s e f : local_step s (ret_st s e f).
Proof. done. Qed.

Lemma local_step_intr s n : s_events s = S n -> local_step s (intr_st s n).
Proof. intros E. repeat split. simpl. lia. Qed.

Lemma local_step_ret_l s s1 e f : local_step s s1 -> local_step s (ret_st s1 e f).
Proof. intros [[??]?]. done. Qed.

Lemma later_local s s' : local_step s s' -> later s s'.
Proof. by intros [? _]. Qed.

Create HintDb steps.
#[export] Hint Resolve local_step_ret local_step_intr local_step_ret_l later_local : steps.
#[export] Hint Extern 1 (local_step _ _) => reflexivity : steps.
#[export] Hint Extern 1 (later _ _) => reflexivity : steps.

(** Files with a new file [temp], inode [i], open for writing on [fd]: the
    state of a file under construction on top of [f]. *)
Definition writing_fs (f : fs) (fd : Z) (i : positive) (temp : string) (d : list byte) (b : bool) : fs :=
  mkFs (<[temp := i]> (f_names f)) (f_stable f)
    (<[i := mkInode d b]> (f_inodes f)) (<[fd := FdFile i (length d) true]> (f_fds f)).

(** ** Lemmas *)

Section Rules.
Context `{Libc}.

Lemma wp_get_errno (Q : outcome Z -> state -> Prop) s :
  Q (Done (s_errno s)) s -> wp (perform GetErrno) Q s.
Proof. intros HQ. apply wp_perform. by intros r s' [-> ->]. Qed.

Lemma interrupted_wp (b : bool) s :
  wp (interrupted b)
    (returns (fun r s' => r = b && bool_decide (s_errno s = EINTR) /\ s' = s)) s.
Proof. destruct b; [|done]. by apply wp_bind, wp_get_errno, wp_ret. Qed.

Lemma errno_status_wp p s :
  wp (errno_status p)
    (returns (fun st s' => st = mkStatus kIoError (p +:+ strerror (s_errno s)) /\ s' = s)) s.
Proof. by apply wp_bind, wp_get_errno, wp_ret. Qed.

(** An RPC operation adds itself to the traffic and leaves the files alone. *)
Lemma rpc_rule c s :
  wp (perform (Rpc c)) (returns (fun r s' =>
    s_quiet s' = s_quiet s /\ s_fs s' = s_fs s /\ s_trace s' = s_trace s ++ [ev c r] /\
    rpc_events c r (s_events s) (s_events s') /\ rpc_typed c r = true)) s.
Proof. apply wp_perform. intros r s' Hpost. cbn [returns call_post] in *. by destruct Hpost. Qed.

(** Any operation but a message from the peer leaves the events alone too. *)
Lemma rpc_quiet_rule c s :
  (forall r n n', rpc_events c r n n' -> n = n') ->
  wp (perform (Rpc c)) (returns (fun r s' =>
    later s s' /\ s_fs s' = s_fs s /\ s_trace s' = s_trace s ++ [ev c r])) s.
Proof.
  intros Hc. eapply wp_returns_mono; [apply rpc_rule|].
  intros r s' (Hq & Hfs & Htr & Hev & _). apply Hc in Hev. split; [split; [done|lia]|done].
Qed.

End Rules.

(** Steps over the two error helpers. *)
Ltac step_interrupted :=
  eapply wp_bind_returns; [apply interrupted_wp|]; intros ? ? [-> ->];
  cbn [andb s_errno intr_st ret_st].
Ltac end_errno st :=
  eapply wp_returns_mono; [apply errno_status_wp|]; intros st ? [-> ->].

Section Loops.
Context `{Libc}.

Lemma write_rule f fd i temp d b data s (P : Z -> state -> Prop) :
  s_fs s = writing_fs f fd i temp d b ->
  (forall k e b', (k <= length data)%nat -> (s_quiet s = true -> data <> [] -> (0 < k)%nat) ->
     blen (d ++ take k data) <= off_max ->
     P (Z.of_nat k) (ret_st s e (writing_fs f fd i temp (d ++ take k data) b'))) ->
  (forall n, s_events s = S n -> P (-1) (intr_st s n)) ->
  (forall e, e <> EINTR -> (s_quiet s = true -> off_max < blen (d ++ data)) ->
     P (-1) (ret_st s e (s_fs s))) ->
  wp (perform (Write fd data)) (returns P) s.
Proof.
  intros Hs Hok Hintr Herr. apply wp_perform.
  intros r s' Hpost. cbn [returns call_post] in *.
  destruct Hpost as [j pos nd k e Hfd Hi Hk Hq Hmax|n En|e He Hq].
  - rewrite Hs in Hfd, Hi |- *. simpl in Hfd, Hi |- *. simplify_map_eq.
    rewrite !insert_insert_eq, splice_end by done.
    replace (length d + k)%nat with (length (d ++ take k data)) by (rewrite length_app, length_take; lia).
    apply Hok; [done|done|]. unfold blen. rewrite length_app, length_take. lia.
  - by apply Hintr.
  - apply Herr; [done|]. intros [Q|(j & pos & Hfd & Hmax)]%Hq.
    + specialize (Q i (length d)). rewrite Hs in Q. simpl in Q. simplify_map_eq. by specialize (Q eq_refl).
    + rewrite Hs in Hfd. simpl in Hfd. simplify_map_eq. unfold blen. by rewrite length_app.
Qed.

(** [WriteAll] appends all of the data, or reports kIoError after a prefix; the
    reason is a fault, or a file that would become too large. *)
Definition write_result (s : state) (d data : list byte) (st : Status) (d' : list byte) : Prop :=
  (blen d <= off_max -> blen (d ++ d') <= off_max) /\ d' `prefix_of` data /\
  (st = Status_Ok /\ d' = data \/
   code st = kIoError /\ (s_quiet s = true -> off_max < blen (d ++ data))).

Lemma WriteAll_loop_wp fuel f fd i temp d b data written s :
  s_fs s = writing_fs f fd i temp d b ->
  0 <= written -> (length data - Z.to_nat written + s_events s < fuel)%nat ->
  wp (WriteAll_loop fuel fd data written)
    (returns (fun st s' => local_step s s' /\ exists d' b',
       s_fs s' = writing_fs f fd i temp (d ++ d') b' /\
       write_result s d (zdrop written data) st d')) s.
Proof.
  revert d b written s. induction fuel as [|fuel IH]; intros d b written s Hs Hw Hf; [lia|].
  cbn [WriteAll_loop]. case_bool_decide as Hlt; cycle 1.
  { apply wp_ret. split; [done|]. exists [], b. rewrite app_nil_r. split; [done|].
    rewrite zdrop_all by lia. unfold write_result. rewrite app_nil_r. auto using prefix_nil. }
  assert (Hne : zdrop written data <> []) by (apply zdrop_nonempty; lia).
  eapply wp_bind_returns; [|intros a s' HP; exact HP].
  eapply write_rule; [exact Hs|..].
  - intros k e b' Hk Hq Hmax. step_interrupted.
    rewrite bool_decide_false by lia. cbn [andb]. case_bool_decide as Hk0.
    + end_errno st. split; [done|].
      exists (take k (zdrop written data)), b'. split; [done|]. split; [done|].
      split; [apply prefix_take|]. right. split; [done|].
      intros Q. specialize (Hq Q Hne). lia.
    + assert (Hlen : length (zdrop written data) = (length data - Z.to_nat written)%nat)
        by (unfold zdrop; by rewrite length_drop).
      eapply wp_returns_mono; [eapply IH; [done|lia|simpl; lia]|].
      intros st s2 (Hl & d' & b2 & Hs2 & Hsz & Hpre & Hst). split; [by etransitivity; [|exact Hl]|].
      exists (take k (zdrop written data) ++ d'), b2. rewrite app_assoc. split; [done|].
      unfold write_result. rewrite app_assoc. split; [auto|]. split.
      { rewrite <- (take_zdrop_step k written data) at 2 by done. by apply prefix_app. }
      rewrite <- app_assoc, take_zdrop_step in Hst by done.
      destruct Hst as [[-> ->]|]; [left|by right]. by rewrite take_zdrop_step.
  - intros n En. step_interrupted.
    rewrite bool_decide_true by done. rewrite (bool_decide_true (EINTR = _)) by done.
    eapply wp_returns_mono; [eapply (IH d b); [done|lia|simpl; lia]|].
    intros st s2 (Hl & H2). split; [|done]. transitivity (intr_st s n); auto with steps.
  - intros e He Hq. step_interrupted.
    rewrite (bool_decide_true (-1 < 0)), (bool_decide_false (e = EINTR)) by done.
    rewrite bool_decide_true by done. end_errno st. split; [done|].
    exists [], b. unfold write_result. rewrite app_nil_r. split; [done|]. auto using prefix_nil.
Qed.

Lemma WriteAll_wp fuel f fd i temp d b data s :
  s_fs s = writing_fs f fd i temp d b -> (length data + s_events s < fuel)%nat ->
  wp (WriteAll fuel fd data)
    (returns (fun st s' => local_step s s' /\ exists d' b',
       s_fs s' = writing_fs f fd i temp (d ++ d') b' /\ write_result s d data st d')) s.
Proof.
  intros Hs Hf. eapply (WriteAll_loop_wp fuel f fd i temp d b data 0 s Hs); [done|].
  change (Z.to_nat 0) with 0%nat. lia.
Qed.

(** A file open for reading: the descriptor's inode and offset. *)
Definition reading (s : state) (fd : Z) (i : positive) (pos : nat) (nd : inode) : Prop :=
  f_fds (s_fs s) !! fd = Some (FdFile i pos false) /\ f_inodes (s_fs s) !! i = Some nd.

Lemma reading_not_bad s fd i pos nd : reading s fd i pos nd -> ~ bad_fd s fd false.
Proof. intros [Hfd Hi] Hb. apply Hb in Hfd. congruence. Qed.

(** What one successful read at [off] delivers, or why there is none. *)
Definition pread_result (s : state) (nd : inode) (n off : Z) (r : StatusOr (list byte)) : Prop :=
  (exists k, read_bytes (i_data nd) (Z.to_nat off) n k /\
     r = SO_value (take k (drop (Z.to_nat off) (i_data nd)))) \/
  (exists st, r = SO_error st /\ code st = kIoError /\ s_quiet s = false).

Lemma PreadSome_loop_wp fuel fd n off i pos nd s :
  reading s fd i pos nd -> 0 <= off -> (s_events s < fuel)%nat ->
  wp (PreadSome_loop fuel fd n off)
    (returns (fun r s' => local_step s s' /\ s_fs s' = s_fs s /\ pread_result s nd n off r)) s.
Proof.
  revert s. induction fuel as [|fuel IH]; intros s Hr Hoff Hf; [lia|].
  cbn [PreadSome_loop]. apply wp_perform_bind. intros r s' Hpost. cbn [call_post] in Hpost.
  destruct Hpost as [j p nd' k e Hfd Hi Hoff' Hk|m Em|e He Hq]; step_interrupted.
  - rewrite bool_decide_false by done. apply wp_ret.
    destruct Hr as [Hfd' Hi']. simplify_eq.
    split_and!; auto with steps. left. by exists k.
  - rewrite !bool_decide_true by done.
    eapply wp_returns_mono; [apply IH; [done|done|simpl; lia]|].
    intros r s2 (Hl & Hfs & Hres). split_and!; [|done|done].
    transitivity (intr_st s m); auto with steps.
  - rewrite (bool_decide_true (None = None)), (bool_decide_false (e = EINTR)) by done.
    eapply wp_bind_returns; [apply errno_status_wp|]. intros st s2 [-> ->]. apply wp_ret.
    split_and!; auto with steps. right. eexists. split_and!; [done|done|].
    apply not_true_is_false. intros [Hb|?]%Hq; [by apply reading_not_bad in Hr|lia].
Qed.

Lemma PreadSome_wp fuel fd n off i pos nd s :
  reading s fd i pos nd -> 0 <= off <= off_max -> (s_events s < fuel)%nat ->
  wp (PreadSome fuel fd n off)
    (returns (fun r s' => local_step s s' /\ s_fs s' = s_fs s /\ pread_result s nd n off r)) s.
Proof.
  intros Hr Hoff Hf. unfold PreadSome. rewrite bool_decide_false by lia.
  by apply (PreadSome_loop_wp fuel fd n off i pos nd s Hr); [lia|].
Qed.

Lemma read_retry_wp fuel fd n i pos nd s :
  reading s fd i pos nd -> (s_events s < fuel)%nat ->
  wp (read_retry fuel fd n)
    (returns (fun r s' => local_step s s' /\
       ((exists k, read_bytes (i_data nd) pos n k /\ r = Some (take k (drop pos (i_data nd))) /\
           s_fs s' = set_fds (<[fd := FdFile i (pos + k) false]> (f_fds (s_fs s))) (s_fs s)) \/
        (r = None /\ s_quiet s = false /\ s_fs s' = s_fs s)))) s.
Proof.
  revert s. induction fuel as [|fuel IH]; intros s Hr Hf; [lia|].
  cbn [read_retry]. apply wp_perform_bind. intros r s' Hpost. cbn [call_post] in Hpost.
  destruct Hpost as [j p nd' k e Hfd Hi Hk|m Em|e He Hq]; step_interrupted.
  - rewrite bool_decide_false by done. apply wp_ret.
    destruct Hr as [Hfd' Hi']. simplify_eq.
    split; auto with steps. left. by exists k.
  - rewrite !bool_decide_true by done.
    eapply wp_returns_mono; [apply IH; [done|simpl; lia]|].
    intros r s2 (Hl & Hres). split; [|done].
    transitivity (intr_st s m); auto with steps.
  - rewrite (bool_decide_true (None = None)), (bool_decide_false (e = EINTR)) by done.
    apply wp_ret. split; auto with steps. right. split_and!; [done| |done].
    apply not_true_is_false. intros Hb%Hq. by apply reading_not_bad in Hr.
Qed.

End Loops.
