(* ===== verification/IoTheorems.v ===== *)
(** * The retry loop over [write]: that it ends, and what it transfers, whatever
    the calls return. *)
From S2P Require Import Prelude Status Path Proto System Prog UniqueFd MemOS FileIO.

(** ** Definitions *)

(** A named file with content [d], open on [fd] for writing at its end. *)
Definition open_at_end (f : fs) (fd : Z) (i : positive) (name : string) (d : list byte) (b : bool) : Prop :=
  f_names f !! name = Some i /\ f_inodes f !! i = Some (mkInode d b) /\
  f_fds f !! fd = Some (FdFile i (length d) true).

(** The files with [x] appended through [fd]. *)
Definition appended (f : fs) (fd : Z) (i : positive) (d x : list byte) (b : bool) : fs :=
  mkFs (f_names f) (f_stable f) (<[i := mkInode (d ++ x) b]> (f_inodes f))
    (<[fd := FdFile i (length (d ++ x)) true]> (f_fds f)).

(** ** Lemmas *)

Lemma open_at_end_writing f fd i name d b : open_at_end f fd i name d b -> f = writing_fs f fd i name d b.
Proof.
  intros (Hn & Hi & Hfd). destruct f as [names stable inodes fds]. unfold writing_fs. cbn in *.
  f_equal; by rewrite insert_id.
Qed.

Lemma writing_appended f fd i name d b x b' :
  open_at_end f fd i name d b -> writing_fs f fd i name (d ++ x) b' = appended f fd i d x b'.
Proof. intros (Hn & _ & _). unfold writing_fs, appended. by rewrite insert_id. Qed.

Section Loop.
Context `{Posix} `{Libc}.

(** ** Properties *)

(** C34: [WriteAll] returns in every environment, after as many rounds as there
    are bytes and interruptions; it has appended all of the data when it reports
    OK and a prefix of it, touching nothing else, when it reports kIoError; without
    faults it reports OK exactly when the file does not outgrow the largest offset. *)
Theorem WriteAll_appends fuel fd data f i name d b w
  (Hf : s_fs (view w) = f) (Hopen : open_at_end f fd i name d b) (Hmax : blen d <= off_max)
  (Hfuel : (length data + s_events (view w) < fuel)%nat) :
  let r := run (WriteAll fuel fd data) w in
  exists st x b', r.1 = Done st /\ s_fs (view r.2) = appended f fd i d x b' /\
    x `prefix_of` data /\ blen (d ++ x) <= off_max /\
    (st = Status_Ok /\ x = data \/ code st = kIoError) /\
    (s_quiet (view w) = true -> (st = Status_Ok <-> blen (d ++ data) <= off_max)).
Proof.
  cbv zeta. pose proof (open_at_end_writing _ _ _ _ _ _ Hopen) as Hw. rewrite Hw in Hf.
  destruct (returns_run _ _ w (WriteAll_wp fuel f fd i name d b data (view w) Hf Hfuel))
    as (st & Hr & _ & x & b' & Hfs & Hsz & Hpre & Hres).
  exists st, x, b'. rewrite <- (writing_appended _ _ _ _ _ _ _ _ Hopen).
  split_and!; [done|done|done|by apply Hsz|by destruct Hres as [?|[? _]]; [left|right]|].
  intros Hq. destruct Hres as [[-> ->]|[Hc Hbig]].
  - split; [intros _; by apply Hsz|done].
  - specialize (Hbig Hq). split; [by intros ->|lia].
Qed.

End Loop.

(** ** Witnesses *)

(** A file with three bytes, open for writing at its end. *)
Definition w_fs : fs :=
  mkFs {["/f" := 1%positive]} ∅ {[1%positive := mkInode [x61; x62; x63] true]}
    {[3 := FdFile 1 3 true]}.

Lemma WriteAll_appends_witness :
  lookup (M:=gmap positive inode) 1%positive (f_inodes (s_fs (view
    (run (WriteAll 9 3 [x64; x65]) (faulty_world 2 [Interrupt; Short] w_fs)).2))) =
    Some (mkInode [x61; x62; x63; x64; x65] false).
Proof.
  destruct (WriteAll_appends 9 3 [x64; x65] w_fs 1 "/f" [x61; x62; x63] true
    (faulty_world 2 [Interrupt; Short] w_fs)) as (st & x & b & Hr & Hfs & _ & _ & Hst & _);
    [done|by split_and!|vm_compute; done|cbn; lia|].
  vm_compute. reflexivity.
Defined.
