(* ===== verification/Files.v ===== *)
(** * Opening, creating, discarding: what the calls on names do to the files,
    for the store and for the client alike. *)
From S2P Require Import Prelude Status Path Proto System Prog UniqueFd FileIO.

(** ** Definitions *)

(** The file a name refers to. *)
Definition lookup_file (f : fs) (p : string) : option (list byte) :=
  i ← f_names f !! p; i_data <$> f_inodes f !! i.

(** The files after an attempt that left inode [i] behind, with or without the
    temporary name. *)
Definition left_fs (f : fs) (temp : string) (i : positive) (nd : inode) (keep : bool) : fs :=
  mkFs (if keep then <[temp := i]> (f_names f) else f_names f) (f_stable f)
    (<[i := nd]> (f_inodes f)) (f_fds f).

(** The files while the temporary file is being discarded. *)
Definition scrap_fs (f : fs) (fd : Z) (temp : string) (i : positive) (d : list byte) (b keep : bool) : fs :=
  mkFs (if keep then <[temp := i]> (f_names f) else f_names f) (f_stable f)
    (<[i := mkInode d b]> (f_inodes f)) (<[fd := FdFile i (length d) true]> (f_fds f)).

(** The files after a commit of [nd] under the name [final]. *)
Definition committed_fs (f : fs) (temp final : string) (i : positive) (nd : inode) (keep : bool)
    (m : gmap string positive) : fs :=
  mkFs (<[final := i]> (if keep then <[temp := i]> (f_names f) else f_names f)) m
    (<[i := nd]> (f_inodes f)) (f_fds f).

(** ** Lemmas *)

(** Opening an existing file for reading adds a descriptor and nothing else. *)
Definition opened_fs (fd : Z) (i : positive) (f : fs) : fs :=
  set_fds (<[fd := FdFile i 0 false]> (f_fds f)) f.

Inductive open_read (p : string) (s : state) : Z -> state -> Prop :=
| open_read_ok r i nd e :
    f_names (s_fs s) !! p = Some i -> f_inodes (s_fs s) !! i = Some nd ->
    0 <= r -> f_fds (s_fs s) !! r = None ->
    open_read p s r (ret_st s e (opened_fs r i (s_fs s)))
| open_read_missing :
    lookup_file (s_fs s) p = None -> open_read p s (-1) (ret_st s ENOENT (s_fs s))
| open_read_error e :
    e <> ENOENT -> (s_quiet s = true -> name_fits p = false) ->
    open_read p s (-1) (ret_st s e (s_fs s)).

Lemma open_read_rule p l s :
  fs_wf (s_fs s) -> has O_CREAT l = false -> has O_DIRECTORY l = false -> has O_WRONLY l = false ->
  wp (perform (Open p l)) (returns (open_read p s)) s.
Proof.
  intros Hwf Hc Hd Hw. apply wp_perform. intros r s' Hpost. cbn [returns call_post] in *.
  destruct Hpost as [r i e Hx Hdir Hn Hr Hfd|r i e Hx Hn Hft Hi Hr Hfd|r e Hx Hr Hfd|Hn Hq|Hx Ht|e H1 H2 Hq].
  - destruct (wf_names _ Hwf _ _ Hn) as [nd Hnd]. rewrite Hw. by eapply open_read_ok.
  - congruence.
  - congruence.
  - apply open_read_missing. unfold lookup_file. by rewrite Hn.
  - unfold exclusive in Hx. rewrite Hc in Hx. done.
  - by apply open_read_error.
Qed.

Lemma close_opened r i f : f_fds f !! r = None -> close_fs r (opened_fs r i f) = f.
Proof.
  intros Hr. unfold close_fs, opened_fs. simpl. rewrite delete_insert_id by done. by destruct f.
Qed.

Lemma opened_reading s e r i nd f :
  f_inodes f !! i = Some nd -> reading (ret_st s e (opened_fs r i f)) r i 0 nd.
Proof. intros Hi. split; [apply lookup_insert_eq|done]. Qed.

Lemma lookup_file_some f p i nd :
  f_names f !! p = Some i -> f_inodes f !! i = Some nd -> lookup_file f p = Some (i_data nd).
Proof. intros Hn Hi. unfold lookup_file. rewrite Hn. simpl. by rewrite Hi. Qed.

Inductive open_excl (p : string) (s : state) : Z -> state -> Prop :=
| open_excl_new r i e :
    f_names (s_fs s) !! p = None -> f_inodes (s_fs s) !! i = None -> name_fits p = true ->
    0 <= r -> f_fds (s_fs s) !! r = None ->
    open_excl p s r (ret_st s e (writing_fs (s_fs s) r i p [] false))
| open_excl_taken :
    is_Some (f_names (s_fs s) !! p) -> open_excl p s (-1) (ret_st s EEXIST (s_fs s))
| open_excl_error e :
    e <> EEXIST -> (s_quiet s = true -> name_fits p = false) ->
    open_excl p s (-1) (ret_st s e (s_fs s)).

Lemma open_excl_rule p s :
  wp (perform (Open p [O_WRONLY; O_CREAT; O_EXCL; O_CLOEXEC])) (returns (open_excl p s)) s.
Proof.
  apply wp_perform. intros r s' Hpost. cbn [returns call_post] in *.
  destruct Hpost as [r i e Hx|r i e _ Hn Hfit Hi Hr Hfd|r e Hd|Hn Hq|_ Ht|e H1 H2 Hq].
  - done.
  - by apply open_excl_new.
  - done.
  - apply open_excl_error; [done|]. intros Hqt. by destruct (Hq Hqt).
  - by apply open_excl_taken.
  - by apply open_excl_error.
Qed.

(** Removing a name that exists: it is gone, or a fault leaves it. *)
Lemma unlink_rule temp i s :
  f_names (s_fs s) !! temp = Some i -> name_fits temp = true ->
  wp (perform (Unlink temp)) (returns (fun _ s' => local_step s s' /\ exists keep : bool,
    (s_quiet s = true -> keep = false) /\
    s_fs s' = set_names (if keep then f_names (s_fs s) else delete temp (f_names (s_fs s))) (s_fs s))) s.
Proof.
  intros Hi Hfit. apply wp_perform. intros r s' Hpost. cbn [returns call_post] in *.
  destruct Hpost as [e _|Hn|e _ Hq]; (split; [auto with steps|]).
  - by exists false.
  - congruence.
  - exists true. split; [|by destruct (s_fs s)]. intros Hqt%Hq. congruence.
Qed.

Lemma close_scrap f fd temp i d b keep :
  f_fds f !! fd = None -> close_fs fd (scrap_fs f fd temp i d b keep) = left_fs f temp i (mkInode d b) keep.
Proof. intros Hfd. unfold close_fs, scrap_fs, set_fds, left_fs. cbn. by rewrite delete_insert_id. Qed.

Lemma close_writing f fd temp i d b :
  f_fds f !! fd = None -> close_fs fd (writing_fs f fd i temp d b) = left_fs f temp i (mkInode d b) true.
Proof. intros Hfd. unfold close_fs, writing_fs, set_fds, left_fs. cbn. by rewrite delete_insert_id. Qed.

Lemma lookup_left f temp i nd keep p :
  fs_wf f -> f_inodes f !! i = None -> p <> temp ->
  lookup_file (left_fs f temp i nd keep) p = lookup_file f p.
Proof.
  intros Hwf Hi Hp. unfold lookup_file, left_fs. cbn.
  assert (E : (if keep then <[temp:=i]> (f_names f) else f_names f) !! p = f_names f !! p)
    by (destruct keep; [by rewrite lookup_insert_ne|done]).
  rewrite E. destruct (f_names f !! p) as [j|] eqn:Hj; [|done]. cbn.
  rewrite lookup_insert_ne; [done|]. intros <-. destruct (wf_names _ Hwf _ _ Hj). congruence.
Qed.

Lemma wf_extend f names stable i nd :
  fs_wf f -> blen (i_data nd) <= off_max ->
  (forall p j, names !! p = Some j -> j = i \/ f_names f !! p = Some j) ->
  fs_wf (mkFs names stable (<[i := nd]> (f_inodes f)) (f_fds f)).
Proof.
  intros Hwf Hmax Hn.
  assert (Hin : forall j, is_Some (f_inodes f !! j) -> is_Some (<[i := nd]> (f_inodes f) !! j)).
  { intros j Hj. destruct (decide (i = j)) as [->|]; [by rewrite lookup_insert_eq|by rewrite lookup_insert_ne]. }
  split; cbn.
  - intros p j [->|Hj]%Hn; [by rewrite lookup_insert_eq|]. by eapply Hin, wf_names.
  - intros fd j pos w Hj. by eapply Hin, wf_fds.
  - intros j nd' Hj. destruct (decide (i = j)) as [->|].
    + rewrite lookup_insert_eq in Hj. by injection Hj as <-.
    + rewrite lookup_insert_ne in Hj by done. by eapply wf_size.
Qed.

Lemma wf_left f temp i nd keep :
  fs_wf f -> blen (i_data nd) <= off_max -> fs_wf (left_fs f temp i nd keep).
Proof.
  intros Hwf Hmax. apply wf_extend; [done..|]. intros p j Hj. destruct keep; [|by right].
  apply lookup_insert_Some in Hj as [[_ <-]|[_ ?]]; auto.
Qed.

Lemma wf_delete f p : fs_wf f -> fs_wf (set_names (delete p (f_names f)) f).
Proof.
  intros [H1 H2 H3]. split; cbn; [|exact H2|exact H3].
  intros q i [_ Hq]%lookup_delete_Some. by eapply H1.
Qed.

Lemma lookup_committed f temp final i nd keep m p :
  fs_wf f -> f_inodes f !! i = None -> p <> temp ->
  lookup_file (committed_fs f temp final i nd keep m) p =
    if decide (p = final) then Some (i_data nd) else lookup_file f p.
Proof.
  intros Hwf Hi Hp. case_decide as E.
  - subst. unfold lookup_file, committed_fs. cbn. by rewrite lookup_insert_eq; cbn; rewrite lookup_insert_eq.
  - rewrite <- (lookup_left f temp i nd keep p) by done.
    unfold lookup_file, committed_fs, left_fs. cbn. by rewrite lookup_insert_ne.
Qed.

Lemma wf_committed f temp final i nd keep m :
  fs_wf f -> blen (i_data nd) <= off_max -> fs_wf (committed_fs f temp final i nd keep m).
Proof.
  intros Hwf Hmax. apply wf_extend; [done..|]. intros p j Hj.
  apply lookup_insert_Some in Hj as [[_ <-]|[_ Hj]]; [by left|]. destruct keep; [|by right].
  apply lookup_insert_Some in Hj as [[_ <-]|[_ ?]]; auto.
Qed.

