(* ===== verification/ChunkFormat.v ===== *)
(** * The persistent format of a chunk file: the 80-byte header of
    src/src/storage/worker/file_chunk_store.cpp followed by the payload. *)
From S2P Require Import Prelude Status Types.

(** ** Definitions *)

(** ['S','T','C','H','V','1','\0','\0'] *)
Definition kMagic : list byte := [x53; x54; x43; x48; x56; x31; x00; x00].
Definition kChecksumLength : nat := 64.
Definition sizeof_u64 : nat := 8.
Definition kHeaderSize : nat := length kMagic + sizeof_u64 + kChecksumLength.
Definition kBufferSize : Z := 3 * 1024 * 1024.

(** The loop that stores the size, byte by byte, after the magic. *)
Definition store_size (size : Z) (header : list byte) : list byte :=
  fold_left
    (fun header index =>
       <[(length kMagic + index)%nat :=
           byte_of_Z (Z.land (Z.shiftr size (Z.of_nat index * 8)) 255)]> header)
    (seq 0 sizeof_u64) header.

Definition MakeHeader (size : Z) (checksum : Checksum) : list byte :=
  let header := replicate kHeaderSize x00 in
  let header := splice 0 kMagic header in
  let header := store_size size header in
  splice (length kMagic + sizeof_u64)
    (take kChecksumLength (string_bytes (value checksum))) header.

(** The parts of [ReadHeader] that look at a complete header. *)
Definition magic_ok (header : list byte) : bool :=
  bool_decide (take (length kMagic) header = kMagic).

Definition load_size (header : list byte) : Z :=
  fold_left
    (fun size index =>
       Z.lor size (u64 (Z.shiftl
         (byte_to_Z (default x00 (header !! (length kMagic + index)%nat)))
         (Z.of_nat index * 8))))
    (seq 0 sizeof_u64) 0.

Definition load_checksum (header : list byte) : Checksum :=
  mkChecksum kBlake3
    (bytes_string (take kChecksumLength (drop (length kMagic + sizeof_u64) header))).

(** [size > max - kHeaderSize || st_size < 0 || st_size != size + kHeaderSize] *)
Definition size_mismatch (size st_size : Z) : bool :=
  bool_decide (size > u64_max - Z.of_nat kHeaderSize) || bool_decide (st_size < 0) ||
  bool_decide (u64 st_size <> u64_add size (Z.of_nat kHeaderSize)).

(** Reference: what a whole file says, if it is a chunk file. *)
Definition parse_file (d : list byte) : option (Z * Checksum) :=
  if bool_decide (length d < kHeaderSize)%nat then None
  else
    let header := take kHeaderSize d in
    if negb (magic_ok header) then None
    else if negb (ok (ValidateChecksum (load_checksum header))) then None
    else if size_mismatch (load_size header) (blen d) then None
    else Some (load_size header, load_checksum header).

Definition chunk_file (c : Checksum) (payload : list byte) : list byte :=
  MakeHeader (blen payload) c ++ payload.

Definition file_payload (d : list byte) : list byte := drop kHeaderSize d.

(** ** Lemmas *)

Lemma kHeaderSize_eq : kHeaderSize = 80%nat.
Proof. done. Qed.

(** The store loop writes the little-endian digits. *)
Lemma store_size_spec size m :
  length m = 64%nat ->
  store_size size (kMagic ++ replicate 8 x00 ++ m) = kMagic ++ le_bytes 8 size ++ m.
Proof.
  intros Hm. unfold store_size. cbn [seq sizeof_u64 fold_left].
  unfold kMagic. cbn [length app replicate Nat.add insert list_insert le_bytes].
  rewrite !Z.shiftr_shiftr by lia. done.
Qed.

Lemma MakeHeader_spec size c :
  ok (ValidateChecksum c) = true ->
  MakeHeader size c = kMagic ++ le_bytes 8 size ++ string_bytes (value c).
Proof.
  intros Hc%ValidateChecksum_length. unfold MakeHeader, kChecksumLength.
  rewrite take_ge by lia.
  change (splice 0 kMagic (replicate kHeaderSize x00)) with (kMagic ++ replicate 8 x00 ++ replicate 64 x00).
  rewrite store_size_spec by done. rewrite app_assoc. unfold splice.
  assert (Hl : length (kMagic ++ le_bytes 8 size) = 16%nat) by (by rewrite length_app, length_le_bytes).
  change (length kMagic + sizeof_u64)%nat with 16%nat.
  rewrite take_app_length' by done. rewrite length_app, Hl.
  rewrite drop_ge by (rewrite length_app, Hl, length_replicate; lia).
  rewrite length_replicate. cbn [Nat.sub Nat.add replicate app].
  by rewrite app_nil_r, app_assoc.
Qed.

Lemma length_MakeHeader size c :
  ok (ValidateChecksum c) = true -> length (MakeHeader size c) = kHeaderSize.
Proof.
  intros Hc. rewrite MakeHeader_spec, !length_app, length_le_bytes by done.
  by rewrite (ValidateChecksum_length _ Hc).
Qed.

Lemma load_loop bs pre post acc :
  (length bs <= 8)%nat ->
  forall k, (length pre = 8 + k)%nat -> (k + length bs <= 8)%nat ->
  fold_left
    (fun size index => Z.lor size (u64 (Z.shiftl
       (byte_to_Z (default x00 ((pre ++ bs ++ post) !! (8 + index)%nat))) (Z.of_nat index * 8))))
    (seq k (length bs)) acc
  = Z.lor acc (Z.shiftl (le_value bs) (Z.of_nat k * 8)).
Proof.
  revert pre acc. induction bs as [|b bs IH]; intros pre acc Hlen k Hpre Hk; cbn [length seq fold_left le_value].
  { rewrite Z.shiftl_0_l, Z.lor_0_r. done. }
  replace ((pre ++ (b :: bs) ++ post) !! (8 + k)%nat) with (Some b).
  2:{ rewrite lookup_app_r by lia. by replace (8 + k - length pre)%nat with 0%nat by lia. }
  replace (pre ++ (b :: bs) ++ post) with ((pre ++ [b]) ++ bs ++ post) by (by rewrite <- app_assoc).
  cbn [length] in Hlen, Hk.
  rewrite (IH _ _ ltac:(lia) (S k)) by (rewrite ?length_app; simpl; lia). change (default x00 (Some b)) with b.
  pose proof (byte_to_Z_range b) as Hb.
  rewrite u64_small.
  2:{ unfold is_u64, u64_modulus. rewrite Z.shiftl_mul_pow2 by lia.
      assert (Hpow : 0 < 2 ^ (Z.of_nat k * 8)) by (apply Z.pow_pos_nonneg; lia). split; [apply Z.mul_nonneg_nonneg; lia|].
      apply Z.lt_le_trans with (2 ^ 8 * 2 ^ (Z.of_nat k * 8)).
      - apply Z.mul_lt_mono_pos_r; [done|lia].
      - rewrite <- Z.pow_add_r by lia. apply Z.pow_le_mono_r; lia. }
  rewrite Z.shiftl_lor, Z.shiftl_shiftl, Z.lor_assoc by lia.
  do 2 f_equal. lia.
Qed.

Lemma load_size_spec m s post :
  length m = 8%nat -> length s = 8%nat -> load_size (m ++ s ++ post) = le_value s.
Proof.
  intros Hm Hs. unfold load_size, sizeof_u64. change (length kMagic) with 8%nat.
  rewrite <- Hs at 1. rewrite (load_loop s m post 0) by lia.
  by rewrite Z.lor_0_l, Z.shiftl_0_r.
Qed.

(** Any complete header splits into its three fields. *)
Lemma header_fields (h : list byte) :
  length h = kHeaderSize ->
  exists m s c, h = m ++ s ++ c /\ length m = 8%nat /\ length s = 8%nat /\ length c = 64%nat.
Proof.
  rewrite kHeaderSize_eq. intros Hh. exists (take 8 h), (take 8 (drop 8 h)), (drop 8 (drop 8 h)).
  rewrite !take_drop, !length_take, !length_drop. split_and!; [done|lia..].
Qed.

Lemma decode_fields m s c post :
  length m = 8%nat -> length s = 8%nat -> length c = 64%nat ->
  let h := take kHeaderSize ((m ++ s ++ c) ++ post) in
  magic_ok h = bool_decide (m = kMagic) /\ load_size h = le_value s /\
  load_checksum h = mkChecksum kBlake3 (bytes_string c).
Proof.
  intros Hm Hs Hc h.
  assert (Eh : h = m ++ s ++ c).
  { unfold h. rewrite take_app_length' by (rewrite !length_app, Hm, Hs, Hc; done). done. }
  rewrite Eh. split_and!.
  - unfold magic_ok. change (length kMagic) with 8%nat. by rewrite take_app_length' by done.
  - by apply load_size_spec.
  - unfold load_checksum. change (length kMagic + sizeof_u64)%nat with 16%nat.
    rewrite app_assoc, drop_app_length' by (rewrite length_app; lia).
    by rewrite take_ge by (unfold kChecksumLength; lia).
Qed.

Lemma size_mismatch_false size st :
  is_u64 size -> is_u64 st ->
  size_mismatch size st = false <-> st = size + Z.of_nat kHeaderSize.
Proof.
  rewrite kHeaderSize_eq. intros Hsz Hst. unfold size_mismatch. rewrite kHeaderSize_eq, (u64_small st) by done.
  rewrite !orb_false_iff, !bool_decide_eq_false. unfold is_u64, u64_max in *. split.
  - intros [[H1 H2] H3]. rewrite u64_add_small in H3 by (unfold is_u64; lia).
    destruct (Z.eq_dec st (size + Z.of_nat 80)); [done|]. by destruct H3.
  - intros ->. rewrite u64_add_small by (unfold is_u64; lia). split_and!; [lia|lia|by intros []].
Qed.

Lemma chunk_file_length c payload :
  ok (ValidateChecksum c) = true -> blen (chunk_file c payload) = 80 + blen payload.
Proof.
  intros Hc. unfold chunk_file. rewrite blen_app. f_equal. unfold blen.
  by rewrite length_MakeHeader by done.
Qed.

Lemma file_payload_chunk_file c payload :
  ok (ValidateChecksum c) = true -> file_payload (chunk_file c payload) = payload.
Proof.
  intros Hc. unfold file_payload, chunk_file. by rewrite drop_app_length' by (by rewrite length_MakeHeader).
Qed.

Lemma checksum_bytes c :
  ok (ValidateChecksum c) = true -> mkChecksum kBlake3 (bytes_string (string_bytes (value c))) = c.
Proof. destruct c as [[] v]; simpl. by rewrite bytes_string_bytes. Qed.

Lemma parse_chunk_file c payload :
  ok (ValidateChecksum c) = true -> is_u64 (blen payload + 80) ->
  parse_file (chunk_file c payload) = Some (blen payload, c).
Proof.
  intros Hc Hsz. pose proof (ValidateChecksum_length _ Hc) as Hcl.
  assert (Hp : is_u64 (blen payload)) by (pose proof (blen_nonneg payload); unfold is_u64 in *; lia).
  unfold parse_file. rewrite bool_decide_false.
  2:{ unfold chunk_file. rewrite length_app, length_MakeHeader by done. lia. }
  pose proof (chunk_file_length c payload Hc) as Hlen.
  destruct (decode_fields kMagic (le_bytes 8 (blen payload)) (string_bytes (value c)) payload)
    as (Em & Es & Ec); [done|apply length_le_bytes|done|].
  assert (E : chunk_file c payload
    = (kMagic ++ le_bytes 8 (blen payload) ++ string_bytes (value c)) ++ payload).
  { unfold chunk_file. by rewrite MakeHeader_spec. }
  rewrite <- E in Em, Es, Ec. rewrite Em, Es, Ec, bool_decide_true by done. cbn [negb].
  rewrite checksum_bytes, Hc by done. cbn [negb].
  rewrite le_value_le_bytes by apply blen_nonneg.
  change (2 ^ (8 * Z.of_nat 8)) with u64_modulus. rewrite Z.mod_small by done.
  assert (Hf : is_u64 (blen (chunk_file c payload))) by (rewrite Hlen; unfold is_u64 in *; lia).
  rewrite (proj2 (size_mismatch_false _ _ Hp Hf)); [done|].
  rewrite Hlen, kHeaderSize_eq. lia.
Qed.

Lemma le_bytes_le_value bs n : length bs = n -> le_bytes n (le_value bs) = bs.
Proof.
  intros <-. induction bs as [|b bs IH]; [done|]. cbn [le_value le_bytes length].
  pose proof (byte_to_Z_range b) as Hb.
  assert (Hlow : Z.land (Z.lor (byte_to_Z b) (Z.shiftl (le_value bs) 8)) 255 = byte_to_Z b).
  { rewrite Z.land_lor_distr_l, !land_255, Z.shiftl_mul_pow2 by lia.
    change (2 ^ 8) with 256. rewrite Z_mod_mult, Z.lor_0_r. by apply Z.mod_small. }
  rewrite Hlow, byte_of_to_Z. f_equal.
  rewrite Z.shiftr_lor, Z.shiftr_shiftl_l, Z.shiftl_0_r by lia.
  rewrite Z.shiftr_div_pow2, Z.div_small, Z.lor_0_l by (change (2 ^ 8) with 256; lia). exact IH.
Qed.

Lemma le_value_range bs : 0 <= le_value bs < 2 ^ (8 * blen bs).
Proof.
  assert (H : 0 <= le_value bs).
  { induction bs as [|b bs IH]; [done|]. cbn [le_value]. apply Z.lor_nonneg.
    split; [apply byte_to_Z_range|by apply Z.shiftl_nonneg]. }
  split; [done|].
  rewrite <- (le_bytes_le_value bs (length bs)) by done.
  rewrite le_value_le_bytes by done. unfold blen. rewrite length_le_bytes.
  apply Z.mod_pos_bound, Z.pow_pos_nonneg; lia.
Qed.

(** A file that parses is a chunk file: the header determines nothing else. *)
Lemma parse_file_inv d size c :
  parse_file d = Some (size, c) -> is_u64 (blen d) ->
  ok (ValidateChecksum c) = true /\ blen (file_payload d) = size /\
  d = chunk_file c (file_payload d).
Proof.
  unfold parse_file. intros Hp Hd. case_bool_decide as Hlen; [done|].
  destruct (header_fields (take kHeaderSize d)) as (m & s & x & Eh & Hm & Hs & Hx).
  { rewrite length_take. lia. }
  destruct (decode_fields m s x (file_payload d)) as (Em & Es & Ec); [done..|].
  assert (Ed : (m ++ s ++ x) ++ file_payload d = d) by (rewrite <- Eh; apply take_drop).
  rewrite Ed in Em, Es, Ec. rewrite Em, Es, Ec in Hp.
  case_bool_decide as Hmg; [|done]. cbn [negb] in Hp.
  destruct (ok _) eqn:Hok; [|done]. cbn [negb] in Hp.
  assert (Hr : is_u64 (le_value s)).
  { pose proof (le_value_range s) as R. unfold blen in R. rewrite Hs in R. exact R. }
  destruct (size_mismatch _ _) eqn:Hmis; [done|]. injection Hp as <- <-.
  apply size_mismatch_false in Hmis; [|done..].
  assert (Hpl : blen (file_payload d) = le_value s).
  { rewrite <- Ed in Hmis at 1. rewrite blen_app, kHeaderSize_eq in Hmis.
    unfold blen at 1 in Hmis. rewrite !length_app, Hm, Hs, Hx in Hmis. lia. }
  split_and!; [done|done|]. unfold chunk_file. rewrite MakeHeader_spec by done.
  rewrite Hpl, le_bytes_le_value by done. simpl value. rewrite string_bytes_string, <- Hmg. by rewrite Ed.
Qed.

(** ** Properties *)

(** C40: the persistent format: a chunk file is the magic "STCHV1", the size as
    eight little-endian bytes, the 64 digits of the checksum and the payload;
    reading it back gives the size, the checksum and the payload that were
    written, and a file the header checks accept is, byte for byte, the file
    written for what they read from it. *)
Theorem chunk_format_roundtrip c payload
  (Hc : ok (ValidateChecksum c) = true) (Hsize : is_u64 (blen payload + 80)) :
  let d := MakeHeader (blen payload) c ++ payload in
  MakeHeader (blen payload) c =
    string_bytes "STCHV1" ++ [x00; x00] ++ le_bytes 8 (blen payload) ++ string_bytes (value c) /\
  blen d = 80 + blen payload /\ magic_ok d = true /\ load_size d = blen payload /\ load_checksum d = c /\
  size_mismatch (load_size d) (blen d) = false /\
  forall d' size' c', parse_file d' = Some (size', c') -> is_u64 (blen d') ->
    d' = MakeHeader size' c' ++ file_payload d' /\ blen (file_payload d') = size'.
Proof.
  intros d. pose proof (ValidateChecksum_length _ Hc) as Hcl.
  pose proof (chunk_file_length c payload Hc) as Hlen. change (chunk_file c payload) with d in Hlen.
  assert (Hp : is_u64 (blen payload)) by (pose proof (blen_nonneg payload); unfold is_u64 in *; lia).
  assert (Ed : d = kMagic ++ le_bytes 8 (blen payload) ++ string_bytes (value c) ++ payload).
  { unfold d. by rewrite MakeHeader_spec, <- !app_assoc by done. }
  assert (Es : load_size d = blen payload).
  { rewrite Ed, load_size_spec by (done || apply length_le_bytes).
    rewrite le_value_le_bytes by apply blen_nonneg. by apply Z.mod_small. }
  split; [by rewrite MakeHeader_spec by done|split; [exact Hlen|]].
  split; [by rewrite Ed|split; [exact Es|split; [|split]]].
  - unfold load_checksum. rewrite Ed. change (length kMagic + sizeof_u64)%nat with 16%nat.
    rewrite app_assoc, drop_app_length' by (rewrite length_app, length_le_bytes; done).
    rewrite take_app_length' by done. by apply checksum_bytes.
  - rewrite Es. apply size_mismatch_false; [done|rewrite Hlen; by rewrite Z.add_comm|].
    rewrite Hlen, kHeaderSize_eq. lia.
  - intros d' size' c' Hparse Hd'. destruct (parse_file_inv _ _ _ Hparse Hd') as (_ & Hsz & E).
    split; [|done]. rewrite E at 1. unfold chunk_file. by rewrite Hsz.
Qed.

Lemma chunk_format_roundtrip_witness :
  load_size (MakeHeader 5 (mkChecksum kBlake3 (hex_string (replicate 32 x07))) ++ string_bytes "hello") = 5.
Proof.
  exact (proj1 (proj2 (proj2 (proj2 (chunk_format_roundtrip (mkChecksum kBlake3 (hex_string (replicate 32 x07)))
    (string_bytes "hello") ltac:(by vm_compute) ltac:(by vm_compute)))))).
Defined.
