(* ===== verification/Streams.v ===== *)
(** * The stream interfaces of the data path
    (src/include/storage/storage/worker/streams.h), the contract their
    implementations promise, and the in-memory streams of the unit tests. *)
From S2P Require Import Prelude Status Path Proto System Prog UniqueFd FileIO.

(** ** Definitions *)

(** [StatusOr<std::size_t> Read(std::span<std::byte> buffer)]: for a buffer of
    the given size, the bytes placed at its front; their number is the count. *)
Class ChunkInputStream (S : Type) :=
  in_Read : S -> Z -> prog (StatusOr (list byte) * S).

(** [Status Write(std::span<const std::byte> data)] *)
Class ChunkOutputStream (S : Type) :=
  out_Write : S -> list byte -> prog (Status * S).

(** What a store may rely on: a stream is an object of its own, it does not
    touch the files, and delivers no more than the buffer holds;
    [in_delivered] is everything it has handed out so far, [in_exhausted] holds
    once it has reported its end, [in_wf] is the invariant of the object, and
    [in_broken] is what a stream that fails has met. *)
Class InputContract (S : Type) `{ChunkInputStream S} := {
  in_delivered : S -> list rpc_event -> list byte;
  in_exhausted : S -> list rpc_event -> Prop;
  in_broken : S -> list rpc_event -> Prop;
  in_wf : S -> list rpc_event -> Prop;
  in_Read_ok : forall (x : S) (n : Z) (s : state), 0 < n -> in_wf x (s_trace s) ->
    wp (in_Read x n) (returns (fun r s' =>
      later s s' /\ s_fs s' = s_fs s /\ in_wf r.2 (s_trace s') /\
      match so_value r.1 with
      | Some bytes =>
          in_delivered r.2 (s_trace s') = in_delivered x (s_trace s) ++ bytes /\
          blen bytes <= n /\ (bytes = [] -> in_exhausted r.2 (s_trace s'))
      | None =>
          in_delivered r.2 (s_trace s') = in_delivered x (s_trace s) /\
          ok (so_status r.1) = false /\ in_broken r.2 (s_trace s')
      end)) s }.

(** [out_written] is everything the sink has accepted so far; [out_broken] is
    what a sink that refuses data has met. *)
Class OutputContract (S : Type) `{ChunkOutputStream S} := {
  out_written : S -> list rpc_event -> list byte;
  out_broken : S -> list rpc_event -> Prop;
  out_Write_ok : forall (x : S) (d : list byte) (s : state),
    wp (out_Write x d) (returns (fun r s' =>
      later s s' /\ s_fs s' = s_fs s /\
      out_written r.2 (s_trace s') =
        out_written x (s_trace s) ++ (if ok r.1 then d else []) /\
      (ok r.1 = true \/ out_broken r.2 (s_trace s')))) s }.

(** The unit tests' [VectorInput]: its data, which nothing changes, and the
    offset reached. *)
Record VectorInput (vi_data : list byte) := mkVectorInput { vi_offset : nat }.
Arguments mkVectorInput {vi_data} _.
Arguments vi_offset {vi_data} _.

#[export] Instance VectorInput_stream vi_data : ChunkInputStream (VectorInput vi_data) :=
  fun x n =>
    let count := Z.to_nat (Z.min n (Z.of_nat (length vi_data - vi_offset x))) in
    mret (SO_value (take count (drop (vi_offset x) vi_data)),
          mkVectorInput (vi_offset x + count)).

(** The unit tests' [VectorOutput]. *)
Record VectorOutput := mkVectorOutput { vo_value : list byte }.

#[export] Instance VectorOutput_stream : ChunkOutputStream VectorOutput :=
  fun x d => mret (Status_Ok, mkVectorOutput (vo_value x ++ d)).

(** ** The in-memory streams keep the contracts *)

#[export] Program Instance VectorInput_contract vi_data : InputContract (VectorInput vi_data) := {
  in_delivered x _ := take (vi_offset x) vi_data;
  in_exhausted x _ := drop (vi_offset x) vi_data = [];
  in_broken _ _ := False;
  in_wf _ _ := True }.
Next Obligation.
  intros d [o] n s Hn _. apply wp_ret. split_and!; [reflexivity|done|done|]. simpl.
  split_and!.
  - by rewrite take_take_drop.
  - unfold blen. rewrite length_take. lia.
  - intros Hnil%(f_equal length). rewrite length_take, length_drop in Hnil. simpl in Hnil.
    apply nil_length_inv. rewrite length_drop. lia.
Qed.

#[export] Program Instance VectorOutput_contract : OutputContract VectorOutput := {
  out_written x _ := vo_value x; out_broken _ _ := False }.
Next Obligation. intros [v] d s. apply wp_ret. split_and!; [done..|by left]. Qed.
