(* ===== verification/ChunkStore.v ===== *)
(** * The interface [ChunkStore] (src/include/storage/storage/worker/chunk_store.h):
    its operations as a class, what an implementation promises as a second
    class, and the abstract store both are measured against. *)
From stdpp Require Import functions.
From S2P Require Import Prelude Status Types Path Proto System Prog UniqueFd Blake3 FileIO Streams.

(** ** Definitions *)

(** The virtual functions.  The stream operands are objects with an identity:
    [addr] is the address of the input object, [fuel] bounds the loops. *)
Class ChunkStore (C : Type) := {
  cs_Put : forall {S} `{ChunkInputStream S}, C -> nat -> Z -> PutChunkRequest -> S -> prog (Status * S);
  cs_Get : forall {S} `{ChunkOutputStream S}, C -> nat -> GetChunkRequest -> S -> prog (Status * S);
  cs_Head : C -> nat -> ChunkId -> prog (StatusOr HeadChunkResponse);
  cs_Delete : C -> ChunkId -> prog Status;
  cs_Size : C -> nat -> ChunkId -> prog (StatusOr Z);
  cs_Exists : C -> nat -> ChunkId -> prog bool }.

(** ** The abstract store: a partial map from identifiers to contents *)

Definition chunk : Type := Checksum * list byte.
Definition store_map : Type := ChunkId -> option chunk.

(** Equal contents. *)
Definition same_map (m m' : store_map) : Prop := forall id, m' id = m id.

#[export] Instance same_map_equiv : Equivalence same_map.
Proof.
  split; [by intros m id|by intros m m' H id|].
  intros a b c H1 H2 id. by rewrite H2, H1.
Qed.

Lemma store_insert_eq (m : store_map) id x : (<[id := x]> m) id = x.
Proof. exact (fn_lookup_insert m id x). Qed.

Lemma store_insert_ne (m : store_map) id id' x : id <> id' -> (<[id := x]> m) id' = m id'.
Proof. exact (fn_lookup_insert_ne m id id' x). Qed.

(** The checks on the received data. *)
Definition data_matches `{Blake3} (req : PutChunkRequest) (d : list byte) : Prop :=
  blen d = expected_size req /\ hex_string (blake3 d) = value (expected_checksum req).

#[export] Instance data_matches_dec `{Blake3} req d : Decision (data_matches req d).
Proof. unfold data_matches. apply _. Defined.

(** Content that agrees with its checksum. *)
Definition chunk_valid `{Blake3} (x : chunk) : Prop :=
  ok (ValidateChecksum x.1) = true /\ hex_string (blake3 x.2) = value x.1.

Section Specs.
Context `{Blake3}.

(** [accepts]: the store takes the identifier; [calm]: nothing but the request
    and the stored chunks can make the operation fail. *)

Inductive put_reason (calm : Prop) (broken : Prop) (m : store_map) (req : PutChunkRequest)
    (d : list byte) (fin : Prop) : Status -> Prop :=
| pr_input st : ok st = false -> broken -> put_reason calm broken m req d fin st
| pr_corrupt st :
    code st = kCorruption -> ~ data_matches req d -> (fin \/ expected_size req < blen d) ->
    put_reason calm broken m req d fin st
| pr_exists st :
    code st = kAlreadyExists -> fin -> data_matches req d -> is_Some (m (put_chunk_id req)) ->
    put_reason calm broken m req d fin st
| pr_fault st :
    code st = kIoError \/ code st = kUnavailable -> (calm -> False) ->
    put_reason calm broken m req d fin st.

(** [Put] with an input that delivered [d]. *)
Inductive put_spec (accepts : bool) (calm : Prop) (broken : Prop) (m : store_map)
    (req : PutChunkRequest) (d : list byte) (fin : Prop) : Status -> store_map -> Prop :=
| ps_invalid st m' :
    accepts && ok (ValidateChecksum (expected_checksum req)) = false ->
    code st = kInvalidArgument -> d = [] -> same_map m m' ->
    put_spec accepts calm broken m req d fin st m'
| ps_rejected st m' :
    accepts && ok (ValidateChecksum (expected_checksum req)) = true ->
    put_reason calm broken m req d fin st -> same_map m m' ->
    put_spec accepts calm broken m req d fin st m'
| ps_stored st m' :
    accepts && ok (ValidateChecksum (expected_checksum req)) = true ->
    fin -> data_matches req d -> m (put_chunk_id req) = None ->
    same_map (<[put_chunk_id req := Some (expected_checksum req, d)]> m) m' ->
    (st = Status_Ok \/ code st = kIoError /\ (calm -> False)) ->
    put_spec accepts calm broken m req d fin st m'.

Inductive head_spec (accepts : bool) (calm : Prop) (m : store_map) (id : ChunkId)
  : StatusOr HeadChunkResponse -> Prop :=
| hs_invalid st :
    accepts = false -> code st = kInvalidArgument -> head_spec accepts calm m id (SO_error st)
| hs_missing st :
    accepts = true -> m id = None -> code st = kNotFound -> head_spec accepts calm m id (SO_error st)
| hs_found c p :
    accepts = true -> m id = Some (c, p) ->
    head_spec accepts calm m id (SO_value (mkHeadChunkResponse id (blen p) c))
| hs_fault st :
    accepts = true -> code st = kIoError -> (calm -> False) -> head_spec accepts calm m id (SO_error st).

(** [Get] handing [out] to its output. *)
Inductive get_spec (accepts : bool) (calm : Prop) (broken : Prop) (m : store_map)
    (req : GetChunkRequest) : Status -> list byte -> Prop :=
| gs_invalid st :
    accepts = false -> code st = kInvalidArgument -> get_spec accepts calm broken m req st []
| gs_missing st :
    accepts = true -> m (get_chunk_id req) = None -> code st = kNotFound ->
    get_spec accepts calm broken m req st []
| gs_range c p :
    accepts = true -> m (get_chunk_id req) = Some (c, p) ->
    ok (ValidateByteRange (range req) (blen p)) = false ->
    get_spec accepts calm broken m req (ValidateByteRange (range req) (blen p)) []
| gs_done c p :
    accepts = true -> m (get_chunk_id req) = Some (c, p) ->
    ok (ValidateByteRange (range req) (blen p)) = true ->
    get_spec accepts calm broken m req Status_Ok (ztake (size (range req)) (zdrop (offset (range req)) p))
| gs_broken st c p n :
    accepts = true -> m (get_chunk_id req) = Some (c, p) ->
    ok (ValidateByteRange (range req) (blen p)) = true ->
    ok st = false -> (calm -> broken) -> Z.of_nat n < size (range req) ->
    get_spec accepts calm broken m req st
      (take n (ztake (size (range req)) (zdrop (offset (range req)) p)))
| gs_fault st :
    accepts = true -> code st = kIoError -> (calm -> False) -> get_spec accepts calm broken m req st [].

Inductive delete_spec (accepts : bool) (calm : Prop) (m : store_map) (id : ChunkId)
  : Status -> store_map -> Prop :=
| ds_invalid st m' :
    accepts = false -> code st = kInvalidArgument -> same_map m m' -> delete_spec accepts calm m id st m'
| ds_missing st m' :
    accepts = true -> m id = None -> code st = kNotFound -> same_map m m' ->
    delete_spec accepts calm m id st m'
| ds_done m' :
    accepts = true -> is_Some (m id) -> same_map (<[id := None]> m) m' ->
    delete_spec accepts calm m id Status_Ok m'
| ds_fault st m' :
    accepts = true -> code st = kIoError -> (calm -> False) -> same_map m m' ->
    delete_spec accepts calm m id st m'.

(** The two ways a Put ends, the calm aside. *)
Lemma put_spec_cases accepts calm broken m req d fin st m' :
  put_spec accepts calm broken m req d fin st m' ->
  (ok st = false /\ same_map m m') \/
  ((st = Status_Ok \/ code st = kIoError) /\ fin /\ data_matches req d /\ m (put_chunk_id req) = None /\
   same_map (<[put_chunk_id req := Some (expected_checksum req, d)]> m) m').
Proof.
  intros [st' m1 _ Hc _ E|st' m1 _ Hwhy E|st' m1 _ Hfin Hm Hn E Hst].
  - left. split; [apply not_ok_code; congruence|done].
  - left. split; [|done].
    destruct Hwhy as [|? Hc ?|? Hc|? [Hc|Hc]]; [done|apply not_ok_code; congruence..].
  - right. split_and!; try done. destruct Hst as [->|[? _]]; auto.
Qed.

(** What a Get hands out, and what its success means. *)
Lemma get_spec_cases accepts calm broken m req st d :
  get_spec accepts calm broken m req st d ->
  (d = [] \/ exists c p n, m (get_chunk_id req) = Some (c, p) /\
     d = take n (ztake (size (range req)) (zdrop (offset (range req)) p))) /\
  (ok st = true -> exists c p, m (get_chunk_id req) = Some (c, p) /\ accepts = true /\
     ok (ValidateByteRange (range req) (blen p)) = true /\ st = Status_Ok /\
     d = ztake (size (range req)) (zdrop (offset (range req)) p)).
Proof.
  intros [st' Ha Hc|st' Ha Hn Hc|c p Ha Hm Hv|c p Ha Hm Hv|st' c p n Ha Hm Hv Hst Hno _|st' Ha Hc Hno].
  1,2,6: split; [by left|]; intros Hok%ok_code; congruence.
  - split; [by left|]. congruence.
  - split; [|intros _; by exists c, p]. right.
    exists c, p, (length (ztake (size (range req)) (zdrop (offset (range req)) p))). by rewrite take_ge.
  - split; [right; by exists c, p, n|]. congruence.
Qed.

(** A stored range is handed out, unless the output refuses it. *)
Lemma get_spec_calm accepts (calm : Prop) broken m req st d c p :
  get_spec accepts calm broken m req st d -> calm -> accepts = true -> m (get_chunk_id req) = Some (c, p) ->
  ok (ValidateByteRange (range req) (blen p)) = true -> st = Status_Ok \/ broken.
Proof.
  intros [st' Ha Hc|st' Ha Hn Hc|c' p' Ha Hm Hv|c' p' Ha Hm Hv|st' c' p' n Ha Hm Hv Hst Hno _|st' Ha Hc Hno]
    Hcalm Hacc Hp Hr; try congruence; [by left|right; by apply Hno].
Qed.

(** Less than the range is handed out when the Get does not succeed. *)
Lemma get_spec_short accepts calm broken m req st d :
  get_spec accepts calm broken m req st d -> ok st = false -> 0 < size (range req) -> blen d < size (range req).
Proof.
  intros [st' Ha Hc|st' Ha Hn Hc|c p Ha Hm Hv|c p Ha Hm Hv|st' c p n Ha Hm Hv Hst Hno Hlt|st' Ha Hc Hno] Hst' Hs; try done.
  unfold blen. rewrite length_take. lia.
Qed.

Lemma delete_spec_cases accepts calm m id st m' :
  delete_spec accepts calm m id st m' ->
  (st = Status_Ok /\ is_Some (m id) /\ same_map (<[id := None]> m) m') \/ (ok st = false /\ same_map m m').
Proof.
  intros [st' m1 _ Hc E|st' m1 _ Hn Hc E|m1 _ Hs E|st' m1 _ Hc _ E]; [right|right|by left|right];
    (split; [apply not_ok_code; congruence|done]).
Qed.

End Specs.

(** ** The contract of an implementation

    [cs_chunks] reads the abstract store off the files, [cs_inv] is the
    invariant of a store nobody else writes to, [cs_clean] that no failed
    attempt left anything behind, [cs_free] that none stands in the way of a
    Put with this identifier and stream, [cs_reach] and [cs_room] that the file system
    can name the chunk and hold it.  [cs_need] is enough fuel for [n] bytes. *)
Class ChunkStoreContract (C : Type) `{ChunkStore C, Blake3} := {
  cs_chunks : C -> fs -> store_map;
  cs_inv : C -> fs -> Prop;
  cs_accepts : C -> ChunkId -> bool;
  cs_clean : C -> fs -> Prop;
  cs_free : C -> fs -> ChunkId -> Z -> Prop;
  cs_reach : C -> ChunkId -> Prop;
  cs_room : C -> ChunkId -> Z -> Z -> Prop;
  cs_need : C -> Z -> nat -> nat;
  cs_need_mono : forall c n e n' e', n <= n' -> (e <= e')%nat -> (cs_need c n e <= cs_need c n' e')%nat;
  cs_clean_free : forall c f id addr, cs_clean c f -> cs_free c f id addr;
  cs_valid : forall c f id x, cs_inv c f -> cs_chunks c f id = Some x -> chunk_valid x;
  cs_size : forall c f id ck p, cs_inv c f -> cs_chunks c f id = Some (ck, p) -> blen p <= off_max;
  cs_Put_ok : forall S `{InputContract S} (c : C) fuel addr req (input : S) s,
    cs_inv c (s_fs s) -> is_u64 (expected_size req) -> in_wf input (s_trace s) ->
    (cs_need c (expected_size req) (s_events s) < fuel)%nat ->
    wp (cs_Put c fuel addr req input) (returns (fun r s' =>
      later s s' /\ cs_inv c (s_fs s') /\
      (s_quiet s = true -> cs_clean c (s_fs s) -> cs_clean c (s_fs s')) /\
      exists d, in_delivered r.2 (s_trace s') = in_delivered input (s_trace s) ++ d /\
        put_spec (cs_accepts c (put_chunk_id req))
          (s_quiet s = true /\ cs_free c (s_fs s) (put_chunk_id req) addr /\
           cs_room c (put_chunk_id req) addr (expected_size req)) (in_broken r.2 (s_trace s'))
          (cs_chunks c (s_fs s)) req d (in_exhausted r.2 (s_trace s')) r.1
          (cs_chunks c (s_fs s')))) s;
  cs_Get_ok : forall S `{OutputContract S} (c : C) fuel req (output : S) s,
    cs_inv c (s_fs s) -> is_u64 (offset (range req)) -> is_u64 (size (range req)) ->
    (cs_need c (size (range req)) (s_events s) < fuel)%nat ->
    wp (cs_Get c fuel req output) (returns (fun r s' =>
      later s s' /\ s_fs s' = s_fs s /\
      exists d, out_written r.2 (s_trace s') = out_written output (s_trace s) ++ d /\
        get_spec (cs_accepts c (get_chunk_id req))
          (s_quiet s = true /\ cs_reach c (get_chunk_id req)) (out_broken r.2 (s_trace s'))
          (cs_chunks c (s_fs s)) req r.1 d)) s;
  cs_Head_ok : forall (c : C) fuel id s,
    cs_inv c (s_fs s) -> (cs_need c 0 (s_events s) < fuel)%nat ->
    wp (cs_Head c fuel id) (returns (fun r s' =>
      local_step s s' /\ s_fs s' = s_fs s /\
      head_spec (cs_accepts c id) (s_quiet s = true /\ cs_reach c id) (cs_chunks c (s_fs s)) id r)) s;
  cs_Delete_ok : forall (c : C) id s,
    cs_inv c (s_fs s) ->
    wp (cs_Delete c id) (returns (fun st s' =>
      local_step s s' /\ cs_inv c (s_fs s') /\ (cs_clean c (s_fs s) -> cs_clean c (s_fs s')) /\
      delete_spec (cs_accepts c id) (s_quiet s = true /\ cs_reach c id) (cs_chunks c (s_fs s)) id st
        (cs_chunks c (s_fs s')))) s;
  cs_Size_ok : forall (c : C) fuel id s,
    cs_inv c (s_fs s) -> (cs_need c 0 (s_events s) < fuel)%nat ->
    wp (cs_Size c fuel id) (returns (fun r s' =>
      local_step s s' /\ s_fs s' = s_fs s /\
      exists h, head_spec (cs_accepts c id) (s_quiet s = true /\ cs_reach c id)
          (cs_chunks c (s_fs s)) id h /\
        r = match so_value h with Some x => SO_value (hr_size x) | None => SO_error (so_status h) end)) s;
  cs_Exists_ok : forall (c : C) fuel id s,
    cs_inv c (s_fs s) -> (cs_need c 0 (s_events s) < fuel)%nat ->
    wp (cs_Exists c fuel id) (returns (fun r s' =>
      local_step s s' /\ s_fs s' = s_fs s /\
      exists h, head_spec (cs_accepts c id) (s_quiet s = true /\ cs_reach c id)
          (cs_chunks c (s_fs s)) id h /\ r = so_ok h)) s }.
