(* ===== verification/FileStore.v ===== *)
(** * FileChunkStore: the operations of
    src/src/storage/worker/file_chunk_store.cpp, statement by statement. *)
From S2P Require Import Prelude Status Types Path Proto System Prog UniqueFd Blake3 FileIO.
From S2P Require Import ChunkFormat Streams.

(** ** Definitions *)

Section FileChunkStore.
Context `{Libc} `{Blake3}.

(** [IoError(operation, path)] reads [errno] when it is called. *)
Definition IoError (operation path : string) : prog Status :=
  errno_status (operation +:+ " " +:+ path +:+ ": ").

(** The loop of [ReadHeader] that fills the header; an early return is [inl]. *)
Fixpoint ReadHeader_loop (fuel pfuel : nat) (fd : Z) (header : list byte) (read : Z)
  : prog (Status + list byte) :=
  match fuel with
  | O => Fuel
  | S fuel =>
      if bool_decide (read < blen header) then
        result ← PreadSome pfuel fd (blen header - read) read;
        match so_value result with
        | None => mret (inl (so_status result))
        | Some bytes =>
            if bool_decide (blen bytes = 0) then
              mret (inl (Status_make kCorruption "truncated chunk header"))
            else
              ReadHeader_loop fuel pfuel fd (splice (Z.to_nat read) bytes header)
                (read + blen bytes)
        end
      else mret (inr header)
  end.

(** [StatusOr<HeadChunkResponse> ReadHeader(int fd, const ChunkId &chunk_id)] *)
Definition ReadHeader (fuel : nat) (fd : Z) (chunk_id : ChunkId)
  : prog (StatusOr HeadChunkResponse) :=
  header ← ReadHeader_loop fuel fuel fd (replicate kHeaderSize x00) 0;
  match header with
  | inl status => mret (SO_error status)
  | inr header =>
      if negb (magic_ok header) then
        mret (SO_error (Status_make kCorruption "invalid chunk file magic"))
      else
        let size := load_size header in
        let checksum := load_checksum header in
        if negb (ok (ValidateChecksum checksum)) then
          mret (SO_error (Status_make kCorruption "invalid persisted checksum"))
        else
          file_stat ← perform (Fstat fd);
          match file_stat with
          | None => st ← errno_status "fstat failed: "; mret (SO_error st)
          | Some st_size =>
              if size_mismatch size st_size then
                mret (SO_error (Status_make kCorruption "chunk file size does not match header"))
              else mret (SO_value (mkHeadChunkResponse chunk_id size checksum))
          end
  end.

(** [FileChunkStore::ValidateId] *)
Definition ValidateId (chunk_id : ChunkId) : Status :=
  if negb (ChunkId_valid chunk_id) then Status_make kInvalidArgument "chunk_id cannot be empty"
  else if bool_decide (string_size (chunk_id_value chunk_id) > 1024) then
    Status_make kInvalidArgument "chunk_id is too long"
  else Status_Ok.

(** The encoding loop of [FileChunkStore::PathFor]. *)
Definition encode_id (id : string) : string :=
  of_chars (fold_left
    (fun encoded character =>
       (encoded ++ [hex_digit (Z.shiftr (byte_to_Z character) 4)])
         ++ [hex_digit (Z.land (byte_to_Z character) 15)])
    (string_bytes id) []).

(** [FileChunkStore::PathFor]; [root] is the member [root_]. *)
Definition PathFor (root : string) (chunk_id : ChunkId) : string :=
  path_append root (encode_id (chunk_id_value chunk_id) +:+ ".chunk").

(** The temporary name of [Put]: [addr] is the address of the input object. *)
Definition temp_path_for (root : string) (chunk_id : ChunkId) (pid addr : Z) : string :=
  path_append root (path_filename (PathFor root chunk_id) +:+ ".tmp." +:+ to_string pid
                    +:+ "." +:+ to_string addr).

(** [const auto cleanup = [&]() { (void)::unlink(temp_path.c_str()); };] *)
Definition cleanup (temp_path : string) : prog unit :=
  _ ← perform (Unlink temp_path); mret tt.

Section Put.
Context {S : Type} `{ChunkInputStream S}.

(** The receiving loop of [Put]: the hasher and the byte count at the end of
    the input, or the status of an early return. *)
Fixpoint Put_loop (fuel wfuel : nat) (request : PutChunkRequest) (fd : Z) (temp_path : string)
    (h : hasher) (received : Z) (input : S) : prog ((Status + (hasher * Z)) * S) :=
  match fuel with
  | O => Fuel
  | Datatypes.S fuel =>
      x ← in_Read input kBufferSize;
      let '(count, input) := (x : StatusOr (list byte) * S) in
      match so_value count with
      | None => _ ← cleanup temp_path; mret (inl (so_status count), input)
      | Some bytes =>
          if bool_decide (blen bytes = 0) then mret (inr (h, received), input)
          else if bool_decide (blen bytes > kBufferSize)
               || bool_decide (received > expected_size request)
               || bool_decide (blen bytes > u64_sub (expected_size request) received)
          then
            _ ← cleanup temp_path;
            mret (inl (Status_make kCorruption "received more bytes than expected"), input)
          else
            let h := hasher_update h bytes in
            status ← WriteAll wfuel fd bytes;
            if negb (ok status) then _ ← cleanup temp_path; mret (inl status, input)
            else Put_loop fuel wfuel request fd temp_path h
                   (u64_add received (blen bytes)) input
      end
  end.

(** The end of [Put]: the new directory entry is forced to the disk. *)
Definition sync_root (root : string) : prog Status :=
  raw ← perform (Open root [O_RDONLY; O_DIRECTORY; O_CLOEXEC]);
  UniqueFd.scope_const raw (fun directory_fd =>
    if negb (UniqueFd.valid directory_fd) then IoError "fsync directory" root
    else
      synced ← perform (Fsync (UniqueFd.get directory_fd));
      if bool_decide (synced <> 0) then IoError "fsync directory" root
      else mret Status_Ok).

(** The commit of a complete temporary file, from [link] to the end of [Put]. *)
Definition Put_commit (root : string) (chunk_id : ChunkId) (temp_path final_path : string)
  : prog Status :=
  linked ← perform (Link temp_path final_path);
  if bool_decide (linked <> 0) then
    link_error ← perform GetErrno;
    _ ← cleanup temp_path;
    if bool_decide (link_error = EEXIST) then
      mret (Status_make kAlreadyExists ("chunk already exists: " +:+ chunk_id_value chunk_id))
    else
      _ ← perform (SetErrno link_error);
      IoError "commit" final_path
  else
    _ ← cleanup temp_path;
    sync_root root.

(** [Put] once the temporary file is open on [fd]. *)
Definition Put_body (fuel : nat) (root : string) (request : PutChunkRequest)
    (temp_path final_path : string) (input : S) (fd : UniqueFd.t)
  : prog ((Status * S) * UniqueFd.t) :=
  let header := MakeHeader (expected_size request) (expected_checksum request) in
  status ← WriteAll fuel (UniqueFd.get fd) header;
  if negb (ok status) then _ ← cleanup temp_path; mret (status, input, fd)
  else
    x ← Put_loop fuel fuel request (UniqueFd.get fd) temp_path hasher_init 0 input;
    let '(r, input) := (x : (Status + (hasher * Z)) * S) in
    match r with
    | inl status => mret (status, input, fd)
    | inr (h, received) =>
        if bool_decide (received <> expected_size request) then
          _ ← cleanup temp_path;
          mret (Status_make kCorruption "received byte count does not match expected_size",
                input, fd)
        else if bool_decide (FinalizeHex h <> value (expected_checksum request)) then
          _ ← cleanup temp_path;
          mret (Status_make kCorruption "BLAKE3 checksum mismatch", input, fd)
        else
          synced ← perform (Fdatasync (UniqueFd.get fd));
          if bool_decide (synced <> 0) then
            status ← IoError "fdatasync" temp_path;
            _ ← cleanup temp_path;
            mret (status, input, fd)
          else
            fd ← UniqueFd.reset fd (-1);
            status ← Put_commit root (put_chunk_id request) temp_path final_path;
            mret (status, input, fd)
    end.

(** [FileChunkStore::Put] *)
Definition Put (fuel : nat) (root : string) (addr : Z) (request : PutChunkRequest) (input : S)
  : prog (Status * S) :=
  let status := ValidateId (put_chunk_id request) in
  if negb (ok status) then mret (status, input)
  else
    let status := ValidateChecksum (expected_checksum request) in
    if negb (ok status) then mret (status, input)
    else
      error ← perform (CreateDirectories root);
      match error with
      | Some message =>
          mret (Status_make kIoError ("create storage root failed: " +:+ message), input)
      | None =>
          let final_path := PathFor root (put_chunk_id request) in
          pid ← perform Getpid;
          let temp_path := temp_path_for root (put_chunk_id request) pid addr in
          raw ← perform (Open temp_path [O_WRONLY; O_CREAT; O_EXCL; O_CLOEXEC]);
          UniqueFd.scope raw (fun fd =>
            if negb (UniqueFd.valid fd) then
              e ← perform GetErrno;
              if bool_decide (e = EEXIST) then
                mret (Status_make kUnavailable "temporary file collision", input, fd)
              else status ← IoError "create" temp_path; mret (status, input, fd)
            else Put_body fuel root request temp_path final_path input fd)
      end.

End Put.

(** [errno == ENOENT ? kNotFound : IoError("open", path)] *)
Definition open_failure (chunk_id : ChunkId) (operation path : string) : prog Status :=
  e ← perform GetErrno;
  if bool_decide (e = ENOENT) then
    mret (Status_make kNotFound ("chunk not found: " +:+ chunk_id_value chunk_id))
  else IoError operation path.

(** [FileChunkStore::Head] *)
Definition Head (fuel : nat) (root : string) (chunk_id : ChunkId)
  : prog (StatusOr HeadChunkResponse) :=
  let status := ValidateId chunk_id in
  if negb (ok status) then mret (SO_error status)
  else
    let path := PathFor root chunk_id in
    raw ← perform (Open path [O_RDONLY; O_CLOEXEC; O_NOFOLLOW]);
    UniqueFd.scope_const raw (fun fd =>
      if negb (UniqueFd.valid fd) then
        status ← open_failure chunk_id "open" path; mret (SO_error status)
      else ReadHeader fuel (UniqueFd.get fd) chunk_id).

Section Get.
Context {S : Type} `{ChunkOutputStream S}.

Fixpoint Get_loop (fuel pfuel : nat) (fd : Z) (remaining offset : Z) (output : S)
  : prog (Status * S) :=
  match fuel with
  | O => Fuel
  | Datatypes.S fuel =>
      if bool_decide (remaining > 0) then
        let wanted := Z.min remaining kBufferSize in
        count ← PreadSome pfuel fd wanted offset;
        match so_value count with
        | None => mret (so_status count, output)
        | Some bytes =>
            if bool_decide (blen bytes = 0) then
              mret (Status_make kCorruption "unexpected EOF while reading chunk", output)
            else
              x ← out_Write output bytes;
              let '(status, output) := (x : Status * S) in
              if negb (ok status) then mret (status, output)
              else Get_loop fuel pfuel fd (u64_sub remaining (blen bytes))
                     (u64_add offset (blen bytes)) output
        end
      else mret (Status_Ok, output)
  end.

(** [FileChunkStore::Get] *)
Definition Get (fuel : nat) (root : string) (request : GetChunkRequest) (output : S)
  : prog (Status * S) :=
  head ← Head fuel root (get_chunk_id request);
  match so_value head with
  | None => mret (so_status head, output)
  | Some response =>
      let status := ValidateByteRange (range request) (hr_size response) in
      if negb (ok status) then mret (status, output)
      else
        let path := PathFor root (get_chunk_id request) in
        raw ← perform (Open path [O_RDONLY; O_CLOEXEC; O_NOFOLLOW]);
        UniqueFd.scope_const raw (fun fd =>
          if negb (UniqueFd.valid fd) then
            status ← open_failure (get_chunk_id request) "open" path; mret (status, output)
          else
            Get_loop fuel fuel (UniqueFd.get fd) (size (range request))
              (u64_add (offset (range request)) (Z.of_nat kHeaderSize)) output)
  end.

End Get.

(** [FileChunkStore::Delete] *)
Definition Delete (root : string) (chunk_id : ChunkId) : prog Status :=
  let status := ValidateId chunk_id in
  if negb (ok status) then mret status
  else
    let path := PathFor root chunk_id in
    unlinked ← perform (Unlink path);
    if bool_decide (unlinked <> 0) then open_failure chunk_id "delete" path
    else mret Status_Ok.

(** [FileChunkStore::Size] *)
Definition Size (fuel : nat) (root : string) (chunk_id : ChunkId) : prog (StatusOr Z) :=
  head ← Head fuel root chunk_id;
  mret (match so_value head with
        | Some response => SO_value (hr_size response)
        | None => SO_error (so_status head)
        end).

(** [FileChunkStore::Exists] *)
Definition Exists (fuel : nat) (root : string) (chunk_id : ChunkId) : prog bool :=
  head ← Head fuel root chunk_id; mret (so_ok head).

End FileChunkStore.
