(* ===== verification/StorePaths.v ===== *)
(** * The names FileChunkStore gives to its files: encoding, injectivity,
    confinement to the root directory. *)
From S2P Require Import Prelude Status Types Path Proto System Prog UniqueFd Blake3 FileIO.
From S2P Require Import ChunkFormat Streams FileStore.

(** ** Definitions *)

(** The names of committed and of temporary files under [root]. *)
Definition chunk_name (id : ChunkId) : string := encode_id (chunk_id_value id) +:+ ".chunk".
Definition temp_name (id : ChunkId) (pid addr : Z) : string :=
  chunk_name id +:+ ".tmp." +:+ to_string pid +:+ "." +:+ to_string addr.

(** ** Lemmas *)

Lemma encode_loop bs acc :
  fold_left
    (fun encoded character =>
       (encoded ++ [hex_digit (Z.shiftr (byte_to_Z character) 4)])
         ++ [hex_digit (Z.land (byte_to_Z character) 15)]) bs acc
  = acc ++ hex_chars bs.
Proof.
  revert acc. induction bs as [|b bs IH]; intros acc; cbn [fold_left hex_chars].
  - by rewrite app_nil_r.
  - rewrite IH. unfold hex_pair. by rewrite <- !app_assoc.
Qed.

(** The loop computes the reference encoding. *)
Lemma encode_id_spec id : encode_id id = hex_string (string_bytes id).
Proof. unfold encode_id. by rewrite encode_loop. Qed.

Lemma chars_hex_string bs : chars (hex_string bs) = hex_chars bs.
Proof. apply chars_of_chars. Qed.

Lemma lower_hex_plain (P : ascii -> bool) l :
  (forall c, lower_hex c = true -> P c = false) -> forallb lower_hex l = true ->
  existsb P l = false.
Proof.
  intros HP. induction l as [|c l IH]; [done|]. simpl.
  intros [Hc Hl]%andb_prop. by rewrite HP, IH.
Qed.

Lemma hex_no_slash bs : no_slash (hex_chars bs).
Proof.
  apply lower_hex_plain; [|apply hex_chars_lower].
  intros c Hc. unfold is_slash. apply bool_decide_eq_false. intros ->. done.
Qed.

(** A name whose first dot starts the suffix determines the part before it. *)
Lemma hex_suffix_inj (a b : list byte) (r r' : list ascii) :
  hex_chars a ++ "."%char :: r = hex_chars b ++ "."%char :: r' -> a = b /\ r = r'.
Proof.
  assert (Hdot : forall x, "."%char ∉ hex_chars x).
  { intros x Hin. pose proof (hex_chars_lower x) as Hx.
    rewrite List.forallb_forall in Hx. apply list_elem_of_In in Hin. by apply Hx in Hin. }
  intros H. apply app_cons_inj in H as (H1 & H2); [|done..].
  split; [by apply hex_chars_inj|done].
Qed.

Lemma chunk_name_chars id :
  chars (chunk_name id) =
    hex_chars (string_bytes (chunk_id_value id)) ++ "."%char :: chars "chunk".
Proof. unfold chunk_name. by rewrite chars_app, encode_id_spec, chars_hex_string. Qed.

Lemma temp_name_chars id pid addr :
  chars (temp_name id pid addr) =
    hex_chars (string_bytes (chunk_id_value id)) ++ "."%char ::
      (chars "chunk.tmp." ++ chars (to_string pid) ++ "."%char :: chars (to_string addr)).
Proof.
  unfold temp_name. rewrite !chars_app, chunk_name_chars, <- app_assoc. done.
Qed.

Lemma chunk_name_plain id : no_slash (chars (chunk_name id)) /\ chars (chunk_name id) <> [].
Proof.
  rewrite chunk_name_chars. split.
  - apply no_slash_app. split; [apply hex_no_slash|done].
  - by destruct (hex_chars _).
Qed.

Lemma temp_name_plain id pid addr :
  no_slash (chars (temp_name id pid addr)) /\ chars (temp_name id pid addr) <> [].
Proof.
  rewrite temp_name_chars. split.
  - apply no_slash_app. split; [apply hex_no_slash|].
    change ("."%char :: ?l) with (["."%char] ++ l).
    rewrite !no_slash_app. split_and!; try done; apply to_string_no_slash.
  - by destruct (hex_chars _).
Qed.

Lemma string_bytes_inj a b : string_bytes a = string_bytes b -> a = b.
Proof. intros H. by rewrite <- (bytes_string_bytes a), H, bytes_string_bytes. Qed.

Lemma chunk_name_inj a b : chunk_name a = chunk_name b -> a = b.
Proof.
  intros H%(f_equal chars). rewrite !chunk_name_chars in H.
  apply hex_suffix_inj in H as [H _]. destruct a, b. f_equal. by apply string_bytes_inj.
Qed.

Lemma temp_name_not_chunk a b pid addr : temp_name a pid addr <> chunk_name b.
Proof.
  intros H%(f_equal chars). rewrite temp_name_chars, chunk_name_chars in H.
  by apply hex_suffix_inj in H as [_ H].
Qed.

Lemma PathFor_name root id : PathFor root id = path_append root (chunk_name id).
Proof. done. Qed.

Lemma PathFor_filename root id : path_filename (PathFor root id) = chunk_name id.
Proof. apply path_filename_append; apply chunk_name_plain. Qed.

Lemma temp_path_name root id pid addr :
  temp_path_for root id pid addr = path_append root (temp_name id pid addr).
Proof. unfold temp_path_for. by rewrite PathFor_filename. Qed.

Lemma PathFor_inj root a b : PathFor root a = PathFor root b -> a = b.
Proof.
  intros H%(f_equal path_filename). rewrite !PathFor_filename in H. by apply chunk_name_inj.
Qed.

Lemma PathFor_not_temp root a b pid addr : PathFor root a <> temp_path_for root b pid addr.
Proof.
  intros H%(f_equal path_filename). rewrite PathFor_filename, temp_path_name in H.
  rewrite path_filename_append in H by apply temp_name_plain.
  symmetry in H. by apply temp_name_not_chunk in H.
Qed.

Lemma chunk_name_length id :
  Z.of_nat (String.length (chunk_name id)) = 2 * string_size (chunk_id_value id) + 6.
Proof.
  rewrite <- length_chars, chunk_name_chars, length_app, length_hex_chars, length_string_bytes.
  unfold string_size. simpl. lia.
Qed.

Lemma ValidateId_chunk_name root id :
  name_fits (PathFor root id) = true <-> string_size (chunk_id_value id) <= 124.
Proof.
  unfold name_fits. rewrite PathFor_filename, bool_decide_eq_true.
  rewrite chunk_name_length. unfold NAME_MAX. lia.
Qed.

(** ** Properties *)

(** C28: a chunk is stored directly under the root, in a file whose name is made
    of hexadecimal digits and the suffix ".chunk" whatever the identifier
    holds; distinct identifiers get distinct files, and no chunk file has the
    name of a temporary file. *)
Theorem PathFor_confined root id :
  PathFor root id = path_append root (path_filename (PathFor root id)) /\
  no_slash (chars (path_filename (PathFor root id))) /\
  path_filename (PathFor root id) = hex_string (string_bytes (chunk_id_value id)) +:+ ".chunk" /\
  (forall id', PathFor root id = PathFor root id' -> id = id') /\
  (forall id' pid addr, PathFor root id <> temp_path_for root id' pid addr).
Proof.
  rewrite PathFor_filename. split_and!.
  - apply PathFor_name.
  - apply chunk_name_plain.
  - unfold chunk_name. by rewrite encode_id_spec.
  - intros id'. apply PathFor_inj.
  - intros. apply PathFor_not_temp.
Qed.
