(* ===== verification/StoreRead.v ===== *)
(** * Head and Get of FileChunkStore: what they return and deliver in every
    environment. *)
From S2P Require Import Prelude Status Types Path Proto System Prog UniqueFd Blake3 FileIO Files.
From S2P Require Import ChunkFormat Streams FileStore StorePaths.

(** ** Definitions *)

(** What [ReadHeader] says of a file with content [d]. *)
Definition header_result (quiet : bool) (d : list byte) (id : ChunkId)
    (r : StatusOr HeadChunkResponse) : Prop :=
  match parse_file d with
  | Some (size, c) => r = SO_value (mkHeadChunkResponse id size c)
  | None => exists st, r = SO_error st /\ code st = kCorruption
  end \/
  (exists st, r = SO_error st /\ code st = kIoError /\ quiet = false).

(** What [Head] says in a given state of the files. *)
Inductive head_result (quiet : bool) (f : fs) (root : string) (id : ChunkId)
  : StatusOr HeadChunkResponse -> Prop :=
| head_invalid :
    ok (ValidateId id) = false -> head_result quiet f root id (SO_error (ValidateId id))
| head_missing st :
    ok (ValidateId id) = true -> lookup_file f (PathFor root id) = None ->
    code st = kNotFound -> head_result quiet f root id (SO_error st)
| head_found d r :
    ok (ValidateId id) = true -> lookup_file f (PathFor root id) = Some d ->
    header_result quiet d id r -> head_result quiet f root id r
| head_io_error st :
    ok (ValidateId id) = true -> code st = kIoError ->
    (quiet = true -> name_fits (PathFor root id) = false) ->
    head_result quiet f root id (SO_error st).

(** The bytes a range of a chunk file denotes. *)
Definition range_bytes (d : list byte) (r : ByteRange) : list byte :=
  ztake (size r) (zdrop (offset r) (file_payload d)).

(** What [Get] returns and delivers ([out]) in a given state of the files.  An
    interrupted transfer has delivered a part of the range from its start on. *)
Inductive get_result (quiet : bool) (broken : Prop) (f : fs) (root : string) (req : GetChunkRequest)
  : Status -> list byte -> Prop :=
| get_head_failed r :
    head_result quiet f root (get_chunk_id req) r -> so_value r = None ->
    get_result quiet broken f root req (so_status r) []
| get_bad_range d sz c :
    ok (ValidateId (get_chunk_id req)) = true ->
    lookup_file f (PathFor root (get_chunk_id req)) = Some d -> parse_file d = Some (sz, c) ->
    ok (ValidateByteRange (range req) sz) = false ->
    get_result quiet broken f root req (ValidateByteRange (range req) sz) []
| get_done d sz c :
    ok (ValidateId (get_chunk_id req)) = true ->
    lookup_file f (PathFor root (get_chunk_id req)) = Some d -> parse_file d = Some (sz, c) ->
    ok (ValidateByteRange (range req) sz) = true ->
    get_result quiet broken f root req Status_Ok (range_bytes d (range req))
| get_broken st d sz c n :
    ok (ValidateId (get_chunk_id req)) = true ->
    lookup_file f (PathFor root (get_chunk_id req)) = Some d -> parse_file d = Some (sz, c) ->
    ok (ValidateByteRange (range req) sz) = true ->
    ok st = false -> (quiet = true -> broken) -> Z.of_nat n < size (range req) ->
    get_result quiet broken f root req st (take n (range_bytes d (range req)))
| get_open_failed st d :
    ok (ValidateId (get_chunk_id req)) = true ->
    lookup_file f (PathFor root (get_chunk_id req)) = Some d ->
    code st = kIoError -> (quiet = true -> name_fits (PathFor root (get_chunk_id req)) = false) ->
    get_result quiet broken f root req st [].

(** ** Lemmas *)

Section Read.
Context `{Libc} `{Blake3}.

Lemma SO_error_value {T} st : so_value (SO_error (T:=T) st) = None.
Proof. done. Qed.

Lemma splice_fill (data header : list byte) (read k : nat) :
  length header = kHeaderSize -> (read + k <= kHeaderSize)%nat ->
  (read + k <= length data)%nat -> take read header = take read data ->
  take (read + k) (splice read (take k (drop read data)) header) = take (read + k) data.
Proof.
  intros Hh Hk Hd Hp. unfold splice.
  assert (Hl : length (take k (drop read data)) = k) by (rewrite length_take, length_drop; lia).
  rewrite Hp, Hl. replace (read - length header)%nat with 0%nat by lia. cbn [replicate app].
  rewrite app_assoc, take_app_length'.
  - by rewrite take_take_drop.
  - rewrite length_app, length_take, Hl. lia.
Qed.

Lemma ReadHeader_loop_wp fuel pfuel fd header read i pos nd s :
  reading s fd i pos nd -> (s_events s < pfuel)%nat ->
  length header = kHeaderSize -> (kHeaderSize - read < fuel)%nat -> (read <= kHeaderSize)%nat ->
  (read <= length (i_data nd))%nat -> take read header = take read (i_data nd) ->
  wp (ReadHeader_loop fuel pfuel fd header (Z.of_nat read))
    (returns (fun r s' => local_step s s' /\ s_fs s' = s_fs s /\
       match r with
       | inr h => (kHeaderSize <= length (i_data nd))%nat /\ h = take kHeaderSize (i_data nd)
       | inl st => code st = kCorruption /\ (length (i_data nd) < kHeaderSize)%nat \/
                   code st = kIoError /\ s_quiet s = false
       end)) s.
Proof.
  revert header read s. induction fuel as [|fuel IH]; intros header read s Hr He Hh Hf Hle Hd Hp; [lia|].
  assert (Hb : blen header = Z.of_nat kHeaderSize) by (unfold blen; by rewrite Hh).
  cbn [ReadHeader_loop]. rewrite Hb. case_bool_decide as Hlt; cycle 1.
  { apply wp_ret. assert (read = kHeaderSize) as -> by lia. split_and!; [done|done|lia|].
    rewrite <- Hp, take_ge; [done|lia]. }
  eapply wp_bind_returns; [eapply PreadSome_wp; [exact Hr| |done]|].
  { rewrite kHeaderSize_eq in *. unfold off_max. lia. }
  intros r s1 (Hl & Hfs & [(k & Hk & ->)|(st & -> & Hc & Hq)]); cycle 1.
  { cbn [so_value SO_error]. apply wp_ret. split_and!; [done..|]. right.
    split; [|done]. cbn. by rewrite NormalizeError_id by (apply not_ok_code; congruence). }
  rewrite Nat2Z.id in Hk |- *. cbn [so_value SO_value]. unfold blen.
  rewrite (read_bytes_some _ _ _ _ Hk). destruct Hk as (Hk1 & Hk2 & Hk3).
  case_bool_decide as Hk0.
  { apply wp_ret. split_and!; [done..|]. left. split; [done|].
    destruct (Hk3 ltac:(lia)); lia. }
  rewrite <- Nat2Z.inj_add.
  eapply wp_returns_mono.
  { eapply (IH _ (read + k)%nat s1); try lia.
    - unfold reading. by rewrite Hfs.
    - destruct Hl as [[_ ?] _]. lia.
    - rewrite length_splice; [done|]. rewrite length_take, length_drop. lia.
    - apply splice_fill; [done|lia|lia|done]. }
  intros r s2 (Hl2 & Hfs2 & Hres). split_and!; [by transitivity s1|congruence|].
  destruct Hl as [[Hqq _] _]. by rewrite Hqq in Hres.
Qed.

Lemma fstat_rule fd i pos nd s :
  reading s fd i pos nd ->
  wp (perform (Fstat fd)) (returns (fun r s' => local_step s s' /\ s_fs s' = s_fs s /\
    (r = Some (blen (i_data nd)) \/ r = None /\ s_quiet s = false))) s.
Proof.
  intros Hr. apply wp_perform. intros r s' Hpost. cbn [returns call_post] in *.
  destruct Hpost as [j p w nd' e Hfd Hi|e Hq].
  - destruct Hr as [Hfd' Hi']. simplify_eq. split_and!; auto with steps.
  - split_and!; auto with steps. right. split; [done|].
    apply not_true_is_false. intros [_ Hb]%Hq. by apply reading_not_bad in Hr.
Qed.

Lemma header_io_error quiet d id st :
  code st = kIoError -> quiet = false -> header_result quiet d id (SO_error st).
Proof. intros. right. eauto. Qed.

Lemma ReadHeader_wp fuel fd id i pos nd s :
  reading s fd i pos nd -> (kHeaderSize + s_events s < fuel)%nat ->
  wp (ReadHeader fuel fd id)
    (returns (fun r s' => local_step s s' /\ s_fs s' = s_fs s /\
       header_result (s_quiet s) (i_data nd) id r)) s.
Proof.
  intros Hr Hf. eapply wp_bind_returns.
  { eapply (ReadHeader_loop_wp fuel fuel fd _ 0 i pos nd s); try done; try lia.
    all: rewrite ?length_replicate; lia. }
  intros [st|h] s1 (Hl & Hfs & Hres).
  { apply wp_ret. split_and!; [done..|]. destruct Hres as [[Hc Hlen]|[Hc Hq]]; [|by apply header_io_error].
    left. unfold parse_file. rewrite bool_decide_true by done. eauto. }
  destruct Hres as [Hlen ->].
  assert (Hparse : parse_file (i_data nd) = if negb (magic_ok (take kHeaderSize (i_data nd))) then None
    else if negb (ok (ValidateChecksum (load_checksum (take kHeaderSize (i_data nd))))) then None
    else if size_mismatch (load_size (take kHeaderSize (i_data nd))) (blen (i_data nd)) then None
    else Some (load_size (take kHeaderSize (i_data nd)), load_checksum (take kHeaderSize (i_data nd)))).
  { unfold parse_file. by rewrite bool_decide_false by lia. }
  unfold header_result. rewrite Hparse. clear Hparse.
  destruct (magic_ok _); cbn [negb]; [|apply wp_ret; split_and!; [done..|]; left; eauto].
  destruct (ok (ValidateChecksum _)); cbn [negb]; [|apply wp_ret; split_and!; [done..|]; left; eauto].
  eapply wp_bind_returns.
  { apply (fstat_rule fd i pos nd). destruct Hr. split; by rewrite Hfs. }
  intros r s2 (Hl2 & Hfs2 & [->|[-> Hq]]).
  - destruct (size_mismatch _ _); apply wp_ret;
      (split_and!; [by transitivity s1|congruence|left; eauto]).
  - eapply wp_bind_returns; [apply errno_status_wp|]. intros st s3 [-> ->]. apply wp_ret.
    split_and!; [by transitivity s1|congruence|]. right. eexists. split_and!; [done..|].
    destruct Hl as [[Hqq _] _]. congruence.
Qed.

(** [errno] after a failed [open] or [unlink] decides between the two answers. *)
Lemma open_failure_wp id op p s :
  wp (open_failure id op p) (returns (fun st s' => local_step s s' /\ s_fs s' = s_fs s /\
     code st = if bool_decide (s_errno s = ENOENT) then kNotFound else kIoError)) s.
Proof.
  apply wp_bind, wp_get_errno. case_bool_decide.
  - by apply wp_ret.
  - eapply wp_returns_mono; [apply errno_status_wp|]. by intros st s' [-> ->].
Qed.

Lemma Head_wp fuel root id s :
  fs_wf (s_fs s) -> (kHeaderSize + s_events s < fuel)%nat ->
  wp (Head fuel root id) (returns (fun r s' => local_step s s' /\ s_fs s' = s_fs s /\
     head_result (s_quiet s) (s_fs s) root id r)) s.
Proof.
  intros Hwf Hf. unfold Head. destruct (ok (ValidateId id)) eqn:Hid; cbn [negb]; cycle 1.
  { apply wp_ret. split_and!; [done..|]. by apply head_invalid. }
  eapply wp_bind_returns; [by apply open_read_rule|].
  intros raw s1 [r i nd e Hn Hi Hr Hfd|Hm|e He Hq].
  - eapply scope_const_wp; [|lia|].
    + rewrite valid_make by done. cbn [negb].
      eapply ReadHeader_wp; [by apply opened_reading|done].
    + intros _ a s2 e2 (Hl & Hfs & Hres). cbn in Hfs. split_and!.
      * apply local_step_ret_l. by transitivity (ret_st s e (opened_fs r i (s_fs s))).
      * cbn. by rewrite Hfs, close_opened.
      * eapply head_found; [done|by eapply lookup_file_some|exact Hres].
  - eapply scope_const_wp; [|intros _ a s2 HP; exact HP|lia].
    rewrite valid_failed. cbn [negb].
    eapply wp_bind_returns; [apply open_failure_wp|]. intros st s2 (Hl & Hfs & Hc).
    apply wp_ret. split_and!; [by etransitivity; [|exact Hl]|done|]. by apply head_missing.
  - eapply scope_const_wp; [|intros _ a s2 HP; exact HP|lia].
    rewrite valid_failed. cbn [negb].
    eapply wp_bind_returns; [apply open_failure_wp|]. intros st s2 (Hl & Hfs & Hc).
    cbn [s_errno ret_st] in Hc. rewrite bool_decide_false in Hc by done.
    apply wp_ret. split_and!; [by etransitivity; [|exact Hl]|done|]. by apply head_io_error.
Qed.

Section Get.
Context {S : Type} `{OutputContract S}.

(** One round of the loop: either bytes of the file that were not yet sent, or
    an error that needs a fault. *)
Lemma Get_pread_wp fuel fd n off i nd s :
  reading s fd i 0 nd -> 0 < n -> 0 <= off -> (s_events s < fuel)%nat ->
  off < blen (i_data nd) -> blen (i_data nd) <= off_max ->
  wp (PreadSome fuel fd n off)
    (returns (fun r s' => local_step s s' /\ s_fs s' = s_fs s /\
       ((exists k, (0 < k)%nat /\ (k <= Z.to_nat n)%nat /\
           (k <= length (i_data nd) - Z.to_nat off)%nat /\
           r = SO_value (take k (drop (Z.to_nat off) (i_data nd)))) \/
        (exists st, r = SO_error st /\ ok st = false /\ s_quiet s = false)))) s.
Proof.
  intros Hr Hn Hoff Hf Hlt Hmax.
  eapply wp_returns_mono; [eapply PreadSome_wp; [exact Hr|lia|done]|].
  intros r s' (Hl & Hfs & [(k & (Hk1 & Hk2 & Hk3) & ->)|(st & -> & Hc & Hq)]); (split_and!; [done..|]).
  + left. exists k. unfold blen in Hlt. split_and!; [|done..].
    destruct (decide (k = 0%nat)) as [E|]; [|lia]. destruct (Hk3 E); lia.
  + right. exists st. split_and!; [done|apply not_ok_code; congruence|congruence].
Qed.

Lemma Get_loop_wp fuel pfuel fd i nd remaining off output s :
  reading s fd i 0 nd -> (s_events s < pfuel)%nat -> 0 <= remaining -> 0 <= off ->
  off + remaining <= blen (i_data nd) -> blen (i_data nd) <= off_max ->
  (Z.to_nat remaining < fuel)%nat ->
  wp (Get_loop fuel pfuel fd remaining off output)
    (returns (fun r s' => later s s' /\ s_fs s' = s_fs s /\
       exists d, out_written r.2 (s_trace s') = out_written output (s_trace s) ++ d /\
         ((r.1 = Status_Ok /\ d = ztake remaining (zdrop off (i_data nd))) \/
          (exists k, d = take k (ztake remaining (zdrop off (i_data nd))) /\ ok r.1 = false /\
             (s_quiet s = true -> out_broken r.2 (s_trace s')) /\ Z.of_nat k < remaining)))) s.
Proof.
  revert remaining off output s.
  induction fuel as [|fuel IH]; intros remaining off output s Hr He Hrem Hoff Hsum Hu Hf; [lia|].
  cbn [Get_loop]. case_bool_decide as Hpos; cycle 1.
  { apply wp_ret. split_and!; [reflexivity|done|]. exists []. rewrite app_nil_r. split; [done|].
    left. replace remaining with 0 by lia. done. }
  eapply wp_bind_returns; [apply (Get_pread_wp _ _ _ _ i nd); try done|].
  { unfold kBufferSize. lia. } { lia. }
  intros r s1 (Hl & Hfs & [(k & Hk0 & Hk1 & Hk2 & ->)|(st & -> & Hst & Hq)]); cycle 1.
  { cbn [so_value SO_error so_status]. apply wp_ret. split_and!; [auto with steps|done|].
    exists []. destruct Hl as [_ ->]. rewrite app_nil_r. split; [done|]. right. exists 0%nat.
    split_and!; [done|by rewrite NormalizeError_id|congruence|lia]. }
  cbn [so_value SO_value]. set (bytes := take k _).
  assert (Hb : length bytes = k) by (unfold bytes; rewrite length_take, length_drop; lia).
  assert (Hstep : bytes = take k (ztake remaining (zdrop off (i_data nd)))).
  { unfold ztake, zdrop. rewrite take_take. unfold bytes. f_equal. lia. }
  unfold blen. rewrite Hb. rewrite bool_decide_false by lia.
  eapply wp_bind_returns; [apply out_Write_ok|].
  intros [st output'] s2 (Hl2 & Hfs2 & Hw & Ht). cbn [fst snd] in *.
  assert (Hls : later s s2) by (destruct Hl; by transitivity s1).
  destruct Hl as [_ Htr]. rewrite Htr in Hw.
  destruct (ok st) eqn:Est; cbn [negb]; cycle 1.
  { apply wp_ret. split_and!; [done|congruence|]. exists []. split; [done|]. right. exists 0%nat.
    split_and!; [done|done| |lia]. intros _. by destruct Ht. }
  assert (is_u64 remaining /\ is_u64 off) as [Hur Huo] by (unfold is_u64, off_max, u64_modulus in *; lia).
  rewrite u64_sub_small, u64_add_small by (unfold is_u64, off_max, u64_modulus, blen in *; lia).
  eapply wp_returns_mono.
  { apply IH; try lia; try done.
    - unfold reading. by rewrite Hfs2, Hfs.
    - destruct Hls. lia. }
  intros [st3 o3] s3 (Hl3 & Hfs3 & d & Hw3 & Hd). cbn [fst snd] in *.
  split_and!; [by transitivity s2|congruence|]. exists (bytes ++ d).
  rewrite Hw3, Hw, <- app_assoc. split; [done|].
  assert (Hsplit : ztake remaining (zdrop off (i_data nd))
    = bytes ++ ztake (remaining - Z.of_nat k) (zdrop (off + Z.of_nat k) (i_data nd))).
  { rewrite <- zdrop_zdrop by lia. unfold bytes.
    replace (take k (drop (Z.to_nat off) (i_data nd))) with (ztake (Z.of_nat k) (zdrop off (i_data nd)))
      by (unfold ztake; by rewrite Nat2Z.id).
    rewrite ztake_app_zdrop by lia. f_equal. lia. }
  rewrite Hsplit. destruct Hd as [[-> ->]|(j & -> & Hst3 & Hq3 & Hj)]; [by left|].
  right. exists (k + j)%nat. rewrite take_app_ge by lia. rewrite Hb.
  split_and!; [do 2 f_equal; lia|done| |lia]. destruct Hls as [Hqq _]. by rewrite Hqq in Hq3.
Qed.

Lemma off_max_u64 z : 0 <= z <= off_max -> is_u64 z.
Proof. unfold is_u64, off_max, u64_modulus. lia. Qed.

(** [Head] succeeds only on a file that parses. *)
Lemma head_result_value quiet f root id r resp :
  head_result quiet f root id r -> so_value r = Some resp ->
  exists d sz c, ok (ValidateId id) = true /\
    lookup_file f (PathFor root id) = Some d /\ parse_file d = Some (sz, c) /\
    r = SO_value (mkHeadChunkResponse id sz c) /\ resp = mkHeadChunkResponse id sz c.
Proof.
  intros [|st ? ? ?|d r' Hid Hd [Hp|(st & -> & _)]|st ? ? ?] Hv; try done.
  destruct (parse_file d) as [[sz c]|] eqn:E; [|by destruct Hp as (st & -> & _)].
  subst. injection Hv as <-. eauto 10.
Qed.

Lemma Get_wp fuel root req output s :
  fs_wf (s_fs s) -> is_u64 (offset (range req)) -> is_u64 (size (range req)) ->
  (kHeaderSize + Z.to_nat (size (range req)) + s_events s < fuel)%nat ->
  wp (Get fuel root req output)
    (returns (fun r s' => later s s' /\ s_fs s' = s_fs s /\ exists d,
       out_written r.2 (s_trace s') = out_written output (s_trace s) ++ d /\
       get_result (s_quiet s) (out_broken r.2 (s_trace s')) (s_fs s) root req r.1 d)) s.
Proof.
  intros Hwf Ho Hsz Hf.
  eapply wp_bind_returns; [apply Head_wp; [done|lia]|].
  intros r s1 (Hl & Hfs & Hhead). destruct (so_value r) as [resp|] eqn:Hv; cycle 1.
  { apply wp_ret. split_and!; [auto with steps|done|]. exists []. cbn [fst snd].
    destruct Hl as [_ ->]. rewrite app_nil_r. split; [done|]. by apply get_head_failed. }
  destruct (head_result_value _ _ _ _ _ _ Hhead Hv) as (d & sz & c & Hid & Hd & Hp & _ & ->).
  cbn [hr_size]. destruct (ok (ValidateByteRange _ _)) eqn:Hrange; cbn [negb]; cycle 1.
  { apply wp_ret. split_and!; [auto with steps|done|]. exists []. cbn [fst snd].
    destruct Hl as [_ ->]. rewrite app_nil_r. split; [done|]. by eapply get_bad_range. }
  assert (Hqs : s_quiet s1 = s_quiet s /\ (s_events s1 <= s_events s)%nat) by (by destruct Hl as [[? ?] _]).
  destruct Hqs as [Hq Hev].
  eapply wp_bind_returns; [apply open_read_rule; by rewrite ?Hfs|].
  rewrite <- Hfs in Hd, Hwf |- *. clear Hhead.
  assert (Htr : s_trace s1 = s_trace s) by apply Hl. rewrite <- Htr, <- Hq.
  assert (Hls : later s s1) by auto with steps. clear Hl.
  intros raw s2 [fd i nd e Hn Hi Hr Hfd|Hm|e He Hq2]; [|congruence|].
  - rewrite (lookup_file_some _ _ _ _ Hn Hi) in Hd. injection Hd as <-.
    pose proof (wf_size _ Hwf _ _ Hi) as Hmax.
    destruct (parse_file_inv _ _ _ Hp) as (Hc & Hpl & Hform).
    { apply off_max_u64. split; [apply blen_nonneg|done]. }
    assert (Hlen : blen (i_data nd) = 80 + sz).
    { rewrite Hform at 1. by rewrite chunk_file_length, Hpl. }
    assert (Hu : is_u64 sz).
    { pose proof (blen_nonneg (file_payload (i_data nd))). apply off_max_u64. lia. }
    pose proof (proj1 (ValidateByteRange_ok _ _ Ho Hsz Hu) Hrange) as Hin.
    eapply scope_const_wp; [|lia|].
    + rewrite valid_make by done. cbn [negb].
      rewrite u64_add_small by (rewrite ?kHeaderSize_eq; unfold is_u64, off_max, u64_modulus in *; lia).
      eapply (Get_loop_wp _ _ _ i nd); [by apply opened_reading|..];
        rewrite ?kHeaderSize_eq; unfold is_u64 in *; cbn [s_events ret_st]; lia.
    + intros _ [st o] s3 e3 (Hl3 & Hfs3 & x & Hw & Hx). cbn [fst snd s_trace ret_st s_quiet] in *.
      split_and!; [by transitivity s1|cbn; by rewrite Hfs3; apply close_opened|].
      exists x. split; [done|].
      assert (Hrb : ztake (size (range req)) (zdrop (offset (range req) + Z.of_nat kHeaderSize) (i_data nd))
        = range_bytes (i_data nd) (range req)).
      { unfold range_bytes, file_payload. rewrite Z.add_comm.
        change (drop kHeaderSize (i_data nd)) with (zdrop (Z.of_nat kHeaderSize) (i_data nd)).
        rewrite zdrop_zdrop; [done|unfold is_u64 in *; lia|lia]. }
      rewrite Hrb in Hx. pose proof (lookup_file_some _ _ _ _ Hn Hi) as Hlook.
      destruct Hx as [[-> ->]|(k & -> & Hst & Hqq & Hk)]; [by eapply get_done|by eapply get_broken].
  - eapply scope_const_wp; [|intros _ a s3 HP; exact HP|lia].
    rewrite valid_failed. cbn [negb].
    eapply wp_bind_returns; [apply open_failure_wp|]. intros st s3 (Hl3 & Hfs3 & Hc).
    cbn [s_errno ret_st] in Hc. rewrite bool_decide_false in Hc by done.
    apply wp_ret. cbn [fst snd]. destruct Hl3 as [Hl3 Htr3].
    split_and!; [by transitivity s1; [|etransitivity; [|exact Hl3]]|done|]. exists [].
    rewrite Htr3, app_nil_r. split; [done|]. by eapply get_open_failed.
Qed.

End Get.

Lemma Size_wp fuel root id s :
  fs_wf (s_fs s) -> (kHeaderSize + s_events s < fuel)%nat ->
  wp (Size fuel root id) (returns (fun r s' => local_step s s' /\ s_fs s' = s_fs s /\
    exists h, head_result (s_quiet s) (s_fs s) root id h /\
      r = match so_value h with Some x => SO_value (hr_size x) | None => SO_error (so_status h) end)) s.
Proof.
  intros Hwf Hf. eapply wp_bind_returns; [by apply Head_wp|].
  intros h s1 (Hl & Hfs & Hh). apply wp_ret. split_and!; [done..|]. by exists h.
Qed.

Lemma Exists_wp fuel root id s :
  fs_wf (s_fs s) -> (kHeaderSize + s_events s < fuel)%nat ->
  wp (Exists fuel root id) (returns (fun r s' => local_step s s' /\ s_fs s' = s_fs s /\
    exists h, head_result (s_quiet s) (s_fs s) root id h /\ r = so_ok h)) s.
Proof.
  intros Hwf Hf. eapply wp_bind_returns; [by apply Head_wp|].
  intros h s1 (Hl & Hfs & Hh). apply wp_ret. split_and!; [done..|]. by exists h.
Qed.

End Read.
