(* ===== verification/StorePut.v ===== *)
(** * Put and Delete of FileChunkStore: every effect they can have on the files,
    in every environment. *)
From S2P Require Import Prelude Status Types Path Proto System Prog UniqueFd Blake3 FileIO Files.
From S2P Require Import ChunkFormat Streams ChunkStore FileStore StorePaths StoreRead.

(** ** Definitions *)

(** Why [Put] gives up on a temporary file after the input delivered [d]; [fin]
    says that the input had reported its end. *)
Inductive put_error `{Blake3} (quiet : bool) (broken : Prop) (f : fs) (root : string) (req : PutChunkRequest)
    (d : list byte) (fin : Prop) : Status -> Prop :=
| pe_input st : ok st = false -> broken -> put_error quiet broken f root req d fin st
| pe_too_many st :
    code st = kCorruption -> expected_size req < blen d -> put_error quiet broken f root req d fin st
| pe_mismatch st :
    code st = kCorruption -> fin -> ~ data_matches req d -> put_error quiet broken f root req d fin st
| pe_exists st :
    code st = kAlreadyExists -> fin -> data_matches req d ->
    is_Some (f_names f !! PathFor root (put_chunk_id req)) ->
    put_error quiet broken f root req d fin st
| pe_io st :
    code st = kIoError -> (quiet = true -> off_max < Z.of_nat kHeaderSize + expected_size req) ->
    put_error quiet broken f root req d fin st.

(** Everything [Put] may do, given what its input delivered: refuse and change
    nothing; discard the temporary file; or commit the chunk. *)
Inductive put_result `{Blake3} (quiet : bool) (broken : Prop) (f : fs) (root : string) (req : PutChunkRequest)
    (temp : string) (d : list byte) (fin : Prop) : Status -> fs -> Prop :=
| put_invalid :
    d = [] -> ok (ValidateId (put_chunk_id req)) = false ->
    put_result quiet broken f root req temp d fin (ValidateId (put_chunk_id req)) f
| put_bad_checksum :
    d = [] -> ok (ValidateId (put_chunk_id req)) = true ->
    ok (ValidateChecksum (expected_checksum req)) = false ->
    put_result quiet broken f root req temp d fin (ValidateChecksum (expected_checksum req)) f
| put_not_started st :
    d = [] -> ok (ValidateId (put_chunk_id req)) = true ->
    ok (ValidateChecksum (expected_checksum req)) = true ->
    (code st = kUnavailable /\ is_Some (f_names f !! temp) \/
     code st = kIoError /\ (quiet = true -> name_fits temp = false)) ->
    put_result quiet broken f root req temp d fin st f
| put_discarded st i nd keep :
    ok (ValidateId (put_chunk_id req)) = true ->
    ok (ValidateChecksum (expected_checksum req)) = true ->
    put_error quiet broken f root req d fin st ->
    f_names f !! temp = None -> name_fits temp = true -> f_inodes f !! i = None -> blen (i_data nd) <= off_max ->
    (quiet = true -> keep = false) ->
    put_result quiet broken f root req temp d fin st (left_fs f temp i nd keep)
| put_committed st i keep m :
    ok (ValidateId (put_chunk_id req)) = true ->
    ok (ValidateChecksum (expected_checksum req)) = true ->
    fin -> data_matches req d ->
    f_names f !! temp = None -> name_fits temp = true -> f_inodes f !! i = None ->
    f_names f !! PathFor root (put_chunk_id req) = None ->
    Z.of_nat kHeaderSize + blen d <= off_max ->
    (quiet = true -> keep = false) ->
    (st = Status_Ok /\ (forall id, m !! PathFor root id =
         <[PathFor root (put_chunk_id req) := i]> (f_names f) !! PathFor root id) \/
     code st = kIoError /\ m = f_stable f /\ (quiet = true -> name_fits root = false)) ->
    put_result quiet broken f root req temp d fin st
      (committed_fs f temp (PathFor root (put_chunk_id req)) i
         (mkInode (chunk_file (expected_checksum req) d) true) keep m).

(** ** Lemmas *)

Section Put.
Context `{Libc} `{Blake3}.

Lemma temp_fits_chunk_fits root id pid addr :
  name_fits (temp_path_for root id pid addr) = true -> name_fits (PathFor root id) = true.
Proof.
  unfold name_fits. rewrite PathFor_filename, temp_path_name.
  rewrite path_filename_append by apply temp_name_plain.
  rewrite !bool_decide_eq_true. unfold temp_name.
  rewrite <- !length_chars, !chars_app, !length_app. lia.
Qed.

(** [cleanup] removes the temporary name, or a fault leaves it. *)
Lemma cleanup_wp temp i s :
  f_names (s_fs s) !! temp = Some i -> name_fits temp = true ->
  wp (cleanup temp) (returns (fun _ s' => local_step s s' /\ exists keep : bool,
    (s_quiet s = true -> keep = false) /\
    s_fs s' = set_names (if keep then f_names (s_fs s) else delete temp (f_names (s_fs s))) (s_fs s))) s.
Proof.
  intros Hi Hfit. eapply wp_bind_returns; [by apply (unlink_rule temp i)|].
  intros r s' Hp. by apply wp_ret.
Qed.

Lemma cleanup_writing f fd i temp d b s :
  s_fs s = writing_fs f fd i temp d b -> f_names f !! temp = None -> name_fits temp = true ->
  wp (cleanup temp) (returns (fun _ s' => local_step s s' /\ exists keep : bool,
    (s_quiet s = true -> keep = false) /\ s_fs s' = scrap_fs f fd temp i d b keep)) s.
Proof.
  intros Hs Hn Hfit.
  eapply wp_returns_mono; [apply (cleanup_wp temp i)|]; [by rewrite Hs; apply lookup_insert_eq|done|].
  intros _ s' (Hl & keep & Hk & Hfs). split; [done|]. exists keep. split; [done|].
  rewrite Hfs, Hs. unfold scrap_fs, set_names, writing_fs. cbn.
  destruct keep; [done|]. by rewrite delete_insert_id.
Qed.

Section Input.
Context {S : Type} `{InputContract S}.
Context (f : fs) (root : string) (req : PutChunkRequest) (temp : string) (fd : Z) (i : positive).
Context (Hsize : is_u64 (expected_size req)).
Context (Htemp : f_names f !! temp = None) (Hfit : name_fits temp = true).

Definition header : list byte := MakeHeader (expected_size req) (expected_checksum req).
Context (Hheader : length header = kHeaderSize).

(** The temporary file was discarded for the reason [st]. *)
Definition discarded (quiet : bool) (broken : Prop) (d : list byte) (fin : Prop) (st : Status) (s' : state) : Prop :=
  put_error quiet broken f root req d fin st /\
  exists d' b keep, s_fs s' = scrap_fs f fd temp i d' b keep /\ blen d' <= off_max /\
    (quiet = true -> keep = false).

(** Cleaning up and returning, whatever is returned. *)
Lemma discard_wp {A} (x : A) st d (broken fin : Prop) dd b s :
  s_fs s = writing_fs f fd i temp dd b -> blen dd <= off_max ->
  put_error (s_quiet s) broken f root req d fin st ->
  wp (_ ← cleanup temp; mret x)
    (returns (fun r s' => r = x /\ local_step s s' /\ discarded (s_quiet s) broken d fin st s')) s.
Proof.
  intros Hs Hmax Herr. eapply wp_bind_returns; [by eapply cleanup_writing|].
  intros _ s2 (Hl & keep & Hk & Hfs). apply wp_ret. split_and!; [done..|].
  split; [done|]. by exists dd, b, keep.
Qed.

(** The receiving loop: what it leaves when it reaches the end of the input,
    and what it leaves otherwise. *)
Definition Put_loop_post (s : state) (d0 : list byte)
    (r : (Status + (hasher * Z)) * S) (s' : state) : Prop :=
  later s s' /\ exists d, in_delivered r.2 (s_trace s') = d0 ++ d /\
  match r.1 with
  | inr (h, received) =>
      (exists b, s_fs s' = writing_fs f fd i temp (header ++ d) b) /\
      blen (header ++ d) <= off_max /\ absorbed h d /\ received = blen d /\
      received <= expected_size req /\ in_exhausted r.2 (s_trace s')
  | inl st => discarded (s_quiet s) (in_broken r.2 (s_trace s')) d (in_exhausted r.2 (s_trace s')) st s'
  end.

Lemma Put_loop_wp fuel wfuel h received input s d0 dacc b :
  s_fs s = writing_fs f fd i temp (header ++ dacc) b -> blen (header ++ dacc) <= off_max ->
  absorbed h dacc -> received = blen dacc -> received <= expected_size req ->
  in_delivered input (s_trace s) = d0 ++ dacc -> in_wf input (s_trace s) ->
  (Z.to_nat (expected_size req - received) + 1 < fuel)%nat ->
  (Z.to_nat (expected_size req) + s_events s < wfuel)%nat ->
  wp (Put_loop fuel wfuel req fd temp h received input) (returns (Put_loop_post s d0)) s.
Proof.
  revert h received input s dacc b.
  induction fuel as [|fuel IH]; intros h received input s dacc b Hs Hmax Hh Hr Hle Hdel Hwf Hf Hw; [lia|].
  cbn [Put_loop]. eapply wp_bind_returns; [by apply in_Read_ok|].
  intros [count input'] s1 (Hl & Hfs & Hwf1 & Hcount). cbn [fst snd] in *. rewrite Hs in Hfs.
  assert (Hq : s_quiet s1 = s_quiet s) by apply Hl.
  (* a rule for the exits of this round *)
  assert (Hexit : forall st dd b' x s2,
    local_step s1 s2 -> s_fs s2 = writing_fs f fd i temp dd b' -> blen dd <= off_max ->
    in_delivered input' (s_trace s1) = d0 ++ x ->
    put_error (s_quiet s) (in_broken input' (s_trace s1)) f root req x (in_exhausted input' (s_trace s1)) st ->
    wp (_ ← cleanup temp; mret (inl st, input')) (returns (Put_loop_post s d0)) s2).
  { intros st dd b' x s2 [Hl2 Htr2] Hfs2 Hm2 Hx Herr.
    assert (Hq2 : s_quiet s2 = s_quiet s) by (rewrite <- Hq; apply Hl2).
    rewrite <- Hq2, <- Htr2 in Herr.
    eapply wp_returns_mono; [by apply (discard_wp _ st x (in_broken input' (s_trace s2)) (in_exhausted input' (s_trace s2)) dd b')|].
    intros r s3 (-> & [Hl3 Htr3] & Hd). split; [by transitivity s1; [|transitivity s2]|].
    exists x. cbn [fst snd]. rewrite Htr3. rewrite Hq2 in Hd. split; [by rewrite Htr2|exact Hd]. }
  destruct (so_value count) as [bytes|] eqn:Hv; cycle 1.
  { destruct Hcount as (Hdel1 & Hst & Htot). rewrite Hdel in Hdel1.
    eapply (Hexit _ _ _ dacc); [reflexivity|exact Hfs|done..|by apply pe_input]. }
  destruct Hcount as (Hdel1 & Hn & Hend). rewrite Hdel, <- app_assoc in Hdel1.
  case_bool_decide as Hb0.
  { apply blen_zero_nil in Hb0 as ->. rewrite app_nil_r in Hdel1. apply wp_ret.
    split; [done|]. exists dacc. cbn [fst snd]. split; [done|].
    split_and!; [by exists b|done..|by apply Hend]. }
  pose proof (blen_nonneg bytes) as Hb1.
  rewrite u64_sub_small by first [done|pose proof (blen_nonneg dacc); lia].
  rewrite (bool_decide_false (_ > kBufferSize)), (bool_decide_false (received > _)) by lia.
  cbn [orb]. case_bool_decide as Hover.
  { eapply (Hexit _ _ _ (dacc ++ bytes)); [reflexivity|exact Hfs|done..|].
    apply pe_too_many; [done|]. rewrite blen_app. lia. }
  assert (Hev : (s_events s1 <= s_events s)%nat) by apply Hl.
  eapply wp_bind_returns.
  { eapply (WriteAll_wp _ _ _ _ _ _ _ bytes s1 Hfs). unfold blen in *. lia. }
  intros st s2 (Hl2 & d' & b' & Hfs2 & Hsz & _ & Hres). specialize (Hsz Hmax).
  destruct (ok st) eqn:Hst; cbn [negb]; cycle 1.
  { eapply (Hexit _ _ _ (dacc ++ bytes)); [done|exact Hfs2|done..|].
    destruct Hres as [[-> _]|[Hc Hbig]]; [done|]. apply pe_io; [done|].
    intros Hqt. rewrite <- Hq in Hqt. specialize (Hbig Hqt). rewrite !blen_app in Hbig.
    unfold blen in Hbig at 1. rewrite Hheader in Hbig. lia. }
  destruct Hres as [[_ ->]|[Hc _]]; [|apply ok_code in Hst; congruence].
  rewrite <- app_assoc in Hfs2, Hsz.
  rewrite u64_add_small by (pose proof (blen_nonneg dacc); unfold is_u64 in *; lia).
  destruct Hl2 as [Hl2 Htr2]. assert (Hl02 : later s s2) by (by transitivity s1).
  eapply wp_returns_mono.
  { eapply (IH _ _ _ s2 (dacc ++ bytes)); [exact Hfs2|done|by apply absorbed_update| | | | |lia|].
    - rewrite blen_app. lia.
    - lia.
    - by rewrite Htr2.
    - by rewrite Htr2.
    - destruct Hl02. lia. }
  intros r s3 (Hl3 & x & Hx & Hres). split; [by transitivity s2|]. exists x. split; [done|].
  destruct Hl02 as [Hq02 _]. by rewrite Hq02 in Hres.
Qed.

End Input.

(** ** The commit *)

Section Commit.
Context (f : fs) (root : string) (id : ChunkId) (temp : string) (i : positive) (nd : inode).
Context (Htemp : f_names f !! temp = None) (Hfit : name_fits temp = true).
Context (Hother : forall id', temp <> PathFor root id') (Hfinal : name_fits (PathFor root id) = true).

(** What the commit leaves: the attempt, or the chunk under its final name. *)
Inductive commit_result (quiet : bool) : Status -> fs -> Prop :=
| commit_taken st keep :
    code st = kAlreadyExists -> is_Some (f_names f !! PathFor root id) ->
    (quiet = true -> keep = false) -> commit_result quiet st (left_fs f temp i nd keep)
| commit_fault st keep :
    code st = kIoError -> quiet = false -> commit_result quiet st (left_fs f temp i nd keep)
| commit_done st keep m :
    f_names f !! PathFor root id = None -> (quiet = true -> keep = false) ->
    (st = Status_Ok /\ (forall id', m !! PathFor root id' =
         <[PathFor root id := i]> (f_names f) !! PathFor root id') \/
     code st = kIoError /\ m = f_stable f /\ (quiet = true -> name_fits root = false)) ->
    commit_result quiet st (committed_fs f temp (PathFor root id) i nd keep m).

(** Opening and synchronizing the directory after a successful link. *)
Lemma sync_directory_wp keep s :
  s_fs s = committed_fs f temp (PathFor root id) i nd keep (f_stable f) ->
  f_names f !! PathFor root id = None -> (s_quiet s = true -> keep = false) ->
  wp (sync_root root)
    (returns (fun st s' => local_step s s' /\ commit_result (s_quiet s) st (s_fs s'))) s.
Proof.
  intros Hs Hnone Hkeep.
  assert (Hfail : forall st e, code st = kIoError -> (s_quiet s = true -> name_fits root = false) ->
    commit_result (s_quiet s) st (s_fs (ret_st s e (s_fs s)))).
  { intros st e Hc Hq. cbn [s_fs ret_st]. rewrite Hs. eapply commit_done; auto. }
  apply wp_perform_bind. intros raw s1 Hpost. cbn [call_post] in Hpost.
  destruct Hpost as [r i' e _ Hdir|r i' e Hx|r e _ Hr Hfd|Hn Hq|Hx _|e _ _ Hq]; try done.
  - eapply (scope_const_wp _ _ (fun st s' => local_step s s' /\
      ((st = Status_Ok /\ exists m, (forall id', m !! PathFor root id' =
            <[PathFor root id := i]> (f_names f) !! PathFor root id') /\
          s_fs s' = set_stable m (set_fds (<[r := FdDir root]> (f_fds (s_fs s))) (s_fs s))) \/
       (code st = kIoError /\ s_quiet s = false /\
          s_fs s' = set_fds (<[r := FdDir root]> (f_fds (s_fs s))) (s_fs s))))); [|lia|].
    + rewrite valid_make by done. cbn [negb]. apply wp_perform_bind.
      intros x s2 Hpost. cbn [call_post UniqueFd.get UniqueFd.make UniqueFd.fd_] in Hpost.
      destruct Hpost as [j pos w nd' e2 Hj|p m e2 Hj Hm|e2 Hq].
      * cbn in Hj. by rewrite lookup_insert_eq in Hj.
      * cbn in Hj. rewrite lookup_insert_eq in Hj. injection Hj as <-. apply wp_ret. split; [done|].
        left. split; [done|]. exists m. split; [|done].
        intros id'. assert (Hent : m !! PathFor root id' = f_names (s_fs s) !! PathFor root id').
        { rewrite (PathFor_name root id'), Hm; [done|apply chunk_name_plain|].
          intros E. pose proof (chunk_name_plain id') as [_ Hc]. by rewrite E in Hc. }
        rewrite Hent, Hs. cbn [f_names committed_fs]. destruct keep; [|done].
        destruct (decide (PathFor root id = PathFor root id')) as [->|Hneq]; [by rewrite !lookup_insert_eq|].
        rewrite !(lookup_insert_ne _ (PathFor root id)) by done.
        apply lookup_insert_ne, Hother.
      * end_errno st. split; [done|]. right. split_and!; [done| |done].
        apply not_true_is_false. intros (_ & _ & Hd)%Hq. apply (Hd root). apply lookup_insert_eq.
    + intros _ st s2 e2 (Hl & Hres). split; [auto with steps|]. cbn [s_fs ret_st].
      destruct Hres as [(-> & m & Hm & ->)|(Hc & Hq & ->)];
        unfold close_fs; cbn; rewrite delete_insert_id by done; rewrite Hs;
        [apply (commit_done _ _ keep m)|apply (commit_done _ _ keep (f_stable f))]; auto.
      right. split_and!; [done|done|congruence].
  - eapply scope_const_wp; [|intros _ a s3 HP; exact HP|lia].
    rewrite valid_failed. cbn [negb]. end_errno st. split; [done|]. apply Hfail; [done|].
    intros Hqt. by destruct (Hq Hqt).
  - eapply scope_const_wp; [|intros _ a s3 HP; exact HP|lia].
    rewrite valid_failed. cbn [negb]. end_errno st. split; [done|]. by apply Hfail.
Qed.

Lemma Put_commit_wp s :
  s_fs s = left_fs f temp i nd true ->
  wp (Put_commit root id temp (PathFor root id))
    (returns (fun st s' => local_step s s' /\ commit_result (s_quiet s) st (s_fs s'))) s.
Proof.
  intros Hs. apply wp_perform_bind. intros linked s1 Hpost. cbn [call_post] in Hpost.
  assert (Htl : f_names (s_fs s) !! temp = Some i) by (rewrite Hs; apply lookup_insert_eq).
  assert (Hfl : f_names (s_fs s) !! PathFor root id = f_names f !! PathFor root id)
    by (rewrite Hs; by apply lookup_insert_ne).
  (* the exits after a failed link *)
  assert (Hclean : forall e, wp (cleanup temp) (returns (fun _ s' => local_step s s' /\
      exists keep : bool, (s_quiet s = true -> keep = false) /\ s_fs s' = left_fs f temp i nd keep))
      (ret_st s e (s_fs s))).
  { intros e. eapply wp_returns_mono; [apply (cleanup_wp temp i); [exact Htl|done]|].
    intros _ s2 (Hl & keep & Hk & Hfs). split; [by etransitivity; [|exact Hl]|]. exists keep.
    split; [done|]. rewrite Hfs. cbn [s_fs ret_st]. rewrite Hs. unfold set_names, left_fs. cbn.
    destruct keep; [done|]. by rewrite delete_insert_id. }
  destruct Hpost as [j e Hj Hnone|Htaken|e He Hq].
  - rewrite Htl in Hj. injection Hj as <-. rewrite Hfl in Hnone.
    rewrite bool_decide_false by (intros []; done).
    eapply wp_bind_returns.
    { apply (cleanup_wp temp i); [|done]. cbn. by rewrite lookup_insert_ne. }
    intros _ s2 (Hl & keep & Hk & Hfs). cbn [s_quiet ret_st] in Hk.
    assert (Hq2 : s_quiet s2 = s_quiet s) by (destruct Hl as [[Hq _] _]; exact Hq).
    eapply wp_returns_mono; [apply (sync_directory_wp keep)|].
    + rewrite Hfs. cbn [s_fs ret_st]. rewrite Hs. unfold set_names, left_fs, committed_fs. cbn.
      destruct keep; [done|]. by rewrite delete_insert_ne, delete_insert_id.
    + done.
    + by rewrite Hq2.
    + intros st s3 (Hl3 & Hres). rewrite Hq2 in Hres. split; [|done].
      by etransitivity; [|etransitivity; [exact Hl|exact Hl3]].
  - rewrite bool_decide_true by done. apply wp_bind, wp_get_errno.
    eapply wp_bind_returns; [apply Hclean|]. intros _ s2 (Hl & keep & Hk & Hfs).
    cbn [s_errno ret_st]. rewrite bool_decide_true by done. apply wp_ret. split; [done|].
    rewrite Hfs. apply commit_taken; [done| |done]. by rewrite <- Hfl.
  - assert (Hqf : s_quiet s = false).
    { apply not_true_is_false. intros [Hx|Hx]%Hq; congruence. }
    rewrite bool_decide_true by done. apply wp_bind, wp_get_errno.
    eapply wp_bind_returns; [apply Hclean|]. intros _ s2 (Hl & keep & Hk & Hfs).
    cbn [s_errno ret_st]. rewrite bool_decide_false by done.
    apply wp_perform_bind. intros [] s3 ->. end_errno st. cbn [s_fs ret_st].
    split; [auto with steps|]. rewrite Hfs. by apply commit_fault.
Qed.

End Commit.
(** ** The whole operation *)

Section Whole.
Context {S : Type} `{InputContract S}.
Context (f : fs) (root : string) (req : PutChunkRequest) (temp : string) (i : positive).
Context (Hsize : is_u64 (expected_size req)).
Context (Hsum : ok (ValidateChecksum (expected_checksum req)) = true).
Context (Htemp : f_names f !! temp = None) (Hfit : name_fits temp = true).
Context (Hother : forall id', temp <> PathFor root id').
Context (Hfinal : name_fits (PathFor root (put_chunk_id req)) = true).

(** How the body leaves the descriptor and the files: discarded with the
    descriptor still owned, or closed and through the commit. *)
Definition body_post (fd : Z) (s : state) (d0 : list byte)
    (r : (Status * S) * UniqueFd.t) (s' : state) : Prop :=
  later s s' /\ exists d, in_delivered r.1.2 (s_trace s') = d0 ++ d /\
  let fin := in_exhausted r.1.2 (s_trace s') in
  let broken := in_broken r.1.2 (s_trace s') in
  (r.2 = UniqueFd.make fd /\ discarded f root req temp fd i
      (s_quiet s) broken d fin r.1.1 s') \/
  (r.2 = UniqueFd.default /\ fin /\ data_matches req d /\
   Z.of_nat kHeaderSize + blen d <= off_max /\
   commit_result f root (put_chunk_id req) temp i
     (mkInode (chunk_file (expected_checksum req) d) true) (s_quiet s) r.1.1 (s_fs s')).

Lemma header_length : length (header req) = kHeaderSize.
Proof. exact (length_MakeHeader _ _ Hsum). Qed.

(** The checks after the loop, the synchronization and the commit. *)
Lemma Put_finish_wp fd h d d0 b input s s0 :
  later s0 s -> s_fs s = writing_fs f fd i temp (header req ++ d) b ->
  blen (header req ++ d) <= off_max -> absorbed h d -> blen d <= expected_size req ->
  in_delivered input (s_trace s) = d0 ++ d -> in_exhausted input (s_trace s) ->
  0 <= fd -> f_fds f !! fd = None ->
  wp (if bool_decide (blen d <> expected_size req) then
        _ ← cleanup temp;
        mret (Status_make kCorruption "received byte count does not match expected_size",
              input, UniqueFd.make fd)
      else if bool_decide (FinalizeHex h <> value (expected_checksum req)) then
        _ ← cleanup temp;
        mret (Status_make kCorruption "BLAKE3 checksum mismatch", input, UniqueFd.make fd)
      else
        synced ← perform (Fdatasync fd);
        if bool_decide (synced <> 0) then
          status ← IoError "fdatasync" temp;
          _ ← cleanup temp;
          mret (status, input, UniqueFd.make fd)
        else
          fd ← UniqueFd.reset (UniqueFd.make fd) (-1);
          status ← Put_commit root (put_chunk_id req) temp
                     (PathFor root (put_chunk_id req));
          mret (status, input, fd))
    (returns (body_post fd s0 d0)) s.
Proof.
  intros Hl0 Hs Hmax Hh Hle Hdel Hex Hfd0 Hfd.
  assert (Hq0 : s_quiet s = s_quiet s0) by apply Hl0.
  (* every exit that discards the file *)
  assert (Hexit : forall st b' s2, local_step s s2 ->
    s_fs s2 = writing_fs f fd i temp (header req ++ d) b' ->
    put_error (s_quiet s0) (in_broken input (s_trace s)) f root req d (in_exhausted input (s_trace s)) st ->
    wp (_ ← cleanup temp; mret (st, input, UniqueFd.make fd)) (returns (body_post fd s0 d0)) s2).
  { intros st b' s2 [Hl2 Htr2] Hs2 Herr.
    assert (Hq2 : s_quiet s2 = s_quiet s0) by (rewrite <- Hq0; apply Hl2). rewrite <- Hq2 in Herr.
    eapply wp_returns_mono.
    { exact (discard_wp f root req temp fd i Htemp Hfit _ st d _ _ _ b' s2 Hs2 Hmax Herr). }
    intros r s3 (-> & [Hl3 Htr3] & Hd). split; [by transitivity s; [|transitivity s2]|].
    exists d. cbn [fst snd]. rewrite Htr3, Htr2. split; [done|]. left. rewrite Hq2 in Hd. done. }
  case_bool_decide as Hlen.
  { eapply Hexit; [done|exact Hs|]. apply pe_mismatch; [done|done|]. by intros [? _]. }
  case_bool_decide as Hsumne.
  { eapply Hexit; [done|exact Hs|]. apply pe_mismatch; [done|done|].
    intros [_ E]. apply Hsumne. by rewrite (FinalizeHex_spec _ _ Hh). }
  assert (Hm : data_matches req d).
  { split; [|rewrite <- Hsumne; by rewrite (FinalizeHex_spec _ _ Hh)]. lia. }
  apply wp_perform_bind. intros synced s1 Hpost. cbn [call_post] in Hpost.
  destruct Hpost as [j pos w nd e Hj Hnd|p m e Hj _|e Hq].
  - rewrite Hs in Hj. cbn in Hj. rewrite lookup_insert_eq in Hj. injection Hj as <- <- <-.
    rewrite Hs in Hnd. cbn in Hnd. rewrite lookup_insert_eq in Hnd. injection Hnd as <-.
    rewrite bool_decide_false by (intros []; done).
    eapply wp_bind_returns.
    { apply (UniqueFd_reset_wp _ _ (returns (fun fd' s' => fd' = UniqueFd.default /\
        local_step s s' /\ s_fs s' = left_fs f temp i (mkInode (header req ++ d) true) true))).
      - cbn. lia.
      - intros _ _ e2. cbn [returns UniqueFd.fd_ UniqueFd.make]. split_and!; [done|done|].
        cbn [s_fs ret_st]. rewrite Hs. unfold sync_inode, close_fs, left_fs, set_fds, set_inodes. cbn.
        by rewrite insert_insert_eq, delete_insert_id. }
    intros fd' s2 (-> & [Hl2 Htr2] & Hfs2).
    assert (Hdata : header req ++ d = chunk_file (expected_checksum req) d).
    { unfold chunk_file, header. by destruct Hm as [-> _]. }
    rewrite Hdata in Hfs2.
    eapply wp_bind_returns; [by apply Put_commit_wp|].
    intros st s3 ([Hl3 Htr3] & Hres). apply wp_ret.
    assert (Hq2 : s_quiet s2 = s_quiet s0) by (rewrite <- Hq0; apply Hl2).
    split; [by transitivity s; [|transitivity s2]|]. exists d. cbn [fst snd].
    rewrite Htr3, Htr2. split; [done|]. right. rewrite Hq2 in Hres. split_and!; try done.
    rewrite blen_app in Hmax. unfold blen in Hmax at 1. by rewrite header_length in Hmax.
  - rewrite Hs in Hj. cbn in Hj. by rewrite lookup_insert_eq in Hj.
  - rewrite bool_decide_true by done.
    eapply wp_bind_returns; [apply errno_status_wp|]. intros st s2 [-> ->].
    eapply Hexit; [done|exact Hs|]. apply pe_io; [done|]. intros Hqt. rewrite <- Hq0 in Hqt.
    destruct (Hq Hqt) as (Hb & _). specialize (Hb i (length (header req ++ d))).
    rewrite Hs in Hb. cbn in Hb. rewrite !lookup_insert_eq in Hb. by specialize (Hb eq_refl).
Qed.

Lemma Put_body_wp fuel fd b input s :
  s_fs s = writing_fs f fd i temp [] b -> 0 <= fd -> f_fds f !! fd = None ->
  in_wf input (s_trace s) ->
  (kHeaderSize + Z.to_nat (expected_size req) + 1 + s_events s < fuel)%nat ->
  wp (Put_body fuel root req temp (PathFor root (put_chunk_id req)) input (UniqueFd.make fd))
    (returns (body_post fd s (in_delivered input (s_trace s)))) s.
Proof.
  intros Hs Hfd0 Hfd Hin Hf. unfold Put_body. cbn [UniqueFd.get UniqueFd.make UniqueFd.fd_].
  change (MakeHeader (expected_size req) (expected_checksum req)) with (header req).
  eapply wp_bind_returns.
  { eapply WriteAll_wp; [exact Hs|]. rewrite header_length. lia. }
  intros st s1 ([Hl1 Htr1] & d' & b' & Hfs1 & Hsz & _ & Hres). cbn [app] in Hfs1, Hsz, Hres.
  assert (Hsz1 : blen d' <= off_max) by (apply Hsz; done). clear Hsz.
  assert (Hq1 : s_quiet s1 = s_quiet s) by apply Hl1.
  destruct (ok st) eqn:Hst; cbn [negb]; cycle 1.
  { destruct Hres as [[-> _]|[Hc Hbig]]; [done|].
    eapply wp_returns_mono.
    { eapply (discard_wp f root req temp fd i Htemp Hfit _ st [] (in_broken input (s_trace s)) (in_exhausted input (s_trace s))); [exact Hfs1|done|].
      apply pe_io; [done|]. rewrite Hq1. intros Hqt. specialize (Hbig Hqt).
      unfold blen in Hbig. rewrite header_length in Hbig.
      unfold is_u64 in Hsize. lia. }
    intros r s2 (-> & [Hl2 Htr2] & Hd). split; [by transitivity s1|]. exists []. cbn [fst snd].
    rewrite app_nil_r, Htr2, Htr1. split; [done|]. left. rewrite Hq1 in Hd. done. }
  destruct Hres as [[_ ->]|[Hc _]]; [|apply ok_code in Hst; congruence].
  assert (Hev : (s_events s1 <= s_events s)%nat) by apply Hl1.
  eapply wp_bind_returns.
  { eapply (Put_loop_wp f root req temp fd i Hsize Htemp Hfit header_length _ _ _ _ _ s1
      (in_delivered input (s_trace s)) [] b');
      rewrite ?app_nil_r; [exact Hfs1|exact Hsz1|apply absorbed_init|done|..]; rewrite ?Htr1; try done;
      unfold is_u64 in Hsize; lia. }
  intros [r input'] s2 (Hl2 & d & Hd & Hres). cbn [fst snd] in *.
  assert (Hl02 : later s s2) by (by transitivity s1).
  destruct r as [st2|[h received]].
  { apply wp_ret. split; [done|]. exists d. cbn [fst snd]. split; [done|]. left.
    rewrite Hq1 in Hres. done. }
  destruct Hres as ([b2 Hfs2] & Hmax & Hh & -> & Hle & Hex).
  by apply (Put_finish_wp fd h d _ b2).
Qed.

End Whole.
Section Total.
Context {S : Type} `{InputContract S}.

(** [Put] returns on every input and in every world, and does one of the
    things [put_result] lists with what the input delivered. *)
Definition put_post (root : string) (addr : Z) (req : PutChunkRequest) (input : S) (s : state)
    (r : Status * S) (s' : state) : Prop :=
  later s s' /\ exists (pid : Z) (d : list byte), 0 <= pid < 2 ^ 31 /\
    in_delivered r.2 (s_trace s') = in_delivered input (s_trace s) ++ d /\
    put_result (s_quiet s) (in_broken r.2 (s_trace s')) (s_fs s) root req
      (temp_path_for root (put_chunk_id req) pid addr) d (in_exhausted r.2 (s_trace s'))
      r.1 (s_fs s').

(** What the scope of the descriptor makes of the body's effects. *)
Lemma body_put_result f root req pid addr i fd s s0 d0 r fdo e :
  let temp := temp_path_for root (put_chunk_id req) pid addr in
  body_post f root req temp i fd s0 d0 (r, fdo) s ->
  ok (ValidateId (put_chunk_id req)) = true ->
  ok (ValidateChecksum (expected_checksum req)) = true ->
  f_names f !! temp = None -> name_fits temp = true -> f_inodes f !! i = None ->
  f_fds f !! fd = None -> 0 <= fd ->
  exists d, in_delivered r.2 (s_trace s) = d0 ++ d /\
    put_result (s_quiet s0) (in_broken r.2 (s_trace s)) f root req temp d (in_exhausted r.2 (s_trace s)) r.1
      (s_fs (if bool_decide (UniqueFd.fd_ fdo < 0) then s
             else ret_st s e (close_fs (UniqueFd.fd_ fdo) (s_fs s)))).
Proof.
  intros temp [_ (d & Hd & Hb)] Hid Hsum Htemp Hfit Hi Hfd Hfd0. exists d. split; [exact Hd|].
  cbn [fst snd] in *. destruct Hb as [[-> (Herr & d' & b & keep & Hfs & Hmax & Hk)]|(-> & Hfin & Hm & Hmax & Hc)].
  - cbn [UniqueFd.fd_ UniqueFd.make]. rewrite bool_decide_false by lia. cbn [s_fs ret_st].
    rewrite Hfs, close_scrap by done. by eapply put_discarded.
  - rewrite bool_decide_true by done.
    destruct Hc as [st keep Hst Hsome Hk|st keep Hst Hq|st keep m Hnone Hk Hst].
    + eapply put_discarded; [done..| |done|done|done| |done].
      * by apply pe_exists.
      * cbn [i_data]. rewrite chunk_file_length by done. rewrite kHeaderSize_eq in Hmax. lia.
    + eapply put_discarded; [done..| |done|done|done| |congruence].
      * apply pe_io; [done|congruence].
      * cbn [i_data]. rewrite chunk_file_length by done. rewrite kHeaderSize_eq in Hmax. lia.
    + by eapply put_committed.
Qed.

Lemma Put_wp fuel root addr req input s :
  is_u64 (expected_size req) -> in_wf input (s_trace s) ->
  (kHeaderSize + Z.to_nat (expected_size req) + 1 + s_events s < fuel)%nat ->
  wp (Put fuel root addr req input) (returns (put_post root addr req input s)) s.
Proof.
  intros Hsize Hin Hf. unfold Put.
  assert (Hstart : forall s1 st pid, later s s1 -> s_fs s1 = s_fs s -> s_trace s1 = s_trace s ->
    0 <= pid < 2 ^ 31 -> put_result (s_quiet s) (in_broken input (s_trace s)) (s_fs s) root req
      (temp_path_for root (put_chunk_id req) pid addr) []
      (in_exhausted input (s_trace s)) st (s_fs s) -> put_post root addr req input s (st, input) s1).
  { intros s1 st pid Hl Hfs Htr Hpid Hres. split; [done|]. exists pid, []. cbn [fst snd].
    by rewrite Htr, Hfs, app_nil_r. }
  destruct (ok (ValidateId (put_chunk_id req))) eqn:Hid; cbn [negb]; cycle 1.
  { apply wp_ret. apply (Hstart _ _ 0); [done..|]. by apply put_invalid. }
  destruct (ok (ValidateChecksum (expected_checksum req))) eqn:Hsum; cbn [negb]; cycle 1.
  { apply wp_ret. apply (Hstart _ _ 0); [done..|]. by apply put_bad_checksum. }
  apply wp_perform_bind. intros err s1 Hpost. cbn [call_post] in Hpost.
  destruct Hpost as [e1|e1 m1 Hq1]; cycle 1.
  { apply wp_ret. apply (Hstart _ _ 0); [done..|]. apply put_not_started; try done.
    right. split; [done|congruence]. }
  apply wp_perform_bind. intros pid s2 [Hpid ->].
  set (temp := temp_path_for root (put_chunk_id req) pid addr).
  eapply wp_bind_returns; [apply open_excl_rule|].
  intros raw s3 [fd i e Hn Hi Hfit Hfd0 Hfd|Ht|e He Hq]; cbn [s_fs s_quiet ret_st] in *.
  - pose proof (Put_body_wp (s_fs s) root req temp i Hsize Hsum Hn Hfit) as Hbody.
    eapply scope_wp; [rewrite valid_make by done; cbn [negb]; eapply Hbody| |].
    + intros id' E. by eapply PathFor_not_temp.
    + by apply temp_fits_chunk_fits in Hfit.
    + done.
    + done.
    + done.
    + done.
    + cbn [s_events ret_st]. lia.
    + intros r fdo s4 HP Hneg. split; [apply HP|]. exists pid.
      destruct (body_put_result (s_fs s) root req pid addr i fd s4 _ _ r fdo 0 HP) as (d & Hd & Hr); try done.
      exists d. split; [done|]. split; [exact Hd|]. by rewrite bool_decide_true in Hr by done.
    + intros r fdo s4 e4 HP Hpos. split; [apply HP|]. exists pid.
      destruct (body_put_result (s_fs s) root req pid addr i fd s4 _ _ r fdo e4 HP) as (d & Hd & Hr); try done.
      exists d. split; [done|]. split; [exact Hd|]. by rewrite bool_decide_false in Hr by lia.
  - eapply (scope_wp _ _ (fun x s' => x.2 = UniqueFd.make (-1) /\ put_post root addr req input s x.1 s')).
    + rewrite valid_failed. cbn [negb]. apply wp_bind, wp_get_errno. cbn [s_errno ret_st].
      rewrite bool_decide_true by done. apply wp_ret. split; [done|].
      apply (Hstart _ _ pid); [done..|]. apply put_not_started; try done. by left.
    + by intros r fdo s4 [_ HP].
    + intros r fdo s4 e4 [E _] Hpos. cbn in E. subst. done.
  - eapply (scope_wp _ _ (fun x s' => x.2 = UniqueFd.make (-1) /\ put_post root addr req input s x.1 s')).
    + rewrite valid_failed. cbn [negb]. apply wp_bind, wp_get_errno. cbn [s_errno ret_st].
      rewrite bool_decide_false by done.
      eapply wp_bind_returns; [apply errno_status_wp|]. intros st s4 [-> ->]. apply wp_ret.
      split; [done|]. apply (Hstart _ _ pid); [done..|]. apply put_not_started; try done. by right.
    + by intros r fdo s4 [_ HP].
    + intros r fdo s4 e4 [E _] Hpos. cbn in E. subst. done.
Qed.

End Total.
(** ** Delete *)

Inductive delete_result (quiet : bool) (f : fs) (root : string) (id : ChunkId) : Status -> fs -> Prop :=
| delete_invalid :
    ok (ValidateId id) = false -> delete_result quiet f root id (ValidateId id) f
| delete_missing st :
    ok (ValidateId id) = true -> f_names f !! PathFor root id = None -> code st = kNotFound ->
    delete_result quiet f root id st f
| delete_done :
    ok (ValidateId id) = true -> is_Some (f_names f !! PathFor root id) ->
    delete_result quiet f root id Status_Ok
      (set_names (delete (PathFor root id) (f_names f)) f)
| delete_io_error st :
    ok (ValidateId id) = true -> code st = kIoError ->
    (quiet = true -> name_fits (PathFor root id) = false) ->
    delete_result quiet f root id st f.

Lemma Delete_wp root id s :
  wp (Delete root id) (returns (fun st s' => local_step s s' /\
     delete_result (s_quiet s) (s_fs s) root id st (s_fs s'))) s.
Proof.
  unfold Delete. destruct (ok (ValidateId id)) eqn:Hid; cbn [negb]; cycle 1.
  { apply wp_ret. split; [done|]. by apply delete_invalid. }
  apply wp_perform_bind. intros r s1 Hpost. cbn [call_post] in Hpost.
  destruct Hpost as [e Hn|Hn|e He Hq].
  - rewrite bool_decide_false by (intros []; done). apply wp_ret. split; [done|]. by apply delete_done.
  - rewrite bool_decide_true by done.
    eapply wp_returns_mono; [apply open_failure_wp|]. intros st s2 (Hl & Hfs & Hc).
    split; [by etransitivity; [|exact Hl]|]. rewrite Hfs. by apply delete_missing.
  - rewrite bool_decide_true by done.
    eapply wp_returns_mono; [apply open_failure_wp|]. intros st s2 (Hl & Hfs & Hc).
    cbn [s_errno ret_st] in Hc. rewrite bool_decide_false in Hc by done.
    split; [by etransitivity; [|exact Hl]|]. rewrite Hfs. by apply delete_io_error.
Qed.

End Put.
