(* ===== verification/StoreSpec.v ===== *)
(** * FileChunkStore keeps the contract of ChunkStore: the abstract store the
    files represent, its invariant, and the simulation of every operation. *)
From stdpp Require Import functions.
From S2P Require Import Prelude Status Types Path Proto System Prog UniqueFd Blake3 FileIO Files.
From S2P Require Import ChunkFormat Streams ChunkStore FileStore StorePaths StoreRead StorePut.

(** ** Definitions *)

(** The object: its only member is [root_]. *)
Record FileChunkStore := mkFileChunkStore { root_ : string }.

#[export] Instance FileChunkStore_ops `{Libc, Blake3} : ChunkStore FileChunkStore := {
  cs_Put S _ c fuel addr req input := Put fuel (root_ c) addr req input;
  cs_Get S _ c fuel req output := Get fuel (root_ c) req output;
  cs_Head c fuel id := Head fuel (root_ c) id;
  cs_Delete c id := Delete (root_ c) id;
  cs_Size c fuel id := Size fuel (root_ c) id;
  cs_Exists c fuel id := Exists fuel (root_ c) id }.

(** The chunk a file holds. *)
Definition file_chunk (d : list byte) : option chunk :=
  (fun x : Z * Checksum => (x.2, file_payload d)) <$> parse_file d.

(** The abstract store represented by the files under [root]. *)
Definition chunks (root : string) (f : fs) : store_map :=
  fun id => lookup_file f (PathFor root id) ≫= file_chunk.

(** Every file with the name of a chunk is a complete chunk file whose content
    has the recorded checksum. *)
Record store_ok `{Blake3} (root : string) (f : fs) : Prop := {
  so_wf : fs_wf f;
  so_files : forall id d, lookup_file f (PathFor root id) = Some d ->
    exists c p, d = chunk_file c p /\ chunk_valid (c, p) }.

(** No temporary file is left. *)
Definition store_clean (root : string) (f : fs) : Prop :=
  forall id pid addr, f_names f !! temp_path_for root id pid addr = None.

(** No temporary file is in the way of a Put. *)
Definition temps_free (root : string) (id : ChunkId) (addr : Z) (f : fs) : Prop :=
  forall pid, f_names f !! temp_path_for root id pid addr = None.

(** The names [Put] uses are short enough, and the file is not too large. *)
Definition store_room (root : string) (id : ChunkId) (addr size : Z) : Prop :=
  Z.of_nat kHeaderSize + size <= off_max /\ name_fits root = true /\
  forall pid, 0 <= pid < 2 ^ 31 -> name_fits (temp_path_for root id pid addr) = true.

(** ** Lemmas *)

Section Lemmas.
Context `{Libc} `{Blake3}.

(** ** The abstract store *)

Lemma chunks_file root f id d :
  store_ok root f -> lookup_file f (PathFor root id) = Some d ->
  exists c p, d = chunk_file c p /\ chunk_valid (c, p) /\
    parse_file d = Some (blen p, c) /\ file_payload d = p /\ blen d <= off_max.
Proof.
  intros [Hwf Hfiles] Hd. destruct (Hfiles _ _ Hd) as (c & p & -> & Hv).
  assert (Hmax : blen (chunk_file c p) <= off_max).
  { unfold lookup_file in Hd. destruct (f_names f !! PathFor root id) as [i|]; [|done]. cbn in Hd.
    destruct (f_inodes f !! i) as [nd|] eqn:Hi; [|done]. injection Hd as Hd.
    pose proof (wf_size _ Hwf _ _ Hi) as Hm. by rewrite Hd in Hm. }
  exists c, p. split_and!; try done.
  - destruct Hv as [Hc _]. rewrite parse_chunk_file; [done..|].
    rewrite chunk_file_length in Hmax by done. pose proof (blen_nonneg p).
    unfold is_u64, off_max, u64_modulus in *. lia.
  - apply file_payload_chunk_file, Hv.
Qed.

Lemma chunks_some root f id d c p :
  store_ok root f -> lookup_file f (PathFor root id) = Some d -> parse_file d = Some (blen p, c) ->
  file_payload d = p -> chunks root f id = Some (c, p).
Proof. intros Hok Hd Hp <-. unfold chunks, file_chunk. rewrite Hd. cbn. by rewrite Hp. Qed.

Lemma chunks_none root f id :
  store_ok root f -> (chunks root f id = None <-> f_names f !! PathFor root id = None).
Proof.
  intros Hok. split; intros Hn.
  - destruct (f_names f !! PathFor root id) as [i|] eqn:Hi; [|done].
    destruct (wf_names _ (so_wf _ _ Hok) _ _ Hi) as [nd Hnd].
    pose proof (lookup_file_some _ _ _ _ Hi Hnd) as Hd.
    destruct (chunks_file _ _ _ _ Hok Hd) as (c & p & _ & _ & Hp & Hpl & _).
    by rewrite (chunks_some _ _ _ _ _ _ Hok Hd Hp Hpl) in Hn.
  - unfold chunks, lookup_file. by rewrite Hn.
Qed.

Lemma chunks_is_some root f id :
  store_ok root f -> is_Some (f_names f !! PathFor root id) -> is_Some (chunks root f id).
Proof.
  intros Hok [i Hi]. destruct (chunks root f id) eqn:E; [done|].
  apply chunks_none in E; [congruence|done].
Qed.

Lemma chunks_valid root f id x : store_ok root f -> chunks root f id = Some x -> chunk_valid x.
Proof.
  intros Hok Hx. unfold chunks in Hx.
  destruct (lookup_file f (PathFor root id)) as [d|] eqn:Hd; [|done].
  destruct (chunks_file _ _ _ _ Hok Hd) as (c & p & _ & Hv & Hp & Hpl & _).
  cbn in Hx. unfold file_chunk in Hx. rewrite Hp, Hpl in Hx. by injection Hx as <-.
Qed.

Lemma lookup_file_size f p d : fs_wf f -> lookup_file f p = Some d -> blen d <= off_max.
Proof.
  intros Hwf Hd. unfold lookup_file in Hd. destruct (f_names f !! p) as [i|]; [|done]. cbn in Hd.
  destruct (f_inodes f !! i) as [nd|] eqn:Hi; [|done]. injection Hd as <-. by eapply wf_size.
Qed.

Lemma chunks_length root f id c p : store_ok root f -> chunks root f id = Some (c, p) -> blen p <= off_max.
Proof.
  intros Hok Hx. unfold chunks in Hx.
  destruct (lookup_file f (PathFor root id)) as [d|] eqn:Hd; [|done].
  destruct (chunks_file _ _ _ _ Hok Hd) as (c' & p' & -> & [Hv _] & Hp & Hpl & Hmax).
  change (file_chunk (chunk_file c' p') = Some (c, p)) in Hx.
  unfold file_chunk in Hx. rewrite Hp, Hpl in Hx. injection Hx as _ <-.
  rewrite chunk_file_length in Hmax by done. lia.
Qed.

(** Files that agree on the names of chunks represent the same store. *)
Lemma chunks_ext root f f' :
  (forall id, lookup_file f' (PathFor root id) = lookup_file f (PathFor root id)) ->
  same_map (chunks root f) (chunks root f').
Proof. intros H1 id. unfold chunks. by rewrite H1. Qed.

Lemma store_ok_ext root f f' :
  fs_wf f' -> (forall id, lookup_file f' (PathFor root id) = lookup_file f (PathFor root id)) ->
  store_ok root f -> store_ok root f'.
Proof. intros Hwf H1 [_ Hf]. split; [done|]. intros id d. rewrite H1. apply Hf. Qed.

(** ** Put *)

Section Put.
Context (root : string) (f : fs) (id : ChunkId) (pid addr : Z) (i : positive) (keep : bool).
Context (Hok : store_ok root f) (Hi : f_inodes f !! i = None).
Let temp := temp_path_for root id pid addr.

Lemma left_same nd : blen (i_data nd) <= off_max ->
  store_ok root (left_fs f temp i nd keep) /\
  same_map (chunks root f) (chunks root (left_fs f temp i nd keep)).
Proof.
  intros Hmax. pose proof (so_wf _ _ Hok) as Hwf.
  assert (E : forall id', lookup_file (left_fs f temp i nd keep) (PathFor root id')
                        = lookup_file f (PathFor root id')).
  { intros id'. apply lookup_left; [done..|]. apply PathFor_not_temp. }
  split; [|by apply chunks_ext]. eapply store_ok_ext; [by apply wf_left|exact E|done].
Qed.

Lemma committed_chunks c d m :
  chunk_valid (c, d) -> 80 + blen d <= off_max ->
  let f' := committed_fs f temp (PathFor root id) i (mkInode (chunk_file c d) true) keep m in
  store_ok root f' /\ same_map (<[id := Some (c, d)]> (chunks root f)) (chunks root f').
Proof.
  intros Hv Hmax f'. pose proof (so_wf _ _ Hok) as Hwf. destruct (Hv) as [Hc Hb].
  assert (Hlen : blen (chunk_file c d) = 80 + blen d) by by apply chunk_file_length.
  assert (E : forall id', lookup_file f' (PathFor root id') =
     if decide (id' = id) then Some (chunk_file c d) else lookup_file f (PathFor root id')).
  { intros id'. unfold f'. rewrite lookup_committed by (done || apply PathFor_not_temp).
    do 2 case_decide; subst; try done. by apply PathFor_inj in H1. }
  assert (Hok' : store_ok root f').
  { split; [apply wf_committed; [done|cbn [i_data]; lia]|]. intros id' d'. rewrite E.
    case_decide; [intros [= <-]; eauto|apply Hok]. }
  split; [done|]. intros id'. destruct (decide (id' = id)) as [->|Hne].
  - rewrite store_insert_eq. eapply chunks_some; [done|rewrite E, decide_True by done; done| |].
    + apply parse_chunk_file; [done|]. pose proof (blen_nonneg d).
      unfold is_u64, off_max, u64_modulus in *. lia.
    + by apply file_payload_chunk_file.
  - rewrite store_insert_ne by done. unfold chunks. by rewrite E, decide_False.
Qed.

End Put.
Lemma ValidateId_code id : ok (ValidateId id) = false -> code (ValidateId id) = kInvalidArgument.
Proof. unfold ValidateId. destruct (negb _); [done|]. by case_bool_decide. Qed.

(** [put_result], read as an operation of the abstract store. *)
Lemma put_result_spec quiet broken f root req pid addr d fin st f' :
  store_ok root f -> 0 <= pid < 2 ^ 31 ->
  put_result quiet broken f root req (temp_path_for root (put_chunk_id req) pid addr) d fin st f' ->
  store_ok root f' /\ (quiet = true -> store_clean root f -> store_clean root f') /\
  put_spec (ok (ValidateId (put_chunk_id req)))
    (quiet = true /\ temps_free root (put_chunk_id req) addr f /\
     store_room root (put_chunk_id req) addr (expected_size req))
    broken (chunks root f) req d fin st (chunks root f').
Proof.
  intros Hok Hpid Hres.
  destruct Hres as [Hd Hid|Hd Hid Hsum|st Hd Hid Hsum Hst|st i nd keep Hid Hsum Herr Htemp Hfit Hi Hmax Hk
    |st i keep m Hid Hsum Hfin Hm Htemp Hfit Hi Hnone Hmax Hk Hst].
  - split_and!; [done..|]. apply ps_invalid; [by rewrite Hid|by apply ValidateId_code|done|done].
  - split_and!; [done..|].
    apply ps_invalid; [by rewrite Hid, Hsum|by apply ValidateChecksum_code|done|done].
  - split_and!; [done..|]. apply ps_rejected; [by rewrite Hid, Hsum| |done]. apply pr_fault.
    + destruct Hst as [[? _]|[? _]]; auto.
    + intros (Hq & Hclean & _ & _ & Hfit). destruct Hst as [[_ [j Hj]]|[_ Hn]].
      * by rewrite Hclean in Hj.
      * specialize (Hn Hq). by rewrite Hfit in Hn.
  - destruct (left_same root f (put_chunk_id req) pid addr i keep Hok Hi nd Hmax) as [Hok' Hsame].
    split_and!; [done| |].
    { intros Hq Hclean. by rewrite (Hk Hq). }
    apply ps_rejected; [by rewrite Hid, Hsum| |done].
    destruct Herr as [st Hs Ht|st Hc Hlt|st Hc Hfin Hm|st Hc Hfin Hm Hs|st Hc Hq].
    + by apply pr_input.
    + apply pr_corrupt; [done| |by right]. intros [E _]. lia.
    + apply pr_corrupt; auto.
    + apply pr_exists; try done. by apply chunks_is_some.
    + apply pr_fault; [by left|]. intros (Hqt & _ & Hsz & _). specialize (Hq Hqt). lia.
  - rewrite kHeaderSize_eq in Hmax.
    assert (Hv : chunk_valid (expected_checksum req, d)) by (split; [done|apply Hm]).
    destruct (committed_chunks root f (put_chunk_id req) pid addr i keep Hok Hi
      (expected_checksum req) d m Hv Hmax) as [Hok' Hsame].
    split_and!; [done| |].
    { intros Hq Hclean id p a. unfold committed_fs. cbn [f_names]. rewrite (Hk Hq).
      rewrite lookup_insert_ne; [apply Hclean|apply PathFor_not_temp]. }
    apply ps_stored; try done; [by rewrite Hid, Hsum|by apply chunks_none|].
    destruct Hst as [[-> _]|(Hc & _ & Hq)]; [by left|right]. split; [done|].
    intros (Hqt & _ & _ & Hroot & _). specialize (Hq Hqt). congruence.
Qed.

(** ** Head, Get and Delete *)

Lemma head_result_spec quiet f root id r :
  store_ok root f -> head_result quiet f root id r ->
  head_spec (ok (ValidateId id)) (quiet = true /\ name_fits (PathFor root id) = true)
    (chunks root f) id r.
Proof.
  intros Hok [Hid|st Hid Hm Hc|d r' Hid Hd Hp|st Hid Hc Hq].
  - by apply hs_invalid; [|apply ValidateId_code].
  - apply hs_missing; [done| |done]. unfold chunks. by rewrite Hm.
  - destruct (chunks_file _ _ _ _ Hok Hd) as (c & p & _ & _ & Hparse & Hpl & _).
    destruct Hp as [Hp|(st & -> & Hc & Hq)].
    + rewrite Hparse in Hp. subst r'. apply hs_found; [done|].
      by apply (chunks_some root f id d).
    + apply hs_fault; [done|done|]. intros [? _]. congruence.
  - apply hs_fault; [done|done|]. intros [Hqt Hf]. specialize (Hq Hqt). congruence.
Qed.

Lemma get_result_spec quiet broken f root req st out :
  store_ok root f -> get_result quiet broken f root req st out ->
  get_spec (ok (ValidateId (get_chunk_id req)))
    (quiet = true /\ name_fits (PathFor root (get_chunk_id req)) = true) broken
    (chunks root f) req st out.
Proof.
  intros Hok Hres.
  (* a file that parses is an accepted chunk of the abstract store *)
  assert (Hacc : forall d sz c, lookup_file f (PathFor root (get_chunk_id req)) = Some d ->
    parse_file d = Some (sz, c) -> sz = blen (file_payload d) /\
    chunks root f (get_chunk_id req) = Some (c, file_payload d)).
  { intros d sz c Hd Hp. destruct (chunks_file _ _ _ _ Hok Hd) as (c' & p & _ & _ & Hp' & Hpl & _).
    rewrite Hp in Hp'. injection Hp' as -> ->. rewrite Hpl. split; [done|].
    by apply (chunks_some root f _ d). }
  assert (Hcalm : (quiet = true -> name_fits (PathFor root (get_chunk_id req)) = false) ->
    quiet = true /\ name_fits (PathFor root (get_chunk_id req)) = true -> False).
  { intros Hq [Hqt Hf]. specialize (Hq Hqt). congruence. }
  destruct Hres as [r Hr Hv|d sz c Hid Hd Hp Hr|d sz c Hid Hd Hp Hr|st d sz c n Hid Hd Hp Hr Hst Hq Hn|st d Hid Hd Hc Hq].
  - apply head_result_spec in Hr; [|done].
    destruct Hr as [st Hi Hc|st Hi Hm Hc|c p Hi Hm|st Hi Hc Hq]; [..|done|]; cbn [so_status SO_error];
      rewrite NormalizeError_id by (apply not_ok_code; congruence).
    + by apply gs_invalid.
    + by apply gs_missing.
    + by apply gs_fault.
  - destruct (Hacc _ _ _ Hd Hp) as [-> Hm]. by eapply gs_range.
  - destruct (Hacc _ _ _ Hd Hp) as [-> Hm]. by eapply gs_done.
  - destruct (Hacc _ _ _ Hd Hp) as [-> Hm]. eapply gs_broken; [done..| |done]. intros [Hqt _]. auto.
  - apply gs_fault; auto.
Qed.

Lemma delete_result_spec quiet f root id st f' :
  store_ok root f -> delete_result quiet f root id st f' ->
  store_ok root f' /\ (store_clean root f -> store_clean root f') /\
  delete_spec (ok (ValidateId id)) (quiet = true /\ name_fits (PathFor root id) = true)
    (chunks root f) id st (chunks root f').
Proof.
  intros Hok [Hid|st' Hid Hn Hc|Hid Hn|st' Hid Hc Hq].
  - split_and!; [done..|]. apply ds_invalid; [done|by apply ValidateId_code|done].
  - split_and!; [done..|]. apply ds_missing; [done|by apply chunks_none|done|done].
  - assert (E : forall id', lookup_file (set_names (delete (PathFor root id) (f_names f)) f) (PathFor root id')
      = if decide (id' = id) then None else lookup_file f (PathFor root id')).
    { intros id'. unfold lookup_file. cbn. case_decide as Hd; [subst; by rewrite lookup_delete_eq|].
      rewrite lookup_delete_ne; [done|]. by intros ?%PathFor_inj. }
    split_and!.
    + split; [apply wf_delete; by apply so_wf in Hok|]. intros id' d. rewrite E. case_decide; [done|].
      by apply Hok.
    + intros Hclean id' pid addr. cbn. rewrite lookup_delete_ne; [apply Hclean|]. apply PathFor_not_temp.
    + apply ds_done; [done|by apply chunks_is_some|]. intros id'. unfold chunks. rewrite E.
      case_decide as Hd; [subst; by rewrite store_insert_eq|by rewrite store_insert_ne].
  - split_and!; [done..|]. apply ds_fault; [done|done| |done].
    intros [Hqt Hf]. specialize (Hq Hqt). congruence.
Qed.

End Lemmas.

(** ** The contract *)

(** Fuel for [n] bytes and the given number of events. *)
Definition store_need (n : Z) (events : nat) : nat := (kHeaderSize + Z.to_nat n + 1 + events)%nat.

#[export] Program Instance FileChunkStore_contract `{Libc, Blake3} : ChunkStoreContract FileChunkStore := {
  cs_chunks c f := chunks (root_ c) f;
  cs_inv c f := store_ok (root_ c) f;
  cs_accepts c id := ok (ValidateId id);
  cs_clean c f := store_clean (root_ c) f;
  cs_free c f id addr := temps_free (root_ c) id addr f;
  cs_reach c id := name_fits (PathFor (root_ c) id) = true;
  cs_room c id addr size := store_room (root_ c) id addr size;
  cs_need c := store_need }.
Next Obligation. intros ?? c n e n' e' H1 H2. unfold store_need. lia. Qed.
Next Obligation. intros ?? c f id addr Hc pid. apply Hc. Qed.
Next Obligation. intros ?? c f id x. apply chunks_valid. Qed.
Next Obligation. intros ?? c f id ck p. apply chunks_length. Qed.
Next Obligation.
  intros ?? S ?? c fuel addr req input s Hok Hsize Hin Hf. cbn beta in *.
  eapply wp_returns_mono; [exact (Put_wp fuel (root_ c) addr req input s Hsize Hin Hf)|].
  intros r s' (Hl & pid & d & Hpid & Hd & Hres).
  apply put_result_spec in Hres as (Hok' & Hclean & Hspec); [|done..].
  split_and!; [done..|]. by exists d.
Qed.
Next Obligation.
  intros ?? S ?? c fuel req output s Hok Ho Hs Hf. cbn beta in *. unfold store_need in Hf.
  pose proof (Get_wp fuel (root_ c) req output s (so_wf _ _ Hok) Ho Hs) as Hwp.
  eapply wp_returns_mono; [eapply Hwp; clear -Hf; lia|]. clear Hwp.
  intros r s' (Hl & Hfs & d & Hd & Hres). split_and!; [done..|]. exists d. split; [done|].
  by apply get_result_spec.
Qed.
Next Obligation.
  intros ?? c fuel id s Hok Hf. cbn beta in *. unfold store_need in Hf.
  pose proof (Head_wp fuel (root_ c) id s (so_wf _ _ Hok)) as Hwp.
  eapply wp_returns_mono; [eapply Hwp; clear -Hf; lia|]. clear Hwp.
  intros r s' (Hl & Hfs & Hres). split_and!; [done..|]. by apply head_result_spec.
Qed.
Next Obligation.
  intros ?? c id s Hok. cbn beta in *. eapply wp_returns_mono; [exact (Delete_wp (root_ c) id s)|].
  intros st s' (Hl & Hres). by apply delete_result_spec in Hres as (? & ? & ?).
Qed.
Next Obligation.
  intros ?? c fuel id s Hok Hf. cbn beta in *. unfold store_need in Hf.
  pose proof (Size_wp fuel (root_ c) id s (so_wf _ _ Hok)) as Hwp.
  eapply wp_returns_mono; [eapply Hwp; clear -Hf; lia|]. clear Hwp.
  intros r s' (Hl & Hfs & h & Hh & ->). split_and!; [done..|]. exists h. split; [|done].
  by apply head_result_spec.
Qed.
Next Obligation.
  intros ?? c fuel id s Hok Hf. cbn beta in *. unfold store_need in Hf.
  pose proof (Exists_wp fuel (root_ c) id s (so_wf _ _ Hok)) as Hwp.
  eapply wp_returns_mono; [eapply Hwp; clear -Hf; lia|]. clear Hwp.
  intros r s' (Hl & Hfs & h & Hh & ->). split_and!; [done..|]. exists h. split; [|done].
  by apply head_result_spec.
Qed.
