(* ===== verification/Sequence.v ===== *)
(** * Sequences of operations on a ChunkStore: without faults they give exactly
    the answers of the abstract store. *)
From stdpp Require Import functions.
From S2P Require Import Prelude Status Types Path Proto System Prog UniqueFd Blake3 FileIO.
From S2P Require Import Streams ChunkStore.

(** ** Definitions *)

(** One call of a client of the store, with the data it streams in. *)
Inductive command :=
| DoPut (addr : Z) (req : PutChunkRequest) (data : list byte)
| DoGet (req : GetChunkRequest)
| DoHead (id : ChunkId)
| DoDelete (id : ChunkId)
| DoSize (id : ChunkId)
| DoExists (id : ChunkId).

Inductive answer :=
| PutAnswer (c : StatusCode)
| GetAnswer (c : StatusCode) (data : list byte)
| HeadAnswer (c : StatusCode) (r : option HeadChunkResponse)
| DeleteAnswer (c : StatusCode)
| SizeAnswer (c : StatusCode) (n : option Z)
| ExistsAnswer (b : bool).

Section Execute.
Context {C : Type} `{ChunkStore C}.

Definition execute_one (c : C) (fuel : nat) (cmd : command) : prog answer :=
  match cmd with
  | DoPut addr req data =>
      r ← cs_Put c fuel addr req (mkVectorInput (vi_data := data) 0);
      mret (PutAnswer (code r.1))
  | DoGet req =>
      r ← cs_Get c fuel req (mkVectorOutput []);
      mret (GetAnswer (code r.1) (vo_value r.2))
  | DoHead id => r ← cs_Head c fuel id; mret (HeadAnswer (code (so_status r)) (so_value r))
  | DoDelete id => st ← cs_Delete c id; mret (DeleteAnswer (code st))
  | DoSize id => r ← cs_Size c fuel id; mret (SizeAnswer (code (so_status r)) (so_value r))
  | DoExists id => b ← cs_Exists c fuel id; mret (ExistsAnswer b)
  end.

Fixpoint execute (c : C) (fuel : nat) (cmds : list command) : prog (list answer) :=
  match cmds with
  | [] => mret []
  | cmd :: cmds =>
      a ← execute_one c fuel cmd;
      rest ← execute c fuel cmds;
      mret ((a : answer) :: rest)
  end.

End Execute.

(** ** The abstract store as a function *)

Section Abstract.
Context `{Blake3} (accepts : ChunkId -> bool).

Definition abstract_head (m : store_map) (id : ChunkId) : StatusCode * option HeadChunkResponse :=
  if negb (accepts id) then (kInvalidArgument, None)
  else match m id with
       | Some (c, p) => (kOk, Some (mkHeadChunkResponse id (blen p) c))
       | None => (kNotFound, None)
       end.

Definition abstract_one (m : store_map) (cmd : command) : answer * store_map :=
  match cmd with
  | DoPut addr req data =>
      if negb (accepts (put_chunk_id req) && ok (ValidateChecksum (expected_checksum req)))
      then (PutAnswer kInvalidArgument, m)
      else if negb (bool_decide (data_matches req data)) then (PutAnswer kCorruption, m)
      else match m (put_chunk_id req) with
           | Some _ => (PutAnswer kAlreadyExists, m)
           | None => (PutAnswer kOk, <[put_chunk_id req := Some (expected_checksum req, data)]> m)
           end
  | DoGet req =>
      if negb (accepts (get_chunk_id req)) then (GetAnswer kInvalidArgument [], m)
      else match m (get_chunk_id req) with
           | None => (GetAnswer kNotFound [], m)
           | Some (_, p) =>
               if ok (ValidateByteRange (range req) (blen p))
               then (GetAnswer kOk (ztake (size (range req)) (zdrop (offset (range req)) p)), m)
               else (GetAnswer kInvalidArgument [], m)
           end
  | DoHead id => let '(c, r) := abstract_head m id in (HeadAnswer c r, m)
  | DoDelete id =>
      if negb (accepts id) then (DeleteAnswer kInvalidArgument, m)
      else match m id with
           | None => (DeleteAnswer kNotFound, m)
           | Some _ => (DeleteAnswer kOk, <[id := None]> m)
           end
  | DoSize id => let '(c, r) := abstract_head m id in (SizeAnswer c (hr_size <$> r), m)
  | DoExists id => (ExistsAnswer (bool_decide (is_Some (abstract_head m id).2)), m)
  end.

Fixpoint abstract_run (m : store_map) (cmds : list command) : list answer * store_map :=
  match cmds with
  | [] => ([], m)
  | cmd :: cmds =>
      let '(a, m) := abstract_one m cmd in
      let '(rest, m) := abstract_run m cmds in (a :: rest, m)
  end.

End Abstract.

(** ** Lemmas *)

Section Abstract.
Context `{Blake3} (accepts : ChunkId -> bool).

Lemma abstract_head_proper m m' id :
  same_map m m' -> abstract_head accepts m' id = abstract_head accepts m id.
Proof. intros E. unfold abstract_head. by rewrite E. Qed.

Lemma same_map_insert m m' id x : same_map m m' -> same_map (<[id := x]> m) (<[id := x]> m').
Proof.
  intros E id'. destruct (decide (id = id')) as [->|];
    [by rewrite !store_insert_eq|by rewrite !store_insert_ne].
Qed.

(** Equal stores answer alike. *)
Lemma abstract_one_proper m m' cmd :
  same_map m m' ->
  (abstract_one accepts m' cmd).1 = (abstract_one accepts m cmd).1 /\
  same_map (abstract_one accepts m cmd).2 (abstract_one accepts m' cmd).2.
Proof.
  intros E. destruct cmd; cbn; rewrite ?(abstract_head_proper m m'), ?E by done; repeat case_match;
    simplify_eq; split; try done; by apply same_map_insert.
Qed.

#[export] Instance abstract_run_proper :
  Proper (same_map ==> eq ==> prod_relation eq same_map) (abstract_run accepts).
Proof.
  intros m m' E cmds ? <-. revert m m' E.
  induction cmds as [|cmd cmds IH]; intros m m' E; cbn; [done|].
  destruct (abstract_one_proper m m' cmd E) as [E1 E2].
  destruct (abstract_one accepts m cmd) as [a m1], (abstract_one accepts m' cmd) as [a' m1'].
  cbn in E1, E2. subst. specialize (IH _ _ E2).
  destruct (abstract_run accepts m1 cmds) as [r1 m2], (abstract_run accepts m1' cmds) as [r2 m3].
  destruct IH as [IH1 IH2]. cbn in *. by subst.
Qed.

(** Each specification, in a calm world and with streams that never fail, leaves one
    answer. *)

Lemma put_spec_exact (calm : Prop) m req o data fin addr st m' :
  calm -> (fin <-> drop o data = []) ->
  put_spec (accepts (put_chunk_id req)) calm False m req (take o data) fin st m' ->
  (abstract_one accepts m (DoPut addr req data)).1 = PutAnswer (code st) /\
  same_map (abstract_one accepts m (DoPut addr req data)).2 m'.
Proof.
  intros Hcalm Hfin Hs. cbn.
  assert (Hall : fin -> take o data = data).
  { intros Hd%Hfin. rewrite <- (take_drop o data) at 2. by rewrite Hd, app_nil_r. }
  destruct Hs as [st m' Ha Hc Hd Hm|st m' Ha Hr Hm|st m' Ha Hf Hdm Hn Hm Hst];
    rewrite Ha; cbn [negb]; [by rewrite Hc|..].
  - destruct Hr as [st _ Ht|st Hc Hdm Hwhy|st Hc Hf Hdm Hex|st _ Hno]; [done| | |by destruct (Hno Hcalm)].
    + rewrite bool_decide_false; cbn [negb]; [by rewrite Hc|].
      destruct Hwhy as [Hf|Hlt]; [by rewrite <- (Hall Hf)|].
      intros [E _]. unfold blen in *. rewrite length_take in Hlt. lia.
    + rewrite (Hall Hf) in Hdm. rewrite bool_decide_true by done. cbn [negb].
      destruct Hex as [x ->]. by rewrite Hc.
  - rewrite (Hall Hf) in Hdm, Hm. rewrite bool_decide_true by done. cbn [negb]. rewrite Hn.
    destruct Hst as [->|[_ Hno]]; [done|by destruct (Hno Hcalm)].
Qed.

Lemma head_spec_exact (calm : Prop) m id r :
  calm -> head_spec (accepts id) calm m id r ->
  abstract_head accepts m id = (code (so_status r), so_value r).
Proof.
  intros Hcalm Hs. unfold abstract_head.
  destruct Hs as [st Ha Hc|st Ha Hn Hc|c p Ha Hm|st Ha Hc Hno]; rewrite Ha; cbn [negb];
    [..|by destruct (Hno Hcalm)].
  1,2: rewrite ?Hn; cbn; rewrite NormalizeError_id by (apply not_ok_code; congruence); by rewrite Hc.
  by rewrite Hm.
Qed.

Lemma get_spec_exact (calm : Prop) m req st out :
  calm -> get_spec (accepts (get_chunk_id req)) calm False m req st out ->
  abstract_one accepts m (DoGet req) = (GetAnswer (code st) out, m).
Proof.
  intros Hcalm Hs. cbn.
  destruct Hs as [st Ha Hc|st Ha Hn Hc|c p Ha Hm Hr|c p Ha Hm Hr|st c p n Ha Hm Hr Hst Hno _|st Ha Hc Hno];
    rewrite Ha; cbn [negb].
  - by rewrite Hc.
  - by rewrite Hn, Hc.
  - rewrite Hm, Hr. by rewrite ValidateByteRange_code.
  - by rewrite Hm, Hr.
  - by destruct (Hno Hcalm).
  - by destruct (Hno Hcalm).
Qed.

Lemma delete_spec_exact (calm : Prop) m id st m' :
  calm -> delete_spec (accepts id) calm m id st m' ->
  (abstract_one accepts m (DoDelete id)).1 = DeleteAnswer (code st) /\
  same_map (abstract_one accepts m (DoDelete id)).2 m'.
Proof.
  intros Hcalm Hs. cbn.
  destruct Hs as [st m' Ha Hc Hm|st m' Ha Hn Hc Hm|m' Ha [x Hx] Hm|st m' Ha Hc Hno Hm];
    rewrite Ha; cbn [negb]; [by rewrite Hc|by rewrite Hn, Hc|by rewrite Hx|by destruct (Hno Hcalm)].
Qed.

End Abstract.

(** ** The simulation *)

Section Simulation.
Context {C : Type} `{ChunkStoreContract C}.

(** The calls the abstract store speaks about: machine-width numbers, names the
    file system can hold, enough fuel. *)
Definition admissible (c : C) (fuel events : nat) (cmd : command) : Prop :=
  match cmd with
  | DoPut addr req _ =>
      is_u64 (expected_size req) /\ cs_room c (put_chunk_id req) addr (expected_size req) /\
      (cs_need c (expected_size req) events < fuel)%nat
  | DoGet req =>
      is_u64 (offset (range req)) /\ is_u64 (size (range req)) /\ cs_reach c (get_chunk_id req) /\
      (cs_need c (size (range req)) events < fuel)%nat
  | DoHead id | DoSize id | DoExists id => cs_reach c id /\ (cs_need c 0 events < fuel)%nat
  | DoDelete id => cs_reach c id
  end.

Lemma admissible_later c fuel e e' cmd :
  admissible c fuel e cmd -> (e' <= e)%nat -> admissible c fuel e' cmd.
Proof.
  intros Ha He.
  assert (Hn : forall n, (cs_need c n e < fuel)%nat -> (cs_need c n e' < fuel)%nat).
  { intros n Hn. pose proof (cs_need_mono c n e' n e ltac:(done) He). lia. }
  destruct cmd; cbn in *; [destruct Ha as (?&?&?)|destruct Ha as (?&?&?&?)|..]; auto;
    destruct Ha; auto.
Qed.

(** Where a sequence of calls stands. *)
Definition in_step (c : C) (m : store_map) (s : state) : Prop :=
  s_quiet s = true /\ cs_inv c (s_fs s) /\ cs_clean c (s_fs s) /\ same_map m (cs_chunks c (s_fs s)).

Lemma in_step_files c m s s' : in_step c m s -> later s s' -> s_fs s' = s_fs s -> in_step c m s'.
Proof. intros (Hq & Hi & Hc & Hm) [Hl _] E. unfold in_step. rewrite Hl, E. done. Qed.

Lemma execute_one_wp c fuel cmd m s :
  in_step c m s -> admissible c fuel (s_events s) cmd ->
  wp (execute_one c fuel cmd) (returns (fun a s' =>
    later s s' /\ a = (abstract_one (cs_accepts c) m cmd).1 /\
    in_step c (abstract_one (cs_accepts c) m cmd).2 s')) s.
Proof.
  intros Hin Ha. pose proof Hin as (Hq & Hi & Hc & Hm).
  destruct (abstract_one_proper (cs_accepts c) _ _ cmd Hm) as [Ea Em].
  assert (Hread : forall id r, head_spec (cs_accepts c id) (s_quiet s = true /\ cs_reach c id)
      (cs_chunks c (s_fs s)) id r -> cs_reach c id ->
    abstract_head (cs_accepts c) m id = (code (so_status r), so_value r)).
  { intros id r Hr Hre. rewrite <- (abstract_head_proper _ _ _ id Hm). eapply head_spec_exact; [|exact Hr]. done. }
  destruct cmd as [addr req data|req|id|id|id|id]; cbn [execute_one admissible] in *.
  - destruct Ha as (Hsz & Hroom & Hf).
    eapply wp_bind_returns; [eapply (cs_Put_ok (VectorInput data) c); [exact Hi|exact Hsz|done|exact Hf]|].
    intros [st x] s' (Hl & Hi' & Hcl & d & Hd & Hs). apply wp_ret. cbn [fst snd] in *.
    cbn in Hd. rewrite take_0 in Hd. cbn in Hd. subst d.
    eapply put_spec_exact in Hs as [E1 E2]; [|split; [done|split; [by apply cs_clean_free|done]]|done]. rewrite Ea in E1.
    split; [done|split; [done|]].
    split; [destruct Hl; congruence|split; [done|split; [by auto|by etransitivity]]].
  - destruct Ha as (Ho & Hsz & Hre & Hf).
    eapply wp_bind_returns; [eapply (cs_Get_ok VectorOutput c); [exact Hi|exact Ho|exact Hsz|exact Hf]|].
    intros [st x] s' (Hl & Hfs & d & Hd & Hs). apply wp_ret. cbn [fst snd] in *.
    cbn in Hd. subst d. eapply get_spec_exact in Hs; [|done].
    rewrite Hs in Ea. cbn [fst] in Ea. rewrite <- Ea. split; [done|split; [done|]].
    rewrite Hs in Em. cbn [snd] in Em. eapply in_step_files; [|done..]. by split_and!.
  - destruct Ha as [Hre Hf]. eapply wp_bind_returns; [eapply cs_Head_ok; [exact Hi|exact Hf]|].
    intros r s' ([Hl _] & Hfs & Hs). apply wp_ret. cbn [abstract_one] in *.
    rewrite (Hread _ _ Hs Hre). split; [done|split; [done|]]. by eapply in_step_files.
  - eapply wp_bind_returns; [eapply cs_Delete_ok; exact Hi|].
    intros st s' ([Hl _] & Hi' & Hcl & Hs). apply wp_ret.
    eapply delete_spec_exact in Hs as [E1 E2]; [|done]. rewrite Ea in E1.
    split; [done|split; [done|]].
    split; [destruct Hl; congruence|split; [done|split; [by auto|by etransitivity]]].
  - destruct Ha as [Hre Hf]. eapply wp_bind_returns; [eapply cs_Size_ok; [exact Hi|exact Hf]|].
    intros r s' ([Hl _] & Hfs & h & Hs & ->). apply wp_ret. cbn [abstract_one] in *.
    rewrite (Hread _ _ Hs Hre). split; [done|split; [|by eapply in_step_files]].
    destruct Hs; cbn; rewrite ?(NormalizeError_id (NormalizeError _)) by apply NormalizeError_not_ok; done.
  - destruct Ha as [Hre Hf]. eapply wp_bind_returns; [eapply cs_Exists_ok; [exact Hi|exact Hf]|].
    intros r s' ([Hl _] & Hfs & h & Hs & ->). apply wp_ret. cbn [abstract_one] in *.
    rewrite (Hread _ _ Hs Hre). split; [done|split; [done|by eapply in_step_files]].
Qed.

Lemma execute_wp c fuel cmds m s :
  in_step c m s -> Forall (admissible c fuel (s_events s)) cmds ->
  wp (execute c fuel cmds) (returns (fun l s' =>
    l = (abstract_run (cs_accepts c) m cmds).1 /\
    in_step c (abstract_run (cs_accepts c) m cmds).2 s')) s.
Proof.
  intros Hin Hall. revert m s Hin Hall.
  induction cmds as [|cmd cmds IH]; intros m s Hin Hall; cbn [execute abstract_run]; [by apply wp_ret|].
  apply Forall_cons_1 in Hall as [Ha Hall].
  eapply wp_bind_returns; [by eapply execute_one_wp|].
  intros a s1 (Hl & -> & Hin1). eapply wp_bind_returns.
  { eapply IH; [exact Hin1|]. eapply Forall_impl; [|exact Hall]. intros x Hx.
    eapply admissible_later; [exact Hx|]. apply Hl. }
  intros l s2 (-> & Hin2). apply wp_ret.
  destruct (abstract_one (cs_accepts c) m cmd) as [a m1]. cbn [fst snd] in *.
  by destruct (abstract_run (cs_accepts c) m1 cmds) as [l m2].
Qed.

(** In any world, with any faults, a sequence of calls returns and keeps the
    invariant: only the widths and the fuel matter. *)
Definition bounded (c : C) (fuel events : nat) (cmd : command) : Prop :=
  match cmd with
  | DoPut _ req _ =>
      is_u64 (expected_size req) /\ (cs_need c (expected_size req) events < fuel)%nat
  | DoGet req =>
      is_u64 (offset (range req)) /\ is_u64 (size (range req)) /\
      (cs_need c (size (range req)) events < fuel)%nat
  | DoHead _ | DoSize _ | DoExists _ => (cs_need c 0 events < fuel)%nat
  | DoDelete _ => True
  end.

Lemma bounded_later c fuel e e' cmd : bounded c fuel e cmd -> (e' <= e)%nat -> bounded c fuel e' cmd.
Proof.
  intros Hb He.
  assert (Hn : forall n, (cs_need c n e < fuel)%nat -> (cs_need c n e' < fuel)%nat).
  { intros n Hn. pose proof (cs_need_mono c n e' n e ltac:(done) He). lia. }
  destruct cmd; cbn in *; [destruct Hb as (?&?)|destruct Hb as (?&?&?)|..]; auto.
Qed.

(** No call makes a stored chunk disappear but its deletion, or changes it. *)
Definition kept (cmd : command) (m m' : store_map) : Prop :=
  forall id x, m id = Some x -> m' id = Some x \/ cmd = DoDelete id.

Lemma kept_same cmd m m' : same_map m m' -> kept cmd m m'.
Proof. intros E id x Hx. left. by rewrite E. Qed.

Lemma kept_files cmd c s s' : s_fs s' = s_fs s -> kept cmd (cs_chunks c (s_fs s)) (cs_chunks c (s_fs s')).
Proof. intros ->. by apply kept_same. Qed.

Lemma put_spec_kept accepts calm total m req d fin st m' addr data :
  put_spec accepts calm total m req d fin st m' -> kept (DoPut addr req data) m m'.
Proof.
  intros [st' m1 _ _ _ E|st' m1 _ _ E|st' m1 _ _ _ Hn E _]; [by apply kept_same..|].
  intros id x Hx. left. rewrite E. rewrite store_insert_ne; [done|]. intros <-. congruence.
Qed.

Lemma delete_spec_kept accepts calm m id st m' :
  delete_spec accepts calm m id st m' -> kept (DoDelete id) m m'.
Proof.
  intros [st' m1 _ _ E|st' m1 _ _ _ E|m1 _ _ E|st' m1 _ _ _ E]; [by apply kept_same..| |by apply kept_same].
  intros id' x Hx. destruct (decide (id = id')) as [->|]; [by right|left].
  by rewrite E, store_insert_ne.
Qed.

Lemma execute_one_inv c fuel cmd s :
  cs_inv c (s_fs s) -> bounded c fuel (s_events s) cmd ->
  wp (execute_one c fuel cmd) (returns (fun _ s' =>
    later s s' /\ cs_inv c (s_fs s') /\ kept cmd (cs_chunks c (s_fs s)) (cs_chunks c (s_fs s')))) s.
Proof.
  intros Hi Hb. destruct cmd as [addr req data|req|id|id|id|id]; cbn [execute_one bounded] in *.
  - destruct Hb as [Hsz Hf].
    eapply wp_bind_returns; [eapply (cs_Put_ok (VectorInput data) c); [exact Hi|exact Hsz|done|exact Hf]|].
    intros r s' (Hl & Hi' & _ & d & _ & Hs). apply wp_ret. split; [done|split; [done|]].
    by eapply put_spec_kept.
  - destruct Hb as (Ho & Hsz & Hf).
    eapply wp_bind_returns; [eapply (cs_Get_ok VectorOutput c); [exact Hi|exact Ho|exact Hsz|exact Hf]|].
    intros r s' (Hl & Hfs & _). apply wp_ret. split; [done|split; [by rewrite Hfs|by apply kept_files]].
  - eapply wp_bind_returns; [eapply cs_Head_ok; [exact Hi|exact Hb]|].
    intros r s' ([Hl _] & Hfs & _). apply wp_ret. split; [done|split; [by rewrite Hfs|by apply kept_files]].
  - eapply wp_bind_returns; [eapply cs_Delete_ok; exact Hi|].
    intros st s' ([Hl _] & Hi' & _ & Hs). apply wp_ret. split; [done|split; [done|]].
    by eapply delete_spec_kept.
  - eapply wp_bind_returns; [eapply cs_Size_ok; [exact Hi|exact Hb]|].
    intros r s' ([Hl _] & Hfs & _). apply wp_ret. split; [done|split; [by rewrite Hfs|by apply kept_files]].
  - eapply wp_bind_returns; [eapply cs_Exists_ok; [exact Hi|exact Hb]|].
    intros r s' ([Hl _] & Hfs & _). apply wp_ret. split; [done|split; [by rewrite Hfs|by apply kept_files]].
Qed.

Lemma execute_inv c fuel cmds s :
  cs_inv c (s_fs s) -> Forall (bounded c fuel (s_events s)) cmds ->
  wp (execute c fuel cmds) (returns (fun _ s' => cs_inv c (s_fs s') /\
    forall id x, cs_chunks c (s_fs s) id = Some x -> ~ DoDelete id ∈ cmds ->
      cs_chunks c (s_fs s') id = Some x)) s.
Proof.
  intros Hi Hall. revert s Hi Hall.
  induction cmds as [|cmd cmds IH]; intros s Hi Hall; cbn [execute]; [by apply wp_ret|].
  apply Forall_cons_1 in Hall as [Hb Hall].
  eapply wp_bind_returns; [by eapply execute_one_inv|]. intros a s1 (Hl & Hi1 & Hk1).
  eapply wp_bind_returns.
  { eapply IH; [exact Hi1|]. eapply Forall_impl; [|exact Hall]. intros x Hx.
    eapply bounded_later; [exact Hx|]. apply Hl. }
  intros l s2 (Hi2 & Hk2). apply wp_ret. split; [done|]. intros id x Hx Hnot.
  rewrite not_elem_of_cons in Hnot. destruct Hnot as [Hne Hnot].
  apply Hk2; [|done]. destruct (Hk1 id x Hx) as [|E]; [done|by destruct Hne].
Qed.

End Simulation.
