(* ===== verification/StoreTheorems.v ===== *)
(** * The correctness of FileChunkStore, in every environment that keeps the
    documented behaviour of the system calls. *)
From stdpp Require Import functions.
From S2P Require Import Prelude Status Types Path Proto System Prog UniqueFd Blake3 MemOS FileIO Files.
From S2P Require Import ChunkFormat Streams ChunkStore FileStore StorePaths StoreRead StorePut StoreSpec Sequence.

(** ** Concrete inputs for the witnesses *)

Definition w_id : ChunkId := mkChunkId "c1".
Definition w_data : list byte := string_bytes "hello".
Definition w_sum : Checksum := mkChecksum kBlake3 (hex_string (blake3 w_data)).
Definition w_put : PutChunkRequest := mkPutChunkRequest w_id 5 w_sum.
Definition w_store : FileChunkStore := mkFileChunkStore "/r".

Lemma store_ok_empty root : store_ok root empty_fs.
Proof. split; [apply empty_fs_wf|]. intros id d. unfold lookup_file. cbn. by rewrite lookup_empty. Qed.

Lemma store_clean_empty root : store_clean root empty_fs.
Proof. intros id pid addr. cbn. by rewrite lookup_empty. Qed.

(** A store holding one chunk. *)
Definition w_fs : fs :=
  mkFs {[ PathFor "/r" w_id := 7%positive ]} ∅ {[ 7%positive := mkInode (chunk_file w_sum w_data) true ]} ∅.

Lemma w_valid : chunk_valid (w_sum, w_data).
Proof. by vm_compute. Qed.

Lemma w_fs_ok : store_ok "/r" w_fs.
Proof.
  split.
  - split; cbn.
    + intros p i [_ <-]%lookup_singleton_Some. rewrite lookup_singleton_eq. done.
    + intros *. by rewrite lookup_empty.
    + intros i nd [_ <-]%lookup_singleton_Some. vm_compute. done.
  - intros id d. unfold lookup_file. cbn.
    destruct ({[PathFor "/r" w_id := 7%positive]} !! PathFor "/r" id) as [i|] eqn:E; [|done].
    apply lookup_singleton_Some in E as [_ <-]. cbn. rewrite lookup_singleton_eq. cbn.
    intros [= <-]. exists w_sum, w_data. split; [done|apply w_valid].
Qed.

Lemma w_lookup : lookup_file w_fs (PathFor "/r" w_id) = Some (chunk_file w_sum w_data).
Proof. by vm_compute. Qed.

(** Decimal numerals are short. *)
Lemma pretty_go_length k x s :
  (x < 10 ^ N.of_nat k)%N -> (String.length (pretty.pretty_N_go x s) <= k + String.length s)%nat.
Proof.
  revert x s. induction k as [|k IH]; intros x s Hx.
  - replace x with 0%N by (cbn in Hx; lia). by rewrite pretty.pretty_N_go_0.
  - destruct (decide (0 < x)%N).
    + rewrite pretty.pretty_N_go_step by done.
      etransitivity; [apply IH|cbn; lia].
      apply N.Div0.div_lt_upper_bound. rewrite Nat2N.inj_succ, N.pow_succ_r' in Hx. lia.
    + replace x with 0%N by lia. rewrite pretty.pretty_N_go_0. lia.
Qed.

Lemma to_string_length k z :
  (0 < k)%nat -> 0 <= z < 10 ^ Z.of_nat k -> (String.length (to_string z) <= k)%nat.
Proof.
  intros Hk Hz. unfold to_string, pretty.pretty, pretty.pretty_N. case_decide; [cbn; lia|].
  etransitivity; [apply (pretty_go_length k)|cbn; lia].
  assert (Z.of_N (Z.to_N z) < Z.of_N (10 ^ N.of_nat k)); [|lia].
  rewrite N2Z.inj_pow, nat_N_Z, Z2N.id by lia. cbn. lia.
Qed.

Lemma temp_name_length id pid addr :
  0 <= pid < 2 ^ 31 -> is_u64 addr ->
  Z.of_nat (String.length (temp_name id pid addr)) <= 2 * string_size (chunk_id_value id) + 42.
Proof.
  intros Hp Ha. unfold is_u64, u64_modulus in Ha.
  pose proof (to_string_length 10 pid ltac:(lia) ltac:(lia)) as H1.
  pose proof (to_string_length 20 addr ltac:(lia) ltac:(lia)) as H2.
  pose proof (chunk_name_length id) as Hc.
  rewrite <- length_chars in Hc, H1, H2 |- *. unfold temp_name.
  rewrite !chars_app, !length_app. cbn [length chars String.list_ascii_of_string] in *.
  unfold chars in *. cbn [length String.list_ascii_of_string] in *. lia.
Qed.

(** Identifiers of up to 106 bytes can always be stored: the temporary name
    stays within the limit of the file system. *)
Lemma store_room_short root id addr size :
  string_size (chunk_id_value id) <= 106 -> is_u64 addr -> name_fits root = true ->
  Z.of_nat kHeaderSize + size <= off_max -> store_room root id addr size.
Proof.
  intros Hid Ha Hroot Hsz. split; [done|split; [done|]]. intros pid Hpid.
  unfold name_fits. rewrite temp_path_name.
  rewrite path_filename_append by apply temp_name_plain.
  apply bool_decide_eq_true. pose proof (temp_name_length id pid addr Hpid Ha).
  unfold NAME_MAX. lia.
Qed.

(** ** Properties *)

Section Descriptors.
Context `{Libc} `{Blake3}.

(** No operation keeps a descriptor open. *)
Lemma execute_one_fds fuel root cmd s :
  store_ok root (s_fs s) -> bounded (mkFileChunkStore root) fuel (s_events s) cmd ->
  wp (execute_one (mkFileChunkStore root) fuel cmd) (returns (fun _ s' => f_fds (s_fs s') = f_fds (s_fs s))) s.
Proof.
  intros Hok Hb. destruct cmd as [addr req data|req|id|id|id|id]; cbn [execute_one bounded] in *.
  - destruct Hb as [Hsz Hf].
    eapply wp_bind_returns; [exact (Put_wp fuel root addr req (mkVectorInput (vi_data:=data) 0) s Hsz I Hf)|].
    intros r s' (_ & pid & d & _ & _ & Hres). apply wp_ret. cbn [returns]. by destruct Hres.
  - destruct Hb as (Ho & Hsz & Hf).
    eapply wp_bind_returns; [exact (cs_Get_ok VectorOutput (mkFileChunkStore root) fuel req (mkVectorOutput []) s Hok Ho Hsz Hf)|].
    intros r s' (_ & Hfs & _). apply wp_ret. cbn [returns]. by rewrite Hfs.
  - eapply wp_bind_returns; [exact (cs_Head_ok (mkFileChunkStore root) fuel id s Hok Hb)|].
    intros r s' (_ & Hfs & _). apply wp_ret. cbn [returns]. by rewrite Hfs.
  - eapply wp_bind_returns; [exact (Delete_wp root id s)|].
    intros st s' (_ & Hres). apply wp_ret. cbn [returns]. by destruct Hres.
  - eapply wp_bind_returns; [exact (cs_Size_ok (mkFileChunkStore root) fuel id s Hok Hb)|].
    intros r s' (_ & Hfs & _). apply wp_ret. cbn [returns]. by rewrite Hfs.
  - eapply wp_bind_returns; [exact (cs_Exists_ok (mkFileChunkStore root) fuel id s Hok Hb)|].
    intros r s' (_ & Hfs & _). apply wp_ret. cbn [returns]. by rewrite Hfs.
Qed.

Lemma execute_fds fuel root cmds s :
  store_ok root (s_fs s) -> Forall (bounded (mkFileChunkStore root) fuel (s_events s)) cmds ->
  wp (execute (mkFileChunkStore root) fuel cmds) (returns (fun _ s' => f_fds (s_fs s') = f_fds (s_fs s))) s.
Proof.
  revert s. induction cmds as [|cmd cmds IH]; intros s Hok Hall; cbn [execute]; [by apply wp_ret|].
  apply Forall_cons_1 in Hall as [Hb Hall].
  eapply wp_bind_returns; [exact (wp_returns_and _ _ _ _ (execute_one_inv (mkFileChunkStore root) fuel cmd s Hok Hb)
    (execute_one_fds fuel root cmd s Hok Hb))|].
  intros a s1 ((Hl & Hok1 & _) & Hfds). eapply wp_bind_returns.
  { apply IH; [exact Hok1|]. revert Hall. apply Forall_impl. intros x Hx. eapply bounded_later; [exact Hx|apply Hl]. }
  intros l s2 Hfds2. apply wp_ret. cbn [returns]. congruence.
Qed.

End Descriptors.

Section Properties.
Context `{Posix} `{Libc} `{Blake3}.

(** C1: on a healthy machine, from a sound store without leftover temporary files,
    FileChunkStore is the abstract store for every sequence of admissible Put,
    Get, Head, Delete, Size and Exists calls: it gives exactly the answers (codes,
    metadata and bytes) of a partial map from identifiers to checked contents, and
    ends in files that represent the map the calls lead to.  A call is admissible
    when its numbers have machine width, the fuel suffices and the file system can
    hold the names it uses: that of the chunk and, for a Put, the root, every
    temporary name and the size of the file.  ValidateId also accepts identifiers
    that are too long for that; they are the subject of [id_length_limits]. *)
Theorem FileChunkStore_refines_map fuel root (cmds : list command) (w : os)
  (Hquiet : s_quiet (view w) = true)
  (Hok : store_ok root (s_fs (view w))) (Hclean : store_clean root (s_fs (view w)))
  (Hcmds : Forall (admissible (mkFileChunkStore root) fuel (s_events (view w))) cmds) :
  let m := chunks root (s_fs (view w)) in
  let r := run (execute (mkFileChunkStore root) fuel cmds) w in
  let accepts := fun id => ok (ValidateId id) in
  r.1 = Done (abstract_run accepts m cmds).1 /\
  same_map (abstract_run accepts m cmds).2 (chunks root (s_fs (view r.2))) /\
  store_ok root (s_fs (view r.2)) /\ store_clean root (s_fs (view r.2)).
Proof.
  intros m r accepts.
  assert (Hin : in_step (mkFileChunkStore root) m (view w)) by (unfold in_step; split_and!; done).
  destruct (returns_run _ _ w (execute_wp _ fuel cmds m (view w) Hin Hcmds))
    as (l & Hl & -> & _ & Hi & Hc & Hm).
  split; [exact Hl|split; [exact Hm|split; [exact Hi|exact Hc]]].
Qed.

(** C4: whatever the environment does (signals, short transfers, failing calls)
    and whatever the input stream delivers or reports, Put returns, and the
    store either has gained exactly the requested chunk, which was absent, with
    the delivered data whose size and BLAKE3 checksum agree with the request, or
    is what it was; Put reports success only in the first case, and failure
    after a visible commit only as kIoError when the directory could not be
    forced to the disk.  No descriptor stays open. *)
Theorem Put_all_or_nothing {S} `{InputContract S} fuel root addr req (input : S) (w : os)
  (Hok : store_ok root (s_fs (view w))) (Hsize : is_u64 (expected_size req))
  (Hin : in_wf input (s_trace (view w)))
  (Hfuel : (store_need (expected_size req) (s_events (view w)) < fuel)%nat) :
  let r := run (Put fuel root addr req input) w in
  let f := s_fs (view w) in
  let f' := s_fs (view r.2) in
  let id := put_chunk_id req in
  exists st input' d,
    r.1 = Done (st, input') /\ store_ok root f' /\ f_fds f' = f_fds f /\
    in_delivered input' (s_trace (view r.2)) = in_delivered input (s_trace (view w)) ++ d /\
    ((ok st = false /\ same_map (chunks root f) (chunks root f')) \/
     ((st = Status_Ok \/ code st = kIoError) /\ chunks root f id = None /\ data_matches req d /\
      in_exhausted input' (s_trace (view r.2)) /\
      same_map (<[id := Some (expected_checksum req, d)]> (chunks root f)) (chunks root f'))).
Proof.
  intros r f f' id.
  destruct (returns_run _ _ w (Put_wp fuel root addr req input (view w) Hsize Hin Hfuel))
    as ([st input'] & Hr & _ & pid & d & Hpid & Hd & Hres).
  exists st, input', d. split; [done|]. fold r in Hres, Hd. fold f' in Hres.
  assert (Hfds : f_fds f' = f_fds f) by (clear -Hres; by destruct Hres).
  apply put_result_spec in Hres as (Hok' & _ & Hspec); [|done..]. cbn [fst snd] in *.
  split; [done|split; [done|split; [done|]]].
  destruct (put_spec_cases _ _ _ _ _ _ _ _ _ Hspec) as [?|(? & ? & ? & ? & ?)]; [by left|right].
  by split_and!.
Qed.

(** C14: Put never replaces a chunk: when the identifier is taken, whatever the
    request, the input and the environment, the call fails and the stored
    checksum and data stay what they were. *)
Theorem Put_never_overwrites {S} `{InputContract S} fuel root addr req (input : S) (w : os) x
  (Hok : store_ok root (s_fs (view w))) (Hsize : is_u64 (expected_size req))
  (Hin : in_wf input (s_trace (view w)))
  (Hfuel : (store_need (expected_size req) (s_events (view w)) < fuel)%nat)
  (Htaken : chunks root (s_fs (view w)) (put_chunk_id req) = Some x) :
  let r := run (Put fuel root addr req input) w in
  (forall st input', r.1 = Done (st, input') -> ok st = false) /\
  same_map (chunks root (s_fs (view w))) (chunks root (s_fs (view r.2))).
Proof.
  intros r.
  destruct (returns_run _ _ w (Put_wp fuel root addr req input (view w) Hsize Hin Hfuel))
    as ([st input'] & Hr & _ & pid & d & Hpid & Hd & Hres).
  apply put_result_spec in Hres as (_ & _ & Hspec); [|done..]. fold r in Hr, Hspec. cbn [fst snd] in *.
  cut (ok st = false /\ same_map (chunks root (s_fs (view w))) (chunks root (s_fs (view r.2)))).
  { intros [Hst E]. split; [|done]. intros st2 i2 Hd2. rewrite Hr in Hd2. by injection Hd2 as <- _. }
  destruct (put_spec_cases _ _ _ _ _ _ _ _ _ Hspec) as [?|(_ & _ & _ & Hn & _)]; [done|congruence].
Qed.

(** A chunk whose Put was acknowledged survives a crash: its directory entry
    is on stable storage, and so is the whole file it names, which is the header
    for the request followed by the delivered data. *)
Theorem Put_ok_is_durable {S} `{InputContract S} fuel root addr req (input : S) (w : os) input'
  (Hsize : is_u64 (expected_size req)) (Hin : in_wf input (s_trace (view w)))
  (Hfuel : (store_need (expected_size req) (s_events (view w)) < fuel)%nat)
  (Hdone : (run (Put fuel root addr req input) w).1 = Done (Status_Ok, input')) :
  let s' := view (run (Put fuel root addr req input) w).2 in
  exists i d,
    in_delivered input' (s_trace s') = in_delivered input (s_trace (view w)) ++ d /\
    data_matches req d /\
    f_stable (s_fs s') !! PathFor root (put_chunk_id req) = Some i /\
    f_inodes (s_fs s') !! i =
      Some (mkInode (MakeHeader (expected_size req) (expected_checksum req) ++ d) true).
Proof.
  intros s'.
  destruct (returns_run _ _ w (Put_wp fuel root addr req input (view w) Hsize Hin Hfuel))
    as ([st i'] & Hr & _ & pid & d & Hpid & Hd & Hres).
  rewrite Hr in Hdone. injection Hdone as -> ->. cbn [fst snd] in *. fold s' in Hd, Hres.
  inversion Hres as [Hd0 Hid Est Ef|Hd0 Hid Hsum Est Ef|st1 Hd0 Hid Hsum Hc Est Ef
    |st1 i nd keep Hid Hsum Herr Ht Hft Hi Hmax Hk Est Ef|st1 i keep m Hid Hsum Hfin Hm Ht Hft Hi Hn Hmax Hk Hst Est Ef].
  - by rewrite Est in Hid.
  - by rewrite Est in Hsum.
  - subst st1. destruct Hc as [[Hc _]|[Hc _]]; done.
  - subst st1. by inversion Herr.
  - subst st1. exists i, d. split; [done|split; [done|]].
    destruct Hst as [[_ Hm']|[Hc _]]; [|done]. split; [by rewrite Hm', lookup_insert_eq|].
    unfold committed_fs. cbn. rewrite lookup_insert_eq. unfold chunk_file. by destruct Hm as [<- _].
Qed.

(** C17: the store invariant is inductive: any sequence of calls, under any faults,
    returns its answers, every chunk file is then complete and matches its
    recorded checksum, a chunk that was stored and not deleted still holds the
    same data, and the open descriptors are those that were open before. *)
Theorem Store_survives_faults fuel root (cmds : list command) (w : os)
  (Hok : store_ok root (s_fs (view w)))
  (Hcmds : Forall (bounded (mkFileChunkStore root) fuel (s_events (view w))) cmds) :
  let r := run (execute (mkFileChunkStore root) fuel cmds) w in
  (exists answers, r.1 = Done answers) /\ store_ok root (s_fs (view r.2)) /\
  f_fds (s_fs (view r.2)) = f_fds (s_fs (view w)) /\
  forall id x, chunks root (s_fs (view w)) id = Some x -> ~ DoDelete id ∈ cmds ->
    chunks root (s_fs (view r.2)) id = Some x.
Proof.
  intros r. assert (Hin : cs_inv (mkFileChunkStore root) (s_fs (view w))) by exact Hok.
  destruct (returns_run _ _ w (wp_returns_and _ _ _ _ (execute_inv _ fuel cmds (view w) Hin Hcmds)
    (execute_fds fuel root cmds (view w) Hok Hcmds))) as (l & Hl & (Hi & Hk) & Hfds).
  split; [by exists l|split; [exact Hi|split; [exact Hfds|exact Hk]]].
Qed.

(** C18: Get returns in every environment and leaves the files alone; when it
    reports success the output received exactly the requested range of the
    stored data, and whatever else it reports the output received a prefix of
    that range, a strict one unless the range is empty, or nothing.  On a healthy
    machine, for an identifier that ValidateId accepts and whose file name fits,
    a range inside the stored data is delivered unless the output itself fails. *)
Theorem Get_delivers_range {S} `{OutputContract S} fuel root req (output : S) (w : os)
  (Hok : store_ok root (s_fs (view w)))
  (Ho : is_u64 (offset (range req))) (Hs : is_u64 (size (range req)))
  (Hfuel : (store_need (size (range req)) (s_events (view w)) < fuel)%nat) :
  let r := run (Get fuel root req output) w in
  let stored := chunks root (s_fs (view w)) (get_chunk_id req) in
  exists st output' d,
    r.1 = Done (st, output') /\ s_fs (view r.2) = s_fs (view w) /\
    out_written output' (s_trace (view r.2)) = out_written output (s_trace (view w)) ++ d /\
    (d = [] \/ exists c p n, stored = Some (c, p) /\
       d = take n (ztake (size (range req)) (zdrop (offset (range req)) p))) /\
    (ok st = false -> 0 < size (range req) -> blen d < size (range req)) /\
    (ok st = true -> st = Status_Ok /\ exists c p, stored = Some (c, p) /\
       offset (range req) + size (range req) <= blen p /\
       d = ztake (size (range req)) (zdrop (offset (range req)) p)) /\
    (forall c p, s_quiet (view w) = true -> ok (ValidateId (get_chunk_id req)) = true ->
       name_fits (PathFor root (get_chunk_id req)) = true ->
       stored = Some (c, p) -> offset (range req) + size (range req) <= blen p ->
       st = Status_Ok \/ out_broken output' (s_trace (view r.2))).
Proof.
  intros r stored.
  assert (Hin : cs_inv (mkFileChunkStore root) (s_fs (view w))) by exact Hok.
  pose proof (cs_Get_ok S (mkFileChunkStore root) fuel req output (view w) Hin Ho Hs Hfuel) as Hwp.
  destruct (returns_run _ _ w Hwp) as ([st o] & Hr & _ & Hfs & d & Hd & Hspec).
  exists st, o, d. split; [exact Hr|split; [exact Hfs|split; [exact Hd|]]]. cbn [fst snd] in Hspec.
  change (cs_chunks (mkFileChunkStore root) (s_fs (view w))) with (chunks root (s_fs (view w))) in Hspec.
  assert (Hbound : forall c p, stored = Some (c, p) ->
    (ok (ValidateByteRange (range req) (blen p)) = true <-> offset (range req) + size (range req) <= blen p)).
  { intros c p Hp. apply ValidateByteRange_ok; [done|done|].
    unfold stored in Hp. apply chunks_length in Hp; [|done]. pose proof (blen_nonneg p).
    unfold is_u64, off_max, u64_modulus in *. lia. }
  destruct (get_spec_cases _ _ _ _ _ _ _ Hspec) as [Hprefix Hdone].
  split; [exact Hprefix|split; [exact (get_spec_short _ _ _ _ _ _ _ Hspec)|split]].
  - intros Hst. destruct (Hdone Hst) as (c & p & Hm & _ & Hv & -> & Hout). split; [done|]. exists c, p.
    split; [exact Hm|split; [by eapply Hbound|exact Hout]].
  - intros c p Hq Hid Hfit Hp Hrange. eapply Hbound in Hrange; [|exact Hp].
    exact (get_spec_calm _ _ _ _ _ _ _ _ _ Hspec (conj Hq Hfit) Hid Hp Hrange).
Qed.

(** C19: Head tells missing, damaged and good chunk files apart, on any content
    of the storage directory and in every environment.  For an identifier that
    ValidateId refuses it returns that refusal.  For any other, unless it answers
    kIoError, which takes a fault or a file name that does not fit, it answers
    kNotFound exactly when the file is missing, kCorruption exactly when the file
    is not the header of some size and valid checksum followed by that many bytes,
    and otherwise the recorded size and checksum.  The files stay as they are. *)
Theorem Head_detects_corruption fuel root id (w : os)
  (Hwf : fs_wf (s_fs (view w))) (Hfuel : (store_need 0 (s_events (view w)) < fuel)%nat) :
  let r := run (Head fuel root id) w in
  s_fs (view r.2) = s_fs (view w) /\
  if negb (ok (ValidateId id)) then r.1 = Done (SO_error (ValidateId id))
  else
    (exists st, r.1 = Done (SO_error st) /\ code st = kIoError /\
       (s_quiet (view w) = false \/ name_fits (PathFor root id) = false)) \/
    match lookup_file (s_fs (view w)) (PathFor root id) with
    | None => exists st, r.1 = Done (SO_error st) /\ code st = kNotFound
    | Some file =>
        (exists c payload, file = chunk_file c payload /\ ok (ValidateChecksum c) = true /\
           r.1 = Done (SO_value (mkHeadChunkResponse id (blen payload) c))) \/
        ((forall c payload, ok (ValidateChecksum c) = true -> file <> chunk_file c payload) /\
         exists st, r.1 = Done (SO_error st) /\ code st = kCorruption)
    end.
Proof.
  intros r. assert (Hf : (kHeaderSize + s_events (view w) < fuel)%nat) by (unfold store_need in Hfuel; lia).
  destruct (returns_run _ _ w (Head_wp fuel root id (view w) Hwf Hf)) as (a & Hr & _ & Hfs & Hres).
  split; [exact Hfs|]. fold r in Hr. rewrite Hr.
  destruct Hres as [Hid|st Hid Hn Hc|d a Hid Hd Hp|st Hid Hc Hq]; rewrite Hid; cbn [negb]; [done|right|..].
  - rewrite Hn. by exists st.
  - destruct Hp as [Hp|(st & -> & Hc & Hq)]; [right|left; exists st; auto].
    rewrite Hd. apply lookup_file_size in Hd; [|done].
    assert (Hu : is_u64 (blen d)) by (apply off_max_u64; split; [apply blen_nonneg|done]).
    destruct (parse_file d) as [[sz c]|] eqn:E.
    + left. destruct (parse_file_inv _ _ _ E Hu) as (Hc & Hsz & Hform).
      exists c, (file_payload d). split; [done|split; [done|]]. by rewrite Hp, Hsz.
    + right. destruct Hp as (st & -> & Hc). split; [|by exists st].
      intros c payload Hv ->. rewrite chunk_file_length in Hd, Hu by done.
      rewrite parse_chunk_file in E; [done..|]. by rewrite Z.add_comm.
  - left. exists st. split; [done|split; [done|]]. destruct (s_quiet (view w)); [right; auto|by left].
Qed.

(** C26: Delete removes the file of its chunk and nothing else, in every
    environment: success means the chunk was there and is gone, kNotFound that
    it was not there, and a failure leaves the store as it was. *)
Theorem Delete_removes_one root id (w : os) (Hok : store_ok root (s_fs (view w))) :
  let r := run (Delete root id) w in
  let m := chunks root (s_fs (view w)) in
  let m' := chunks root (s_fs (view r.2)) in
  exists st, r.1 = Done st /\ store_ok root (s_fs (view r.2)) /\
    f_inodes (s_fs (view r.2)) = f_inodes (s_fs (view w)) /\
    f_fds (s_fs (view r.2)) = f_fds (s_fs (view w)) /\
    ((st = Status_Ok /\ is_Some (m id) /\ same_map (<[id := None]> m) m') \/
     (code st = kNotFound /\ m id = None /\ same_map m m') \/
     ((code st = kInvalidArgument \/ code st = kIoError) /\ same_map m m')).
Proof.
  intros r m m'. destruct (returns_run _ _ w (Delete_wp root id (view w))) as (st & Hr & _ & Hres).
  exists st. split; [exact Hr|].
  assert (Hsame : f_inodes (s_fs (view (run (Delete root id) w).2)) = f_inodes (s_fs (view w)) /\
    f_fds (s_fs (view (run (Delete root id) w).2)) = f_fds (s_fs (view w)))
    by (clear -Hres; by destruct Hres).
  apply delete_result_spec in Hres as (Hok' & _ & Hspec); [|done].
  split; [exact Hok'|split; [apply Hsame|split; [apply Hsame|]]].
  change (delete_spec (ok (ValidateId id)) (s_quiet (view w) = true /\ name_fits (PathFor root id) = true)
    m id st m') in Hspec. clearbody m'.
  destruct Hspec as [st m1 _ Hc E|st m1 _ Hn Hc E|m1 _ Hs E|st m1 _ Hc _ E].
  - right. right. split; [by left|done].
  - right. by left.
  - by left.
  - right. right. split; [by right|done].
Qed.

(** What a client stores it reads back: in a world without faults, from a
    store that lacks the chunk, Put of any data under an identifier of at most
    106 bytes succeeds, Head reports its size and checksum, Get of the whole
    range delivers the data, Delete succeeds and the chunk is gone. *)
Theorem Put_Head_Get_Delete_roundtrip fuel root id addr (d : list byte) (w : os)
  (Hquiet : s_quiet (view w) = true)
  (Hok : store_ok root (s_fs (view w))) (Hclean : store_clean root (s_fs (view w)))
  (Hid : 0 < string_size (chunk_id_value id) <= 106) (Haddr : is_u64 addr)
  (Hroot : name_fits root = true) (Hlen : Z.of_nat kHeaderSize + blen d <= off_max)
  (Hfuel : (store_need (blen d) (s_events (view w)) < fuel)%nat)
  (Habsent : chunks root (s_fs (view w)) id = None) :
  let sum := mkChecksum kBlake3 (hex_string (blake3 d)) in
  (run (execute (mkFileChunkStore root) fuel
     [DoPut addr (mkPutChunkRequest id (blen d) sum) d; DoHead id;
      DoGet (mkGetChunkRequest id (mkByteRange 0 (blen d))); DoDelete id; DoExists id]) w).1 =
  Done [PutAnswer kOk; HeadAnswer kOk (Some (mkHeadChunkResponse id (blen d) sum));
        GetAnswer kOk d; DeleteAnswer kOk; ExistsAnswer false].
Proof.
  intros sum.
  assert (Hsum : ok (ValidateChecksum sum) = true) by (apply ValidateChecksum_ok; exists (blake3 d); split; [apply blake3_length|done]).
  assert (Hacc : ok (ValidateId id) = true).
  { unfold ValidateId, ChunkId_valid, id_valid, string_size in *.
    destruct (chunk_id_value id); [cbn in Hid; lia|]. rewrite bool_decide_true by done. cbn [negb].
    by rewrite bool_decide_false by lia. }
  assert (Hu : is_u64 (blen d)) by (pose proof (blen_nonneg d); unfold is_u64, off_max, u64_modulus in *; lia).
  assert (Hu0 : is_u64 0) by done.
  assert (Hroom : store_room root id addr (blen d)) by (apply store_room_short; (done || lia)).
  assert (Hreach : name_fits (PathFor root id) = true).
  { destruct Hroom as (_ & _ & Hfit). eapply (temp_fits_chunk_fits root id 0 addr). by apply Hfit. }
  assert (Hf0 : (store_need 0 (s_events (view w)) < fuel)%nat).
  { unfold store_need in *. cbn [Z.to_nat]. lia. }
  assert (Hin : in_step (mkFileChunkStore root) (chunks root (s_fs (view w))) (view w))
    by (unfold in_step; split_and!; done).
  match goal with |- (run (execute ?c ?n ?cmds) _).1 = _ =>
    assert (Hcmds : Forall (admissible c n (s_events (view w))) cmds)
      by (repeat (apply Forall_cons_2; [cbn [admissible put_chunk_id expected_size get_chunk_id
                    range offset size]; split_and?; done|]); apply Forall_nil_2)
  end.
  destruct (returns_run _ _ w (execute_wp _ _ _ _ (view w) Hin Hcmds)) as (l & -> & -> & _). f_equal.
  cbn [abstract_run abstract_one abstract_head put_chunk_id expected_checksum get_chunk_id
       range offset size cs_accepts FileChunkStore_contract].
  rewrite Hacc, Hsum. cbn [negb andb].
  rewrite (bool_decide_true (data_matches _ _)) by done. cbn [negb]. rewrite Habsent. cbn [fst snd].
  assert (Hr : ok (ValidateByteRange (mkByteRange 0 (blen d)) (blen d)) = true)
    by (apply ValidateByteRange_ok; cbn; (done || lia)).
  unfold abstract_head. cbn beta.
  repeat (progress (rewrite ?Hacc, ?store_insert_eq; cbn [negb fst snd]; rewrite ?Hr)).
  rewrite zdrop_0, ztake_all by lia. rewrite bool_decide_false by (by intros []). done.
Qed.

End Properties.

(** C27: identifiers of at most 106 bytes always fit the file system: neither the
    name of the chunk nor the temporary name of any process and any input
    address is longer than the limit, whereas from 125 bytes on no Put can
    succeed, in any environment, although ValidateId accepts the identifier. *)
Theorem id_length_limits `{Posix} `{Libc} `{Blake3} root id addr :
  (string_size (chunk_id_value id) <= 106 -> is_u64 addr ->
   name_fits (PathFor root id) = true /\
   forall pid, 0 <= pid < 2 ^ 31 -> name_fits (temp_path_for root id pid addr) = true) /\
  (125 <= string_size (chunk_id_value id) <= 1024 ->
   ok (ValidateId id) = true /\
   forall fuel size sum data w,
     is_u64 size -> (store_need size (s_events (view w)) < fuel)%nat ->
     forall input', (run (Put fuel root addr (mkPutChunkRequest id size sum)
                           (mkVectorInput (vi_data := data) 0)) w).1 <> Done (Status_Ok, input')).
Proof.
  split.
  - intros Hid Ha. assert (Hfit : forall pid, 0 <= pid < 2 ^ 31 ->
      name_fits (temp_path_for root id pid addr) = true).
    { intros pid Hpid. unfold name_fits. rewrite temp_path_name.
      rewrite path_filename_append by apply temp_name_plain.
      apply bool_decide_eq_true. pose proof (temp_name_length id pid addr Hpid Ha).
      unfold NAME_MAX. lia. }
    split; [|done]. by apply (temp_fits_chunk_fits root id 0 addr), Hfit.
  - intros Hid. split.
    { unfold ValidateId, ChunkId_valid, id_valid, string_size in *.
      destruct (chunk_id_value id); [cbn in Hid; lia|]. rewrite bool_decide_true by done. cbn [negb].
      by rewrite bool_decide_false by lia. }
    intros fuel size sum data w Hsz Hf input' Hdone.
    assert (Hin : in_wf (mkVectorInput (vi_data := data) 0) (s_trace (view w))) by done.
    destruct (returns_run _ _ w (Put_wp fuel root addr (mkPutChunkRequest id size sum)
      (mkVectorInput (vi_data := data) 0) (view w) Hsz Hin Hf)) as ([st i'] & Hr & _ & pid & d & Hpid & Hd & Hres).
    rewrite Hr in Hdone. injection Hdone as -> ->. cbn [fst snd put_chunk_id] in *.
    assert (Hlong : name_fits (temp_path_for root id pid addr) = false).
    { destruct (name_fits _) eqn:E; [|done]. apply temp_fits_chunk_fits in E.
      apply ValidateId_chunk_name in E. lia. }
    inversion Hres as [Hd0 Hv Est Ef|Hd0 Hv Hsum Est Ef|st1 Hd0 Hv Hsum Hc Est Ef
      |st1 i nd keep Hv Hsum Herr Ht Hft Hi Hmax Hk Est Ef|st1 i keep m Hv Hsum Hfin Hm Ht Hft Hi Hn Hmax Hk Hst Est Ef].
    + cbn [put_chunk_id] in *. by rewrite Est in Hv.
    + cbn [expected_checksum] in *. by rewrite Est in Hsum.
    + subst st1. destruct Hc as [[Hc _]|[Hc _]]; done.
    + congruence.
    + congruence.
Qed.

(** ** Witnesses *)

Definition w_cmds : list command :=
  [DoPut 77 w_put w_data; DoGet (mkGetChunkRequest w_id (mkByteRange 1 3)); DoHead w_id; DoDelete w_id;
   DoGet (mkGetChunkRequest w_id (mkByteRange 0 1))].

Lemma w_need n e : 0 <= n <= 5 -> (e <= 2)%nat -> (store_need n e < 200)%nat.
Proof. intros Hn He. unfold store_need. rewrite kHeaderSize_eq. lia. Qed.

Lemma w_room : store_room "/r" w_id 77 5.
Proof. apply store_room_short; by vm_compute. Qed.

Lemma w_reach : name_fits (PathFor "/r" w_id) = true.
Proof. by vm_compute. Qed.

Lemma w_cmds_admissible : Forall (admissible w_store 200 0) w_cmds.
Proof.
  repeat (apply Forall_cons_2; [cbn [admissible]; split_and?; try exact w_reach; try exact w_room;
    try (apply w_need; cbn; lia); by vm_compute|]). apply Forall_nil_2.
Qed.

Lemma w_cmds_bounded : Forall (bounded w_store 200 2) w_cmds.
Proof.
  repeat (apply Forall_cons_2; [cbn [bounded]; split_and?;
    try (apply w_need; cbn; lia); by vm_compute|]). apply Forall_nil_2.
Qed.

(** A world with a signal, a short transfer and a failing call ahead. *)
Definition w_faulty : os := faulty_world 2 [NoFault; NoFault; Interrupt; Short; NoFault; Broken] w_fs.

Lemma FileChunkStore_refines_map_witness :
  (run (execute w_store 200 w_cmds) (quiet_world empty_fs)).1 =
  Done [PutAnswer kOk; GetAnswer kOk (string_bytes "ell");
        HeadAnswer kOk (Some (mkHeadChunkResponse w_id 5 w_sum)); DeleteAnswer kOk; GetAnswer kNotFound []].
Proof.
  etransitivity; [exact (proj1 (FileChunkStore_refines_map 200 "/r" w_cmds (quiet_world empty_fs) eq_refl
    (store_ok_empty _) (store_clean_empty _) w_cmds_admissible))|].
  vm_compute. reflexivity.
Defined.

Lemma Put_all_or_nothing_witness :
  store_ok "/r" (s_fs (view (run (Put 200 "/r" 77 (mkPutChunkRequest (mkChunkId "c2") 5 w_sum)
    (mkVectorInput (vi_data := w_data) 0)) w_faulty).2)).
Proof.
  destruct (Put_all_or_nothing 200 "/r" 77 (mkPutChunkRequest (mkChunkId "c2") 5 w_sum)
    (mkVectorInput (vi_data := w_data) 0) w_faulty w_fs_ok ltac:(by vm_compute) I
    ltac:(apply w_need; cbn; lia)) as (st & i & d & _ & Hok & _). exact Hok.
Defined.

Lemma w_taken : chunks "/r" w_fs w_id = Some (w_sum, w_data).
Proof. by vm_compute. Qed.

Lemma Put_never_overwrites_witness :
  chunks "/r" (s_fs (view (run (Put 200 "/r" 77 w_put (mkVectorInput (vi_data := w_data) 0)) w_faulty).2)) w_id
  = Some (w_sum, w_data).
Proof.
  transitivity (chunks "/r" w_fs w_id); [|exact w_taken].
  exact (proj2 (Put_never_overwrites 200 "/r" 77 w_put (mkVectorInput (vi_data := w_data) 0) w_faulty
    (w_sum, w_data) w_fs_ok ltac:(by vm_compute) I ltac:(apply w_need; cbn; lia) w_taken) w_id).
Defined.

Lemma Put_ok_is_durable_witness :
  exists i, f_stable (s_fs (view (run (Put 200 "/r" 77 w_put (mkVectorInput (vi_data := w_data) 0))
    (quiet_world empty_fs)).2)) !! PathFor "/r" w_id = Some i.
Proof.
  destruct (Put_ok_is_durable 200 "/r" 77 w_put (mkVectorInput (vi_data := w_data) 0) (quiet_world empty_fs)
    (mkVectorInput 5) ltac:(by vm_compute) I ltac:(apply w_need; cbn; lia) ltac:(vm_compute; reflexivity))
    as (i & d & _ & _ & Hi & _). by exists i.
Defined.

Lemma Store_survives_faults_witness :
  store_ok "/r" (s_fs (view (run (execute w_store 200 w_cmds) w_faulty).2)) /\
  f_fds (s_fs (view (run (execute w_store 200 w_cmds) w_faulty).2)) = f_fds w_fs.
Proof.
  destruct (Store_survives_faults 200 "/r" w_cmds w_faulty w_fs_ok w_cmds_bounded) as (_ & Hok & Hfds & _).
  exact (conj Hok Hfds).
Defined.

(** A range of the stored chunk, read on a healthy machine. *)
Lemma Get_delivers_range_witness :
  exists output',
    (run (Get 200 "/r" (mkGetChunkRequest w_id (mkByteRange 1 3)) (mkVectorOutput [])) (quiet_world w_fs)).1 =
      Done (Status_Ok, output') /\ vo_value output' = string_bytes "ell".
Proof.
  destruct (Get_delivers_range 200 "/r" (mkGetChunkRequest w_id (mkByteRange 1 3)) (mkVectorOutput []) (quiet_world w_fs)
    w_fs_ok ltac:(by vm_compute) ltac:(by vm_compute) ltac:(apply w_need; cbn; lia))
    as (st & o & d & Hr & _ & Hd & _ & _ & Hok & Hcalm).
  destruct (Hcalm w_sum w_data eq_refl ltac:(by vm_compute) w_reach w_taken ltac:(by vm_compute)) as [->|[]].
  exists o. split; [exact Hr|]. destruct (Hok eq_refl) as (_ & c & p & Hp & _ & ->).
  assert (E : Some (c, p) = Some (w_sum, w_data)) by (rewrite <- Hp; exact w_taken). injection E as -> ->.
  cbn [out_written] in Hd. etransitivity; [exact Hd|]. vm_compute. reflexivity.
Defined.

Lemma Head_detects_corruption_witness :
  exists c payload, chunk_file w_sum w_data = chunk_file c payload /\
    (run (Head 200 "/r" w_id) (quiet_world w_fs)).1 = Done (SO_value (mkHeadChunkResponse w_id (blen payload) c)).
Proof.
  destruct (Head_detects_corruption 200 "/r" w_id (quiet_world w_fs) (so_wf _ _ w_fs_ok) ltac:(apply w_need; cbn; lia))
    as [_ [(st & _ & _ & [Hq|Hfit])|Hfile]]; [done|by rewrite w_reach in Hfit|].
  change (s_fs (view (quiet_world w_fs))) with w_fs in Hfile. rewrite w_lookup in Hfile.
  destruct Hfile as [(c & p & E & _ & Hr)|[Hno _]]; [by exists c, p|].
  destruct (Hno w_sum w_data (proj1 w_valid) eq_refl).
Defined.

Lemma Delete_removes_one_witness :
  store_ok "/r" (s_fs (view (run (Delete "/r" w_id) w_faulty).2)).
Proof.
  destruct (Delete_removes_one "/r" w_id w_faulty w_fs_ok) as (st & _ & Hok & _). exact Hok.
Defined.

Lemma Put_Head_Get_Delete_roundtrip_witness :
  (run (execute w_store 200
     [DoPut 77 (mkPutChunkRequest w_id 5 w_sum) w_data; DoHead w_id;
      DoGet (mkGetChunkRequest w_id (mkByteRange 0 5)); DoDelete w_id; DoExists w_id]) (quiet_world empty_fs)).1 =
  Done [PutAnswer kOk; HeadAnswer kOk (Some (mkHeadChunkResponse w_id 5 w_sum));
        GetAnswer kOk w_data; DeleteAnswer kOk; ExistsAnswer false].
Proof.
  exact (Put_Head_Get_Delete_roundtrip 200 "/r" w_id 77 w_data (quiet_world empty_fs) eq_refl
    (store_ok_empty _) (store_clean_empty _) ltac:(by vm_compute) ltac:(by vm_compute) ltac:(by vm_compute)
    ltac:(by vm_compute) ltac:(apply w_need; [split; by vm_compute|cbn; lia]) ltac:(by vm_compute)).
Defined.

Lemma id_length_limits_witness :
  name_fits (PathFor "/r" w_id) = true /\
  forall pid, 0 <= pid < 2 ^ 31 -> name_fits (temp_path_for "/r" w_id pid 77) = true.
Proof.
  exact (proj1 (id_length_limits "/r" w_id 77) ltac:(by vm_compute) ltac:(by vm_compute)).
Defined.
