(* ===== verification/Crash.v ===== *)
(** * Crashes: what a power failure in the middle of any operation leaves on the
    disk, and that the store is sound after the restart.

    A crash is the end of a run after some number of calls.  What is on the disk
    then is what a machine would leave on which, from that call on, every call
    fails without effect; such a machine keeps the documented behaviour, so what
    was proved for every environment holds for every moment of a run. *)
From stdpp Require Import functions.
From S2P Require Import Prelude Status Types Path Proto System Prog UniqueFd Blake3 MemOS FileIO Files.
From S2P Require Import ChunkFormat Streams ChunkStore FileStore StorePaths StoreRead StorePut StoreSpec Sequence StoreTheorems.

(** ** Definitions *)

(** The first [n] calls of a program: what is left of it, and the world. *)
Fixpoint steps `{Posix} {A} (n : nat) (p : prog A) (w : os) : prog A * os :=
  match n, p with
  | S n, Sys c k => let '(r, w') := sys c w in steps n (k r) w'
  | _, _ => (p, w)
  end.

(** The files when a run stops after [n] calls. *)
Definition files_after `{Posix} {A} (n : nat) (p : prog A) (w : os) : fs :=
  s_fs (view (steps n p w).2).

(** The part of the files that is not the process'. *)
Definition same_disk (f f' : fs) : Prop :=
  f_names f' = f_names f /\ f_stable f' = f_stable f /\ f_inodes f' = f_inodes f.

(** What may be found after a crash: every directory entry is the latest one or
    the one on stable storage; the content of a file that was synchronized is
    there, any other content is arbitrary; nothing is open. *)
Record crash_image (f f' : fs) : Prop := {
  ci_wf : fs_wf f';
  ci_names : forall p, f_names f' !! p = f_names f !! p \/ f_names f' !! p = f_stable f !! p;
  ci_inodes : forall i nd, f_inodes f !! i = Some nd -> i_synced nd = true ->
    exists nd', f_inodes f' !! i = Some nd' /\ i_data nd' = i_data nd }.

(** A file that holds a whole chunk, all of it on stable storage. *)
Definition settled `{Blake3} (f : fs) (i : positive) (x : chunk) : Prop :=
  f_inodes f !! i = Some (mkInode (chunk_file x.1 x.2) true) /\ chunk_valid x.

(** No name of a chunk, visible or on stable storage, refers to anything else. *)
Definition recoverable `{Blake3} (root : string) (f : fs) : Prop :=
  forall id i, f_names f !! PathFor root id = Some i \/ f_stable f !! PathFor root id = Some i ->
    exists x, settled f i x.

(** The chunk is stored, and its directory entry is on stable storage. *)
Definition pinned `{Blake3} (root : string) (f : fs) (id : ChunkId) (x : chunk) : Prop :=
  exists i, f_names f !! PathFor root id = Some i /\ f_stable f !! PathFor root id = Some i /\ settled f i x.

(** ** Stopping a run *)

(** The same state of a machine on which calls may fail. *)
Definition unquiet (s : state) : state := mkState (s_errno s) (s_events s) false (s_trace s) (s_fs s).

#[export] Instance same_disk_preorder : PreOrder same_disk.
Proof.
  split; [by intros f|]. intros a b c (H1 & H2 & H3) (H4 & H5 & H6). split_and!; congruence.
Qed.

Lemma call_post_unquiet c s r s' : call_post c s r s' -> call_post c (unquiet s) r (unquiet s').
Proof.
  set (u := unquiet s).
  destruct c; cbn [call_post]; try (intros [? ->]; done); try (intros ->; done).
  - intros [r' i e|r' i e|r' e| | |e].
    + by apply (open_existing _ _ u r' i e).
    + by apply (open_create _ _ u r' i e).
    + by apply (open_directory _ _ u r' e).
    + by apply (open_missing _ _ u).
    + by apply (open_taken _ _ u).
    + by apply (open_error _ _ u e).
  - intros [i pos nd k e|n|e];
      [by apply (write_some _ _ u i pos nd k e)|by apply (write_intr _ _ u)|by apply (write_error _ _ u e)].
  - intros [i pos nd k e|m|e];
      [by apply (read_some _ _ u i pos nd k e)|by apply (read_intr _ _ u)|by apply (read_error _ _ u e)].
  - intros [i pos nd k e|m|e];
      [by apply (pread_some _ _ _ u i pos nd k e)|by apply (pread_intr _ _ _ u)|by apply (pread_error _ _ _ u e)].
  - intros [i pos w nd e|e]; [by apply (fstat_some _ u i pos w nd e)|by apply (fstat_error _ u e)].
  - intros [i pos w nd e|p m e|e];
      [by apply (sync_file _ u i pos w nd e)|by apply (sync_directory _ u p m e)|by apply (sync_error _ u e)].
  - intros [i pos w nd e|p m e|e];
      [by apply (sync_file _ u i pos w nd e)|by apply (sync_directory _ u p m e)|by apply (sync_error _ u e)].
  - intros [i e| |e]; [by apply (link_new _ _ u i e)|by apply (link_taken _ _ u)|by apply (link_error _ _ u e)].
  - intros [e| |e]; [by apply (unlink_some _ u e)|by apply (unlink_missing _ u)|by apply (unlink_error _ u e)].
  - intros [r' e]. apply (close_done _ u).
  - intros [e|e m]; [apply (mkdirs_ok _ u)|by apply (mkdirs_error _ u)].
  - intros [e|e|e r']; [by apply (exists_yes _ u)|by apply (exists_no _ u)|by apply (exists_other _ u)].
  - intros [r' n e]. by apply (rpc_any _ u).
Qed.

(** What may happen to the rest of a program may also happen on a machine on
    which calls may fail. *)
Lemma wp_steps `{Posix} {A} n (p : prog A) Q w :
  wp p Q (unquiet (view w)) -> wp (steps n p w).1 Q (unquiet (view (steps n p w).2)).
Proof.
  revert p w. induction n as [|n IH]; intros p w Hp; [done|].
  destruct p as [a|m| |c k]; cbn [steps]; [done..|].
  pose proof (sys_ok c w) as Hc. destruct (sys c w) as [r w']. cbn [fst snd] in Hc.
  apply IH. exact (Hp r (unquiet (view w')) (call_post_unquiet _ _ _ _ Hc)).
Qed.

(** The call fails with EIO, by the given rule. *)
Ltac without_effect rule :=
  eexists _, (ret_st _ EIO _); split; [rule|done].


(** Every call can fail without an effect on the disk. *)
Lemma call_fails c s : s_quiet s = false ->
  exists r s', call_post c s r s' /\ s_quiet s' = false /\ same_disk (s_fs s) (s_fs s').
Proof.
  intros Hq.
  destruct c as [p l|fd d|fd n|fd n off|fd|fd|fd|a b|p|fd|p|p| | |e|c]; cbn [call_post].
  - without_effect ltac:(apply open_error; by rewrite ?Hq).
  - without_effect ltac:(apply write_error; by rewrite ?Hq).
  - without_effect ltac:(apply read_error; by rewrite ?Hq).
  - without_effect ltac:(apply pread_error; by rewrite ?Hq).
  - without_effect ltac:(apply fstat_error; by rewrite ?Hq).
  - without_effect ltac:(apply sync_error; by rewrite ?Hq).
  - without_effect ltac:(apply sync_error; by rewrite ?Hq).
  - without_effect ltac:(apply link_error; by rewrite ?Hq).
  - without_effect ltac:(apply unlink_error; by rewrite ?Hq).
  - eexists 0, _. split; [apply (close_done _ _ _ EIO)|done].
  - without_effect ltac:(by apply (mkdirs_error _ _ _ ""%string)).
  - without_effect ltac:(apply (exists_other _ _ _ None); by rewrite ?Hq).
  - by exists 0, s.
  - by exists (s_errno s), s.
  - exists tt. by eexists.
  - exists (no_peer c), (mkState (s_errno s) (s_events s) (s_quiet s) (s_trace s ++ [ev c (no_peer c)]) (s_fs s)).
    split; [|done]. apply (rpc_any _ _ _ (s_events s) (s_errno s)); [by destruct c|apply no_peer_typed].
Qed.

(** So can a whole program: its end is then a state with the disk as it is. *)
Lemma wp_fails {A} (p : prog A) Q s :
  s_quiet s = false -> wp p Q s -> exists o s', Q o s' /\ same_disk (s_fs s) (s_fs s').
Proof.
  revert s. induction p as [a|m| |c k IH]; intros s Hq Hp;
    [by exists (Done a), s|by exists (Threw m), s|by exists OutOfFuel, s|].
  destruct (call_fails c s Hq) as (r & s1 & Hc & Hq1 & Hd).
  destruct (IH r s1 Hq1 (Hp r s1 Hc)) as (o & s2 & HQ & Hd2).
  exists o, s2. split; [done|]. by transitivity (s_fs s1).
Qed.

(** The rule: what holds at the end of every run on a machine on which calls may
    fail holds, as far as the disk is concerned, at every moment of every run. *)
Lemma crash_rule `{Posix} {A} n (p : prog A) Q w :
  wp p Q (unquiet (view w)) -> exists o s', Q o s' /\ same_disk (files_after n p w) (s_fs s').
Proof. intros Hp. by apply (wp_steps n), wp_fails in Hp. Qed.

(** ** The store on the disk *)

Section Recovery.
Context `{Libc} `{Blake3}.

Lemma settled_valid f i x : settled f i x -> chunk_valid x.
Proof. by intros [_ ?]. Qed.

(** A settled file reads back as its chunk. *)
Lemma settled_file f i x : fs_wf f -> settled f i x -> file_chunk (chunk_file x.1 x.2) = Some x.
Proof.
  intros Hwf [Hi [Hc Hb]]. pose proof (wf_size _ Hwf _ _ Hi) as Hmax. cbn [i_data] in Hmax.
  rewrite chunk_file_length in Hmax by done. pose proof (blen_nonneg x.2).
  unfold file_chunk. rewrite parse_chunk_file; [|done|unfold is_u64, off_max, u64_modulus in *; lia].
  change (Some (x.1, file_payload (chunk_file x.1 x.2)) = Some x).
  rewrite file_payload_chunk_file by done. by destruct x.
Qed.

(** After a crash a recoverable store is a sound store, and what was pinned is
    there. *)
Lemma crash_image_ok root f f' :
  recoverable root f -> crash_image f f' -> store_ok root f'.
Proof.
  intros Hrec [Hwf Hnames Hinodes]. split; [done|]. intros id d Hd. unfold lookup_file in Hd.
  destruct (f_names f' !! PathFor root id) as [i|] eqn:Hi; [|done]. cbn in Hd.
  destruct (Hrec id i) as ([c p] & Hin & Hv).
  { destruct (Hnames (PathFor root id)) as [E|E]; rewrite <- E; auto. }
  destruct (Hinodes _ _ Hin eq_refl) as (nd & Hnd & Edata). rewrite Hnd in Hd. injection Hd as <-.
  exists c, p. by rewrite Edata.
Qed.

(** A crash may lose nothing. *)
Lemma crash_image_self f : fs_wf f -> crash_image f f.
Proof. intros Hwf. split; [done|by left|]. intros i nd Hi _. by exists nd. Qed.

Lemma recoverable_ok root f : fs_wf f -> recoverable root f -> store_ok root f.
Proof. intros Hwf Hrec. by apply (crash_image_ok root f f Hrec), crash_image_self. Qed.

Lemma crash_image_pinned root f f' id x :
  fs_wf f -> crash_image f f' -> pinned root f id x -> chunks root f' id = Some x.
Proof.
  intros Hf [Hwf Hnames Hinodes] (i & Hn & Hs & Hin).
  assert (Hi : f_names f' !! PathFor root id = Some i).
  { destruct (Hnames (PathFor root id)) as [E|E]; by rewrite E. }
  pose proof (settled_file f i x Hf Hin) as Hx. destruct Hin as [Hin _].
  destruct (Hinodes _ _ Hin eq_refl) as (nd & Hnd & Edata).
  unfold chunks, lookup_file. rewrite Hi. cbn. rewrite Hnd. cbn. by rewrite Edata.
Qed.

(** Both notions are about the disk only. *)
Lemma crash_image_disk f1 f2 f' : same_disk f1 f2 -> crash_image f1 f' -> crash_image f2 f'.
Proof.
  intros (H1 & H2 & H3) [Hwf Hn Hi]. split; [done|intros p; rewrite H1, H2; apply Hn|intros i nd; rewrite H3; apply Hi].
Qed.

(** Adding a file, and naming it, keeps what is settled. *)
Lemma settled_insert f i nd j x names stable fds :
  f_inodes f !! i = None -> settled f j x ->
  settled (mkFs names stable (<[i := nd]> (f_inodes f)) fds) j x.
Proof. intros Hi [Hj Hv]. split; [|done]. cbn. rewrite lookup_insert_ne; [done|]. intros ->. congruence. Qed.

(** What an operation does to the names of chunks other than [dels]. *)
Definition advances (root : string) (dels : ChunkId -> Prop) (f f' : fs) : Prop :=
  fs_wf f' /\ recoverable root f' /\
  forall id x, pinned root f id x -> ~ dels id -> pinned root f' id x.

Lemma advances_refl root dels f : fs_wf f -> recoverable root f -> advances root dels f f.
Proof. done. Qed.

Lemma advances_left root dels f id pid addr i nd keep :
  fs_wf f -> recoverable root f -> f_inodes f !! i = None -> blen (i_data nd) <= off_max ->
  advances root dels f (left_fs f (temp_path_for root id pid addr) i nd keep).
Proof.
  intros Hwf Hrec Hi Hmax.
  assert (Hn : forall id', f_names (left_fs f (temp_path_for root id pid addr) i nd keep) !! PathFor root id' =
    f_names f !! PathFor root id').
  { intros id'. unfold left_fs. cbn [f_names]. destruct keep; [|done].
    apply lookup_insert_ne. intros E. by apply (PathFor_not_temp root id' id pid addr). }
  split; [by apply wf_left|split].
  - intros id' j Hj. rewrite Hn in Hj. destruct (Hrec id' j Hj) as [x Hx]. exists x. by apply settled_insert.
  - intros id' x (j & Hj & Hs & Hx) _. exists j. rewrite Hn.
    split; [done|split; [done|by apply settled_insert]].
Qed.

Lemma advances_committed root dels f id pid addr i c d keep m :
  fs_wf f -> recoverable root f -> f_inodes f !! i = None -> f_names f !! PathFor root id = None ->
  chunk_valid (c, d) -> blen (chunk_file c d) <= off_max ->
  ((forall id', m !! PathFor root id' = <[PathFor root id := i]> (f_names f) !! PathFor root id') \/ m = f_stable f) ->
  advances root dels f
    (committed_fs f (temp_path_for root id pid addr) (PathFor root id) i (mkInode (chunk_file c d) true) keep m).
Proof.
  intros Hwf Hrec Hi Hnone Hv Hmax Hm. set (f' := committed_fs _ _ _ _ _ _ _).
  assert (Hnew : settled f' i (c, d)) by (split; [apply lookup_insert_eq|done]).
  assert (Hn : forall id', f_names f' !! PathFor root id' = <[PathFor root id := i]> (f_names f) !! PathFor root id').
  { intros id'. unfold f', committed_fs. cbn [f_names]. destruct keep; [|done].
    destruct (decide (PathFor root id = PathFor root id')) as [->|Hne]; [by rewrite !lookup_insert_eq|].
    rewrite !(lookup_insert_ne _ (PathFor root id)) by done.
    apply lookup_insert_ne. intros E. by apply (PathFor_not_temp root id' id pid addr). }
  assert (Hold : forall id' j, <[PathFor root id := i]> (f_names f) !! PathFor root id' = Some j ->
    exists x, settled f' j x).
  { intros id' j [[_ <-]|[_ Hj]]%lookup_insert_Some; [by exists (c, d)|].
    destruct (Hrec id' j (or_introl Hj)) as [x Hx]. exists x. by apply settled_insert. }
  split; [by apply wf_committed|split].
  - intros id' j [Hj|Hj]; [rewrite Hn in Hj; by eapply Hold|].
    change (f_stable f') with m in Hj. destruct Hm as [Hm| ->]; [rewrite Hm in Hj; by eapply Hold|].
    destruct (Hrec id' j (or_intror Hj)) as [x Hx]. exists x. by apply settled_insert.
  - intros id' x (j & Hj & Hs & Hx) _. exists j.
    assert (Hne : PathFor root id <> PathFor root id') by congruence.
    rewrite Hn. change (f_stable f') with m. rewrite lookup_insert_ne by done.
    split; [done|split; [|by apply settled_insert]].
    destruct Hm as [Hm| ->]; [by rewrite Hm, lookup_insert_ne|done].
Qed.

(** ** The operations *)

Lemma put_advances dels quiet broken f root req pid addr d fin st f' :
  fs_wf f -> recoverable root f ->
  put_result quiet broken f root req (temp_path_for root (put_chunk_id req) pid addr) d fin st f' ->
  advances root dels f f' /\
  (st = Status_Ok -> data_matches req d /\ pinned root f' (put_chunk_id req) (expected_checksum req, d)).
Proof.
  intros Hwf Hrec [Hd Hid|Hd Hid Hsum|st' Hd Hid Hsum Hst|st' i nd keep Hid Hsum Herr Htemp Hfit Hi Hmax Hk
    |st' i keep m Hid Hsum Hfin Hm Htemp Hfit Hi Hnone Hmax Hk Hst].
  - split; [by apply advances_refl|]. intros E. by rewrite E in Hid.
  - split; [by apply advances_refl|]. intros E. by rewrite E in Hsum.
  - split; [by apply advances_refl|]. intros ->. by destruct Hst as [[Hc _]|[Hc _]].
  - split; [by apply advances_left|]. intros ->. by inversion Herr.
  - rewrite kHeaderSize_eq in Hmax.
    assert (Hv : chunk_valid (expected_checksum req, d)) by (split; [done|apply Hm]).
    split.
    + apply advances_committed; try done; [by rewrite chunk_file_length|].
      destruct Hst as [[_ Hst]|(_ & Hst & _)]; auto.
    + intros ->. destruct Hst as [[_ Hst]|[Hc _]]; [|done]. split; [done|].
      exists i. unfold committed_fs. cbn [f_names f_stable]. rewrite Hst, !lookup_insert_eq.
      split; [done|split; [done|]]. split; [apply lookup_insert_eq|done].
Qed.

Lemma delete_advances quiet f root id st f' :
  fs_wf f -> recoverable root f -> delete_result quiet f root id st f' ->
  advances root (fun id' => id' = id) f f'.
Proof.
  intros Hwf Hrec [Hid|st' Hid Hn Hc|Hid Hn|st' Hid Hc Hq]; [by apply advances_refl..| |by apply advances_refl].
  split; [by apply wf_delete|split].
  - intros id' i [Hi|Hi]; [|by apply (Hrec id' i); right].
    cbn [f_names set_names] in Hi. apply lookup_delete_Some in Hi as [_ Hi]. by apply (Hrec id' i); left.
  - intros id' x (i & Hi & Hs & Hx) Hne. exists i. split; [|done]. cbn.
    rewrite lookup_delete_ne; [done|]. intros E. by apply Hne, (PathFor_inj root).
Qed.

Lemma advances_trans root (d1 d2 d : ChunkId -> Prop) f1 f2 f3 :
  advances root d1 f1 f2 -> advances root d2 f2 f3 -> (forall id, ~ d id -> ~ d1 id /\ ~ d2 id) ->
  advances root d f1 f3.
Proof.
  intros (_ & _ & H1) (Hwf & Hrec & H2) Hd. split; [done|split; [done|]].
  intros id x Hx [Hn1 Hn2]%Hd. exact (H2 id x (H1 id x Hx Hn1) Hn2).
Qed.


Lemma same_files_advances root dels f f' :
  f' = f -> fs_wf f -> recoverable root f -> advances root dels f f'.
Proof. intros ->. apply advances_refl. Qed.

Section Put.
Context {S : Type} `{InputContract S}.

Lemma Put_advances dels fuel root addr req (input : S) s :
  fs_wf (s_fs s) -> recoverable root (s_fs s) -> is_u64 (expected_size req) -> in_wf input (s_trace s) ->
  (store_need (expected_size req) (s_events s) < fuel)%nat ->
  wp (Put fuel root addr req input) (returns (fun r s' => later s s' /\ advances root dels (s_fs s) (s_fs s') /\
    (r.1 = Status_Ok -> exists d, data_matches req d /\
       pinned root (s_fs s') (put_chunk_id req) (expected_checksum req, d)))) s.
Proof.
  intros Hwf Hrec Hsize Hin Hf.
  refine (wp_returns_mono _ _ _ _ (Put_wp fuel root addr req input s Hsize Hin Hf) _).
  intros r s' (Hl & pid & d & Hpid & _ & Hres).
  destruct (put_advances dels _ _ _ _ _ _ _ _ _ _ _ Hwf Hrec Hres) as [Ha Hok].
  split; [exact Hl|split; [exact Ha|]]. intros E. exists d. by apply Hok.
Qed.

End Put.

Definition deletes (cmd : command) (id : ChunkId) : Prop := cmd = DoDelete id.

Lemma execute_one_advances fuel root cmd s :
  fs_wf (s_fs s) -> recoverable root (s_fs s) -> bounded (mkFileChunkStore root) fuel (s_events s) cmd ->
  wp (execute_one (mkFileChunkStore root) fuel cmd) (returns (fun _ s' =>
    later s s' /\ advances root (deletes cmd) (s_fs s) (s_fs s'))) s.
Proof.
  intros Hwf Hrec Hb.
  assert (Hneed : forall n, (store_need n (s_events s) < fuel)%nat ->
    (kHeaderSize + Z.to_nat n + s_events s < fuel)%nat /\ (kHeaderSize + s_events s < fuel)%nat).
  { unfold store_need. intros n. clear. lia. }
  assert (Hsame : forall s', local_step s s' -> s_fs s' = s_fs s ->
    later s s' /\ advances root (deletes cmd) (s_fs s) (s_fs s')).
  { intros s' [Hl _] E. split; [done|by apply same_files_advances]. }
  destruct cmd as [addr req data|req|id|id|id|id]; cbn [execute_one bounded] in *.
  - destruct Hb as [Hsz Hf].
    refine (wp_bind_returns _ _ _ _ _ (Put_advances _ fuel root addr req (mkVectorInput (vi_data := data) 0) s
      Hwf Hrec Hsz I Hf) _).
    intros r s' (Hl & Ha & _). by apply wp_ret.
  - destruct Hb as (Ho & Hsz & Hf).
    refine (wp_bind_returns _ _ _ _ _ (Get_wp fuel root req (mkVectorOutput []) s Hwf Ho Hsz (proj1 (Hneed (size (range req)) Hf))) _).
    intros r s' (Hl & Hfs & _). apply wp_ret. split; [exact Hl|by apply same_files_advances].
  - refine (wp_bind_returns _ _ _ _ _ (Head_wp fuel root id s Hwf (proj2 (Hneed 0 Hb))) _).
    intros r s' (Hl & Hfs & _). apply wp_ret. by apply Hsame.
  - refine (wp_bind_returns _ _ _ _ _ (Delete_wp root id s) _).
    intros st s' ([Hl _] & Hres). apply wp_ret. split; [exact Hl|].
    destruct (delete_advances _ _ _ _ _ _ Hwf Hrec Hres) as (H1 & H2 & H3). split; [done|split; [done|]].
    intros id' x Hx Hne. apply H3; [done|]. intros ->. by apply Hne.
  - refine (wp_bind_returns _ _ _ _ _ (Size_wp fuel root id s Hwf (proj2 (Hneed 0 Hb))) _).
    intros r s' (Hl & Hfs & _). apply wp_ret. by apply Hsame.
  - refine (wp_bind_returns _ _ _ _ _ (Exists_wp fuel root id s Hwf (proj2 (Hneed 0 Hb))) _).
    intros r s' (Hl & Hfs & _). apply wp_ret. by apply Hsame.
Qed.

Lemma execute_advances fuel root cmds s :
  fs_wf (s_fs s) -> recoverable root (s_fs s) ->
  Forall (bounded (mkFileChunkStore root) fuel (s_events s)) cmds ->
  wp (execute (mkFileChunkStore root) fuel cmds) (returns (fun _ s' =>
    advances root (fun id => DoDelete id ∈ cmds) (s_fs s) (s_fs s'))) s.
Proof.
  revert s. induction cmds as [|cmd cmds IH]; intros s Hwf Hrec Hall; cbn [execute].
  { apply wp_ret. by apply advances_refl. }
  apply Forall_cons_1 in Hall as [Hb Hall].
  refine (wp_bind_returns _ _ _ _ _ (execute_one_advances fuel root cmd s Hwf Hrec Hb) _).
  intros a s1 (Hl & Ha1). pose proof Ha1 as (Hwf1 & Hrec1 & _).
  refine (wp_bind_returns _ _ _ _ _ (IH s1 Hwf1 Hrec1 _) _).
  { eapply Forall_impl; [|exact Hall]. intros x Hx. eapply bounded_later; [exact Hx|]. apply Hl. }
  intros l s2 Ha2. apply wp_ret. eapply advances_trans; [exact Ha1|exact Ha2|].
  intros id Hn. rewrite not_elem_of_cons in Hn. destruct Hn as [Hne Hn]. split; [|done].
  unfold deletes. congruence.
Qed.

End Recovery.

(** The files under the names of chunks after a Put. *)
Lemma put_result_files `{Blake3} quiet broken f root req pid addr d fin st f' :
  fs_wf f -> put_result quiet broken f root req (temp_path_for root (put_chunk_id req) pid addr) d fin st f' ->
  (forall id, lookup_file f' (PathFor root id) = lookup_file f (PathFor root id)) \/
  data_matches req d /\ lookup_file f (PathFor root (put_chunk_id req)) = None /\
  forall id, lookup_file f' (PathFor root id) =
    if decide (id = put_chunk_id req) then Some (chunk_file (expected_checksum req) d) else lookup_file f (PathFor root id).
Proof.
  intros Hwf [| |st' _ _ _ _|st' i nd keep _ _ _ _ _ Hi _ _|st' i keep m _ _ _ Hm _ _ Hi Hnone _ _ _]; [by left..| |].
  - left. intros id. apply lookup_left; [done|done|apply PathFor_not_temp].
  - right. split; [exact Hm|]. split; [unfold lookup_file; by rewrite Hnone|]. intros id.
    rewrite lookup_committed; [|done|done|apply PathFor_not_temp].
    destruct (decide (id = put_chunk_id req)) as [->|Hne]; [by rewrite decide_True|].
    rewrite decide_False; [done|]. by intros ?%PathFor_inj.
Qed.

Section Properties.
Context `{Posix} `{Libc} `{Blake3}.

(** C9: at every moment of a Put, in every environment and with every input, each
    file under the name of a chunk is whole, with a valid checksum, and the files
    under these names are what they were before the call, or the requested chunk,
    which had no file, has one with the announced size and checksum and all others
    are what they were.  So nobody who looks at the directory sees an empty or
    partial file under the name of a chunk. *)
Theorem Put_is_atomic {S} `{InputContract S} n fuel root addr req (input : S) (w : os)
  (Hok : store_ok root (s_fs (view w))) (Hsize : is_u64 (expected_size req))
  (Hin : in_wf input (s_trace (view w)))
  (Hfuel : (store_need (expected_size req) (s_events (view w)) < fuel)%nat) :
  let chunk_name := PathFor root in
  let before := lookup_file (s_fs (view w)) in
  let now := lookup_file (files_after n (Put fuel root addr req input) w) in
  (forall id file, now (chunk_name id) = Some file ->
     exists c p, file = chunk_file c p /\ chunk_valid (c, p)) /\
  ((forall id, now (chunk_name id) = before (chunk_name id)) \/
   exists d, data_matches req d /\ before (chunk_name (put_chunk_id req)) = None /\
     now (chunk_name (put_chunk_id req)) = Some (chunk_file (expected_checksum req) d) /\
     forall id, id <> put_chunk_id req -> now (chunk_name id) = before (chunk_name id)).
Proof.
  intros chunk_name before now.
  destruct (crash_rule n _ _ w (Put_wp fuel root addr req input (unquiet (view w)) Hsize Hin Hfuel))
    as (o & s' & Hpost & Hn & _ & Hi).
  assert (Hnow : forall q, now q = lookup_file (s_fs s') q) by (intros q; unfold now, lookup_file; by rewrite Hn, Hi).
  destruct o as [r|m0|]; [|done..]. destruct Hpost as (_ & pid & d & Hpid & _ & Hres). split.
  - apply put_result_spec in Hres as ([_ Hfiles] & _); [|exact Hok|done].
    intros id file. rewrite Hnow. apply Hfiles.
  - destruct (put_result_files _ _ _ _ _ _ _ _ _ _ _ (so_wf _ _ Hok) Hres) as [E|(Hm & Hnone & E)].
    + left. intros id. by rewrite Hnow, E.
    + right. exists d. split; [exact Hm|split; [exact Hnone|split]].
      * by rewrite Hnow, E, decide_True.
      * intros id Hid. by rewrite Hnow, E, decide_False.
Qed.

(** C5: a crash at any moment of any sequence of operations, in any environment,
    leaves a disk on which the store is sound after the restart, whichever of
    the directory entries and of the contents that were not yet synchronized the
    crash has destroyed; and a chunk that was stored and synchronized before,
    and is not deleted in between, is still there. *)
Theorem Crash_recovers n fuel root (cmds : list command) (w : os) f'
  (Hwf : fs_wf (s_fs (view w))) (Hrec : recoverable root (s_fs (view w)))
  (Hcmds : Forall (bounded (mkFileChunkStore root) fuel (s_events (view w))) cmds)
  (Hcrash : crash_image (files_after n (execute (mkFileChunkStore root) fuel cmds) w) f') :
  store_ok root f' /\
  forall id x, pinned root (s_fs (view w)) id x -> ~ DoDelete id ∈ cmds -> chunks root f' id = Some x.
Proof.
  destruct (crash_rule n _ _ w (execute_advances fuel root cmds (unquiet (view w)) Hwf Hrec Hcmds))
    as (o & s' & Hpost & Hdisk).
  destruct o as [r|m0|]; [|done..]. destruct Hpost as (Hwf' & Hrec' & Hkeep).
  apply (crash_image_disk _ _ _ Hdisk) in Hcrash. split; [by eapply crash_image_ok|].
  intros id x Hx Hn. by eapply crash_image_pinned, Hkeep.
Qed.


End Properties.

(** ** Witnesses *)

(** A store with one chunk that is on stable storage, and a machine that loses
    power while another chunk is being written. *)
Definition w_disk : fs :=
  mkFs {[ PathFor "/r" w_id := 7%positive ]} {[ PathFor "/r" w_id := 7%positive ]}
    {[ 7%positive := mkInode (chunk_file w_sum w_data) true ]} ∅.

Lemma w_disk_entry id i :
  ({[ PathFor "/r" w_id := 7%positive ]} : gmap string positive) !! PathFor "/r" id = Some i ->
  settled w_disk i (w_sum, w_data).
Proof. intros [_ <-]%lookup_singleton_Some. split; [apply lookup_singleton_eq|apply w_valid]. Qed.

Lemma w_disk_recoverable : recoverable "/r" w_disk.
Proof. intros id i [Hi|Hi]; exists (w_sum, w_data); by eapply w_disk_entry. Qed.

Lemma w_disk_wf : fs_wf w_disk.
Proof.
  split; cbn.
  - intros p i [_ <-]%lookup_singleton_Some. by rewrite lookup_singleton_eq.
  - intros *. by rewrite lookup_empty.
  - intros i nd [_ <-]%lookup_singleton_Some. by vm_compute.
Qed.

Lemma w_disk_pinned : pinned "/r" w_disk w_id (w_sum, w_data).
Proof.
  exists 7%positive. split; [apply lookup_singleton_eq|split; [apply lookup_singleton_eq|]].
  apply (w_disk_entry w_id), lookup_singleton_eq.
Qed.

Definition w_second : PutChunkRequest := mkPutChunkRequest (mkChunkId "c2") 5 w_sum.
Definition w_powered : os := quiet_world w_disk.

(** The state in the middle of the write: what was not synchronized is lost. *)
Definition w_lost : fs := mkFs (f_names w_disk) (f_names w_disk) (f_inodes w_disk) ∅.

Lemma w_image : crash_image (files_after 4 (execute w_store 200 [DoPut 77 w_second w_data]) w_powered) w_lost.
Proof.
  split.
  - exact w_disk_wf.
  - intros p. right.
    assert (E : f_stable (files_after 4 (execute w_store 200 [DoPut 77 w_second w_data]) w_powered) = f_stable w_disk)
      by (vm_compute; reflexivity).
    by rewrite E.
  - intros i nd Hi Hs.
    assert (E : f_inodes (files_after 4 (execute w_store 200 [DoPut 77 w_second w_data]) w_powered) =
      <[8%positive := mkInode (MakeHeader 5 w_sum) false]> (f_inodes w_disk)) by (vm_compute; reflexivity).
    rewrite E in Hi. apply lookup_insert_Some in Hi as [[_ <-]|[_ Hi]]; [done|]. by exists nd.
Qed.

Lemma w_second_bounded e : (e <= 2)%nat -> Forall (bounded w_store 200 e) [DoPut 77 w_second w_data].
Proof.
  intros He. apply Forall_cons_2; [|apply Forall_nil_2]. cbn [bounded]. split; [by vm_compute|].
  apply w_need; [cbn; lia|done].
Qed.

Lemma Crash_recovers_witness : store_ok "/r" w_lost /\ chunks "/r" w_lost w_id = Some (w_sum, w_data).
Proof.
  destruct (Crash_recovers 4 200 "/r" [DoPut 77 w_second w_data] w_powered w_lost w_disk_wf w_disk_recoverable
    (w_second_bounded 0 (Nat.le_0_l 2)) w_image) as [Hok Hkeep].
  split; [exact Hok|]. apply (Hkeep w_id (w_sum, w_data) w_disk_pinned).
  intros Hin. apply list_elem_of_singleton in Hin. discriminate.
Defined.

Definition w_midway : fs :=
  files_after 4 (Put 200 "/r" 77 w_second (mkVectorInput (vi_data := w_data) 0)) w_powered.

Lemma Put_is_atomic_witness :
  (lookup_file w_midway (PathFor "/r" (put_chunk_id w_second)) = None \/
   exists d, data_matches w_second d /\
     lookup_file w_midway (PathFor "/r" (put_chunk_id w_second)) = Some (chunk_file (expected_checksum w_second) d)) /\
  lookup_file w_midway (PathFor "/r" w_id) = lookup_file w_disk (PathFor "/r" w_id).
Proof.
  destruct (Put_is_atomic 4 200 "/r" 77 w_second (mkVectorInput (vi_data := w_data) 0) w_powered
    (recoverable_ok "/r" w_disk w_disk_wf w_disk_recoverable) ltac:(by vm_compute) I
    ltac:(apply w_need; cbn; lia)) as [_ [Hsame|(d & Hm & _ & Hnow & Hrest)]].
  - split; [left|exact (Hsame w_id)].
    transitivity (lookup_file w_disk (PathFor "/r" (put_chunk_id w_second))); [exact (Hsame _)|vm_compute; reflexivity].
  - split; [right; by exists d|apply (Hrest w_id); vm_compute; congruence].
Defined.

