(* ===== verification/Concurrent.v ===== *)
(** * Operations that run at the same time.

    The threads of a process share its files and descriptors; [errno], the
    messages of a call and the signals it meets belong to the thread.  A
    schedule says whose turn it is; a turn is one call of the environment, the
    invocation of an operation or its return. *)
From S2P Require Import Prelude Proto System Prog.

(** ** Definitions *)

(** What a thread does not share. *)
Record locals := mkLocals {
  l_errno : Z; l_events : nat; l_quiet : bool; l_trace : list rpc_event }.

Definition join (l : locals) (f : fs) : state :=
  mkState (l_errno l) (l_events l) (l_quiet l) (l_trace l) f.
Definition locals_of (s : state) : locals :=
  mkLocals (s_errno s) (s_events s) (s_quiet s) (s_trace s).

(** A schedule: the numbers of the threads that take the turns. *)
Inductive schedule {X} (step : nat -> X -> X -> Prop) : list nat -> X -> X -> Prop :=
| sched_nil x : schedule step [] x x
| sched_cons n ns x y z : step n x y -> schedule step ns y z -> schedule step (n :: ns) x z.

(** One call of a program. *)
Definition program_step {B} (p : prog B) (s : state) (p' : prog B) (s' : state) : Prop :=
  match p with
  | Sys c k => exists r, call_post c s r s' /\ p' = k r
  | _ => False
  end.

Section Machine.
Context {C A : Type} (code : C -> prog A).

Inductive thread :=
| Waiting (cmd : C) (l : locals)
| Running (cmd : C) (p : prog A) (l : locals)
| Finished (cmd : C) (a : A) (l : locals).

Record config := mkConfig { cf_threads : list thread; cf_fs : fs }.

Inductive thread_step (f : fs) : thread -> thread -> fs -> Prop :=
| ts_invoke cmd l : thread_step f (Waiting cmd l) (Running cmd (code cmd) l) f
| ts_call cmd p l p' s' :
    program_step p (join l f) p' s' ->
    thread_step f (Running cmd p l) (Running cmd p' (locals_of s')) (s_fs s')
| ts_return cmd a l : thread_step f (Running cmd (Ret a) l) (Finished cmd a l) f.

Inductive config_step (n : nat) : config -> config -> Prop :=
| cs_turn ths f t t' f' :
    ths !! n = Some t -> thread_step f t t' f' ->
    config_step n (mkConfig ths f) (mkConfig (<[n := t']> ths) f').

(** Programs do not block: a running thread can always take its turn, unless it
    threw or used up a bound. *)
Definition stuck (t : thread) : Prop :=
  match t with Running _ (Throw _) _ | Running _ Fuel _ => True | _ => False end.

End Machine.

(** ** Lemmas *)

Lemma join_locals s : join (locals_of s) (s_fs s) = s.
Proof. by destruct s. Qed.

Lemma locals_join l f : locals_of (join l f) = l.
Proof. by destruct l. Qed.

Lemma schedule_trans {X} (step : nat -> X -> X -> Prop) ns ms x y z :
  schedule step ns x y -> schedule step ms y z -> schedule step (ns ++ ms) x z.
Proof. induction 1; [done|]. intros Hms. econstructor; eauto. Qed.

(** A property that every turn preserves holds along every schedule. *)
Lemma schedule_invariant {X} (step : nat -> X -> X -> Prop) (P : X -> Prop) ns x y :
  (forall n x y, step n x y -> P x -> P y) -> schedule step ns x y -> P x -> P y.
Proof. intros Hstep. induction 1; eauto. Qed.
