(* ===== verification/Protocol.v ===== *)
(** * The protocol the operations of FileChunkStore keep: which calls on which
    names and descriptors an operation makes, in which order.

    It speaks about one operation only, and it is what the operations may rely
    on of each other when they run at the same time. *)
From S2P Require Import Prelude Status Types Path Proto System Prog UniqueFd Blake3 FileIO.
From S2P Require Import ChunkFormat Streams FileStore StorePaths.

(** ** Definitions *)

(** Where an operation stands. *)
Inductive phase :=
| PStart                            (* nothing done *)
| POpen (temp : string) (fd : Z)    (* the temporary file is being written *)
| PClosed (temp : string)           (* it is complete and closed *)
| PScrap (fd : Z)                   (* it was given up *)
| PDropped                          (* and closed *)
| PLinked (temp : string)           (* the commit was decided *)
| PDone                             (* nothing is held *)
| PDir (fd : Z)                     (* the directory is open *)
| PRead (fd : Z).                   (* a chunk is open for reading *)

(** Calls that concern neither names nor descriptors. *)
Definition idle (c : call) : bool :=
  match c with
  | Getpid | GetErrno | SetErrno _ | Rpc _ | CreateDirectories _ => true
  | _ => false
  end.

Definition temp_shaped (root t : string) : Prop :=
  exists id pid addr, t = temp_path_for root id pid addr.

Definition opened (r : Z) (ph : phase) : phase := if bool_decide (0 <= r) then ph else PDone.

(** [turn root ph c next]: in phase [ph] the call [c] may be made, and the reply
    determines the next phase. *)
Inductive turn (root : string) : phase -> forall c : call, (reply c -> phase) -> Prop :=
| t_idle ph c : idle c = true -> turn root ph c (fun _ => ph)
| t_create t : temp_shaped root t ->
    turn root PStart (Open t [O_WRONLY; O_CREAT; O_EXCL; O_CLOEXEC]) (fun r => opened r (POpen t r))
| t_write t fd d : turn root (POpen t fd) (Write fd d) (fun _ => POpen t fd)
| t_sync t fd : turn root (POpen t fd) (Fdatasync fd) (fun _ => POpen t fd)
| t_close t fd : turn root (POpen t fd) (Close fd) (fun _ => PClosed t)
| t_scrap t fd : turn root (POpen t fd) (Unlink t) (fun _ => PScrap fd)
| t_drop fd : turn root (PScrap fd) (Close fd) (fun _ => PDropped)
| t_link t id : turn root (PClosed t) (Link t (PathFor root id)) (fun _ => PLinked t)
| t_unlink t : turn root (PLinked t) (Unlink t) (fun _ => PDone)
| t_dir : turn root PDone (Open root [O_RDONLY; O_DIRECTORY; O_CLOEXEC]) (fun r => opened r (PDir r))
| t_fsync fd : turn root (PDir fd) (Fsync fd) (fun _ => PDir fd)
| t_close_dir fd : turn root (PDir fd) (Close fd) (fun _ => PDone)
| t_read id : turn root PStart (Open (PathFor root id) [O_RDONLY; O_CLOEXEC; O_NOFOLLOW])
    (fun r => opened r (PRead r))
| t_pread fd n off : turn root (PRead fd) (Pread fd n off) (fun _ => PRead fd)
| t_fstat fd : turn root (PRead fd) (Fstat fd) (fun _ => PRead fd)
| t_close_read fd : turn root (PRead fd) (Close fd) (fun _ => PDone)
| t_delete id : turn root PStart (Unlink (PathFor root id)) (fun _ => PDone).

(** A program that keeps the protocol from phase [ph] on, whatever the replies,
    and ends where [post] says. *)
Fixpoint obeys {A} (root : string) (ph : phase) (p : prog A) (post : A -> phase -> Prop) : Prop :=
  match p with
  | Ret a => post a ph
  | Sys c k => exists next, turn root ph c next /\ forall r, obeys root (next r) (k r) post
  | _ => True
  end.

(** A program that makes idle calls only. *)
Definition idles {A} (p : prog A) : Prop := forall root ph, obeys root ph p (fun _ ph' => ph' = ph).

(** Streams that leave the files alone. *)
Class IdleInput (S : Type) `{ChunkInputStream S} :=
  idle_Read : forall (x : S) n, idles (in_Read x n).
Class IdleOutput (S : Type) `{ChunkOutputStream S} :=
  idle_Write : forall (x : S) d, idles (out_Write x d).

(** Where an operation may end: without a descriptor. *)
Definition ended (ph : phase) : Prop := ph = PStart \/ ph = PDropped \/ ph = PDone.

(** ** Lemmas *)

Lemma obeys_mono {A} root ph (p : prog A) (post post' : A -> phase -> Prop) :
  obeys root ph p post -> (forall a ph', post a ph' -> post' a ph') -> obeys root ph p post'.
Proof.
  intros Hp Himp. revert ph Hp. induction p as [a|m| |c k IH]; intros ph; simpl; [apply Himp|done..|].
  intros (next & Ht & Hk). exists next. split; [done|]. intros r. by apply IH.
Qed.

Lemma obeys_bind {A B} root ph (p : prog A) (f : A -> prog B) (mid : A -> phase -> Prop) post :
  obeys root ph p mid -> (forall a ph', mid a ph' -> obeys root ph' (f a) post) ->
  obeys root ph (p ≫= f) post.
Proof.
  intros Hp Hf. revert ph Hp. induction p as [a|m| |c k IH]; intros ph; simpl; [apply Hf|done..|].
  intros (next & Ht & Hk). exists next. split; [done|]. intros r. by apply IH.
Qed.

Lemma obeys_turn {A} root ph c next (k : reply c -> prog A) post :
  turn root ph c next -> (forall r, obeys root (next r) (k r) post) ->
  obeys root ph (perform c ≫= k) post.
Proof. intros Ht Hk. by exists next. Qed.

Lemma obeys_idle {A} root ph c (k : reply c -> prog A) post :
  idle c = true -> (forall r, obeys root ph (k r) post) -> obeys root ph (perform c ≫= k) post.
Proof. intros Hc Hk. apply (obeys_turn root ph c (fun _ => ph)); [by apply t_idle|done]. Qed.

Lemma obeys_ret {A} root ph (a : A) (post : A -> phase -> Prop) :
  post a ph -> obeys root ph (mret a) post.
Proof. done. Qed.

Lemma obeys_idles {A B} root ph (p : prog A) (f : A -> prog B) post :
  idles p -> (forall a, obeys root ph (f a) post) -> obeys root ph (p ≫= f) post.
Proof. intros Hp Hf. eapply obeys_bind; [apply Hp|]. by intros a ? ->. Qed.

Lemma idles_ret {A} (a : A) : idles (mret a).
Proof. by intros root ph. Qed.

Lemma idles_bind {A B} (p : prog A) (f : A -> prog B) :
  idles p -> (forall a, idles (f a)) -> idles (p ≫= f).
Proof. intros Hp Hf root ph. apply obeys_idles; [done|]. intros a. apply Hf. Qed.

Lemma idles_perform c : idle c = true -> idles (perform c).
Proof. intros Hc root ph. exists (fun _ => ph). split; [by apply t_idle|done]. Qed.

#[export] Instance VectorInput_idle d : IdleInput (VectorInput d).
Proof. intros x n. apply idles_ret. Qed.
#[export] Instance VectorOutput_idle : IdleOutput VectorOutput.
Proof. intros x d. apply idles_ret. Qed.

(** The one turn that fits the phase and the call. *)
Ltac take_turn := solve [constructor; done].

Section Operations.
Context `{Libc} `{Blake3}.

Lemma interrupted_idles b : idles (interrupted b).
Proof.
  destruct b; cbn [interrupted]; [|apply idles_ret].
  apply idles_bind; [by apply idles_perform|]. intros e. apply idles_ret.
Qed.

Lemma errno_status_idles p : idles (errno_status p).
Proof. apply idles_bind; [by apply idles_perform|]. intros e. apply idles_ret. Qed.

Lemma IoError_idles op p : idles (IoError op p).
Proof. apply errno_status_idles. Qed.

Lemma open_failure_idles id op p : idles (open_failure id op p).
Proof.
  unfold open_failure. apply idles_bind; [by apply idles_perform|]. intros e.
  case_bool_decide; [apply idles_ret|apply IoError_idles].
Qed.

Section Stay.
Context (root : string) (ph : phase).

(** A program that comes back to the phase it started in. *)
Definition stays {A} (p : prog A) : Prop := obeys root ph p (fun _ ph' => ph' = ph).

Lemma stays_bind {A B} (p : prog A) (f : A -> prog B) :
  stays p -> (forall a, stays (f a)) -> stays (p ≫= f).
Proof. intros Hp Hf. eapply obeys_bind; [exact Hp|]. intros a ? ->. apply Hf. Qed.

Lemma stays_turn c : turn root ph c (fun _ => ph) -> stays (perform c).
Proof. intros Ht. by exists (fun _ => ph). Qed.

Lemma WriteAll_stays fuel fd data :
  (forall d, turn root ph (Write fd d) (fun _ => ph)) -> stays (WriteAll fuel fd data).
Proof.
  intros Ht. unfold WriteAll. generalize 0 as written. induction fuel as [|fuel IH]; intros written; [done|].
  cbn [WriteAll_loop]. case_bool_decide; [|by apply obeys_ret].
  apply stays_bind; [by apply stays_turn|]. intros r.
  apply stays_bind; [apply interrupted_idles|]. intros [|]; [apply IH|].
  case_bool_decide; [apply errno_status_idles|apply IH].
Qed.

Lemma PreadSome_stays fuel fd n off :
  (forall n off, turn root ph (Pread fd n off) (fun _ => ph)) -> stays (PreadSome fuel fd n off).
Proof.
  intros Ht. unfold PreadSome. case_bool_decide; [by apply obeys_ret|].
  induction fuel as [|fuel IH]; [done|]. cbn [PreadSome_loop].
  apply stays_bind; [by apply stays_turn|]. intros r.
  apply stays_bind; [apply interrupted_idles|]. intros [|]; [exact IH|].
  destruct r; [by apply obeys_ret|]. apply stays_bind; [apply errno_status_idles|done].
Qed.

Lemma ReadHeader_stays fuel fd id :
  (forall n off, turn root ph (Pread fd n off) (fun _ => ph)) ->
  turn root ph (Fstat fd) (fun _ => ph) -> stays (ReadHeader fuel fd id).
Proof.
  intros Hp Hs. unfold ReadHeader. apply stays_bind.
  - generalize (replicate kHeaderSize x00), 0, fuel at 1. intros h read n. revert h read.
    induction n as [|n IH]; intros h read; [done|]. cbn [ReadHeader_loop].
    case_bool_decide; [|by apply obeys_ret]. apply stays_bind; [by apply PreadSome_stays|].
    intros r. destruct (so_value r); [|by apply obeys_ret]. case_bool_decide; [by apply obeys_ret|apply IH].
  - intros [st|h]; [by apply obeys_ret|].
    destruct (magic_ok h); cbn [negb]; [|by apply obeys_ret].
    destruct (ok _); cbn [negb]; [|by apply obeys_ret].
    apply stays_bind; [by apply stays_turn|]. intros [n|].
    + destruct (size_mismatch _ _); by apply obeys_ret.
    + apply stays_bind; [apply errno_status_idles|]. intros. by apply obeys_ret.
Qed.

End Stay.

(** Leaving the scope of a descriptor. *)
Lemma obeys_scope {A} root ph raw (body : UniqueFd.t -> prog (A * UniqueFd.t)) (mid : A * UniqueFd.t -> phase -> Prop)
    (post : A -> phase -> Prop) :
  obeys root ph (body (UniqueFd.make raw)) mid ->
  (forall a fd ph', mid (a, fd) ph' -> UniqueFd.fd_ fd < 0 -> post a ph') ->
  (forall a fd ph', mid (a, fd) ph' -> 0 <= UniqueFd.fd_ fd ->
     exists ph2, turn root ph' (Close (UniqueFd.fd_ fd)) (fun _ => ph2) /\ post a ph2) ->
  obeys root ph (UniqueFd.scope raw body) post.
Proof.
  intros Hb Hno Hclose. unfold UniqueFd.scope. eapply obeys_bind; [exact Hb|].
  intros [a fd] ph' Hm. unfold UniqueFd.destroy, UniqueFd.reset. cbn [fst snd].
  case_bool_decide as Hfd; cbn [andb].
  - rewrite bool_decide_true by lia. destruct (Hclose a fd ph' Hm ltac:(lia)) as (ph2 & Ht & Hp).
    exists (fun _ => ph2). split; [done|]. by intros r.
  - apply Hno with (fd := fd); [done|lia].
Qed.

Lemma obeys_scope_const {A} root ph raw (body : UniqueFd.t -> prog A) (post : A -> phase -> Prop) ph2 :
  obeys root ph (body (UniqueFd.make raw)) (fun _ ph' => ph' = ph) ->
  (raw < 0 -> forall a, post a ph) ->
  (0 <= raw -> turn root ph (Close raw) (fun _ => ph2) /\ forall a, post a ph2) ->
  obeys root ph (UniqueFd.scope_const raw body) post.
Proof.
  intros Hb Hno Hclose. eapply (obeys_scope _ _ _ _ (fun x ph' => ph' = ph /\ x.2 = UniqueFd.make raw)).
  - eapply obeys_bind; [exact Hb|]. intros a ? ->. by apply obeys_ret.
  - intros a fd ? [-> E] Hr. cbn in E. subst. by apply Hno.
  - intros a fd ? [-> E] Hr. cbn in E. subst. exists ph2. destruct (Hclose Hr). auto.
Qed.

(** ** Reading *)

Lemma open_chunk_obeys {A} root id (body : UniqueFd.t -> prog A) (post : A -> phase -> Prop) :
  (forall r, 0 <= r -> obeys root (PRead r) (body (UniqueFd.make r)) (fun _ ph' => ph' = PRead r)) ->
  (forall r, r < 0 -> idles (body (UniqueFd.make r))) ->
  (forall a, post a PDone) ->
  obeys root PStart (raw ← perform (Open (PathFor root id) [O_RDONLY; O_CLOEXEC; O_NOFOLLOW]);
    UniqueFd.scope_const raw body) post.
Proof.
  intros Hok Hfail Hpost. eapply obeys_turn; [apply t_read|]. intros r. unfold opened. cbn beta.
  case_bool_decide as Hr.
  - apply (obeys_scope_const _ _ _ _ _ PDone); [by apply Hok|lia|]. intros _. split; [take_turn|done].
  - apply (obeys_scope_const _ _ _ _ _ PDone); [|done|lia]. apply Hfail. lia.
Qed.

Lemma Head_obeys root fuel id :
  obeys root PStart (Head fuel root id) (fun _ ph => ph = PStart \/ ph = PDone).
Proof.
  unfold Head. destruct (ok (ValidateId id)); cbn [negb]; [|apply obeys_ret; by left].
  apply open_chunk_obeys; [..|by right].
  - intros r Hr. rewrite valid_make by done. cbn [negb].
    apply ReadHeader_stays; intros; take_turn.
  - intros r Hr. unfold UniqueFd.valid. rewrite bool_decide_false by (cbn; lia). cbn [negb].
    apply idles_bind; [apply open_failure_idles|]. intros. apply idles_ret.
Qed.

Section Get.
Context {S : Type} `{IdleOutput S}.

Lemma Get_loop_stays root fuel pfuel fd remaining off (output : S) :
  stays root (PRead fd) (Get_loop fuel pfuel fd remaining off output).
Proof.
  revert remaining off output. induction fuel as [|fuel IH]; intros remaining off output; [done|].
  cbn [Get_loop]. case_bool_decide; [|by apply obeys_ret].
  apply stays_bind; [apply PreadSome_stays; intros; take_turn|]. intros r.
  destruct (so_value r); [|by apply obeys_ret]. case_bool_decide; [by apply obeys_ret|].
  apply stays_bind; [apply idle_Write|]. intros [st o]. destruct (ok st); cbn [negb]; [apply IH|by apply obeys_ret].
Qed.

End Get.

Lemma Delete_obeys root id :
  obeys root PStart (Delete root id) (fun _ ph => ph = PStart \/ ph = PDone).
Proof.
  unfold Delete. destruct (ok (ValidateId id)); cbn [negb]; [|apply obeys_ret; by left].
  eapply obeys_turn; [apply t_delete|]. intros r. cbn beta. case_bool_decide; [|apply obeys_ret; by right].
  eapply obeys_mono; [apply open_failure_idles|]. cbn. intros ? ? ->. by right.
Qed.

(** ** Put *)

Lemma cleanup_obeys {A} root t ph ph2 (k : unit -> prog A) post :
  turn root ph (Unlink t) (fun _ => ph2) -> obeys root ph2 (k tt) post ->
  obeys root ph (cleanup t ≫= k) post.
Proof. intros Ht Hk. exists (fun _ => ph2). split; [done|]. by intros r. Qed.

Lemma Put_commit_obeys root id t :
  obeys root (PClosed t) (Put_commit root id t (PathFor root id)) (fun _ ph => ph = PDone).
Proof.
  unfold Put_commit. eapply obeys_turn; [apply t_link|]. intros r. cbn beta. case_bool_decide.
  - apply obeys_idle; [done|]. intros e. eapply cleanup_obeys; [apply t_unlink|].
    case_bool_decide; [by apply obeys_ret|]. apply obeys_idle; [done|]. intros _. apply IoError_idles.
  - eapply cleanup_obeys; [apply t_unlink|]. unfold sync_root.
    eapply obeys_turn; [apply t_dir|]. intros raw. unfold opened. cbn beta. case_bool_decide as Hr.
    + apply (obeys_scope_const _ _ _ _ _ PDone); [|lia|intros _; split; [take_turn|done]].
      rewrite valid_make by done. cbn [negb]. apply stays_bind; [apply stays_turn; take_turn|].
      intros s. case_bool_decide; [apply IoError_idles|by apply obeys_ret].
    + apply (obeys_scope_const _ _ _ _ _ PDone); [|done|lia].
      unfold UniqueFd.valid. rewrite bool_decide_false by (cbn; lia). apply IoError_idles.
Qed.

Section Put.
Context {S : Type} `{IdleInput S}.

(** The receiving loop keeps the file open, or has scrapped it. *)
Lemma Put_loop_obeys root fuel wfuel req fd t h received (input : S) :
  obeys root (POpen t fd) (Put_loop fuel wfuel req fd t h received input)
    (fun r ph => ph = match r.1 with inl _ => PScrap fd | inr _ => POpen t fd end).
Proof.
  revert h received input. induction fuel as [|fuel IH]; intros h received input; [done|].
  cbn [Put_loop]. apply obeys_idles; [apply idle_Read|]. intros [count input'].
  assert (Hscrap : forall st, obeys root (POpen t fd) (_ ← cleanup t; mret (inl st, input'))
    (fun (r : (Status + (hasher * Z)) * S) ph => ph = match r.1 with inl _ => PScrap fd | inr _ => POpen t fd end)).
  { intros st. eapply cleanup_obeys; [apply t_scrap|]. by apply obeys_ret. }
  destruct (so_value count) as [bytes|]; [|apply Hscrap].
  case_bool_decide; [by apply obeys_ret|].
  destruct (_ || _ || _); [apply Hscrap|].
  eapply obeys_bind; [apply WriteAll_stays; intros; take_turn|]. intros st ? ->.
  destruct (ok st); cbn [negb]; [apply IH|apply Hscrap].
Qed.

Lemma Put_body_obeys root fuel req t (input : S) fd :
  0 <= fd ->
  obeys root (POpen t fd) (Put_body fuel root req t (PathFor root (put_chunk_id req)) input (UniqueFd.make fd))
    (fun r ph => ph = PScrap fd /\ UniqueFd.fd_ r.2 = fd \/ ph = PDone /\ UniqueFd.fd_ r.2 = -1).
Proof.
  intros Hfd. unfold Put_body. cbn [UniqueFd.get UniqueFd.make UniqueFd.fd_].
  assert (Hscrap : forall x : Status * S, obeys root (POpen t fd) (_ ← cleanup t; mret (x, UniqueFd.make fd))
    (fun r ph => ph = PScrap fd /\ UniqueFd.fd_ r.2 = fd \/ ph = PDone /\ UniqueFd.fd_ r.2 = -1)).
  { intros x. eapply cleanup_obeys; [apply t_scrap|]. apply obeys_ret. by left. }
  eapply obeys_bind; [apply WriteAll_stays; intros; take_turn|]. intros st ? ->.
  destruct (ok st); cbn [negb]; [|apply (Hscrap (st, input))].
  eapply obeys_bind; [apply Put_loop_obeys|]. intros [[st2|[h received]] input'] ? ->; cbn [fst].
  { apply obeys_ret. by left. }
  case_bool_decide; [apply (Hscrap (_, input'))|]. case_bool_decide; [apply (Hscrap (_, input'))|].
  eapply obeys_turn; [apply t_sync|]. intros r. cbn beta. case_bool_decide.
  { apply obeys_idles; [apply IoError_idles|]. intros st2. apply (Hscrap (st2, input')). }
  unfold UniqueFd.reset. cbn [UniqueFd.fd_ UniqueFd.make]. rewrite !bool_decide_true by lia. cbn [andb].
  eapply obeys_bind.
  { eapply (obeys_turn _ _ _ _ _ (fun x ph => ph = PClosed t /\ x = UniqueFd.mk (-1))); [apply t_close|].
    intros r2. by apply obeys_ret. }
  intros fd' ? [-> ->]. eapply obeys_bind; [apply Put_commit_obeys|]. intros st2 ? ->.
  apply obeys_ret. by right.
Qed.

Lemma Put_obeys root fuel addr req (input : S) :
  obeys root PStart (Put fuel root addr req input) (fun _ ph => ended ph).
Proof.
  unfold Put, ended. destruct (ok (ValidateId _)); cbn [negb]; [|apply obeys_ret; by left].
  destruct (ok (ValidateChecksum _)); cbn [negb]; [|apply obeys_ret; by left].
  apply obeys_idle; [done|]. intros [m|]; [apply obeys_ret; by left|].
  apply obeys_idle; [done|]. intros pid.
  eapply obeys_turn; [apply t_create; by eexists _, _, _|]. intros raw. unfold opened. cbn beta.
  case_bool_decide as Hr.
  - eapply obeys_scope; [rewrite valid_make by done; by apply Put_body_obeys|..]; cbn [fst snd].
    + intros a fd ph [[-> E]|[-> E]] Hfd; cbn in E; [lia|auto].
    + intros a fd ph [[-> E]|[-> E]] Hfd; [|lia]. rewrite E. eexists. split; [take_turn|auto].
  - unfold UniqueFd.valid. eapply (obeys_scope _ _ _ _ (fun x ph => ph = PDone /\ UniqueFd.fd_ x.2 = raw)).
    + rewrite bool_decide_false by (cbn; lia). cbn [negb]. apply obeys_idle; [done|]. intros e.
      case_bool_decide; [by apply obeys_ret|]. apply obeys_idles; [apply IoError_idles|].
      intros st. by apply obeys_ret.
    + intros a fd ph [-> _] _. auto.
    + intros a fd ph [_ E] Hfd. cbn in E. lia.
Qed.

End Put.

End Operations.
