(* ===== verification/Interference.v ===== *)
(** * What concurrent operations do to each other's files: nothing.

    An operation that keeps the protocol owns a temporary name, an inode nobody
    else can reach and a descriptor.  Up to its commit it could run on any other
    files as well; after its commit it could run on as it does if the other
    operations stopped.  So a call it makes among the others is a call it could
    make alone, with the same reply. *)
From S2P Require Import Prelude Status Types Path Proto System Prog UniqueFd Blake3 FileIO Files.
From S2P Require Import ChunkFormat Streams ChunkStore FileStore StorePaths StoreSpec Concurrent Protocol.

(** ** Definitions *)

(** What an operation owns. *)
Inductive own :=
| ONone
| OFile (t : string) (i : positive) (d : list byte) (b : bool) (named : bool) (fd : option Z)
| OName (t : string) (i : positive)
| OFd (fd : Z) (obj : fdobj).

Definition o_name (o : own) : option string :=
  match o with OFile t _ _ _ true _ | OName t _ => Some t | _ => None end.
Definition o_inode (o : own) : option positive :=
  match o with OFile _ i _ _ _ _ => Some i | _ => None end.
Definition o_fd (o : own) : option Z :=
  match o with OFile _ _ _ _ _ fd => fd | OFd fd _ => Some fd | _ => None end.
Definition o_reads (o : own) : option positive :=
  match o with OFd _ (FdFile i _ _) => Some i | _ => None end.
Definition o_fds (o : own) : gmap Z fdobj :=
  match o with
  | OFile _ i d _ _ (Some fd) => {[fd := FdFile i (length d) true]}
  | OFd fd obj => {[fd := obj]}
  | _ => ∅
  end.

Inductive holds : phase -> own -> Prop :=
| h_start : holds PStart ONone
| h_open t i d b fd : holds (POpen t fd) (OFile t i d b true (Some fd))
| h_closed t i d b : holds (PClosed t) (OFile t i d b true None)
| h_scrap t i d b named fd : holds (PScrap fd) (OFile t i d b named (Some fd))
| h_dropped t i d b named : holds PDropped (OFile t i d b named None)
| h_linked t i : holds (PLinked t) (OName t i)
| h_done : holds PDone ONone
| h_dir fd p : holds (PDir fd) (OFd fd (FdDir p))
| h_read fd i : holds (PRead fd) (OFd fd (FdFile i 0 false)).

(** Before the commit. *)
Definition private (ph : phase) : Prop :=
  match ph with PStart | POpen _ _ | PClosed _ | PScrap _ | PDropped => True | _ => False end.

Section Interference.
Context (root : string).

(** The files agree with what the operation owns, and nobody else can reach the
    inode of its temporary file. *)
Definition owned (f : fs) (o : own) : Prop :=
  match o with
  | ONone => True
  | OFile t i d b named fd =>
      temp_shaped root t /\ f_inodes f !! i = Some (mkInode d b) /\
      (named = true -> f_names f !! t = Some i) /\
      (forall q, f_names f !! q = Some i -> named = true /\ q = t) /\
      (forall r, fd = Some r -> f_fds f !! r = Some (FdFile i (length d) true))
  | OName t i => temp_shaped root t /\ f_names f !! t = Some i
  | OFd fd obj =>
      f_fds f !! fd = Some obj /\
      match obj with FdFile i _ _ => is_Some (f_inodes f !! i) | FdDir _ => True end
  end.

Record separate (o1 o2 : own) : Prop := {
  sep_name : forall t, o_name o1 = Some t -> o_name o2 <> Some t;
  sep_inode : forall i, o_inode o1 = Some i -> o_inode o2 <> Some i;
  sep_fd : forall fd, o_fd o1 = Some fd -> o_fd o2 <> Some fd;
  sep_reads : forall i, o_inode o1 = Some i -> o_reads o2 <> Some i;
  sep_reads' : forall i, o_reads o1 = Some i -> o_inode o2 <> Some i }.

(** A turn of an operation that owns [o] before and [o'] after it changes only
    what it owns, what was free, and names of chunks. *)
Record touches (o : own) (f : fs) (o' : own) (f' : fs) : Prop := {
  tc_names : forall q, f_names f' !! q = f_names f !! q \/ o_name o = Some q \/
    (o_name o' = Some q /\ f_names f !! q = None) \/ exists id, q = PathFor root id;
  tc_links : forall q i, f_names f' !! q = Some i ->
    f_names f !! q = Some i \/ o_inode o = Some i \/ f_inodes f !! i = None;
  tc_inodes : forall i nd, f_inodes f !! i = Some nd -> o_inode o = Some i \/ f_inodes f' !! i = Some nd;
  tc_fds : forall fd obj, f_fds f !! fd = Some obj -> o_fd o = Some fd \/ f_fds f' !! fd = Some obj;
  tc_name : forall t, o_name o' = Some t -> o_name o = Some t \/ f_names f !! t = None;
  tc_inode : forall i, o_inode o' = Some i -> o_inode o = Some i \/ f_inodes f !! i = None;
  tc_fd : forall fd, o_fd o' = Some fd -> o_fd o = Some fd \/ f_fds f !! fd = None;
  tc_reads : forall i, o_reads o' = Some i -> o_reads o = Some i \/
    exists id, f_names f !! PathFor root id = Some i }.

(** The chunk files are the same. *)
Definition same_files (f f' : fs) : Prop :=
  forall id, lookup_file f' (PathFor root id) = lookup_file f (PathFor root id).

(** Files the operation could be running on instead: the names and the inode it
    uses are free there, and nothing is open. *)
Definition base `{Blake3} (o : own) (g : fs) : Prop :=
  store_ok root g /\ f_fds g = ∅ /\
  match o with OFile t i _ _ _ _ => f_names g !! t = None /\ f_inodes g !! i = None | _ => True end.

(** Its view of the files there. *)
Definition priv (g : fs) (o : own) : fs :=
  match o with
  | OFile t i d b named fd =>
      mkFs (if named then <[t := i]> (f_names g) else f_names g) (f_stable g)
        (<[i := mkInode d b]> (f_inodes g)) (o_fds o)
  | _ => g
  end.

(** The files without what the operation owns. *)
Definition base_of (f : fs) (o : own) : fs :=
  match o with
  | OFile t i _ _ _ _ => mkFs (delete t (f_names f)) (f_stable f) (delete i (f_inodes f)) ∅
  | _ => set_fds ∅ f
  end.

(** The view of the files an operation has after its commit. *)
Definition alone (o : own) (v : fs) : Prop :=
  owned v o /\ f_fds v = o_fds o /\ o_inode o = None.
Definition agrees (o : own) (v f : fs) : Prop :=
  f_names v !! root = f_names f !! root /\
  match o with
  | OFd _ (FdFile i _ _) => i_data <$> f_inodes v !! i = i_data <$> f_inodes f !! i
  | OName t i => f_names v !! t = f_names f !! t
  | _ => True
  end.

(** ** Lemmas *)

Lemma temp_not_chunk t id : temp_shaped root t -> t <> PathFor root id.
Proof. intros (id' & pid & addr & ->) E. symmetry in E. by apply PathFor_not_temp in E. Qed.

Lemma temp_not_root t : temp_shaped root t -> t <> root.
Proof.
  intros (id & pid & addr & ->). rewrite temp_path_name. apply path_append_ne; apply temp_name_plain.
Qed.

Lemma chunk_not_root id : PathFor root id <> root.
Proof. rewrite PathFor_name. apply path_append_ne; apply chunk_name_plain. Qed.

Lemma separate_sym o1 o2 : separate o1 o2 -> separate o2 o1.
Proof.
  intros [H1 H2 H3 H4 H5]. split; intros x Hx Hy; [by apply (H1 x)|by apply (H2 x)|by apply (H3 x)|by apply (H5 x)|by apply (H4 x)].
Qed.

Lemma separate_none o : separate ONone o.
Proof. by split. Qed.

Lemma touches_refl o f : touches o f o f.
Proof. split; auto. Qed.

Lemma touches_owned o f o' f' o2 :
  touches o f o' f' -> separate o o2 -> owned f o2 -> owned f' o2.
Proof.
  intros [Tn Tl Ti Tf _ _ _ _] [S1 S2 S3 S4 _].
  assert (Hname : forall t i, temp_shaped root t -> o_name o2 = Some t -> f_names f !! t = Some i ->
    f_names f' !! t = Some i).
  { intros t i Ht Ho Hn. destruct (Tn t) as [->|[Ho'|[[_ ?]|[id ->]]]]; [done|by destruct (S1 t)|congruence|].
    by destruct (temp_not_chunk _ id Ht). }
  assert (Hfd : forall r obj, o_fd o2 = Some r -> f_fds f !! r = Some obj -> f_fds f' !! r = Some obj).
  { intros r obj Ho Hr. destruct (Tf _ _ Hr) as [Ho'|]; [by destruct (S3 r)|done]. }
  destruct o2 as [|t i d b named fd|t i|fd obj]; cbn [owned]; [done|..].
  - intros (Ht & Hi & Hn & Hu & Hr). split_and!.
    + done.
    + destruct (Ti _ _ Hi) as [Ho|]; [by destruct (S2 i)|done].
    + intros ->. apply Hname; auto.
    + intros q Hq. destruct (Tl _ _ Hq) as [?|[Ho|?]]; [by apply Hu|by destruct (S2 i)|congruence].
    + intros r ->. apply Hfd; auto.
  - intros [Ht Hn]. split; [done|]. by apply Hname.
  - intros [Hr Hi]. split; [by apply Hfd|]. destruct obj as [i pos w|p]; [|done].
    destruct Hi as [nd Hi]. destruct (Ti _ _ Hi) as [Ho|]; [by destruct (S4 i)|by eexists].
Qed.

Lemma touches_separate o f o' f' o2 :
  touches o f o' f' -> separate o o2 -> owned f o2 -> separate o' o2.
Proof.
  intros [_ _ _ _ Tn Ti Tf Tr] [S1 S2 S3 S4 S5] Ho.
  assert (Hin : forall i, o_inode o2 = Some i -> is_Some (f_inodes f !! i) /\
    forall q, f_names f !! q = Some i -> temp_shaped root q).
  { intros i Hi. destruct o2; cbn in Hi; simplify_eq. destruct Ho as (Ht & Hi & _ & Hu & _).
    split; [by eexists|]. intros q Hq. by destruct (Hu q Hq) as [_ ->]. }
  split; intros x Hx Hy.
  - destruct (Tn x Hx) as [?|Hn]; [by apply (S1 x)|].
    destruct o2 as [|t i d b [] fd|t i|fd obj]; cbn in Hy; simplify_eq; cbn in Ho.
    + destruct Ho as (_ & _ & Ho & _). rewrite Ho in Hn by done. done.
    + destruct Ho as [_ Ho]. congruence.
  - destruct (Ti x Hx) as [?|Hn]; [by apply (S2 x)|]. destruct (Hin x Hy) as [[? ?] _]. congruence.
  - destruct (Tf x Hx) as [?|Hn]; [by apply (S3 x)|].
    destruct o2 as [|t i d b named fd|t i|fd obj]; cbn in Hy; simplify_eq; cbn in Ho.
    + destruct Ho as (_ & _ & _ & _ & Ho). rewrite (Ho x) in Hn; done.
    + destruct Ho. congruence.
  - destruct (Ti x Hx) as [?|Hn]; [by apply (S4 x)|].
    destruct o2 as [| | |fd [i pos w|p]]; cbn in Hy; simplify_eq. destruct Ho as [_ [? ?]]. congruence.
  - destruct (Tr x Hx) as [?|[id Hid]]; [by apply (S5 x)|].
    destruct (Hin x Hy) as [_ Hq]. apply Hq in Hid. by eapply temp_not_chunk in Hid.
Qed.

(** ** Calls *)

Section Calls.
Context `{Blake3}.

Lemma wf_fds_insert f fd obj :
  fs_wf f -> (forall i pos w, obj = FdFile i pos w -> is_Some (f_inodes f !! i)) ->
  fs_wf (set_fds (<[fd := obj]> (f_fds f)) f).
Proof.
  intros [W1 W2 W3] Ho. split; cbn; [done| |done].
  intros r i pos w [[_ E]|[_ Hr]]%lookup_insert_Some; [by eapply Ho|by eapply W2].
Qed.

Lemma wf_write f fd i pos nd x :
  fs_wf f -> f_inodes f !! i = Some nd -> Z.of_nat (pos + length x) <= off_max ->
  fs_wf (mkFs (f_names f) (f_stable f) (<[i := mkInode (splice pos x (i_data nd)) false]> (f_inodes f))
    (<[fd := FdFile i (pos + length x) true]> (f_fds f))).
Proof.
  intros Hwf Hi Hmax.
  assert (Hwf' : fs_wf (mkFs (f_names f) (f_stable f)
    (<[i := mkInode (splice pos x (i_data nd)) false]> (f_inodes f)) (f_fds f))).
  { apply wf_extend; [done| |auto]. pose proof (wf_size _ Hwf _ _ Hi) as Hs. cbn [i_data].
    unfold splice, blen in *. rewrite !length_app, length_take, length_replicate, length_drop. lia. }
  apply (wf_fds_insert _ fd (FdFile i (pos + length x) true) Hwf').
  intros j p w [= <- _ _]. cbn. rewrite lookup_insert_eq. by eexists.
Qed.

Lemma call_post_wf c s r s' : call_post c s r s' -> fs_wf (s_fs s) -> fs_wf (s_fs s').
Proof.
  intros Hpost Hwf. destruct c; cbn [call_post] in Hpost;
    try (destruct Hpost; cbn [s_fs ret_st intr_st]; done).
  - destruct Hpost as [r i e _ _ Hn Hr Hfd|r i e _ Hn _ Hi Hr Hfd|r e _ Hr Hfd| | |]; cbn [s_fs ret_st]; try done.
    + apply wf_fds_insert; [done|]. intros j pos w [= <- _ _]. by eapply wf_names.
    + assert (Hwf' : fs_wf (mkFs (<[p := i]> (f_names (s_fs s))) (f_stable (s_fs s))
        (<[i := mkInode [] false]> (f_inodes (s_fs s))) (f_fds (s_fs s)))).
      { apply wf_extend; [done|done|]. intros q j [[_ ->]|[_ ?]]%lookup_insert_Some; auto. }
      apply (wf_fds_insert _ r (FdFile i 0 (has O_WRONLY flags)) Hwf').
      intros j pos w [= <- _ _]. cbn. rewrite lookup_insert_eq. by eexists.
    + by apply wf_fds_insert.
  - destruct Hpost as [i pos nd k e Hfd Hi Hk _ Hmax| |]; cbn [s_fs ret_st]; [|done..].
    pose proof (wf_write _ fd i pos nd (take k d) Hwf Hi) as Hw.
    rewrite length_take, Nat.min_l in Hw by done. by apply Hw.
  - destruct Hpost as [i pos nd k e Hfd Hi _| |]; cbn [s_fs ret_st]; [|done..].
    apply wf_fds_insert; [done|]. intros j p w [= <- _ _]. by eexists.
  - destruct Hpost as [i pos w nd e _ Hi| |]; cbn [s_fs ret_st]; [|by destruct Hwf; split|done].
    apply wf_extend; [done|exact (wf_size _ Hwf _ _ Hi)|auto].
  - destruct Hpost as [i pos w nd e _ Hi| |]; cbn [s_fs ret_st]; [|by destruct Hwf; split|done].
    apply wf_extend; [done|exact (wf_size _ Hwf _ _ Hi)|auto].
  - destruct Hpost as [i e Ha Hb| |]; cbn [s_fs ret_st]; [|done..]. destruct Hwf as [W1 W2 W3].
    split; cbn; [|done..]. intros q j [[_ <-]|[_ ?]]%lookup_insert_Some; by eapply W1.
  - destruct Hpost as [e _| |]; cbn [s_fs ret_st]; [|done..]. by apply wf_delete.
  - destruct Hpost. cbn [s_fs ret_st]. destruct Hwf as [W1 W2 W3]. split; cbn; [done| |done].
    intros q i pos w [_ ?]%lookup_delete_Some. by eapply W2.
  - by destruct Hpost as [_ ->].
  - by destruct Hpost as [_ ->].
  - by rewrite Hpost.
Qed.

(** An idle call neither depends on the files nor changes them. *)
Lemma idle_transfer c l f g r s' :
  idle c = true -> call_post c (join l f) r s' ->
  s_fs s' = f /\ call_post c (join l g) r (join (locals_of s') g).
Proof.
  intros Hc Hpost. destruct c; try done; cbn [call_post] in *.
  - destruct Hpost; (split; [done|]); [apply (mkdirs_ok p (join l g))|by apply (mkdirs_error p (join l g))].
  - by destruct Hpost as [? ->].
  - by destruct Hpost as [-> ->].
  - by rewrite Hpost.
  - destruct Hpost as [r n e' Hev Hty]. split; [done|]. by apply (rpc_any c (join l g) r n e').
Qed.

(** ** Turns before the commit *)

(** A turn on other files: only what is owned changes, and on any base the same
    call could have been made with the same reply. *)
Definition private_step (c : call) (l : locals) (f : fs) (r : reply c) (s' : state) (o o' : own) : Prop :=
  owned (s_fs s') o' /\ touches o f o' (s_fs s') /\ same_files f (s_fs s') /\
  forall g, base o' g -> base o g /\
    call_post c (join l (priv g o)) r (join (locals_of s') (priv g o')).

(** The turn that commits: it could have been made alone on the present files. *)
Definition commit_step (c : call) (l : locals) (f : fs) (r : reply c) (s' : state) (o o' : own) : Prop :=
  o_inode o' = None /\ owned (s_fs s') o' /\ touches o f o' (s_fs s') /\
  priv (base_of f o) o = set_fds ∅ f /\
  call_post c (join l (set_fds ∅ f)) r (join (locals_of s') (set_fds (o_fds o') (s_fs s'))).

Lemma same_files_refl f : same_files f f.
Proof. done. Qed.

Lemma create_turn t l f r s' :
  temp_shaped root t -> fs_wf f ->
  call_post (Open t [O_WRONLY; O_CREAT; O_EXCL; O_CLOEXEC]) (join l f) r s' ->
  (exists i, 0 <= r /\ private_step (Open t [O_WRONLY; O_CREAT; O_EXCL; O_CLOEXEC]) l f r s' ONone (OFile t i [] false true (Some r))) \/
  (r < 0 /\ commit_step (Open t [O_WRONLY; O_CREAT; O_EXCL; O_CLOEXEC]) l f r s' ONone ONone).
Proof.
  intros Ht Hwf Hpost. cbn [call_post] in Hpost.
  destruct Hpost as [r i e Hx|r i e _ Hn Hfit Hi Hr Hfd|r e Hd|Hn Hq|Hx Htk|e H1 H2 Hq]; cbn [join s_fs] in *; try done.
  - left. exists i. split; [done|].
    assert (Hnot : forall q, f_names f !! q = Some i -> False).
    { intros q Hq. destruct (wf_names _ Hwf _ _ Hq). congruence. }
    split_and!; cbn [s_fs ret_st].
    + split_and!; cbn; [done|by apply lookup_insert_eq|intros _; by apply lookup_insert_eq| |].
      * intros q [[-> _]|[_ Hq]]%lookup_insert_Some; [done|by apply Hnot in Hq].
      * intros r' [= <-]. apply lookup_insert_eq.
    + split; cbn.
      * intros q. destruct (decide (t = q)) as [->|]; [auto|left; by apply lookup_insert_ne].
      * intros q j [[-> <-]|[_ Hq]]%lookup_insert_Some; auto.
      * intros j nd Hj. right. rewrite lookup_insert_ne; [done|]. congruence.
      * intros r' obj Hj. right. rewrite lookup_insert_ne; [done|]. congruence.
      * intros ? [= <-]. auto.
      * intros ? [= <-]. auto.
      * intros ? [= <-]. auto.
      * done.
    + intros id. apply (lookup_left f t i (mkInode [] false) true); [done..|].
      intros E. by eapply temp_not_chunk.
    + intros g (Hok & Hg & Hnt & Hni). split; [done|].
      unfold priv. cbn [o_fds]. rewrite <- (insert_empty r), <- Hg.
      apply (open_create t [O_WRONLY; O_CREAT; O_EXCL; O_CLOEXEC] (join l g) r i e); try done. cbn. by rewrite Hg.
  - right. split; [done|]. split_and!; [done..|apply touches_refl|done|].
    by apply (open_missing t _ (join l (set_fds ∅ f))).
  - right. split; [done|]. split_and!; [done..|apply touches_refl|done|].
    by apply (open_taken t _ (join l (set_fds ∅ f))).
  - right. split; [done|]. split_and!; [done..|apply touches_refl|done|].
    by apply (open_error t _ (join l (set_fds ∅ f))).
Qed.

(** An owned inode is not the file of a chunk. *)
Lemma owned_hidden f t i d b named fd id :
  owned f (OFile t i d b named fd) -> f_names f !! PathFor root id <> Some i.
Proof. intros (Ht & _ & _ & Hu & _) Hn. apply Hu in Hn as [_ E]. by apply (temp_not_chunk t id Ht). Qed.

Section Writing.
Context (t : string) (i : positive) (d : list byte) (b named : bool) (fd : Z).
Abbreviation o := (OFile t i d b named (Some fd)).

(** The own file with other content and offset. *)
Definition refill (f : fs) (d' : list byte) (b' : bool) : fs :=
  mkFs (f_names f) (f_stable f) (<[i := mkInode d' b']> (f_inodes f))
    (<[fd := FdFile i (length d') true]> (f_fds f)).

Lemma refill_step f d' b' :
  owned f o -> let o' := OFile t i d' b' named (Some fd) in
  owned (refill f d' b') o' /\ touches o f o' (refill f d' b') /\ same_files f (refill f d' b').
Proof.
  intros Ho o'. pose proof Ho as (Ht & Hi & Hn & Hu & Hfd). split; [|split]; [cbn; split_and!|..].
  - done.
  - apply lookup_insert_eq.
  - done.
  - done.
  - intros ? [= <-]. apply lookup_insert_eq.
  - split; cbn; auto.
    + intros j nd Hj. destruct (decide (i = j)) as [->|]; [by left|right; by rewrite lookup_insert_ne].
    + intros r obj Hr. destruct (decide (fd = r)) as [->|]; [by left|right; by rewrite lookup_insert_ne].
  - intros id. unfold lookup_file. cbn. destruct (f_names f !! PathFor root id) as [j|] eqn:Hj; [|done].
    cbn. rewrite lookup_insert_ne; [done|]. intros <-. by eapply owned_hidden.
Qed.

Lemma priv_refill g d' b' : refill (priv g o) d' b' = priv g (OFile t i d' b' named (Some fd)).
Proof. unfold refill. cbn. by rewrite insert_insert_eq, insert_singleton_eq. Qed.

Lemma priv_fd g : f_fds (priv g o) !! fd = Some (FdFile i (length d) true).
Proof. apply lookup_singleton_eq. Qed.
Lemma priv_inode g : f_inodes (priv g o) !! i = Some (mkInode d b).
Proof. apply lookup_insert_eq. Qed.

Lemma base_refill g d' b' : base (OFile t i d' b' named (Some fd)) g -> base o g.
Proof. done. Qed.

Lemma not_bad_fd l f : owned f o -> ~ bad_fd (join l f) fd true.
Proof. intros (_ & Hi & _ & _ & Hfd) Hb. unfold bad_fd in Hb. cbn in *. specialize (Hb i (length d) (Hfd fd eq_refl)). congruence. Qed.

Lemma write_turn x l f r s' :
  owned f o -> call_post (Write fd x) (join l f) r s' ->
  exists d' b', private_step (Write fd x) l f r s' o (OFile t i d' b' named (Some fd)).
Proof.
  intros Ho Hpost. pose proof Ho as (_ & Hi & _ & _ & Hfd). specialize (Hfd fd eq_refl).
  cbn [call_post] in Hpost. destruct Hpost as [j pos nd k e Hj Hnd Hk Hq Hmax|n En|e He Hq]; cbn [join s_fs] in *.
  - rewrite Hfd in Hj. injection Hj as <- <-. rewrite Hi in Hnd. injection Hnd as <-.
    cbn [i_data] in *. rewrite splice_end by done.
    assert (Hlen : (length d + k)%nat = length (d ++ take k x)) by (rewrite length_app, length_take; lia).
    exists (d ++ take k x), false. cbn [s_fs ret_st].
    destruct (refill_step f (d ++ take k x) false Ho) as (H1 & H2 & H3).
    unfold private_step. cbn [s_fs ret_st]. rewrite Hlen.
    split_and!; [done..|]. intros g Hg. split; [by eapply base_refill|].
    rewrite <- (priv_refill g (d ++ take k x) false).
    pose proof (write_some fd x (join l (priv g o)) i (length d) (mkInode d b) k e) as Hw. cbn [i_data] in Hw.
    rewrite splice_end, Hlen in Hw by done. apply Hw; try done; [apply priv_fd|apply priv_inode|by rewrite <- Hlen].
  - exists d, b. split_and!; [done|apply touches_refl|done|]. intros g Hg. split; [done|].
    by apply (write_intr fd x (join l (priv g o)) n).
  - exists d, b. split_and!; [done|apply touches_refl|done|]. intros g Hg. split; [done|].
    apply (write_error fd x (join l (priv g o)) e He). intros Hqt.
    destruct (Hq Hqt) as [Hb|(j & pos & Hj & Hmax)]; [by apply (not_bad_fd l f) in Hb|right].
    rewrite Hfd in Hj. injection Hj as <- <-. exists i, (length d). split; [apply priv_fd|done].
Qed.

Lemma sync_turn l f r s' :
  owned f o -> call_post (Fdatasync fd) (join l f) r s' ->
  exists b', private_step (Fdatasync fd) l f r s' o (OFile t i d b' named (Some fd)).
Proof.
  intros Ho Hpost. pose proof Ho as (_ & Hi & _ & _ & Hfd). specialize (Hfd fd eq_refl).
  cbn [call_post] in Hpost. destruct Hpost as [j pos w nd e Hj Hnd|p m e Hj Hm|e Hq]; cbn [join s_fs] in *.
  - rewrite Hfd in Hj. injection Hj as <- <- <-. rewrite Hi in Hnd. injection Hnd as <-.
    cbn [i_data] in *. exists true.
    destruct (refill_step f d true Ho) as (H1 & H2 & H3).
    assert (E : forall h, f_fds h !! fd = Some (FdFile i (length d) true) ->
      sync_inode i (mkInode d b) h = refill h d true).
    { intros h Hh. unfold sync_inode, refill, set_inodes. cbn. f_equal. by rewrite insert_id. }
    unfold private_step. cbn [s_fs ret_st]. rewrite E by done.
    split_and!; [done..|]. intros g Hg. split; [by eapply base_refill|].
    rewrite <- (priv_refill g d true), <- (E (priv g o)) by apply priv_fd.
    apply (sync_file fd (join l (priv g o)) i (length d) true (mkInode d b) e); [apply priv_fd|apply priv_inode].
  - congruence.
  - exists b. split_and!; [done|apply touches_refl|done|]. intros g Hg. split; [done|].
    apply (sync_error fd (join l (priv g o)) e). intros Hqt. destruct (Hq Hqt) as [Hb _].
    by apply (not_bad_fd l f) in Hb.
Qed.

Lemma close_turn l f r s' :
  owned f o -> call_post (Close fd) (join l f) r s' ->
  private_step (Close fd) l f r s' o (OFile t i d b named None).
Proof.
  intros Ho Hpost. pose proof Ho as (Ht & Hi & Hn & Hu & _). cbn [call_post] in Hpost.
  destruct Hpost as [r e]; cbn [join s_fs] in *. unfold private_step; cbn [s_fs ret_st]. split_and!.
  - cbn. by split_and!.
  - split; cbn; auto.
    + intros r' obj Hr. destruct (decide (fd = r')) as [->|]; [by left|right; by rewrite lookup_delete_ne].
    + done.
  - done.
  - intros g Hg. split; [done|].
    replace (priv g (OFile t i d b named None)) with (set_fds (delete fd (f_fds (priv g o))) (priv g o)).
    + apply (close_done fd (join l (priv g o)) r e).
    + unfold set_fds. cbn. by rewrite delete_singleton_eq.
Qed.

End Writing.

Lemma scrap_turn t i d b fd l f r s' :
  owned f (OFile t i d b true (Some fd)) -> call_post (Unlink t) (join l f) r s' ->
  exists named, private_step (Unlink t) l f r s' (OFile t i d b true (Some fd)) (OFile t i d b named (Some fd)).
Proof.
  intros Ho Hpost. pose proof Ho as (Ht & Hi & Hn & Hu & Hfd). specialize (Hn eq_refl).
  cbn [call_post] in Hpost. destruct Hpost as [e Hs|Hm|e He Hq]; cbn [join s_fs] in *.
  - exists false. unfold private_step. cbn [s_fs ret_st]. split_and!.
    + cbn. split_and!; try done. intros q [Hne Hq]%lookup_delete_Some. by apply Hu in Hq as [_ ->].
    + split; cbn; auto.
      * intros q. destruct (decide (t = q)) as [->|]; [auto|left; by apply lookup_delete_ne].
      * intros q j [_ Hq]%lookup_delete_Some. by left.
      * done.
    + intros id. unfold lookup_file. cbn. rewrite lookup_delete_ne; [done|by apply temp_not_chunk].
    + intros g Hg. split; [done|]. destruct Hg as (_ & _ & Hnt & _).
      replace (priv g (OFile t i d b false (Some fd)))
        with (set_names (delete t (f_names (priv g (OFile t i d b true (Some fd))))) (priv g (OFile t i d b true (Some fd)))).
      * apply (unlink_some t (join l (priv g (OFile t i d b true (Some fd)))) e). cbn. rewrite lookup_insert_eq. by eexists.
      * unfold set_names. cbn. by rewrite delete_insert_id.
  - congruence.
  - exists true. split_and!; [done|apply touches_refl|done|]. intros g Hg. split; [done|].
    by apply (unlink_error t (join l (priv g (OFile t i d b true (Some fd)))) e).
Qed.

(** ** The turns that commit *)

(** An operation without an open file sees the present files as they are. *)
Lemma priv_base_closed f t i d b :
  owned f (OFile t i d b true None) ->
  priv (base_of f (OFile t i d b true None)) (OFile t i d b true None) = set_fds ∅ f.
Proof.
  intros (_ & Hi & Hn & _ & _). unfold priv, base_of, set_fds. cbn. specialize (Hn eq_refl).
  by rewrite !insert_delete_eq, !insert_id.
Qed.

Lemma link_turn t i d b id l f r s' :
  owned f (OFile t i d b true None) -> call_post (Link t (PathFor root id)) (join l f) r s' ->
  commit_step (Link t (PathFor root id)) l f r s' (OFile t i d b true None) (OName t i).
Proof.
  intros Ho Hpost. pose proof Ho as (Ht & Hi & Hn & Hu & _). specialize (Hn eq_refl).
  assert (Htc : touches (OFile t i d b true None) f (OName t i) f) by (split; cbn; auto; done).
  cbn [call_post] in Hpost. destruct Hpost as [j e Ha Hb|Hb|e He Hq]; cbn [join s_fs] in *.
  - rewrite Hn in Ha. injection Ha as <-. unfold commit_step. cbn [s_fs ret_st]. split_and!.
    + done.
    + cbn. split; [done|]. rewrite lookup_insert_ne; [done|]. intros E. by eapply (temp_not_chunk t).
    + split; cbn; auto; try done.
      * intros q. destruct (decide (PathFor root id = q)) as [<-|]; [eauto|left; by apply lookup_insert_ne].
      * intros q j [[_ <-]|[_ ?]]%lookup_insert_Some; auto.
    + by apply priv_base_closed.
    + by apply (link_new t (PathFor root id) (join l (set_fds ∅ f)) i e).
  - split_and!; [done..|by apply priv_base_closed|]. by apply (link_taken t (PathFor root id) (join l (set_fds ∅ f))).
  - split_and!; [done..|by apply priv_base_closed|]. by apply (link_error t (PathFor root id) (join l (set_fds ∅ f)) e).
Qed.

Lemma read_turn id l f r s' :
  fs_wf f -> call_post (Open (PathFor root id) [O_RDONLY; O_CLOEXEC; O_NOFOLLOW]) (join l f) r s' ->
  (exists i, 0 <= r /\ commit_step (Open (PathFor root id) [O_RDONLY; O_CLOEXEC; O_NOFOLLOW]) l f r s' ONone (OFd r (FdFile i 0 false))) \/
  (r < 0 /\ commit_step (Open (PathFor root id) [O_RDONLY; O_CLOEXEC; O_NOFOLLOW]) l f r s' ONone ONone).
Proof.
  intros Hwf Hpost. cbn [call_post] in Hpost.
  destruct Hpost as [r i e Hx Hd Hn Hr Hfd|r i e Hc|r e Hd|Hn Hq|Hx Htk|e H1 H2 Hq]; cbn [join s_fs] in *; try done.
  - left. exists i. split; [done|]. unfold commit_step. cbn [s_fs ret_st]. split_and!.
    + done.
    + split; cbn; [apply lookup_insert_eq|by eapply wf_names].
    + split; cbn; eauto; try done.
      * intros r' obj Hj. right. rewrite lookup_insert_ne; [done|]. congruence.
      * intros ? [= <-]. auto.
      * intros ? [= <-]. eauto.
    + done.
    + cbn [o_fds]. rewrite <- (insert_empty (M:=gmap Z) r).
      pose proof (open_existing (PathFor root id) [O_RDONLY; O_CLOEXEC; O_NOFOLLOW] (join l (set_fds ∅ f)) r i e) as Hex.
      unfold set_fds in *. cbn [f_names f_stable f_inodes f_fds s_fs join] in *. by apply Hex.
  - right. split; [done|]. split_and!; [done..|apply touches_refl|done|].
    by apply (open_missing (PathFor root id) [O_RDONLY; O_CLOEXEC; O_NOFOLLOW] (join l (set_fds ∅ f))).
  - right. split; [done|]. split_and!; [done..|apply touches_refl|done|].
    by apply (open_error (PathFor root id) [O_RDONLY; O_CLOEXEC; O_NOFOLLOW] (join l (set_fds ∅ f))).
Qed.

Lemma delete_turn id l f r s' :
  call_post (Unlink (PathFor root id)) (join l f) r s' ->
  commit_step (Unlink (PathFor root id)) l f r s' ONone ONone.
Proof.
  intros Hpost. cbn [call_post] in Hpost. destruct Hpost as [e Hs|Hm|e He Hq]; cbn [join s_fs] in *.
  - unfold commit_step. cbn [s_fs ret_st]. split_and!; [done|done| |done|].
    + split; cbn; eauto; try done.
      * intros q. destruct (decide (PathFor root id = q)) as [<-|]; [eauto|left; by apply lookup_delete_ne].
      * intros q j [_ ?]%lookup_delete_Some. auto.
    + by apply (unlink_some (PathFor root id) (join l (set_fds ∅ f)) e).
  - split_and!; [done..|apply touches_refl|done|]. by apply (unlink_missing (PathFor root id) (join l (set_fds ∅ f))).
  - split_and!; [done..|apply touches_refl|done|]. by apply (unlink_error (PathFor root id) (join l (set_fds ∅ f)) e).
Qed.

(** Every turn before the commit is a turn on other files or the commit. *)
Lemma private_turn ph o c next l f r s' :
  holds ph o -> private ph -> owned f o -> fs_wf f -> turn root ph c next -> call_post c (join l f) r s' ->
  exists o', holds (next r) o' /\
    (private (next r) /\ private_step c l f r s' o o' \/
     ~ private (next r) /\ commit_step c l f r s' o o').
Proof.
  intros Hh Hp Ho Hwf Ht Hpost.
  destruct Ht as [ph c Hc|t Ht|t fd d|t fd|t fd|t fd|fd|t id|t| |fd|fd|id|fd n off|fd|fd|id]; cbn in Hp; try done.
  - exists o. split; [done|left]. split; [done|].
    destruct (idle_transfer _ _ _ f _ _ Hc Hpost) as [E _]. unfold private_step. rewrite E.
    split_and!; [done|apply touches_refl|done|]. intros g Hg. split; [done|].
    by apply (idle_transfer _ _ _ (priv g o) _ _ Hc Hpost).
  - inversion Hh; subst. unfold opened.
    destruct (create_turn t l f r s' Ht Hwf Hpost) as [(i & Hr & Hs)|[Hr Hs]].
    + rewrite bool_decide_true by done. eexists. split; [constructor|by left].
    + rewrite bool_decide_false by lia. eexists. split; [constructor|right; by split; [intros []|]].
  - inversion Hh; subst. destruct (write_turn _ _ _ _ _ _ _ _ _ _ _ Ho Hpost) as (d' & b' & Hs).
    eexists. split; [constructor|by left].
  - inversion Hh; subst. destruct (sync_turn _ _ _ _ _ _ _ _ _ _ Ho Hpost) as (b' & Hs).
    eexists. split; [constructor|by left].
  - inversion Hh; subst. pose proof (close_turn _ _ _ _ _ _ _ _ _ _ Ho Hpost) as Hs.
    eexists. split; [constructor|by left].
  - inversion Hh; subst. destruct (scrap_turn _ _ _ _ _ _ _ _ _ Ho Hpost) as (named & Hs).
    eexists. split; [constructor|by left].
  - inversion Hh; subst. pose proof (close_turn _ _ _ _ _ _ _ _ _ _ Ho Hpost) as Hs.
    eexists. split; [constructor|by left].
  - inversion Hh; subst. pose proof (link_turn _ _ _ _ _ _ _ _ _ Ho Hpost) as Hs.
    eexists. split; [constructor|right; by split; [intros []|]].
  - inversion Hh; subst. unfold opened.
    destruct (read_turn id l f r s' Hwf Hpost) as [(i & Hr & Hs)|[Hr Hs]].
    + rewrite bool_decide_true by done. eexists. split; [constructor|right; by split; [intros []|]].
    + rewrite bool_decide_false by lia. eexists. split; [constructor|right; by split; [intros []|]].
  - inversion Hh; subst. pose proof (delete_turn _ _ _ _ _ Hpost) as Hs.
    eexists. split; [constructor|right; by split; [intros []|]].
Qed.

(** ** Turns after the commit *)

(** A turn of an operation whose commit is behind it: the shared files of chunks
    stay as they are, and the operation could have made it alone. *)
Definition public_step (c : call) (l : locals) (f v : fs) (r : reply c) (s' : state) (o o' : own) (v' : fs) : Prop :=
  o_inode o' = None /\ owned (s_fs s') o' /\ touches o f o' (s_fs s') /\ same_files f (s_fs s') /\
  alone o' v' /\ agrees o' v' (s_fs s') /\ same_files v v' /\
  call_post c (join l v) r (join (locals_of s') v').

Lemma agrees_self o v : agrees o v v.
Proof. split; [done|]. destruct o as [| | |fd [|]]; done. Qed.

Lemma finish_turn t i l f v r s' :
  owned f (OName t i) -> alone (OName t i) v -> agrees (OName t i) v f ->
  call_post (Unlink t) (join l f) r s' ->
  exists v', public_step (Unlink t) l f v r s' (OName t i) ONone v'.
Proof.
  intros [Ht Hn] ((_ & Hvn) & Hv & _) (Hroot & Hag) Hpost. cbn [call_post] in Hpost.
  destruct Hpost as [e Hs|Hm|e He Hq]; cbn [join s_fs] in *.
  - exists (set_names (delete t (f_names v)) v). unfold public_step. cbn [s_fs ret_st].
    assert (Hsame : forall h, same_files h (set_names (delete t (f_names h)) h)).
    { intros h id. unfold lookup_file. cbn. rewrite lookup_delete_ne; [done|by apply temp_not_chunk]. }
    split_and!; try done.
    + split; cbn; auto; try done.
      * intros q. destruct (decide (t = q)) as [->|]; [auto|left; by apply lookup_delete_ne].
      * intros q j [_ ?]%lookup_delete_Some. auto.
    + split; [|done]. cbn. by rewrite !lookup_delete_ne by (by apply temp_not_root).
    + apply (unlink_some t (join l v) e). cbn. rewrite Hvn. by eexists.
  - congruence.
  - exists v. unfold public_step. cbn [s_fs ret_st]. split_and!; try done.
    + split; cbn; auto; done.
    + by apply (unlink_error t (join l v) e).
Qed.

Lemma dir_turn l f v r s' :
  alone ONone v -> agrees ONone v f ->
  call_post (Open root [O_RDONLY; O_DIRECTORY; O_CLOEXEC]) (join l f) r s' ->
  exists o' v', holds (opened r (PDir r)) o' /\
    public_step (Open root [O_RDONLY; O_DIRECTORY; O_CLOEXEC]) l f v r s' ONone o' v'.
Proof.
  intros (_ & Hv & _) (Hroot & _) Hpost. cbn [call_post] in Hpost.
  destruct Hpost as [r i e Hx Hd Hn Hr Hfd|r i e Hc|r e Hd Hr Hfd|Hn Hq|Hx Htk|e H1 H2 Hq]; cbn [join s_fs] in *; try done.
  - exists (OFd r (FdDir root)), (set_fds {[r := FdDir root]} v).
    unfold opened. rewrite bool_decide_true by done. split; [constructor|].
    unfold public_step. cbn [s_fs ret_st]. split_and!; try done.
    + cbn. by rewrite lookup_insert_eq.
    + split; cbn; auto; try done.
      * intros r' obj Hj. right. rewrite lookup_insert_ne; [done|]. congruence.
      * intros ? [= <-]. auto.
    + split_and!; [split; [apply lookup_singleton_eq|done]|done..].
    + pose proof (open_directory root [O_RDONLY; O_DIRECTORY; O_CLOEXEC] (join l v) r e) as Hex.
      unfold set_fds in *. cbn [f_names f_stable f_inodes f_fds s_fs join] in *. cbn [o_fds] in Hv. rewrite Hv, insert_empty in Hex.
      by apply Hex.
  - exists ONone, v. split; [constructor|]. split_and!; try done; [apply touches_refl|].
    apply (open_missing root [O_RDONLY; O_DIRECTORY; O_CLOEXEC] (join l v)); [cbn; congruence|done].
  - exists ONone, v. split; [constructor|]. split_and!; try done; [apply touches_refl|].
    by apply (open_error root [O_RDONLY; O_DIRECTORY; O_CLOEXEC] (join l v)).
Qed.

Lemma close_public fd obj l f v r s' :
  owned f (OFd fd obj) -> alone (OFd fd obj) v -> agrees (OFd fd obj) v f ->
  call_post (Close fd) (join l f) r s' ->
  exists v', public_step (Close fd) l f v r s' (OFd fd obj) ONone v'.
Proof.
  intros Ho (_ & Hv & _) (Hroot & _) Hpost. cbn [call_post o_fds] in *. destruct Hpost as [r e]; cbn [join s_fs].
  exists (set_fds ∅ v). unfold public_step. cbn [s_fs ret_st]. split_and!; try done.
  - split; cbn; auto; try done. intros r' obj' Hr.
    destruct (decide (fd = r')) as [->|]; [by left|right; by rewrite lookup_delete_ne].
  - pose proof (close_done fd (join l v) r e) as Hc. cbn [s_fs join] in Hc. by rewrite Hv, delete_singleton_eq in Hc.
Qed.

Lemma fsync_turn fd p l f v r s' :
  owned f (OFd fd (FdDir p)) -> alone (OFd fd (FdDir p)) v -> agrees (OFd fd (FdDir p)) v f ->
  call_post (Fsync fd) (join l f) r s' ->
  exists v', public_step (Fsync fd) l f v r s' (OFd fd (FdDir p)) (OFd fd (FdDir p)) v'.
Proof.
  intros [Hfd _] ((Hvf & _) & Hv & _) (Hroot & _) Hpost. cbn [call_post] in Hpost.
  destruct Hpost as [j pos w nd e Hj|q m e Hj Hm|e Hq]; cbn [join s_fs] in *.
  - congruence.
  - exists (set_stable (f_names v) v). unfold public_step. cbn [s_fs ret_st]. split_and!; try done.
    + split; cbn; auto.
    + by apply (sync_directory fd (join l v) p (f_names v) e).
  - exists v. unfold public_step. cbn [s_fs ret_st]. split_and!; try done; [apply touches_refl|].
    apply (sync_error fd (join l v) e). intros Hqt. destruct (Hq Hqt) as (_ & _ & Hn). by destruct (Hn p).
Qed.

Section Reading.
Context (fd : Z) (i : positive).
Abbreviation o := (OFd fd (FdFile i 0 false)).

(** The file read is the same in both views. *)
Lemma reader_inode f v :
  owned f o -> alone o v -> agrees o v f ->
  exists nd nd', f_inodes f !! i = Some nd /\ f_inodes v !! i = Some nd' /\ i_data nd' = i_data nd /\
    f_fds f !! fd = Some (FdFile i 0 false) /\ f_fds v !! fd = Some (FdFile i 0 false).
Proof.
  intros [Hfd [nd Hi]] ((Hvf & [nd' Hvi]) & _) (_ & Hag). exists nd, nd'. split_and!; try done.
  rewrite Hi, Hvi in Hag. by injection Hag.
Qed.

Lemma not_bad_reader l f : owned f o -> ~ bad_fd (join l f) fd false.
Proof. intros [Hfd [nd Hi]] Hb. specialize (Hb i 0%nat Hfd). cbn in Hb. congruence. Qed.

Lemma reader_stays c l f v r s' e :
  s' = ret_st (join l f) e f -> owned f o -> alone o v -> agrees o v f ->
  call_post c (join l v) r (ret_st (join l v) e v) -> exists v', public_step c l f v r s' o o v'.
Proof.
  intros -> Ho Ha Hg Hpost. exists v. unfold public_step. cbn [s_fs ret_st].
  split_and!; try done. apply touches_refl.
Qed.

Lemma pread_turn n off l f v r s' :
  owned f o -> alone o v -> agrees o v f -> call_post (Pread fd n off) (join l f) r s' ->
  exists v', public_step (Pread fd n off) l f v r s' o o v'.
Proof.
  intros Ho Ha Hg Hpost. destruct (reader_inode f v Ho Ha Hg) as (nd & nd' & Hi & Hvi & Hd & Hfd & Hvf).
  cbn [call_post] in Hpost. destruct Hpost as [j pos nd2 k e Hj Hnd Hoff Hk|m Em|e He Hq]; cbn [join s_fs] in *.
  - rewrite Hfd in Hj. injection Hj as <- <-. rewrite Hi in Hnd. injection Hnd as <-.
    eapply reader_stays; [reflexivity|done..|]. rewrite <- Hd in *.
    by apply (pread_some fd n off (join l v) i 0 nd' k e).
  - exists v. unfold public_step. cbn [s_fs intr_st]. split_and!; try done; [apply touches_refl|].
    by apply (pread_intr fd n off (join l v) m).
  - eapply reader_stays; [reflexivity|done..|]. apply (pread_error fd n off (join l v) e He).
    intros Hqt. destruct (Hq Hqt) as [Hb|?]; [by apply not_bad_reader in Hb|by right].
Qed.

Lemma fstat_turn l f v r s' :
  owned f o -> alone o v -> agrees o v f -> call_post (Fstat fd) (join l f) r s' ->
  exists v', public_step (Fstat fd) l f v r s' o o v'.
Proof.
  intros Ho Ha Hg Hpost. destruct (reader_inode f v Ho Ha Hg) as (nd & nd' & Hi & Hvi & Hd & Hfd & Hvf).
  cbn [call_post] in Hpost. destruct Hpost as [j pos w nd2 e Hj Hnd|e Hq]; cbn [join s_fs] in *.
  - rewrite Hfd in Hj. injection Hj as <- <- <-. rewrite Hi in Hnd. injection Hnd as <-.
    eapply reader_stays; [reflexivity|done..|]. rewrite <- Hd. by apply (fstat_some fd (join l v) i 0 false nd' e).
  - eapply reader_stays; [reflexivity|done..|]. apply (fstat_error fd (join l v) e).
    intros Hqt. destruct (Hq Hqt) as [_ Hb]. by apply not_bad_reader in Hb.
Qed.

End Reading.

(** Every turn after the commit. *)
Lemma public_turn ph o c next l f v r s' :
  holds ph o -> ~ private ph -> owned f o -> alone o v -> agrees o v f ->
  turn root ph c next -> call_post c (join l f) r s' ->
  exists o' v', holds (next r) o' /\ ~ private (next r) /\ public_step c l f v r s' o o' v'.
Proof.
  intros Hh Hp Ho Ha Hg Ht Hpost.
  destruct Ht as [ph c Hc|t Ht|t fd d|t fd|t fd|t fd|fd|t id|t| |fd|fd|id|fd n off|fd|fd|id];
    try (by destruct Hp).
  - destruct (idle_transfer _ _ _ f _ _ Hc Hpost) as [E _]. exists o, v. split_and!; [done..|].
    unfold public_step. rewrite E. split_and!; try done; [by apply Ha|apply touches_refl|].
    by apply (idle_transfer _ _ _ v _ _ Hc Hpost).
  - inversion Hh; subst. destruct (finish_turn _ _ _ _ _ _ _ Ho Ha Hg Hpost) as (v' & Hs).
    exists ONone, v'. split_and!; [constructor|intros []|done].
  - inversion Hh; subst. destruct (dir_turn _ _ _ _ _ Ha Hg Hpost) as (o' & v' & Hh' & Hs).
    exists o', v'. split_and!; [done| |done]. unfold opened. case_bool_decide; intros [].
  - inversion Hh; subst. destruct (fsync_turn _ _ _ _ _ _ _ Ho Ha Hg Hpost) as (v' & Hs).
    eexists _, v'. split_and!; [constructor|intros []|done].
  - inversion Hh; subst. destruct (close_public _ _ _ _ _ _ _ Ho Ha Hg Hpost) as (v' & Hs).
    exists ONone, v'. split_and!; [constructor|intros []|done].
  - inversion Hh; subst. destruct (pread_turn _ _ _ _ _ _ _ _ _ Ho Ha Hg Hpost) as (v' & Hs).
    eexists _, v'. split_and!; [constructor|intros []|done].
  - inversion Hh; subst. destruct (fstat_turn _ _ _ _ _ _ _ Ho Ha Hg Hpost) as (v' & Hs).
    eexists _, v'. split_and!; [constructor|intros []|done].
  - inversion Hh; subst. destruct (close_public _ _ _ _ _ _ _ Ho Ha Hg Hpost) as (v' & Hs).
    exists ONone, v'. split_and!; [constructor|intros []|done].
Qed.

End Calls.
End Interference.
