(* ===== verification/Names.v ===== *)
(** * The temporary names an operation may create: those of its own Put. *)
From S2P Require Import Prelude Status Types Path Proto System Prog UniqueFd Blake3 FileIO Files.
From S2P Require Import ChunkFormat Streams ChunkStore FileStore StorePaths StoreSpec Concurrent Protocol Interference.

(** ** Definitions *)

(** The temporary names of a Put from the stream at [addr], for whatever chunk. *)
Definition temps_of (root : string) (addr : Z) (t : string) : Prop :=
  exists id pid, t = temp_path_for root id pid addr.

(** The names of an operation that reads from the stream at the given address, or
    from none. *)
Definition temps_for (root : string) (stream : option Z) (t : string) : Prop :=
  match stream with Some addr => temps_of root addr t | None => False end.

(** Streams that exist at the same time have different addresses. *)
Definition distinct_streams {X} (stream : X -> option Z) (l : list X) : Prop :=
  (forall n x a, l !! n = Some x -> stream x = Some a -> 0 <= a) /\
  (forall n k x y a, n <> k -> l !! n = Some x -> l !! k = Some y -> stream x = Some a -> stream y <> Some a).

(** The call creates no names but chunks and what [makes] allows. *)
Definition may_create (root : string) (makes : string -> Prop) (c : call) : Prop :=
  match c with
  | Open t flags => has O_CREAT flags = true -> makes t
  | Link _ b => exists id, b = PathFor root id
  | _ => True
  end.

Fixpoint creates {A} (root : string) (makes : string -> Prop) (p : prog A) : Prop :=
  match p with
  | Sys c k => may_create root makes c /\ forall r, creates root makes (k r)
  | _ => True
  end.

(** The same up to the first call that is not idle. *)
Fixpoint begins {A} (root : string) (makes : string -> Prop) (p : prog A) : Prop :=
  match p with
  | Sys c k => may_create root makes c /\ (idle c = true -> forall r, begins root makes (k r))
  | _ => True
  end.

(** ** Lemmas *)

(** Two Puts at the same time read from two streams. *)
Lemma temps_apart root a b t : 0 <= a -> 0 <= b -> temps_of root a t -> temps_of root b t -> a = b.
Proof.
  intros Ha Hb (id & pid & ->) (id' & pid' & E).
  apply (f_equal path_filename) in E. rewrite !temp_path_name, !path_filename_append in E by apply temp_name_plain.
  apply (f_equal chars) in E. rewrite !temp_name_chars in E. apply hex_suffix_inj in E as [_ E].
  apply app_inv_head in E. apply app_cons_inj in E as [_ E]; [|apply to_string_no_dot..].
  apply to_string_inj; [done..|]. by apply chars_inj.
Qed.

Lemma temps_of_shaped root addr t : temps_of root addr t -> temp_shaped root t.
Proof. intros (id & pid & ->). by eexists _, _, _. Qed.

Lemma temps_for_shaped root stream t : temps_for root stream t -> temp_shaped root t.
Proof. destruct stream as [addr|]; [apply temps_of_shaped|done]. Qed.

Lemma distinct_temps {X} root (stream : X -> option Z) l n k x y t :
  distinct_streams stream l -> n <> k -> l !! n = Some x -> l !! k = Some y ->
  temps_for root (stream x) t -> ~ temps_for root (stream y) t.
Proof.
  intros [Hpos Hne] Hnk Hx Hy Hxt Hyt. unfold temps_for in *.
  destruct (stream x) as [a|] eqn:Ex; [|done]. destruct (stream y) as [b|] eqn:Ey; [|done].
  apply (Hne n k x y a Hnk Hx Hy Ex). rewrite Ey. f_equal.
  eapply temps_apart; [by eapply (Hpos k)|by eapply (Hpos n)|exact Hyt|exact Hxt].
Qed.

(** A new temporary name is one of those. *)
Lemma created root makes c s r s' t :
  call_post c s r s' -> may_create root makes c -> temp_shaped root t ->
  f_names (s_fs s) !! t = None -> is_Some (f_names (s_fs s') !! t) -> makes t.
Proof.
  intros Hpost Hc Ht Hn Hs.
  assert (Hsame : f_names (s_fs s') = f_names (s_fs s) -> makes t) by (intros E; rewrite E, Hn in Hs; by destruct Hs).
  destruct c as [p flags|fd d|fd n|fd n off|fd|fd|fd|a b|p|fd|p|p| | |e|c]; cbn [call_post may_create] in *.
  - destruct Hpost as [r i e _ _ _|r i e Hcr _ _ _ _|r e _| | |]; try (apply Hsame; done).
    destruct (decide (p = t)) as [<-|Hne]; [by apply Hc|]. cbn in Hs. rewrite lookup_insert_ne, Hn in Hs by done.
    by destruct Hs.
  - destruct Hpost; apply Hsame; done.
  - destruct Hpost; apply Hsame; done.
  - destruct Hpost; apply Hsame; done.
  - destruct Hpost; apply Hsame; done.
  - destruct Hpost; apply Hsame; done.
  - destruct Hpost; apply Hsame; done.
  - destruct Hc as [id ->]. destruct Hpost; try (apply Hsame; done). cbn in Hs.
    rewrite lookup_insert_ne, Hn in Hs; [by destruct Hs|]. intros <-. by destruct (temp_not_chunk root _ id Ht).
  - destruct Hpost; try (apply Hsame; done). cbn in Hs. apply lookup_delete_is_Some in Hs as [_ Hs].
    rewrite Hn in Hs. by destruct Hs.
  - destruct Hpost; apply Hsame; done.
  - destruct Hpost; apply Hsame; done.
  - destruct Hpost; apply Hsame; done.
  - destruct Hpost as [_ ->]. by apply Hsame.
  - destruct Hpost as [_ ->]. by apply Hsame.
  - rewrite Hpost in Hs. apply Hsame. by rewrite Hpost.
  - destruct Hpost; apply Hsame; done.
Qed.

(** An operation creates its temporary file first, or none. *)
Lemma obeys_late {A} root makes ph (p : prog A) post : obeys root ph p post -> ph <> PStart -> creates root makes p.
Proof.
  revert ph. induction p as [a|m| |c k IH]; intros ph Hob Hph; try done.
  destruct Hob as (next & Ht & Hk).
  assert (Hnext : forall r, next r <> PStart).
  { destruct Ht; try done; intros r; unfold opened; by case_bool_decide. }
  split; [|intros r; by eapply IH]. destruct Ht as [ph c Hc| | | | | | |t id| | | | | | | | |]; try done.
  - by destruct c.
  - by exists id.
Qed.

Lemma turn_start root c next :
  turn root PStart c next -> idle c = true /\ (forall r, next r = PStart) \/ forall r, next r <> PStart.
Proof.
  intros Ht. remember PStart as ph eqn:E. destruct Ht; try done; subst.
  - by left.
  - right. intros r. unfold opened. by case_bool_decide.
  - right. intros r. unfold opened. by case_bool_decide.
  - by right.
Qed.

Lemma begins_creates {A} root makes (p : prog A) post :
  obeys root PStart p post -> begins root makes p -> creates root makes p.
Proof.
  induction p as [a|m| |c k IH]; try done. intros (next & Ht & Hk) [Hc Hb]. split; [done|]. intros r.
  destruct (turn_start _ _ _ Ht) as [[Hi Hn]|Hn]; [|by eapply obeys_late].
  apply IH; [|by apply Hb]. rewrite <- (Hn r). apply Hk.
Qed.

Lemma creates_bind {A B} root makes (p : prog A) (f : A -> prog B) :
  creates root makes p -> (forall a, creates root makes (f a)) -> creates root makes (p ≫= f).
Proof.
  intros Hp Hf. induction p as [a|m| |c k IH]; [apply Hf|done..|]. destruct Hp as [Hc Hk].
  split; [done|]. intros r. apply IH, Hk.
Qed.

Lemma begins_bind {A B} root makes (p : prog A) (f : A -> prog B) :
  begins root makes p -> (forall a, begins root makes (f a)) -> begins root makes (p ≫= f).
Proof.
  intros Hp Hf. induction p as [a|m| |c k IH]; [apply Hf|done..|]. destruct Hp as [Hc Hk].
  split; [done|]. intros Hi r. by apply IH, Hk.
Qed.

Lemma begins_idle {A} root makes c (k : reply c -> prog A) :
  idle c = true -> (forall r, begins root makes (k r)) -> begins root makes (perform c ≫= k).
Proof. intros Hc Hk. split; [by destruct c|]. intros _. exact Hk. Qed.

(** ** The operations of the store *)

Section Operations.
Context `{Libc} `{Blake3} (root : string) (fuel : nat).

Lemma read_begins {A} makes id (body : Z -> prog A) :
  begins root makes (raw ← perform (Open (PathFor root id) [O_RDONLY; O_CLOEXEC; O_NOFOLLOW]); body raw).
Proof. split; [|done]. intros Hcr. by vm_compute in Hcr. Qed.

Lemma Head_creates makes id : creates root makes (Head fuel root id).
Proof.
  eapply begins_creates; [apply Head_obeys|]. unfold Head.
  destruct (negb _); [done|]. apply read_begins.
Qed.

Lemma Delete_creates makes id : creates root makes (Delete root id).
Proof.
  eapply begins_creates; [apply Delete_obeys|]. unfold Delete. destruct (negb _); done.
Qed.

Lemma Put_begins {S} `{ChunkInputStream S} addr req (input : S) :
  begins root (temps_of root addr) (Put fuel root addr req input).
Proof.
  unfold Put. do 2 (destruct (negb _); [done|]). apply begins_idle; [done|]. intros [m|]; [done|].
  apply begins_idle; [done|]. intros pid. split; [|done]. intros _. by eexists _, _.
Qed.

Lemma Put_creates {S} `{IdleInput S} addr req (input : S) :
  creates root (temps_of root addr) (Put fuel root addr req input).
Proof. eapply begins_creates; [apply Put_obeys|apply Put_begins]. Qed.

End Operations.
