(* ===== verification/Interleaving.v ===== *)
(** * An operation among others: it keeps its place in a sequential run.

    A stage is a running operation with the commit it has made, if it has made
    it.  Before, the remaining program would do its work on any base; from the
    commit on, on the files as they were then.  Turns of the operation advance
    the stage, turns of others leave it as it is. *)
From S2P Require Import Prelude Status Types Path Proto System Prog UniqueFd Blake3 MemOS FileIO Files.
From S2P Require Import ChunkFormat Streams ChunkStore FileStore StorePaths StoreSpec Concurrent Protocol Interference.

(** ** Lemmas on the files *)

Section Files.
Context `{Blake3} (root : string).

Lemma same_files_chunks f f' : same_files root f f' -> same_map (chunks root f) (chunks root f').
Proof. apply chunks_ext. Qed.

Lemma same_files_ok f f' : same_files root f f' -> fs_wf f' -> store_ok root f -> store_ok root f'.
Proof. intros Hs Hwf. by apply store_ok_ext. Qed.

Lemma same_files_trans f1 f2 f3 : same_files root f1 f2 -> same_files root f2 f3 -> same_files root f1 f3.
Proof. intros H1 H2 id. by rewrite H2, H1. Qed.

(** Hiding descriptors does not matter for the chunks. *)
Lemma same_files_hide f m : same_files root f (set_fds m f).
Proof. done. Qed.

Lemma hide_ok f o : store_ok root f -> owned root f o -> o_inode o = None -> store_ok root (set_fds (o_fds o) f).
Proof.
  intros Hok Ho Hi. eapply same_files_ok; [apply same_files_hide| |exact Hok].
  pose proof (so_wf _ _ Hok) as [W1 W2 W3]. split; cbn; [done| |done].
  intros fd j pos w Hj. destruct o as [| | |r obj]; cbn in *; try done.
  apply lookup_singleton_Some in Hj as [_ ->]. apply Ho.
Qed.

Lemma base_of_ok f o :
  store_ok root f -> owned root f o -> (o = ONone \/ o_inode o <> None) ->
  base root o (base_of f o) /\ same_files root f (base_of f o).
Proof.
  intros Hok Ho Hcase. destruct o as [|t i d b named fd|t i|fd obj].
  - split; [|apply same_files_hide]. split_and!; [|done..]. by apply (hide_ok f ONone).
  - destruct Ho as (Ht & Hi & Hn & Hu & Hfd). cbn [base_of].
    assert (Hne : forall q j, delete t (f_names f) !! q = Some j -> f_names f !! q = Some j /\ j <> i).
    { intros q j [Hq Hj]%lookup_delete_Some. split; [done|]. intros ->. by apply Hu in Hj as [_ ->]. }
    assert (Hsame : same_files root f (mkFs (delete t (f_names f)) (f_stable f) (delete i (f_inodes f)) ∅)).
    { intros id. unfold lookup_file. cbn. rewrite lookup_delete_ne by (by apply temp_not_chunk).
      destruct (f_names f !! PathFor root id) as [j|] eqn:Hj; [|done]. cbn. rewrite lookup_delete_ne; [done|].
      intros <-. apply Hu in Hj as [_ E]. by apply (temp_not_chunk root t id Ht). }
    split; [|done]. split_and!; cbn; [|done|by rewrite lookup_delete_eq..].
    eapply same_files_ok; [exact Hsame| |exact Hok]. pose proof (so_wf _ _ Hok) as [W1 W2 W3]. split; cbn.
    + intros q j [Hj Hji]%Hne. rewrite lookup_delete_ne by done. by eapply W1.
    + intros r j pos w. by rewrite lookup_empty.
    + intros j nd [_ Hj]%lookup_delete_Some. by eapply W3.
  - by destruct Hcase.
  - by destruct Hcase.
Qed.

Lemma priv_same g o : base root o g -> (o = ONone \/ exists t, o_inode o <> None /\ temp_shaped root t /\
    match o with OFile t' _ _ _ _ _ => t' = t | _ => True end) -> same_files root g (priv g o).
Proof.
  intros Hb Hcase. destruct o as [|t i d b named fd| |]; try done.
  destruct Hcase as [?|(t' & _ & Ht & ->)]; [done|]. destruct Hb as (Hok & _ & Hnt & Hni).
  intros id. apply (lookup_left g t' i (mkInode d b) named); [by apply so_wf in Hok|done|].
  intros E. by eapply temp_not_chunk.
Qed.

(** Temporary names that are free, the own one aside, stay free. *)
Definition keeps_free (f : fs) (o : own) (f' : fs) (o' : own) : Prop :=
  forall q, temp_shaped root q -> f_names (base_of f o) !! q = None -> f_names (base_of f' o') !! q = None.

(** A private owner has a temporary name of its own, or nothing. *)
Lemma private_own ph o f :
  holds ph o -> private ph -> owned root f o ->
  (o = ONone \/ o_inode o <> None) /\
  (o = ONone \/ exists t, o_inode o <> None /\ temp_shaped root t /\
     match o with OFile t' _ _ _ _ _ => t' = t | _ => True end).
Proof.
  intros Hh Hp Ho. destruct Hh; cbn in Hp; try done; try (split; by left);
    (split; right; [done|]); destruct Ho as (Ht & _); by eexists.
Qed.

(** Before the commit an operation takes no temporary name but the one it owns. *)
Lemma keeps_free_turn ph ph' o f o' f' :
  holds ph o -> private ph -> holds ph' o' -> private ph' -> owned root f' o' -> store_ok root f' ->
  touches root o f o' f' -> (forall g, base root o' g -> base root o g) -> keeps_free f o f' o'.
Proof.
  intros Hh Hp Hh' Hp' Ho' Hok' Htc Hbase q Hq Hfree.
  destruct (private_own _ _ _ Hh' Hp' Ho') as [Hc _].
  destruct (base_of_ok f' o' Hok' Ho' Hc) as [Hb%Hbase _].
  assert (Hdel : f_names f' !! q = None -> f_names (base_of f' o') !! q = None).
  { intros Hn. destruct o' as [|t' i' d' b' n' fd'| |]; try done. cbn [base_of f_names].
    destruct (decide (t' = q)) as [->|]; [apply lookup_delete_eq|by rewrite lookup_delete_ne]. }
  destruct (decide (match o with OFile t _ _ _ _ _ => Some t | _ => None end = Some q)) as [Hown|Hown].
  { destruct o as [|t i d b n fd| |]; try done. injection Hown as ->. by destruct Hb as (_ & _ & Hb & _). }
  assert (Hf : f_names f !! q = None).
  { destruct o as [|t i d b n fd| |]; try done. cbn [base_of f_names] in Hfree.
    rewrite lookup_delete_ne in Hfree; [done|congruence]. }
  destruct (tc_names _ _ _ _ _ Htc q) as [E|[E|[[E _]|[id ->]]]].
  - apply Hdel. congruence.
  - destruct Hh as [|t i d b fd|t i d b|t i d b [] fd|t i d b []| | | |]; try done; cbn in E; by simplify_eq.
  - destruct Hh' as [|t i d b fd|t i d b|t i d b [] fd|t i d b []| | | |]; try done; cbn in E; simplify_eq; apply lookup_delete_eq.
  - by destruct (temp_not_chunk root _ id Hq).
Qed.

(** Some reply is always possible. *)
Lemma call_post_total c s : exists r s', call_post c s r s'.
Proof.
  pose proof (sys_ok (Posix:=MemPosix) c (mkMem s [] (fun c _ => no_peer c))) as Hs. cbn [view] in Hs. eauto.
Qed.

(** No call adds asynchronous events. *)
Lemma call_post_events c s r s' : call_post c s r s' -> (s_events s' <= s_events s)%nat.
Proof.
  intros Hpost. destruct c; cbn [call_post] in Hpost; try (destruct Hpost; cbn; lia).
  - by destruct Hpost as [_ ->].
  - by destruct Hpost as [_ ->].
  - by rewrite Hpost.
  - destruct Hpost as [r n e Hev Hty]. cbn. destruct c; cbn in Hev; try (subst; done). destruct r; lia.
Qed.

Lemma call_post_quiet c s r s' : call_post c s r s' -> s_quiet s' = s_quiet s.
Proof.
  intros Hpost. destruct c; cbn [call_post] in Hpost; try (by destruct Hpost).
  - by destruct Hpost as [_ ->].
  - by destruct Hpost as [_ ->].
  - by rewrite Hpost.
Qed.

End Files.

(** ** Stages *)

Section Stage.
Context `{Blake3} (root : string) {B : Type}.
Context (fin : phase -> Prop).
(** The files on which the operation does its work. *)
Context (fit : fs -> Prop).
(** What the result and the traffic have to say of the store before and after
    the commit. *)
Context (goal : store_map -> B -> list rpc_event -> store_map -> Prop).
Context (goal_proper : forall m1 m2 b tr m1' m2',
  same_map m1 m2 -> same_map m1' m2' -> goal m1 b tr m1' -> goal m2 b tr m2').

(** The result of the program on a base. *)
Definition verdict (g : fs) : outcome B -> state -> Prop :=
  returns (fun b s' => store_ok root (s_fs s') /\ goal (chunks root g) b (s_trace s') (chunks root (s_fs s'))).

Inductive stage (p : prog B) (l : locals) (f : fs) (o : own) : option (store_map * store_map) -> Prop :=
| stage_before ph :
    holds ph o -> private ph -> obeys root ph p (fun _ => fin) ->
    (forall g, base root o g -> fit g -> wp p (verdict g) (join l (priv g o))) ->
    stage p l f o None
| stage_after ph g v m m' :
    holds ph o -> ~ private ph -> obeys root ph p (fun _ => fin) ->
    alone root o v -> agrees root o v f -> wp p (verdict g) (join l v) ->
    same_map m (chunks root g) -> same_map (chunks root v) m' ->
    stage p l f o (Some (m, m')).

(** Left alone, a committed operation comes to an end that leaves the chunks as
    the commit has made them; so what the result promises holds now. *)
Lemma committed_verdict p ph o l v g :
  holds ph o -> ~ private ph -> obeys root ph p (fun _ => fin) -> alone root o v ->
  wp p (verdict g) (join l v) -> fs_wf v ->
  store_ok root v /\ exists b tr, goal (chunks root g) b tr (chunks root v).
Proof.
  revert ph o l v. induction p as [b|what| |c k IH]; intros ph o l v Hh Hp Hob Ha Hwp Hwf;
    pose proof (wp_returns_inv _ _ _ Hwp) as Hinv; cbn in Hinv; try done.
  - destruct Hinv as [? ?]. eauto.
  - destruct Hob as (next & Ht & Hk). destruct (call_post_total c (join l v)) as (r & s' & Hpost).
    destruct (public_turn root _ _ _ _ _ _ _ _ _ Hh Hp (proj1 Ha) Ha (agrees_self root o v) Ht Hpost)
      as (o' & v' & Hh' & Hp' & Hs). destruct Hs as (_ & _ & _ & _ & Ha' & _ & Hsame & Hpost').
    pose proof (call_post_wf _ _ _ _ Hpost' Hwf) as Hwf'.
    destruct (IH r (next r) o' (locals_of s') v' Hh' Hp' (Hk r) Ha' (wp_sys _ _ _ _ Hwp _ _ Hpost') Hwf')
      as [Hok (b & tr & Hb)]. split.
    + eapply same_files_ok; [|exact Hwf|exact Hok]. intros id. by rewrite Hsame.
    + exists b, tr. eapply goal_proper; [| |exact Hb]; [done|]. symmetry. by apply same_files_chunks.
Qed.

(** A turn of the operation. *)
Lemma stage_turn p l f o lg p' s' :
  stage p l f o lg -> (lg = None -> fit (base_of f o)) ->
  owned root f o -> store_ok root f -> program_step p (join l f) p' s' ->
  exists o' lg', stage p' (locals_of s') (s_fs s') o' lg' /\ owned root (s_fs s') o' /\
    touches root o f o' (s_fs s') /\ store_ok root (s_fs s') /\
    (lg' = None -> keeps_free root f o (s_fs s') o') /\
    (lg' = lg /\ same_map (chunks root f) (chunks root (s_fs s')) \/
     lg = None /\ lg' = Some (chunks root f, chunks root (s_fs s')) /\
     exists b tr, goal (chunks root f) b tr (chunks root (s_fs s'))).
Proof.
  intros Hst Hfit Ho Hok Hstep. destruct p as [| | |c k]; try done. destruct Hstep as (r & Hpost & ->).
  pose proof (call_post_wf _ _ _ _ Hpost (so_wf _ _ Hok)) as Hwf'.
  destruct Hst as [ph Hh Hp Hob Hwp|ph g v m m' Hh Hp Hob Ha Hag Hwp Hm Hm'].
  - destruct Hob as (next & Ht & Hk).
    destruct (private_turn root _ _ _ _ _ _ _ _ Hh Hp Ho (so_wf _ _ Hok) Ht Hpost)
      as (o' & Hh' & [[Hp' Hs]|[Hp' Hs]]).
    + destruct Hs as (Ho' & Htc & Hsame & Hpriv). exists o', None. split_and!; try done.
      * apply (stage_before _ _ _ _ (next r)); [done..|apply Hk|]. intros g Hg Hgf.
        destruct (Hpriv g Hg) as [Hg0 Hpost']. exact (wp_sys _ _ _ _ (Hwp g Hg0 Hgf) _ _ Hpost').
      * by eapply same_files_ok.
      * intros _. eapply (keeps_free_turn root ph (next r)); try done; [by eapply same_files_ok|].
        intros g Hg. apply (Hpriv g Hg).
      * left. split; [done|]. by apply same_files_chunks.
    + destruct Hs as (Hi' & Ho' & Htc & Hbase & Hpost').
      destruct (private_own root _ _ _ Hh Hp Ho) as [Hcase _].
      destruct (base_of_ok root f o Hok Ho Hcase) as [Hb Hsame].
      pose proof (Hwp _ Hb (Hfit eq_refl)) as Hwp0. rewrite Hbase in Hwp0.
      pose proof (wp_sys _ _ _ _ Hwp0 _ _ Hpost') as Hwp'.
      set (v := set_fds (o_fds o') (s_fs s')) in *.
      assert (Hsame' : same_files root v (s_fs s')) by done.
      assert (Ha' : alone root o' v).
      { split_and!; [|done|done]. unfold v. destruct Hh'; cbn in Hi'; try done.
        - split; [apply lookup_singleton_eq|done].
        - split; [apply lookup_singleton_eq|apply Ho']. }
      assert (Hag' : agrees root o' v (s_fs s')) by (split; [done|by destruct o' as [| | |? []]]).
      assert (Hwfv : fs_wf v).
      { unfold v. pose proof Hwf' as [W1 W2 W3]. split; cbn; [done| |done]. intros fd j pos w Hj.
        destruct Hh'; cbn in Hj, Hi'; try done.
        - by apply lookup_singleton_Some in Hj as [_ ?].
        - apply lookup_singleton_Some in Hj as [_ [= <- _ _]]. apply Ho'. }
      destruct (committed_verdict _ _ _ _ _ _ Hh' Hp' (Hk r) Ha' Hwp' Hwfv) as [Hokv Hverdict].
      assert (Hok' : store_ok root (s_fs s')) by (by eapply same_files_ok).
      exists o', (Some (chunks root f, chunks root (s_fs s'))). split_and!; try done.
      * apply (stage_after _ _ _ _ (next r) (base_of f o) v); try done.
        by apply same_files_chunks.
      * right. split_and!; [done..|]. destruct Hverdict as (b & tr & Hgb). exists b, tr.
        eapply goal_proper; [| |exact Hgb]; [symmetry; by apply same_files_chunks|done].
  - destruct Hob as (next & Ht & Hk).
    destruct (public_turn root _ _ _ _ _ _ _ _ _ Hh Hp Ho Ha Hag Ht Hpost)
      as (o' & v' & Hh' & Hp' & (Hi' & Ho' & Htc & Hsame & Ha' & Hag' & Hsame' & Hpost')).
    exists o', (Some (m, m')). split_and!; try done.
    + apply (stage_after _ _ _ _ (next r) g v'); try done; [exact (wp_sys _ _ _ _ Hwp _ _ Hpost')|].
      transitivity (chunks root v); [symmetry; by apply same_files_chunks|done].
    + by eapply same_files_ok.
    + left. split; [done|]. by apply same_files_chunks.
Qed.

(** A turn of another operation. *)
Lemma stage_others p l f o lg o2 f' o2' :
  stage p l f o lg -> owned root f o -> owned root f o2 -> owned root f' o2' ->
  touches root o2 f o2' f' -> separate o2 o -> stage p l f' o lg.
Proof.
  intros Hst Ho Ho2 Ho2' Htc Hsep. destruct Hst as [ph Hh Hp Hob Hwp|ph g v m m' Hh Hp Hob Ha Hag Hwp Hm Hm'].
  { by eapply stage_before. }
  assert (Htemp : forall f o t, owned root f o -> o_name o = Some t -> t <> root).
  { intros f1 o1 t Ho1 Ht. apply temp_not_root. destruct o1 as [|t0 i0 d0 b0 [] fd0|t0 i0|]; cbn in Ht; simplify_eq; apply Ho1. }
  apply (stage_after _ _ _ _ ph g v); try done. destruct Hag as [Hroot Hag]. split.
  - rewrite Hroot. destruct (tc_names _ _ _ _ _ Htc root) as [->|[Hn|[[Hn _]|[id Hn]]]]; [done|..].
    + by destruct (Htemp _ _ _ Ho2 Hn).
    + by destruct (Htemp _ _ _ Ho2' Hn).
    + by destruct (chunk_not_root root id).
  - pose proof (touches_owned _ _ _ _ _ _ Htc Hsep Ho) as Ho'.
    destruct o as [|t0 i0 d0 b0 n0 fd0|t i|fd [i pos w|q]]; try done.
    + destruct Ho' as [_ ->]. destruct Ho as [_ Ho]. by rewrite Hag.
    + destruct Ho as [_ [nd Hi]]. rewrite Hag, Hi.
      destruct (tc_inodes _ _ _ _ _ Htc _ _ Hi) as [Hin|Hin]; [|by rewrite Hin].
      by destruct (sep_reads _ _ Hsep _ Hin).
Qed.

(** The end: without a commit the result speaks about the present store. *)
Lemma stage_return b l f o lg :
  stage (Ret b) l f o lg -> (lg = None -> fit (base_of f o)) -> owned root f o -> store_ok root f ->
  (exists ph, holds ph o /\ fin ph) /\
  match lg with None => goal (chunks root f) b (l_trace l) (chunks root f) | Some (m, m') => goal m b (l_trace l) m' end.
Proof.
  intros Hst Hfit Ho Hok. destruct Hst as [ph Hh Hp Hob Hwp|ph g v m m' Hh Hp Hob Ha Hag Hwp Hm Hm'];
    (split; [by exists ph|]).
  - destruct (private_own root _ _ _ Hh Hp Ho) as [Hc1 Hc2]. destruct (base_of_ok root f o Hok Ho Hc1) as [Hb Hsame].
    destruct (wp_returns_inv _ _ _ (Hwp _ Hb (Hfit eq_refl))) as [_ Hgoal]. cbn [s_fs join] in Hgoal.
    assert (E : same_map (chunks root (base_of f o)) (chunks root f)) by (symmetry; by apply same_files_chunks).
    eapply goal_proper; [exact E| |exact Hgoal]. transitivity (chunks root (base_of f o)); [|exact E].
    symmetry. apply same_files_chunks. by apply priv_same.
  - destruct (wp_returns_inv _ _ _ Hwp) as [_ Hgoal]. cbn [s_fs join] in Hgoal.
    eapply goal_proper; [| |exact Hgoal]; [by symmetry|done].
Qed.

(** A stage is not stuck. *)
Lemma stage_runs p l f o lg :
  stage p l f o lg -> (lg = None -> fit (base_of f o)) -> owned root f o -> store_ok root f ->
  match p with Ret _ | Sys _ _ => True | _ => False end.
Proof.
  intros Hst Hfit Ho Hok. destruct p; try done.
  all: destruct Hst as [ph Hh Hp Hob Hwp|ph g v m m' Hh Hp Hob Ha Hag Hwp Hm Hm'];
    [|by apply wp_returns_inv in Hwp];
    destruct (private_own root _ _ _ Hh Hp Ho) as [Hc1 _]; destruct (base_of_ok root f o Hok Ho Hc1) as [Hb _];
    by apply (fun H => Hwp _ H (Hfit eq_refl)), wp_returns_inv in Hb.
Qed.

(** The first stage of an operation. *)
Lemma stage_start p l f :
  obeys root PStart p (fun _ => fin) -> (forall g, base root ONone g -> fit g -> wp p (verdict g) (join l g)) ->
  stage p l f ONone None.
Proof. intros Hob Hwp. by apply (stage_before _ _ _ _ PStart); [constructor|..]. Qed.

End Stage.
