(* ===== verification/Linearize.v ===== *)
(** * Linearization: every run of several operations on one store is a run of the
    abstract store, in which each operation takes effect at one moment between
    its invocation and its return, or looks at the store at two.

    The operations are a parameter: what each may answer is a [Specification],
    and [Linearizable] says what has to be shown of the code of each, run
    alone. *)
From stdpp Require Import functions relations.
From S2P Require Import Prelude Status Types Path Proto System Prog UniqueFd Blake3 MemOS FileIO Files.
From S2P Require Import ChunkFormat Streams ChunkStore FileStore StorePaths StoreSpec.
From S2P Require Import Concurrent Protocol Interference Names Interleaving.

(** ** Definitions *)

(** What operations may answer, with their traffic: most have one moment, at which
    the abstract store passes from one state to another; some look twice. *)
Class Specification (C A : Type) := {
  sp_twice : C -> bool;
  sp_answers : C -> store_map -> A -> list rpc_event -> store_map -> Prop;
  sp_reads : C -> store_map -> store_map -> A -> list rpc_event -> Prop }.

(** The abstract machine: threads that act on a map.  The moments of a running
    operation are the stores before and after each of its effects. *)
Section Threads.
Context {C A : Type}.

Inductive athread :=
| AWaiting (cmd : C)
| ARunning (cmd : C) (moments : list (store_map * store_map))
| AFinished (cmd : C) (a : A) (tr : list rpc_event).

Record aconfig := mkAConfig { ac_threads : list athread; ac_store : store_map }.

End Threads.

Section Machine.
Context {C A : Type} `{spec : Specification C A}.

(** At its moment an operation changes the store as one of its answers says. *)
Definition may_act (cmd : C) (moments : list (store_map * store_map)) (m m' : store_map) : Prop :=
  if sp_twice cmd then (length moments < 2)%nat /\ same_map m m'
  else moments = [] /\ exists a tr, sp_answers cmd m a tr m'.

Definition may_return (cmd : C) (moments : list (store_map * store_map)) (a : A) (tr : list rpc_event) : Prop :=
  if sp_twice cmd then exists m1 m1' m2 m2', moments = [(m1, m1'); (m2, m2')] /\ sp_reads cmd m1 m2 a tr
  else exists m m', moments = [(m, m')] /\ sp_answers cmd m a tr m'.

Inductive athread_step : athread (C:=C) (A:=A) * store_map -> athread (C:=C) (A:=A) * store_map -> Prop :=
| at_invoke cmd m : athread_step (AWaiting cmd, m) (ARunning cmd [], m)
| at_act cmd moments m m' :
    may_act cmd moments m m' ->
    athread_step (ARunning cmd moments, m) (ARunning cmd (moments ++ [(m, m')]), m')
| at_return cmd moments m a tr :
    may_return cmd moments a tr -> athread_step (ARunning cmd moments, m) (AFinished cmd a tr, m).

Inductive aconfig_step (n : nat) : aconfig (C:=C) (A:=A) -> aconfig (C:=C) (A:=A) -> Prop :=
| ac_turn ths m t t' m' :
    ths !! n = Some t -> athread_step (t, m) (t', m') ->
    aconfig_step n (mkAConfig ths m) (mkAConfig (<[n := t']> ths) m').

(** A turn of a thread: some steps of it, and of no other. *)
Definition aturn (n : nat) : aconfig (C:=C) (A:=A) -> aconfig (C:=C) (A:=A) -> Prop := rtc (aconfig_step n).

Lemma aturn_thread n ths m t t' m' :
  ths !! n = Some t -> rtc athread_step (t, m) (t', m') ->
  aturn n (mkAConfig ths m) (mkAConfig (<[n := t']> ths) m').
Proof.
  intros Hn Hr. remember (t, m) as x eqn:Ex. remember (t', m') as y eqn:Ey.
  revert ths t m Hn Ex. induction Hr as [x|x [t1 m1] y Hs Hr IH]; intros ths t m Hn ->.
  - injection Ey as <- <-. rewrite list_insert_id by done. apply rtc_refl.
  - eapply rtc_l; [by apply (ac_turn n ths m t t1 m1)|].
    rewrite <- (list_insert_insert_eq ths n t' t1). apply (IH Ey (<[n:=t1]> ths) t1 m1); [|done].
    apply list_lookup_insert_eq. by eapply lookup_lt_Some.
Qed.

(** What one can see of a thread: its operation, and once it has returned its
    answer and its traffic. *)
Definition agree (t : thread (C:=C) (A:=A)) (at' : athread (C:=C) (A:=A)) : Prop :=
  match t, at' with
  | Waiting cmd _, AWaiting cmd' => cmd = cmd'
  | Running cmd _ _, ARunning cmd' _ => cmd = cmd'
  | Finished cmd a l, AFinished cmd' a' tr => cmd = cmd' /\ a = a' /\ l_trace l = tr
  | _, _ => False
  end.

(** Operations that wait for their first turn. *)
Definition initial (cmds : list (C * locals)) (f : fs) : config (C:=C) (A:=A) :=
  mkConfig ((fun x => Waiting x.1 x.2) <$> cmds) f.
Definition abstract_initial (cmds : list (C * locals)) (m : store_map) : aconfig (C:=C) (A:=A) :=
  mkAConfig ((fun x => AWaiting x.1) <$> cmds) m.

End Machine.

(** *** What has to be shown of the code *)

(** The locals some calls later. *)
Definition passes (l0 l : locals) : Prop := (l_events l <= l_events l0)%nat /\ l_quiet l = l_quiet l0.

(** A program that looks at the store, looks again knowing what it saw, and
    answers; [tl_wrap] is what is left to do with the result. *)
Record two_looks `{Blake3} {A} (root : string) (fits : locals -> Prop)
    (answers : store_map -> store_map -> A -> list rpc_event -> Prop) (code : prog A) := {
  tl_seen : Type;
  tl_result : Type;
  tl_first : prog tl_seen;
  tl_second : tl_seen -> prog tl_result;
  tl_wrap : prog tl_result -> prog A;
  tl_looked : store_map -> tl_seen -> list rpc_event -> Prop;
  tl_code : code = tl_wrap (tl_first ≫= tl_second);
  tl_wrap_sys : forall c k, tl_wrap (Sys c k) = Sys c (fun r => tl_wrap (k r));
  tl_looked_proper : forall m m' x tr, same_map m m' -> tl_looked m x tr -> tl_looked m' x tr;
  tl_first_obeys : obeys root PStart tl_first (fun _ ph => ph = PStart \/ ph = PDone);
  tl_first_wp : forall l g, fits l -> store_ok root g ->
    wp tl_first (verdict root (fun m x tr m' => same_map m m' /\ tl_looked m x tr) g) (join l g);
  tl_rest_obeys : forall x, obeys root PStart (tl_wrap (tl_second x)) (fun _ ph => ended ph);
  tl_rest_wp : forall m1 x l0 l g, fits l0 -> passes l0 l -> tl_looked m1 x (l_trace l) ->
    store_ok root g ->
    wp (tl_wrap (tl_second x)) (verdict root (fun m a tr m' => same_map m m' /\ answers m1 m a tr) g) (join l g) }.
Arguments tl_seen {_ _ _ _ _ _} _.
Arguments tl_first {_ _ _ _ _ _} _.
Arguments tl_second {_ _ _ _ _ _} _ _.
Arguments tl_wrap {_ _ _ _ _ _} _ _.
Arguments tl_looked {_ _ _ _ _ _} _ _ _ _.

(** Operations whose code, run alone from locals that fit and on files where the
    names [op_free] are free, keeps the protocol and answers as specified; it
    creates no temporary names but [op_makes]. *)
Class Linearizable `{Blake3} (root : string) {C A} `{spec : Specification C A} (code : C -> prog A) := {
  op_fits : C -> locals -> Prop;
  op_free : C -> string -> Prop;
  op_makes : C -> string -> Prop;
  op_free_shaped : forall cmd q, op_free cmd q -> temp_shaped root q;
  op_creates : forall cmd, creates root (op_makes cmd) (code cmd);
  op_answers_proper : forall cmd m1 m2 a tr m1' m2',
    same_map m1 m2 -> same_map m1' m2' -> sp_answers cmd m1 a tr m1' -> sp_answers cmd m2 a tr m2';
  op_reads_proper : forall cmd m1 m1' m2 m2' a tr,
    same_map m1 m1' -> same_map m2 m2' -> sp_reads cmd m1 m2 a tr -> sp_reads cmd m1' m2' a tr;
  op_once_obeys : forall cmd, sp_twice cmd = false -> obeys root PStart (code cmd) (fun _ ph => ended ph);
  op_once_wp : forall cmd l g, sp_twice cmd = false -> op_fits cmd l -> store_ok root g ->
    (forall q, op_free cmd q -> f_names g !! q = None) ->
    wp (code cmd) (verdict root (sp_answers cmd) g) (join l g);
  op_two_looks : forall cmd, sp_twice cmd = true -> two_looks root (op_fits cmd) (sp_reads cmd) (code cmd) }.

Definition tl_rest `{Blake3} {A root fits answers} {code : prog A} (tl : two_looks root fits answers code)
  (x : tl_seen tl) : prog A := tl_wrap tl (tl_second tl x).

(** ** The simulation *)

Section Simulation.
Context `{Blake3} (root : string) {C A : Type} `{spec : Specification C A} (code : C -> prog A).
Context `{!Linearizable root code}.

(** The names an operation needs are free. *)
Definition unhindered (cmd : C) (g : fs) : Prop := forall q, op_free cmd q -> f_names g !! q = None.

(** Nothing is in the way of the operations at first, and they do not get in each
    other's way. *)
Definition undisturbed (cmds : list (C * locals)) (f : fs) : Prop :=
  Forall (fun x => unhindered x.1 f) cmds /\
  forall n k x y q, n <> k -> cmds !! n = Some x -> cmds !! k = Some y -> op_free x.1 q -> ~ op_makes y.1 q.

Definition command_of (t : thread (C:=C) (A:=A)) : C :=
  match t with Waiting cmd _ | Running cmd _ _ | Finished cmd _ _ => cmd end.

(** What the rest of an operation with two looks answers, given what the first
    saw. *)
Definition rest_goal (cmd : C) (m1 m : store_map) (a : A) (tr : list rpc_event) (m' : store_map) : Prop :=
  same_map m m' /\ sp_reads cmd m1 m a tr.
Definition first_goal {cmd} (tl : two_looks root (op_fits cmd) (sp_reads cmd) (code cmd))
    (m : store_map) (x : tl_seen tl) (tr : list rpc_event) (m' : store_map) : Prop :=
  same_map m m' /\ tl_looked tl m x tr.

Lemma rest_goal_proper cmd m0 m1 m2 a tr m1' m2' :
  same_map m1 m2 -> same_map m1' m2' -> rest_goal cmd m0 m1 a tr m1' -> rest_goal cmd m0 m2 a tr m2'.
Proof. intros E E' [Hm Ha]. split; [by rewrite <- E, <- E'|]. by eapply op_reads_proper. Qed.

Lemma first_goal_proper {cmd} (tl : two_looks root (op_fits cmd) (sp_reads cmd) (code cmd)) m1 m2 x tr m1' m2' :
  same_map m1 m2 -> same_map m1' m2' -> first_goal tl m1 x tr m1' -> first_goal tl m2 x tr m2'.
Proof. intros E E' [Hm Ha]. split; [by rewrite <- E, <- E'|]. by eapply tl_looked_proper. Qed.

(** How a running operation stands to its moments. *)
Inductive in_progress : C -> prog A -> locals -> fs -> own -> list (store_map * store_map) -> Prop :=
| ip_one cmd p l f o lg :
    sp_twice cmd = false -> stage root ended (unhindered cmd) (sp_answers cmd) p l f o lg ->
    (lg = None -> unhindered cmd (base_of f o)) ->
    in_progress cmd p l f o (option_list lg)
| ip_first cmd (tl : two_looks root (op_fits cmd) (sp_reads cmd) (code cmd)) p l0 l f o lg :
    sp_twice cmd = true -> op_fits cmd l0 -> passes l0 l ->
    stage root (fun ph => ph = PStart \/ ph = PDone) (fun _ => True) (first_goal tl) p l f o lg ->
    in_progress cmd (tl_wrap tl (p ≫= tl_second tl)) l f o (option_list lg)
| ip_rest cmd m m' p l f o lg :
    sp_twice cmd = true -> stage root ended (fun _ => True) (rest_goal cmd m) p l f o lg ->
    in_progress cmd p l f o ((m, m') :: option_list lg).

Inductive thread_inv (f : fs) : thread (C:=C) (A:=A) -> athread (C:=C) (A:=A) -> own -> Prop :=
| ti_waiting cmd l : op_fits cmd l -> unhindered cmd f -> thread_inv f (Waiting cmd l) (AWaiting cmd) ONone
| ti_running cmd p l o moments :
    in_progress cmd p l f o moments -> creates root (op_makes cmd) p -> thread_inv f (Running cmd p l) (ARunning cmd moments) o
| ti_finished cmd a l : thread_inv f (Finished cmd a l) (AFinished cmd a (l_trace l)) ONone.

(** What a turn of one thread has to give. *)
Definition turn_ok (f : fs) (m : store_map) (at' : athread) (o : own) (t' : thread) (f' : fs) : Prop :=
  exists at2 m' o', rtc athread_step (at', m) (at2, m') /\ thread_inv f' t' at2 o' /\
    owned root f' o' /\ touches root o f o' f' /\ store_ok root f' /\ same_map m' (chunks root f').

(** A call made in a stage, with at most one moment. *)
Lemma stage_moment {B} fin fit (goal : store_map -> B -> list rpc_event -> store_map -> Prop) p l f o lg p' s' m :
  (forall m1 m2 b tr m1' m2', same_map m1 m2 -> same_map m1' m2' -> goal m1 b tr m1' -> goal m2 b tr m2') ->
  stage root fin fit goal p l f o lg -> (lg = None -> fit (base_of f o)) ->
  owned root f o -> store_ok root f -> same_map m (chunks root f) -> program_step p (join l f) p' s' ->
  exists o' lg' m', stage root fin fit goal p' (locals_of s') (s_fs s') o' lg' /\
    (lg' = None -> keeps_free root f o (s_fs s') o') /\
    owned root (s_fs s') o' /\ touches root o f o' (s_fs s') /\ store_ok root (s_fs s') /\
    same_map m' (chunks root (s_fs s')) /\
    (lg' = lg /\ m' = m \/
     lg = None /\ lg' = Some (m, m') /\ exists b tr, goal m b tr m').
Proof.
  intros Hproper Hst Hfit Ho Hok Hm Hstep.
  destruct (stage_turn root fin fit goal Hproper _ _ _ _ _ _ _ Hst Hfit Ho Hok Hstep)
    as (o' & lg' & Hst' & Ho' & Htc & Hok' & Hfree & [[-> Hsame]|(-> & -> & b & tr & Hb)]).
  - exists o', lg, m. split_and!; try done; [by transitivity (chunks root f)|by left].
  - exists o', (Some (m, chunks root (s_fs s'))), (chunks root (s_fs s')). split_and!; try done.
    + inversion Hst'; subst. eapply stage_after; try done. by transitivity (chunks root f).
    + right. split_and!; [done..|]. exists b, tr. by eapply Hproper; [symmetry; exact Hm|reflexivity|].
Qed.

Lemma touches_drop o f : touches root o f ONone f.
Proof. split; cbn; auto; done. Qed.

(** The first turn of an operation. *)
Lemma invoke_progress cmd l f : op_fits cmd l -> unhindered cmd f -> in_progress cmd (code cmd) l f ONone [].
Proof.
  intros Hb Hfree. destruct (sp_twice cmd) eqn:Htw.
  - pose (tl := op_two_looks cmd Htw). rewrite (tl_code _ _ _ _ tl).
    apply (ip_first cmd tl (tl_first tl) l l f ONone None); [done|done|done|].
    apply stage_start; [apply tl_first_obeys|]. intros g (Hok & _) _. by apply (tl_first_wp _ _ _ _ tl).
  - apply (ip_one cmd (code cmd) l f ONone None); [done| |done].
    apply stage_start; [by apply op_once_obeys|]. intros g (Hok & _) Hg. by apply op_once_wp.
Qed.

(** Acting, and returning, with a moment that may already have been. *)
Lemma act_twice cmd moments m m' :
  sp_twice cmd = true -> (length moments < 2)%nat -> same_map m m' ->
  rtc athread_step (ARunning cmd moments, m) (ARunning cmd (moments ++ [(m, m')]), m').
Proof. intros Htw Hl Hm. apply rtc_once, at_act. unfold may_act. by rewrite Htw. Qed.

(** The first part is over: the rest starts, after the moment of the first. *)
Lemma first_over cmd (tl : two_looks root (op_fits cmd) (sp_reads cmd) (code cmd)) x l0 l f o lg m :
  sp_twice cmd = true -> op_fits cmd l0 -> passes l0 l ->
  stage root (fun ph => ph = PStart \/ ph = PDone) (fun _ => True) (first_goal tl) (Ret x) l f o lg ->
  owned root f o -> store_ok root f -> same_map m (chunks root f) ->
  o = ONone /\ exists m1 m1',
    rtc athread_step (ARunning cmd (option_list lg), m) (ARunning cmd [(m1, m1')], m) /\
    stage root ended (fun _ => True) (rest_goal cmd m1) (tl_rest tl x) l f ONone None.
Proof.
  intros Htw Hfit Hev Hst Ho Hok Hm.
  destruct (stage_return root _ _ _ (first_goal_proper tl) _ _ _ _ _ Hst (fun _ => I) Ho Hok) as [(ph & Hh & Hph) Hgoal].
  assert (o = ONone) as -> by (destruct Hh; by destruct Hph). split; [done|].
  assert (Hrest : forall m1, tl_looked tl m1 x (l_trace l) ->
    stage root ended (fun _ => True) (rest_goal cmd m1) (tl_rest tl x) l f ONone None).
  { intros m1 Hg. apply stage_start; [apply tl_rest_obeys|].
    intros g (Hokg & _) _. by eapply (tl_rest_wp _ _ _ _ tl). }
  destruct lg as [[m1 m1']|].
  - exists m1, m1'. split; [apply rtc_refl|]. apply Hrest. apply Hgoal.
  - exists m, m. split; [by apply (act_twice cmd [] m m); [done|cbn; lia|]|].
    apply Hrest. eapply tl_looked_proper; [symmetry; exact Hm|apply Hgoal].
Qed.

(** A call of the rest. *)
Lemma rest_call cmd m1 m1' p l f o lg p' s' m :
  sp_twice cmd = true -> stage root ended (fun _ => True) (rest_goal cmd m1) p l f o lg ->
  owned root f o -> store_ok root f -> same_map m (chunks root f) ->
  program_step p (join l f) p' s' -> creates root (op_makes cmd) p' ->
  turn_ok f m (ARunning cmd ((m1, m1') :: option_list lg)) o (Running cmd p' (locals_of s')) (s_fs s').
Proof.
  intros Htw Hst Ho Hok Hm Hstep Hcr.
  destruct (stage_moment _ _ _ _ _ _ _ _ _ _ _ (rest_goal_proper cmd m1) Hst (fun _ => I) Ho Hok Hm Hstep)
    as (o' & lg' & m' & Hst' & _ & Ho' & Htc & Hok' & Hm' & Hlg).
  exists (ARunning cmd ((m1, m1') :: option_list lg')), m', o'. split_and!; try done.
  - destruct Hlg as [[-> ->]|(-> & -> & b & tr & Hs & _)]; [apply rtc_refl|].
    by apply (act_twice cmd [(m1, m1')] m m'); [done|cbn; lia|].
  - constructor; [by eapply ip_rest|done].
Qed.

(** The return of an operation with two looks. *)
Lemma rest_return cmd m1 m1' a l f o lg m :
  sp_twice cmd = true -> stage root ended (fun _ => True) (rest_goal cmd m1) (Ret a) l f o lg -> owned root f o -> store_ok root f ->
  same_map m (chunks root f) ->
  turn_ok f m (ARunning cmd ((m1, m1') :: option_list lg)) o (Finished cmd a l) f.
Proof.
  intros Htw Hst Ho Hok Hm.
  destruct (stage_return root _ _ _ (rest_goal_proper cmd m1) _ _ _ _ _ Hst (fun _ => I) Ho Hok) as [_ Hgoal].
  exists (AFinished cmd a (l_trace l)), m, ONone. split_and!; try done; [|constructor|apply touches_drop].
  assert (Hret : forall m2 m2', sp_reads cmd m1 m2 a (l_trace l) ->
    athread_step (ARunning cmd [(m1, m1'); (m2, m2')], m) (AFinished cmd a (l_trace l), m)).
  { intros m2 m2' Hr. apply at_return. unfold may_return. rewrite Htw. by exists m1, m1', m2, m2'. }
  destruct lg as [[m2 m2']|].
  - apply rtc_once, Hret, Hgoal.
  - etransitivity; [by apply (act_twice cmd [(m1, m1')] m m); [done|cbn; lia|]|].
    apply rtc_once, Hret. eapply op_reads_proper; [reflexivity|symmetry; exact Hm|apply Hgoal].
Qed.

(** A call of any operation. *)
Lemma call_turn cmd p l f o moments p' s' m :
  in_progress cmd p l f o moments -> owned root f o -> store_ok root f -> same_map m (chunks root f) ->
  program_step p (join l f) p' s' -> creates root (op_makes cmd) p' ->
  turn_ok f m (ARunning cmd moments) o (Running cmd p' (locals_of s')) (s_fs s').
Proof.
  intros Hip Ho Hok Hm Hstep Hcr.
  destruct Hip as [cmd p l f o lg Htw Hst Hfree|cmd tl p l0 l f o lg Htw Hfit Hev Hst|cmd m1 m1' p l f o lg Htw Hst].
  - destruct (stage_moment _ _ _ _ _ _ _ _ _ _ _ (op_answers_proper cmd) Hst Hfree Ho Hok Hm Hstep)
      as (o' & lg' & m' & Hst' & Hkeep & Ho' & Htc & Hok' & Hm' & Hlg).
    exists (ARunning cmd (option_list lg')), m', o'. split_and!; try done.
    + destruct Hlg as [[-> ->]|(-> & -> & b & tr & Hb)]; [apply rtc_refl|].
      apply rtc_once, (at_act cmd [] m m'). unfold may_act. rewrite Htw. eauto.
    + constructor; [apply ip_one; [done..|]|done]. intros ->. destruct Hlg as [[<- _]|(_ & ? & _)]; [|done].
      intros q Hq. apply Hkeep; [done|by eapply op_free_shaped|by apply Hfree].
  - pose proof (stage_runs _ _ _ _ _ _ _ _ _ Hst (fun _ => I) Ho Hok) as Hruns. destruct p as [x| | |c k]; try done.
    + destruct (first_over _ tl _ _ _ _ _ _ _ Htw Hfit Hev Hst Ho Hok Hm) as (-> & m1 & m1' & Hrtc & Hst').
      destruct (rest_call cmd m1 m1' _ _ _ _ _ _ _ _ Htw Hst' Ho Hok Hm Hstep Hcr)
        as (at2 & m' & o' & Hrtc2 & Hrest). exists at2, m', o'. split; [by etransitivity|done].
    + change (Sys c k ≫= tl_second tl) with (Sys c (fun r => k r ≫= tl_second tl)) in Hstep.
      rewrite tl_wrap_sys in Hstep. destruct Hstep as (r & Hpost & ->).
      assert (Hstep' : program_step (Sys c k) (join l f) (k r) s') by (by exists r).
      destruct (stage_moment _ _ _ _ _ _ _ _ _ _ _ (first_goal_proper tl) Hst (fun _ => I) Ho Hok Hm Hstep')
        as (o' & lg' & m' & Hst' & _ & Ho' & Htc & Hok' & Hm' & Hlg).
      exists (ARunning cmd (option_list lg')), m', o'. split_and!; try done.
      * destruct Hlg as [[-> ->]|(-> & -> & b & tr & Hs & _)]; [apply rtc_refl|].
        by apply (act_twice cmd [] m m'); [done|cbn; lia|].
      * constructor; [|done]. apply (ip_first cmd tl (k r) l0); [done|done| |done].
        pose proof (call_post_events _ _ _ _ Hpost). pose proof (call_post_quiet _ _ _ _ Hpost).
        destruct Hev. unfold passes. cbn in *. split; [lia|congruence].
  - by eapply rest_call.
Qed.

(** The return of any operation. *)
Lemma return_turn cmd a l f o moments m :
  in_progress cmd (Ret a) l f o moments -> owned root f o -> store_ok root f -> same_map m (chunks root f) ->
  turn_ok f m (ARunning cmd moments) o (Finished cmd a l) f.
Proof.
  intros Hip Ho Hok Hm. remember (Ret a) as p eqn:Ep.
  destruct Hip as [cmd p l f o lg Htw Hst Hfree|cmd tl p l0 l f o lg Htw Hfit Hev Hst|cmd m1 m1' p l f o lg Htw Hst].
  - subst p. destruct (stage_return root _ _ _ (op_answers_proper cmd) _ _ _ _ _ Hst Hfree Ho Hok) as [_ Hgoal].
    exists (AFinished cmd a (l_trace l)), m, ONone. split_and!; try done; [|constructor|apply touches_drop].
    assert (Hret : forall m1 m1', sp_answers cmd m1 a (l_trace l) m1' ->
      athread_step (ARunning cmd [(m1, m1')], m) (AFinished cmd a (l_trace l), m)).
    { intros m1 m1' Ha. apply at_return. unfold may_return. rewrite Htw. by exists m1, m1'. }
    destruct lg as [[m1 m1']|].
    + apply rtc_once, Hret, Hgoal.
    + assert (Ha : sp_answers cmd m a (l_trace l) m) by (eapply op_answers_proper; [symmetry; exact Hm..|exact Hgoal]).
      eapply rtc_l; [apply (at_act cmd [] m m); unfold may_act; rewrite Htw; eauto|]. by apply rtc_once, Hret.
  - pose proof (stage_runs _ _ _ _ _ _ _ _ _ Hst (fun _ => I) Ho Hok) as Hruns. destruct p as [x| | |c k]; try done; cycle 1.
    { change (Sys c k ≫= tl_second tl) with (Sys c (fun r => k r ≫= tl_second tl)) in Ep. by rewrite tl_wrap_sys in Ep. }
    destruct (first_over _ tl _ _ _ _ _ _ _ Htw Hfit Hev Hst Ho Hok Hm) as (-> & m1 & m1' & Hrtc & Hst').
    change (tl_rest tl x = Ret a) in Ep. rewrite Ep in Hst'.
    destruct (rest_return cmd m1 m1' _ _ _ _ _ _ Htw Hst' Ho Hok Hm)
      as (at2 & m' & o' & Hrtc2 & Hrest). exists at2, m', o'. split; [by etransitivity|done].
  - subst p. by eapply rest_return.
Qed.

Lemma thread_turn f t at' o t' f' m :
  thread_inv f t at' o -> owned root f o -> store_ok root f -> same_map m (chunks root f) ->
  thread_step code f t t' f' -> turn_ok f m at' o t' f'.
Proof.
  intros Hinv Ho Hok Hm Hstep. destruct Hstep as [cmd l|cmd p l p' s' Hstep|cmd a l]; inversion Hinv; subst.
  - exists (ARunning cmd []), m, ONone. split_and!; try done; [by apply rtc_once; constructor| |apply touches_refl].
    constructor; [by apply invoke_progress|apply op_creates].
  - eapply call_turn; [done..|]. destruct p as [| | |c k]; try done. destruct Hstep as (r & _ & ->).
    by match goal with H : creates _ _ _ |- _ => apply H end.
  - by eapply return_turn.
Qed.

(** Operations with streams of their own, on a store where no temporary file was
    left, are undisturbed. *)
Lemma undisturbed_streams (calm : Prop) (stream : C -> option Z) (cmds : list (C * locals)) f :
  (forall cmd q, op_free cmd q -> calm /\ temps_for root (stream cmd) q) ->
  (forall cmd q, op_makes cmd q -> temps_for root (stream cmd) q) ->
  (calm -> store_clean root f /\ distinct_streams (fun x => stream x.1) cmds) -> undisturbed cmds f.
Proof.
  intros Hfree Hmakes Hcalm. split.
  - apply Forall_lookup_2. intros n [cmd l] _ q [Hc Hq]%Hfree. destruct (Hcalm Hc) as [Hclean _].
    cbn in Hq. destruct (stream cmd) as [a|]; [|done]. destruct Hq as (id & pid & ->). apply Hclean.
  - intros n k x y q Hnk Hx Hy [Hc Hq]%Hfree Hq'%Hmakes. destruct (Hcalm Hc) as [_ Hd].
    exact (distinct_temps root _ cmds n k x y q Hd Hnk Hx Hy Hq Hq').
Qed.

(** All threads together: what they own is separate. *)
Record simulated (c : config (C:=C) (A:=A)) (a : aconfig (C:=C) (A:=A)) (os : nat -> own) : Prop := {
  sm_ok : store_ok root (cf_fs c);
  sm_store : same_map (ac_store a) (chunks root (cf_fs c));
  sm_owned : forall n, owned root (cf_fs c) (os n);
  sm_separate : forall n k, n <> k -> separate (os n) (os k);
  sm_length : length (ac_threads a) = length (cf_threads c);
  sm_threads : forall n t at', cf_threads c !! n = Some t -> ac_threads a !! n = Some at' ->
    thread_inv (cf_fs c) t at' (os n);
  sm_apart : forall n k t t' q, n <> k -> cf_threads c !! n = Some t -> cf_threads c !! k = Some t' ->
    op_free (command_of t) q -> ~ op_makes (command_of t') q }.

(** A step makes no other temporary names than its own. *)
Lemma step_creates f t at' o t' f' q :
  thread_inv f t at' o -> thread_step code f t t' f' -> temp_shaped root q ->
  f_names f !! q = None -> f_names f' !! q = None \/ op_makes (command_of t) q.
Proof.
  intros Hinv Hstep Hq Hn. destruct Hstep as [cmd l|cmd p l p' s' Hstep|cmd a l]; [by left| |by left].
  inversion Hinv as [|? ? ? ? ? _ Hcr|]; subst. destruct p as [| | |c k]; try done.
  destruct Hstep as (r & Hpost & _), Hcr as [Hc _].
  destruct (f_names (s_fs s') !! q) eqn:E; [right|by left]. eapply created; [exact Hpost|exact Hc|done|done|by rewrite E].
Qed.

Lemma step_command f t t' f' : thread_step code f t t' f' -> command_of t' = command_of t.
Proof. by intros []. Qed.

(** A name stays free for its owner. *)
Lemma base_free f f' o q :
  f_names (base_of f o) !! q = None -> (f_names f !! q = None -> f_names f' !! q = None) ->
  f_names (base_of f' o) !! q = None.
Proof.
  destruct o as [|t i d b n fd| |]; cbn [base_of f_names set_fds]; auto. intros Hn Hnew.
  destruct (decide (t = q)) as [->|Hne]; [apply lookup_delete_eq|]. rewrite lookup_delete_ne in * by done. auto.
Qed.

Lemma thread_others f t at' o o1 f' o1' :
  thread_inv f t at' o -> owned root f o -> owned root f o1 -> owned root f' o1' ->
  touches root o1 f o1' f' -> separate o1 o ->
  (forall q, op_free (command_of t) q -> f_names f !! q = None -> f_names f' !! q = None) ->
  thread_inv f' t at' o.
Proof.
  intros Hinv Ho Ho1 Ho1' Htc Hsep Hnew.
  destruct Hinv as [cmd l Hb Hfree|cmd p l o moments Hip Hcr|cmd a l]; [|constructor; [|done]|constructor].
  { constructor; [done|]. intros q Hq. by apply Hnew, Hfree. }
  destruct Hip as [cmd p l f0 o lg Htw Hst Hfree|cmd tl p l0 l f0 o lg Htw Hfit Hev Hst|cmd m1 m1' p l f0 o lg Htw Hst].
  - apply ip_one; [done|by eapply stage_others|]. intros E q Hq. eapply base_free; [by apply Hfree|by apply Hnew].
  - eapply ip_first; [done|done|done|]. by eapply stage_others.
  - eapply ip_rest; [done|]. by eapply stage_others.
Qed.

Lemma simulated_turn n c a os c' :
  simulated c a os -> config_step code n c c' ->
  exists a' os', aturn n a a' /\ simulated c' a' os'.
Proof.
  intros [Hok Hm Ho Hsep Hlen Hth Hap] Hstep. destruct Hstep as [ths f t t' f' Hn Hstep], a as [aths m].
  cbn [cf_fs cf_threads ac_store ac_threads] in *.
  destruct (lookup_lt_is_Some_2 aths n) as [at' Hat]; [rewrite Hlen; by eapply lookup_lt_Some|].
  destruct (thread_turn f t at' (os n) t' f' m (Hth _ _ _ Hn Hat) (Ho n) Hok Hm Hstep)
    as (at2 & m' & o' & Hrtc & Hinv' & Ho' & Htc & Hok' & Hm').
  exists (mkAConfig (<[n := at2]> aths) m'), (<[n := o']> os). split; [by eapply aturn_thread|].
  assert (Hother : forall k, k <> n -> separate o' (os k)).
  { intros k Hk. eapply touches_separate; [exact Htc| |apply Ho]. by apply Hsep. }
  split; cbn [cf_fs cf_threads ac_store ac_threads].
  - done.
  - done.
  - intros k. destruct (decide (n = k)) as [<-|Hk]; [by rewrite fn_lookup_insert|].
    rewrite fn_lookup_insert_ne by done. eapply touches_owned; [exact Htc|by apply Hsep|apply Ho].
  - intros j k Hjk. destruct (decide (n = j)) as [<-|Hj].
    + rewrite fn_lookup_insert, fn_lookup_insert_ne by done. by apply Hother.
    + rewrite (fn_lookup_insert_ne _ n j) by done. destruct (decide (n = k)) as [<-|Hk].
      * rewrite fn_lookup_insert. by apply separate_sym, Hother.
      * rewrite fn_lookup_insert_ne by done. by apply Hsep.
  - by rewrite !length_insert.
  - intros k tk atk Hk Hak. cbn in Hk, Hak. destruct (decide (n = k)) as [<-|Hne].
    + rewrite fn_lookup_insert. rewrite list_lookup_insert_eq in Hk by (by eapply lookup_lt_Some).
      rewrite list_lookup_insert_eq in Hak by (by eapply lookup_lt_Some). by simplify_eq.
    + rewrite fn_lookup_insert_ne by done. rewrite list_lookup_insert_ne in Hk by done.
      rewrite list_lookup_insert_ne in Hak by done.
      eapply thread_others; [by eapply Hth|apply Ho|apply (Ho n)|exact Ho'|exact Htc|by apply Hsep|].
      intros q Hq Hfree. destruct (step_creates f t at' (os n) t' f' q (Hth _ _ _ Hn Hat) Hstep) as [|Hmk]; try done.
      { by eapply op_free_shaped. }
      by destruct (Hap k n tk t q ltac:(done) Hk Hn Hq).
  - assert (Hcmd : forall j tj, <[n := t']> ths !! j = Some tj -> exists tj0, ths !! j = Some tj0 /\ command_of tj = command_of tj0).
    { intros j tj Hj. destruct (decide (n = j)) as [<-|Hne].
      - rewrite list_lookup_insert_eq in Hj by (by eapply lookup_lt_Some). injection Hj as <-.
        exists t. split; [done|by eapply step_command].
      - rewrite list_lookup_insert_ne in Hj by done. by exists tj. }
    intros j k tj tk q Hjk (tj0 & Hj & ->)%Hcmd (tk0 & Hk & ->)%Hcmd. by eapply Hap.
Qed.

Lemma simulated_schedule ns c a os c' :
  schedule (config_step code) ns c c' -> simulated c a os ->
  exists a' os', schedule aturn ns a a' /\ simulated c' a' os'.
Proof.
  intros Hs. revert a os. induction Hs as [c|n ns c1 c2 c3 Hstep _ IH]; intros a os Hsim.
  - exists a, os. split; [constructor|done].
  - destruct (simulated_turn _ _ _ _ _ Hsim Hstep) as (a2 & os2 & Ht & Hsim2).
    destruct (IH _ _ Hsim2) as (a3 & os3 & Hs3 & Hsim3). exists a3, os3. split; [by econstructor|done].
Qed.

Lemma simulated_initial cmds f :
  store_ok root f -> Forall (fun x => op_fits x.1 x.2) cmds -> undisturbed cmds f ->
  simulated (initial cmds f) (abstract_initial cmds (chunks root f)) (fun _ => ONone).
Proof.
  intros Hok Hb [Hfree Hap]. split; cbn; try done.
  - by rewrite !length_fmap.
  - intros n t at' Ht Hat. rewrite list_lookup_fmap in Ht. rewrite list_lookup_fmap in Hat.
    destruct (cmds !! n) as [[cmd l]|] eqn:E; [|done]. cbn in Ht, Hat. simplify_eq.
    constructor; [by apply (Forall_lookup_1 _ _ _ _ Hb E)|by apply (Forall_lookup_1 _ _ _ _ Hfree E)].
  - intros n k t t' q Hnk Ht Ht'. rewrite list_lookup_fmap in Ht. rewrite list_lookup_fmap in Ht'.
    destruct (cmds !! n) as [x|] eqn:E; [|done]. destruct (cmds !! k) as [y|] eqn:E'; [|done].
    cbn in Ht, Ht'. simplify_eq. by apply (Hap n k).
Qed.

Lemma simulated_agree c a os :
  simulated c a os -> Forall2 agree (cf_threads c) (ac_threads a) /\ Forall (fun t => ~ stuck t) (cf_threads c).
Proof.
  intros [Hok Hm Ho Hsep Hlen Hth _]. split.
  - apply Forall2_same_length_lookup_2; [done|]. intros n t at' Ht Hat.
    by destruct (Hth _ _ _ Ht Hat).
  - apply Forall_lookup_2. intros n t Ht.
    destruct (lookup_lt_is_Some_2 (ac_threads a) n) as [at' Hat]; [rewrite Hlen; by eapply lookup_lt_Some|].
    pose proof (Hth _ _ _ Ht Hat) as Hinv. pose proof (Ho n) as Hon.
    destruct Hinv as [| cmd p l o moments Hip|]; [by intros []| |by intros []].
    destruct Hip as [cmd p l f o lg Htw Hst Hfree|cmd tl p l0 l f o lg Htw Hfit Hev Hst|cmd m1 m1' p l f o lg Htw Hst]; cbn.
    + apply stage_runs in Hst; [|done..]. by destruct p; try intros [].
    + pose proof Hst as Hst'. apply stage_runs in Hst'; [|done..]. destruct p as [x| | |c0 k]; try done; cycle 1.
      { change (Sys c0 k ≫= tl_second tl) with (Sys c0 (fun r => k r ≫= tl_second tl)). rewrite tl_wrap_sys. by intros []. }
      destruct (first_over cmd tl x l0 l _ _ lg _ Htw Hfit Hev Hst Hon Hok Hm) as (-> & m1 & m1' & _ & Hst2).
      apply stage_runs in Hst2; [|done..]. change (~ stuck (Running cmd (tl_rest tl x) l)).
      cbn. by destruct (tl_rest tl x); try intros [].
    + apply stage_runs in Hst; [|done..]. by destruct p; try intros [].
Qed.

(** Any schedule of the operations is accounted for by the abstract machine. *)
Lemma linearization cmds f ns c :
  store_ok root f -> Forall (fun x => op_fits x.1 x.2) cmds -> undisturbed cmds f ->
  schedule (config_step code) ns (initial cmds f) c ->
  store_ok root (cf_fs c) /\ Forall (fun t => ~ stuck t) (cf_threads c) /\
  exists a, schedule aturn ns (abstract_initial cmds (chunks root f)) a /\
    same_map (ac_store a) (chunks root (cf_fs c)) /\ Forall2 agree (cf_threads c) (ac_threads a).
Proof.
  intros Hok Hb Hu Hs. destruct (simulated_schedule _ _ _ _ _ Hs (simulated_initial cmds f Hok Hb Hu)) as (a & os & Ha & Hsim).
  destruct (simulated_agree _ _ _ Hsim) as [Hagree Hrun].
  split; [apply Hsim|split; [done|]]. exists a. split; [done|split; [apply Hsim|done]].
Qed.

End Simulation.
