(* ===== verification/OneWinner.v ===== *)
(** * One winner: of several operations that store the same chunk, one does, and
    all others that saw the chunk saw what it stored. *)
From stdpp Require Import functions relations.
From S2P Require Import Prelude Types Path Proto System Prog Blake3.
From S2P Require Import ChunkStore StoreSpec Concurrent Linearize.

(** ** Definitions *)

Section Winner.
Context {C A : Type} `{spec : Specification C A} (id : ChunkId).
(** Operations that leave a stored chunk alone; results that say that this chunk
    was stored under [id]. *)
Context (spares : C -> Prop) (stores : C -> A -> list rpc_event -> chunk -> Prop).
Context (Hspares : forall cmd m a tr m', sp_answers cmd m a tr m' -> spares cmd ->
  m' id = m id \/ m id = None /\ exists x, m' id = Some x).
Context (Hstores : forall cmd m a tr m' x, sp_twice cmd = false -> sp_answers cmd m a tr m' -> stores cmd a tr x ->
  m id = None /\ m' id = Some x).
Context (Honce : forall cmd a tr x, stores cmd a tr x -> sp_twice cmd = false).

(** The thread has stored the chunk, with this content. *)
Definition won (t : athread (C:=C) (A:=A)) (x : chunk) : Prop :=
  match t with
  | ARunning cmd [(m, m')] => sp_twice cmd = false /\ m id = None /\ m' id = Some x
  | AFinished cmd a tr => stores cmd a tr x
  | _ => False
  end.

Definition acommand (t : athread (C:=C) (A:=A)) : C :=
  match t with AWaiting cmd | ARunning cmd _ | AFinished cmd _ _ => cmd end.

(** The chunk is there as the winner stored it, and there is one winner. *)
Definition one_winner (a : aconfig (C:=C) (A:=A)) : Prop :=
  (forall n t, ac_threads a !! n = Some t -> spares (acommand t)) /\
  (forall n t x, ac_threads a !! n = Some t -> won t x -> ac_store a id = Some x) /\
  (forall n k t t' x x', n <> k -> ac_threads a !! n = Some t -> ac_threads a !! k = Some t' ->
     won t x -> won t' x' -> False).

(** ** Lemmas *)

Lemma acommand_step t m t' m' : athread_step (t, m) (t', m') -> acommand t' = acommand t.
Proof. intros Hs. by inversion Hs. Qed.

(** A step leaves the chunk alone and wins nothing, or stores it and wins. *)
Lemma won_step t m t' m' :
  athread_step (t, m) (t', m') -> spares (acommand t) ->
  (m' id = m id /\ forall x, won t' x -> won t x) \/
  (m id = None /\ exists x, m' id = Some x /\ forall x', won t' x' -> x' = x).
Proof.
  intros Hs Hdel. inversion Hs as [cmd ? E1 E2|cmd moments ? ? Hact E1 E2|cmd moments ? a tr Hret E1 E2]; subst; cbn in Hdel.
  - left. by split.
  - unfold may_act in Hact. destruct (sp_twice cmd) eqn:Htw.
    { left. destruct Hact as [_ E]. split; [apply E|]. intros x Hw.
      destruct (moments ++ [(m, m')]) as [|[? ?] [|]]; cbn in Hw; try done. destruct Hw as (? & _). congruence. }
    destruct Hact as (-> & a & tr & Ha). destruct (Hspares _ _ _ _ _ Ha Hdel) as [E|(Hn & x & Hs')].
    + left. split; [done|]. cbn. intros x (_ & Hn & Hs'). congruence.
    + right. split; [done|]. exists x. split; [done|]. cbn. intros x' (_ & _ & Hx'). congruence.
  - left. split; [done|]. intros x Hw. cbn in Hw. pose proof (Honce _ _ _ _ Hw) as Htw.
    unfold may_return in Hret. rewrite Htw in Hret. destruct Hret as (m1 & m1' & -> & Ha).
    split; [done|]. by eapply Hstores.
Qed.

Lemma one_winner_step n a a' : aconfig_step n a a' -> one_winner a -> one_winner a'.
Proof.
  intros Hs (Hdel & Hst & Hone). destruct Hs as [ths m t t' m' Hn Hs]. cbn [ac_threads ac_store] in *.
  assert (Hget : forall k tk, <[n := t']> ths !! k = Some tk -> k = n /\ tk = t' \/ k <> n /\ ths !! k = Some tk).
  { intros k tk Hk. destruct (decide (k = n)) as [->|Hne]; [left|right].
    - rewrite list_lookup_insert_eq in Hk by (by eapply lookup_lt_Some). by injection Hk as ->.
    - by rewrite list_lookup_insert_ne in Hk. }
  pose proof (won_step _ _ _ _ Hs (Hdel _ _ Hn)) as Hw. split_and!; cbn [ac_threads ac_store].
  - intros k tk [[-> ->]|[_ Hk]]%Hget; [|by eapply Hdel]. rewrite (acommand_step _ _ _ _ Hs). by eapply Hdel.
  - intros k tk x [[-> ->]|[Hne Hk]]%Hget Hx; destruct Hw as [[-> Hw]|(Hnone & y & Hy & Hw)].
    + eapply Hst; [exact Hn|by apply Hw].
    + by rewrite (Hw _ Hx).
    + by eapply Hst.
    + rewrite (Hst _ _ _ Hk Hx) in Hnone. done.
  - intros j k tj tk x x' Hjk [[-> ->]|[Hj1 Hj2]]%Hget [[-> ->]|[Hk1 Hk2]]%Hget Hx Hx'; try done;
      destruct Hw as [[_ Hw]|(Hnone & _)].
    + eapply (Hone n k); [done|exact Hn|exact Hk2|by apply Hw|done].
    + rewrite (Hst _ _ _ Hk2 Hx') in Hnone. done.
    + eapply (Hone j n); [done|exact Hj2|exact Hn|done|by apply Hw].
    + rewrite (Hst _ _ _ Hj2 Hx) in Hnone. done.
    + by eapply (Hone j k).
    + by eapply (Hone j k).
Qed.

Lemma one_winner_turn n a a' : aturn n a a' -> one_winner a -> one_winner a'.
Proof. induction 1; [done|]. intros Hw. by eauto using one_winner_step. Qed.

Lemma one_winner_initial cmds m : Forall (fun x => spares x.1) cmds -> one_winner (abstract_initial (C:=C) (A:=A) cmds m).
Proof.
  intros Hd.
  assert (Hw : forall n t, ac_threads (abstract_initial (C:=C) (A:=A) cmds m) !! n = Some t -> exists cmd, t = AWaiting cmd /\ spares cmd).
  { intros n t Hn. cbn in Hn. rewrite list_lookup_fmap in Hn. destruct (cmds !! n) as [[cmd l]|] eqn:E; [|done].
    injection Hn as <-. exists cmd. split; [done|]. exact (Forall_lookup_1 _ _ _ _ Hd E). }
  split_and!.
  - intros n t Hn. by destruct (Hw _ _ Hn) as (cmd & -> & ?).
  - intros n t x Hn Hx. by destruct (Hw _ _ Hn) as (cmd & -> & ?).
  - intros n k t t' x x' _ Hn _ Hx. by destruct (Hw _ _ Hn) as (cmd & -> & ?).
Qed.

(** *** What the operations saw of the chunk

    Nobody takes the chunk away, so a store at which an operation acted, or
    looked, had what is there now, or nothing yet. *)
Definition was (m m1 : store_map) : Prop := m1 id = None \/ m1 id = m id.

Definition explained (m : store_map) (t : athread (C:=C) (A:=A)) : Prop :=
  match t with
  | AWaiting _ => True
  | ARunning _ moments => Forall (fun x => was m x.1 /\ was m x.2) moments
  | AFinished cmd a tr => exists moments, may_return cmd moments a tr /\ Forall (fun x => was m x.1 /\ was m x.2) moments
  end.

Definition settled (a : aconfig (C:=C) (A:=A)) : Prop :=
  Forall (fun t => spares (acommand t) /\ explained (ac_store a) t) (ac_threads a).

(** The chunk stays as it is, or appears. *)
Definition stays (m m' : store_map) : Prop := m' id = m id \/ m id = None.

Lemma was_stays m m' m1 : stays m m' -> was m m1 -> was m' m1.
Proof. unfold stays, was. intros [E|E] [Hw|Hw]; rewrite ?Hw, ?E; auto. Qed.

Lemma athread_stays t m t' m' : athread_step (t, m) (t', m') -> spares (acommand t) -> stays m m'.
Proof.
  intros Hs Hsp. inversion Hs as [|cmd moments ? ? Hact E1 E2|]; subst; [by left| |by left]. cbn in Hsp.
  unfold may_act in Hact. destruct (sp_twice cmd); [by left; apply Hact|].
  destruct Hact as (_ & a & tr & Ha). destruct (Hspares _ _ _ _ _ Ha Hsp) as [E|[E _]]; [by left|by right].
Qed.

Lemma explained_stays m m' t : stays m m' -> explained m t -> explained m' t.
Proof.
  intros Hm. assert (Hall : forall l : list (store_map * store_map),
    Forall (fun x => was m x.1 /\ was m x.2) l -> Forall (fun x => was m' x.1 /\ was m' x.2) l).
  { intros l Hl. revert Hl. apply Forall_impl. intros x []. split; by eapply was_stays. }
  destruct t as [|cmd moments|cmd a tr]; [done|apply Hall|]. intros (moments & Hr & Hl). exists moments. auto.
Qed.

Lemma explained_step t m t' m' :
  athread_step (t, m) (t', m') -> spares (acommand t) -> explained m t -> explained m' t'.
Proof.
  intros Hs Hsp He. pose proof (athread_stays _ _ _ _ Hs Hsp) as Hm.
  inversion Hs as [|cmd moments ? ? Hact E1 E2|cmd moments ? a tr Hret]; subst.
  - by apply Forall_nil_2.
  - apply Forall_app_2; [exact (explained_stays _ _ (ARunning cmd moments) Hm He)|]. apply Forall_singleton.
    split; [|by right]. eapply was_stays; [exact Hm|by right].
  - by exists moments.
Qed.

Lemma settled_step n a a' : aconfig_step n a a' -> settled a -> settled a'.
Proof.
  intros [ths m t t' m' Hn Hs] Hset. unfold settled in *. cbn [ac_threads ac_store] in *.
  destruct (Forall_lookup_1 _ _ _ _ Hset Hn) as [Hsp He].
  apply Forall_insert.
  - revert Hset. apply Forall_impl. intros u [? Hu]. split; [done|].
    eapply explained_stays; [by eapply athread_stays|exact Hu].
  - split; [by rewrite (acommand_step _ _ _ _ Hs)|]. by eapply explained_step.
Qed.

Lemma settled_turn n a a' : aturn n a a' -> settled a -> settled a'.
Proof. induction 1; [done|]. eauto using settled_step. Qed.

Lemma settled_initial cmds m : Forall (fun x => spares x.1) cmds -> settled (abstract_initial (C:=C) (A:=A) cmds m).
Proof. intros Hd. apply Forall_fmap. revert Hd. apply Forall_impl. by intros x Hx. Qed.

Lemma agree_finished (ths : list (thread (C:=C) (A:=A))) aths n cmd a l :
  Forall2 agree ths aths -> ths !! n = Some (Finished cmd a l) -> aths !! n = Some (AFinished cmd a (l_trace l)).
Proof.
  intros Hag Hn. destruct (Forall2_lookup_l _ _ _ _ _ Hag Hn) as ([| |cmd' x' tr] & Hak & Hr); try done.
  by destruct Hr as (-> & -> & <-).
Qed.

(** So it is with any run of the code. *)
Section Run.
Context `{Blake3} (root : string) (code : C -> prog A) `{!Linearizable root code}.

Lemma one_winner_run cmds f ns c n cmd a l x :
  store_ok root f -> Forall (fun x => op_fits x.1 x.2) cmds -> undisturbed root code cmds f -> Forall (fun x => spares x.1) cmds ->
  schedule (config_step code) ns (initial cmds f) c ->
  cf_threads c !! n = Some (Finished cmd a l) -> stores cmd a (l_trace l) x ->
  chunks root (cf_fs c) id = Some x /\ chunk_valid x /\
  forall k cmd' a' l' x', k <> n -> cf_threads c !! k = Some (Finished cmd' a' l') -> ~ stores cmd' a' (l_trace l') x'.
Proof.
  intros Hok Hb Hu Hsp Hs Hn Hx.
  destruct (linearization root code cmds f ns c Hok Hb Hu Hs) as (Hokc & _ & b & Ha & Hm & Hagree).
  assert (Hw : one_winner b).
  { eapply schedule_invariant; [|exact Ha|by apply one_winner_initial]. intros. by eapply one_winner_turn. }
  assert (Hfin : forall k cmd a l, cf_threads c !! k = Some (Finished cmd a l) ->
    ac_threads b !! k = Some (AFinished cmd a (l_trace l))) by (intros *; by apply agree_finished).
  destruct Hw as (_ & Hst & Hone). pose proof (Hst _ _ x (Hfin _ _ _ _ Hn) Hx) as Hin.
  assert (Hc : chunks root (cf_fs c) id = Some x) by (by rewrite (Hm id)).
  split_and!; [done|by eapply chunks_valid|].
  intros k cmd' a' l' x' Hkn Hk Hx'. eapply (Hone n k); [done|by apply Hfin|by apply Hfin|done|done].
Qed.

(** What an operation that has returned answered, it answered for stores that the
    final one explains. *)
Lemma settled_run cmds f ns c n cmd a l :
  store_ok root f -> Forall (fun x => op_fits x.1 x.2) cmds -> undisturbed root code cmds f -> Forall (fun x => spares x.1) cmds ->
  schedule (config_step code) ns (initial cmds f) c ->
  cf_threads c !! n = Some (Finished cmd a l) ->
  exists moments, may_return cmd moments a (l_trace l) /\
    Forall (fun x => was (chunks root (cf_fs c)) x.1 /\ was (chunks root (cf_fs c)) x.2) moments.
Proof.
  intros Hok Hb Hu Hsp Hs Hn.
  destruct (linearization root code cmds f ns c Hok Hb Hu Hs) as (_ & _ & b & Ha & Hm & Hagree).
  assert (Hw : settled b).
  { eapply schedule_invariant; [|exact Ha|by apply settled_initial]. intros. by eapply settled_turn. }
  destruct (Forall_lookup_1 _ _ _ _ Hw (agree_finished _ _ _ _ _ _ Hagree Hn)) as [_ He].
  apply (explained_stays _ (chunks root (cf_fs c))) in He; [exact He|]. left. exact (Hm id).
Qed.

End Run.

End Winner.

