(* ===== verification/Answers.v ===== *)
(** * What an operation may answer when others run at the same time, and that it
    answers so when its calls see the files of one moment (of two for a Get,
    which opens the chunk twice). *)
From stdpp Require Import functions.
From S2P Require Import Prelude Status Types Path Proto System Prog UniqueFd Blake3 FileIO Files.
From S2P Require Import ChunkFormat Streams ChunkStore FileStore StorePaths StoreRead StorePut StoreSpec Sequence.
From S2P Require Import Concurrent Protocol Interference Names Interleaving Linearize.

(** ** Definitions *)

(** The answers to faults. *)
Definition fault_answer (cmd : command) (a : answer) : Prop :=
  match cmd with
  | DoPut _ _ _ => a = PutAnswer kIoError \/ a = PutAnswer kUnavailable
  | DoGet _ => a = GetAnswer kIoError []
  | DoHead _ => a = HeadAnswer kIoError None
  | DoDelete _ => a = DeleteAnswer kIoError
  | DoSize _ => a = SizeAnswer kIoError None
  | DoExists _ => a = ExistsAnswer false
  end.

Section Answers.
Context `{Blake3} (accepts : ChunkId -> bool).
(** When all is [calm], nothing but the requests and the stored chunks can make an
    operation fail. *)
Context (calm : Prop).

(** One moment decides: the abstract store holds [m] before and [m'] after the
    operation, which has acted as the abstract operation does, or met a fault;
    only a Put can have acted and still report a fault. *)
Definition answers (cmd : command) (m : store_map) (a : answer) (m' : store_map) : Prop :=
  (a = (abstract_one accepts m cmd).1 /\ same_map (abstract_one accepts m cmd).2 m') \/
  (~ calm /\ fault_answer cmd a /\
   (same_map m m' \/
    exists addr req data, cmd = DoPut addr req data /\ same_map (abstract_one accepts m cmd).2 m')).

(** Two moments decide a Get: at the first the range is checked against the
    chunk, at the second the chunk is opened for reading. *)
Inductive get_answers (req : GetChunkRequest) (m1 m2 : store_map) : answer -> Prop :=
| ga_refused c :
    (abstract_one accepts m1 (DoGet req)).1 = GetAnswer c [] -> c <> kOk ->
    get_answers req m1 m2 (GetAnswer c [])
| ga_fault : ~ calm -> get_answers req m1 m2 (GetAnswer kIoError [])
| ga_gone c1 p1 :
    m1 (get_chunk_id req) = Some (c1, p1) -> m2 (get_chunk_id req) = None ->
    get_answers req m1 m2 (GetAnswer kNotFound [])
| ga_done c1 p1 c2 p2 out :
    accepts (get_chunk_id req) = true ->
    m1 (get_chunk_id req) = Some (c1, p1) -> ok (ValidateByteRange (range req) (blen p1)) = true ->
    m2 (get_chunk_id req) = Some (c2, p2) ->
    out = ztake (size (range req)) (zdrop (offset (range req)) p2) -> blen out = size (range req) ->
    get_answers req m1 m2 (GetAnswer kOk out)
| ga_cut c1 p1 c2 p2 c out :
    m1 (get_chunk_id req) = Some (c1, p1) -> ok (ValidateByteRange (range req) (blen p1)) = true ->
    m2 (get_chunk_id req) = Some (c2, p2) ->
    out `prefix_of` ztake (size (range req)) (zdrop (offset (range req)) p2) ->
    c = kIoError /\ ~ calm \/
    c = kCorruption /\ blen p2 < offset (range req) + size (range req) /\
      out = ztake (size (range req)) (zdrop (offset (range req)) p2) ->
    get_answers req m1 m2 (GetAnswer c out).

(** The same for the code of Get over any output, with its status: it has handed
    out [out], and may have been [broken] off by the output. *)
Inductive get_outcomes (req : GetChunkRequest) (m1 m2 : store_map) (broken : Prop) : Status -> list byte -> Prop :=
| go_invalid st :
    accepts (get_chunk_id req) = false -> code st = kInvalidArgument -> get_outcomes req m1 m2 broken st []
| go_missing st :
    accepts (get_chunk_id req) = true -> m1 (get_chunk_id req) = None -> code st = kNotFound ->
    get_outcomes req m1 m2 broken st []
| go_range c1 p1 :
    accepts (get_chunk_id req) = true -> m1 (get_chunk_id req) = Some (c1, p1) ->
    ok (ValidateByteRange (range req) (blen p1)) = false ->
    get_outcomes req m1 m2 broken (ValidateByteRange (range req) (blen p1)) []
| go_fault st : code st = kIoError -> ~ calm -> get_outcomes req m1 m2 broken st []
| go_gone st c1 p1 :
    m1 (get_chunk_id req) = Some (c1, p1) -> m2 (get_chunk_id req) = None -> code st = kNotFound ->
    get_outcomes req m1 m2 broken st []
| go_done c1 p1 c2 p2 out :
    accepts (get_chunk_id req) = true ->
    m1 (get_chunk_id req) = Some (c1, p1) -> ok (ValidateByteRange (range req) (blen p1)) = true ->
    m2 (get_chunk_id req) = Some (c2, p2) ->
    out = ztake (size (range req)) (zdrop (offset (range req)) p2) -> blen out = size (range req) ->
    get_outcomes req m1 m2 broken Status_Ok out
| go_cut st c1 p1 c2 p2 out :
    m1 (get_chunk_id req) = Some (c1, p1) -> ok (ValidateByteRange (range req) (blen p1)) = true ->
    m2 (get_chunk_id req) = Some (c2, p2) ->
    out `prefix_of` ztake (size (range req)) (zdrop (offset (range req)) p2) -> ok st = false ->
    (code st = kIoError /\ ~ calm \/
     code st = kCorruption /\ blen p2 < offset (range req) + size (range req) /\
       out = ztake (size (range req)) (zdrop (offset (range req)) p2) \/ broken) ->
    get_outcomes req m1 m2 broken st out.

(** ** Lemmas *)

Lemma get_outcomes_answers req m1 m2 st out :
  get_outcomes req m1 m2 False st out -> get_answers req m1 m2 (GetAnswer (code st) out).
Proof.
  intros [st' Ha Hc|st' Ha Hn Hc|c p Ha Hm Hv|st' Hc Hno|st' c1 p1 H1 H2 Hc|c1 p1 c2 p2 out' Ha H1 Hr H2 Ho Hl|st' c1 p1 c2 p2 out' H1 Hr H2 Ho _ Hc].
  - rewrite Hc. apply ga_refused; [|done]. cbn. by rewrite Ha.
  - rewrite Hc. apply ga_refused; [|done]. cbn. by rewrite Ha, Hn.
  - rewrite ValidateByteRange_code by done. apply ga_refused; [|done]. cbn. by rewrite Ha, Hm, Hv.
  - rewrite Hc. by apply ga_fault.
  - rewrite Hc. by eapply ga_gone.
  - by eapply ga_done.
  - eapply ga_cut; try done. destruct Hc as [Hc|[Hc|[]]]; auto.
Qed.

(** A download that succeeds hands out the range of the chunk it opened. *)
Lemma get_outcomes_ok req m1 m2 broken st out :
  get_outcomes req m1 m2 broken st out -> ok st = true ->
  exists c p, m2 (get_chunk_id req) = Some (c, p) /\ out = ztake (size (range req)) (zdrop (offset (range req)) p) /\
    blen out = size (range req).
Proof.
  intros [st' Ha Hc|st' Ha Hn Hc|c p Ha Hm Hv|st' Hc Hno|st' c1 p1 H1 H2 Hc|c1 p1 c2 p2 out' Ha H1 Hr H2 Ho Hl|st' c1 p1 c2 p2 out' H1 Hr H2 Ho Hst Hc]
    Hok; try (apply ok_code in Hok; congruence); try congruence.
  by exists c2, p2.
Qed.

(** With nothing to stop it, a download of a range of the first chunk hands out what
    the second one has of it. *)
Lemma get_outcomes_replaced req m1 m2 st out c1 p1 c2 p2 :
  calm -> 0 <= offset (range req) -> 0 < size (range req) -> accepts (get_chunk_id req) = true ->
  m1 (get_chunk_id req) = Some (c1, p1) -> ok (ValidateByteRange (range req) (blen p1)) = true ->
  m2 (get_chunk_id req) = Some (c2, p2) -> get_outcomes req m1 m2 False st out ->
  out = ztake (size (range req)) (zdrop (offset (range req)) p2) /\
  code st = if bool_decide (offset (range req) + size (range req) <= blen p2) then kOk else kCorruption.
Proof.
  intros Hcalm Hoff Hpos Hacc E1 Hin E2
    [st' Ha Hc|st' Ha Hn Hc|c p Ha Hm Hv|st' Hc Hno|st' c p H1 H2 Hc|c p c' p' out' Ha H1 Hr H2 Ho Hl|st' c p c' p' out' H1 Hr H2 Ho Hst Hc];
    try congruence.
  - rewrite E2 in H2. injection H2 as <- <-. split; [done|]. rewrite bool_decide_true; [done|].
    subst out'. unfold blen, ztake, zdrop in *. rewrite length_take, length_drop in Hl. lia.
  - rewrite E2 in H2. injection H2 as <- <-.
    destruct Hc as [[_ Hno]|[(Hc & Hlt & Hx)|[]]]; [by destruct Hno|].
    split; [done|]. rewrite bool_decide_false by lia. done.
Qed.

Lemma get_outcomes_proper req m1 m1' m2 m2' broken st out :
  same_map m1 m1' -> same_map m2 m2' -> get_outcomes req m1 m2 broken st out -> get_outcomes req m1' m2' broken st out.
Proof.
  intros E1 E2 [st' Ha Hc|st' Ha Hn Hc|c p Ha Hm Hv|st' Hc Hno|st' c1 p1 H1 H2 Hc|c1 p1 c2 p2 out' Ha H1 Hr H2 Ho Hl|st' c1 p1 c2 p2 out' H1 Hr H2 Ho Hst Hc];
    pose proof (E1 (get_chunk_id req)) as Ea; pose proof (E2 (get_chunk_id req)) as Eb.
  - by apply go_invalid.
  - apply go_missing; congruence.
  - eapply go_range; [done|rewrite Ea; exact Hm|done].
  - by apply go_fault.
  - eapply go_gone; [rewrite Ea; exact H1|congruence|done].
  - eapply go_done; [done|rewrite Ea; exact H1|done|rewrite Eb; exact H2|done|done].
  - eapply go_cut; [rewrite Ea; exact H1|done|rewrite Eb; exact H2|done..].
Qed.

Lemma answers_proper cmd m1 m2 a m1' m2' :
  same_map m1 m2 -> same_map m1' m2' -> answers cmd m1 a m1' -> answers cmd m2 a m2'.
Proof.
  intros E E' Ha. destruct (abstract_one_proper accepts _ _ cmd E) as [E1 E2].
  assert (Es : same_map (abstract_one accepts m1 cmd).2 m1' -> same_map (abstract_one accepts m2 cmd).2 m2').
  { intros Hs. rewrite <- E', <- Hs. by symmetry. }
  destruct Ha as [[-> Hm]|(Hno & Hf & [Hm|(addr & req & data & -> & Hm)])].
  - left. split; [done|by apply Es].
  - right. split; [done|split; [done|left]]. by rewrite <- E', <- Hm.
  - right. split; [done|split; [done|right]]. exists addr, req, data. split; [done|by apply Es].
Qed.

Lemma get_answers_proper req m1 m1' m2 m2' a :
  same_map m1 m1' -> same_map m2 m2' -> get_answers req m1 m2 a -> get_answers req m1' m2' a.
Proof.
  intros E1 E2 [c Hc Hne|Hno|c1 p1 H1 H2|c1 p1 c2 p2 out Hacc H1 Hr H2 Ho Hl|c1 p1 c2 p2 c out H1 Hr H2 Ho Hc];
    rewrite <- ?(E1 (get_chunk_id req)), <- ?(E2 (get_chunk_id req)) in *.
  - apply ga_refused; [|done]. by rewrite (proj1 (abstract_one_proper accepts _ _ (DoGet req) E1)).
  - by apply ga_fault.
  - by eapply ga_gone.
  - by eapply ga_done.
  - by eapply ga_cut.
Qed.

(** The sequential specifications say as much. *)

Lemma put_spec_answers (calm' : Prop) m req o data fin addr st m' :
  (calm -> calm') -> (fin <-> drop o data = []) ->
  put_spec (accepts (put_chunk_id req)) calm' False m req (take o data) fin st m' ->
  answers (DoPut addr req data) m (PutAnswer (code st)) m'.
Proof.
  intros Hcalm Hfin Hs.
  assert (Hall : fin -> take o data = data).
  { intros Hd%Hfin. rewrite <- (take_drop o data) at 2. by rewrite Hd, app_nil_r. }
  unfold answers. cbn [abstract_one fault_answer].
  destruct Hs as [st m' Ha Hc Hd Hm|st m' Ha Hr Hm|st m' Ha Hf Hdm Hn Hm Hst]; rewrite Ha; cbn [negb].
  - left. by rewrite Hc.
  - destruct Hr as [st _ Ht|st Hc Hdm Hwhy|st Hc Hf Hdm Hex|st [Hc|Hc] Hno]; [done|left|left|right..].
    + rewrite bool_decide_false; cbn [negb]; [by rewrite Hc|].
      destruct Hwhy as [Hf|Hlt]; [by rewrite <- (Hall Hf)|].
      intros [E _]. unfold blen in *. rewrite length_take in Hlt. lia.
    + rewrite (Hall Hf) in Hdm. rewrite bool_decide_true by done. cbn [negb].
      destruct Hex as [x ->]. by rewrite Hc.
    + rewrite Hc. split; [by intros ?%Hcalm|auto].
    + rewrite Hc. split; [by intros ?%Hcalm|auto].
  - rewrite (Hall Hf) in Hdm, Hm. rewrite bool_decide_true by done. cbn [negb]. rewrite Hn.
    destruct Hst as [->|[Hc Hno]]; [by left|right]. rewrite Hc. split; [by intros ?%Hcalm|split; [by left|right]].
    exists addr, req, data. done.
Qed.

Lemma head_spec_answers (calm' : Prop) m id r :
  (calm -> calm') -> head_spec (accepts id) calm' m id r ->
  abstract_head accepts m id = (code (so_status r), so_value r) \/
  (~ calm /\ code (so_status r) = kIoError /\ so_value r = None).
Proof.
  intros Hcalm Hs. unfold abstract_head.
  destruct Hs as [st Ha Hc|st Ha Hn Hc|c p Ha Hm|st Ha Hc Hno]; rewrite Ha; cbn [negb].
  - left. cbn. by rewrite NormalizeError_id, Hc by (apply not_ok_code; congruence).
  - left. rewrite Hn. cbn. by rewrite NormalizeError_id, Hc by (apply not_ok_code; congruence).
  - left. by rewrite Hm.
  - right. cbn. rewrite NormalizeError_id by (apply not_ok_code; congruence). split; [by intros ?%Hcalm|done].
Qed.

Lemma delete_spec_answers (calm' : Prop) m id st m' :
  (calm -> calm') -> delete_spec (accepts id) calm' m id st m' -> answers (DoDelete id) m (DeleteAnswer (code st)) m'.
Proof.
  intros Hcalm Hs. unfold answers. cbn [abstract_one fault_answer].
  destruct Hs as [st m' Ha Hc Hm|st m' Ha Hn Hc Hm|m' Ha [x Hx] Hm|st m' Ha Hc Hno Hm]; rewrite ?Ha; cbn [negb].
  - left. by rewrite Hc.
  - left. by rewrite Hn, Hc.
  - left. by rewrite Hx.
  - right. rewrite Hc. split; [by intros ?%Hcalm|auto].
Qed.

End Answers.

(** The operations of the store, as operations of the abstract machine. *)
Definition is_get (cmd : command) : bool := match cmd with DoGet _ => true | _ => false end.

Definition store_specification `{Blake3} (calm : Prop) : Specification command answer := {|
  sp_twice := is_get;
  sp_answers cmd m a _ m' := answers (fun id => ok (ValidateId id)) calm cmd m a m';
  sp_reads cmd m1 m2 a _ :=
    match cmd with DoGet req => get_answers (fun id => ok (ValidateId id)) calm req m1 m2 a | _ => False end |}.

(** Locals an operation can start from: the fuel suffices, and when all is calm
    nothing is in its way. *)
Definition store_fits `{Libc, Blake3} (root : string) (fuel : nat) (calm : Prop) (cmd : command) (l : locals) : Prop :=
  bounded (mkFileChunkStore root) fuel (l_events l) cmd /\
  (calm -> l_quiet l = true /\ admissible (mkFileChunkStore root) fuel (l_events l) cmd).
(** The stream an operation reads from, by its address. *)
Definition store_stream (cmd : command) : option Z := match cmd with DoPut addr _ _ => Some addr | _ => None end.

(** ** FileChunkStore *)

Section Store.
Context `{Libc} `{Blake3} (root : string) (fuel : nat) (calm : Prop).
Abbreviation store := (mkFileChunkStore root).
Abbreviation accepts := (fun id => ok (ValidateId id)).

Lemma execute_one_answers cmd g l :
  is_get cmd = false -> store_ok root g -> store_fits root fuel calm cmd l ->
  (calm -> forall q, temps_for root (store_stream cmd) q -> f_names g !! q = None) ->
  wp (execute_one store fuel cmd) (verdict root (fun m a _ m' => answers accepts calm cmd m a m') g) (join l g).
Proof.
  intros Hget Hok [Hb Hcalm] Hfree. unfold verdict.
  assert (Hhead : forall id s' h, s_fs s' = g ->
    head_spec (accepts id) (l_quiet l = true /\ name_fits (PathFor root id) = true) (chunks root g) id h ->
    store_ok root (s_fs s') /\ same_map (chunks root g) (chunks root (s_fs s')) /\
    ((calm -> l_quiet l = true /\ name_fits (PathFor root id) = true) ->
     abstract_head accepts (chunks root g) id = (code (so_status h), so_value h) \/
     (~ calm /\ code (so_status h) = kIoError /\ so_value h = None))).
  { intros id s' h -> Hs. split_and!; [done|done|]. intros Hc. by apply (head_spec_answers accepts calm _ _ _ _ Hc) in Hs. }
  assert (reach : forall X Y : Prop, (calm -> l_quiet l = true /\ X /\ Y) -> calm -> l_quiet l = true /\ X).
  { intros X Y HXY Hc. by destruct (HXY Hc) as (? & ? & _). }
  destruct cmd as [addr req data|req|id|id|id|id]; cbn [execute_one bounded admissible] in *; [| |..]; try done.
  - destruct Hb as [Hsz Hf].
    eapply wp_bind_returns; [exact (cs_Put_ok (VectorInput data) store fuel addr req (mkVectorInput 0) (join l g) Hok Hsz I Hf)|].
    intros [st x] s' (Hl & Hok' & _ & d & Hd & Hs). apply wp_ret. cbn [fst snd] in *. split; [done|].
    cbn in Hd. rewrite take_0 in Hd. cbn in Hd. subst d.
    refine (put_spec_answers accepts calm _ _ req (vi_offset x) data _ addr st _ _ (iff_refl _) Hs).
    intros Hc. destruct (Hcalm Hc) as (Hq & _ & Hroom & _). split; [exact Hq|split; [|exact Hroom]].
    intros pid. apply (Hfree Hc). by eexists _, _.
  - eapply wp_bind_returns; [exact (cs_Head_ok store fuel id (join l g) Hok Hb)|].
    intros r s' (_ & Hfs & Hs). apply wp_ret. destruct (Hhead _ _ _ Hfs Hs) as (? & Hm & Hr). split; [done|].
    unfold answers. cbn [abstract_one fault_answer].
    destruct (Hr (reach _ _ Hcalm)) as [->|(Hno & -> & ->)]; [by left|right; auto].
  - eapply wp_bind_returns; [exact (cs_Delete_ok store id (join l g) Hok)|].
    intros st s' (_ & Hok' & _ & Hs). apply wp_ret. split; [done|].
    exact (delete_spec_answers accepts calm _ _ id st _ Hcalm Hs).
  - eapply wp_bind_returns; [exact (cs_Size_ok store fuel id (join l g) Hok Hb)|].
    intros r s' (_ & Hfs & h & Hs & ->). apply wp_ret. destruct (Hhead _ _ _ Hfs Hs) as (? & Hm & Hr). split; [done|].
    unfold answers. cbn [abstract_one fault_answer].
    destruct (Hr (reach _ _ Hcalm)) as [->|(Hno & Hc & Hv)].
    + left. split; [|done]. destruct Hs; cbn; rewrite ?(NormalizeError_id (NormalizeError _)) by apply NormalizeError_not_ok; done.
    + right. rewrite Hv. cbn. rewrite NormalizeError_id by (apply not_ok_code; congruence). rewrite Hc. auto.
  - eapply wp_bind_returns; [exact (cs_Exists_ok store fuel id (join l g) Hok Hb)|].
    intros r s' (_ & Hfs & h & Hs & ->). apply wp_ret. destruct (Hhead _ _ _ Hfs Hs) as (? & Hm & Hr). split; [done|].
    unfold answers. cbn [abstract_one fault_answer]. unfold so_ok.
    destruct (Hr (reach _ _ Hcalm)) as [->|(Hno & Hc & ->)]; [by left|right; auto].
Qed.

(** ** Get, in two parts *)

Section Get.
Context {S : Type} `{ChunkOutputStream S}.

(** What follows [Head] in [Get]. *)
Definition Get_rest (request : GetChunkRequest) (output : S) (head : StatusOr HeadChunkResponse)
  : prog (Status * S) :=
  match so_value head with
  | None => mret (so_status head, output)
  | Some response =>
      let status := ValidateByteRange (range request) (hr_size response) in
      if negb (ok status) then mret (status, output)
      else
        let path := PathFor root (get_chunk_id request) in
        raw ← perform (Open path [O_RDONLY; O_CLOEXEC; O_NOFOLLOW]);
        UniqueFd.scope_const raw (fun fd =>
          if negb (UniqueFd.valid fd) then
            status ← open_failure (get_chunk_id request) "open" path; mret (status, output)
          else
            Get_loop fuel fuel (UniqueFd.get fd) (size (range request))
              (u64_add (offset (range request)) (Z.of_nat kHeaderSize)) output)
  end.

Lemma Get_split request output :
  Get fuel root request output = Head fuel root (get_chunk_id request) ≫= Get_rest request output.
Proof. done. Qed.

Lemma Get_rest_obeys `{!IdleOutput S} request output head :
  obeys root PStart (Get_rest request output head) (fun _ ph => ended ph).
Proof.
  unfold Get_rest, ended. destruct (so_value head) as [response|]; [|apply obeys_ret; by left].
  destruct (ok (ValidateByteRange _ _)); cbn [negb]; [|apply obeys_ret; by left].
  apply open_chunk_obeys; [..|auto].
  - intros r Hr. rewrite valid_make by done. cbn [negb]. apply Get_loop_stays.
  - intros r Hr. unfold UniqueFd.valid. rewrite bool_decide_false by (cbn; lia). cbn [negb].
    apply idles_bind; [apply open_failure_idles|]. intros. apply idles_ret.
Qed.

Lemma Get_rest_creates `{!IdleOutput S} makes request output head :
  creates root makes (Get_rest request output head).
Proof.
  eapply begins_creates; [apply Get_rest_obeys|]. unfold Get_rest.
  destruct (so_value head) as [response|]; [|done]. cbn zeta. destruct (negb _); [done|]. apply read_begins.
Qed.

End Get.

(** The loop on a file of any length: it delivers a prefix of the range, all of
    it when it reports success, and blames the file only if it is too short. *)
Section Loop.
Context {S : Type} `{OutputContract S}.

Lemma Get_loop_any_wp fl pfuel fd i nd remaining off (output : S) s :
  reading s fd i 0 nd -> (s_events s < pfuel)%nat -> 0 <= remaining -> 0 <= off ->
  off + remaining <= off_max -> (Z.to_nat remaining < fl)%nat ->
  wp (Get_loop fl pfuel fd remaining off output)
    (returns (fun r s' => s_fs s' = s_fs s /\ exists d,
       out_written r.2 (s_trace s') = out_written output (s_trace s) ++ d /\
       d `prefix_of` ztake remaining (zdrop off (i_data nd)) /\
       (r.1 = Status_Ok /\ blen d = remaining \/
        ok r.1 = false /\ (code r.1 = kIoError /\ s_quiet s = false \/ code r.1 = kCorruption /\ blen (i_data nd) < off + remaining /\ d = ztake remaining (zdrop off (i_data nd)) \/
          out_broken r.2 (s_trace s'))))) s.
Proof.
  revert remaining off output s.
  induction fl as [|fl IH]; intros remaining off output s Hr He Hrem Hoff Hmax Hf; [lia|].
  cbn [Get_loop]. case_bool_decide as Hpos; cycle 1.
  { apply wp_ret. split; [done|]. exists []. rewrite app_nil_r.
    split_and!; [done|apply prefix_nil|left; split; [done|]]. change (0 = remaining). lia. }
  eapply wp_bind_returns; [apply (PreadSome_wp _ _ _ _ i 0 nd); [done|lia|done]|].
  intros r s1 ([[Hq1 Hev] Htr1] & Hfs & [(k & Hk & ->)|(st & -> & Hst & Hq)]); cycle 1.
  { assert (Hnok : ok st = false) by (apply not_ok_code; congruence).
    cbn [so_value SO_error so_status]. rewrite NormalizeError_id by done.
    apply wp_ret. split; [done|]. exists []. cbn [fst snd]. rewrite app_nil_r, Htr1. split_and!; [done|apply prefix_nil|auto]. }
  cbn [so_value SO_value]. pose proof (read_bytes_some _ _ _ _ Hk) as Hb. destruct Hk as (Hk1 & Hk2 & Hk3).
  set (bytes := take k _) in *. assert (Hbl : blen bytes = Z.of_nat k) by (unfold blen; by rewrite Hb).
  rewrite !Hbl. case_bool_decide as Hk0.
  { apply wp_ret. split; [done|]. exists []. cbn [fst snd]. rewrite app_nil_r, Htr1. split_and!; [done|apply prefix_nil|].
    assert (Heof : (length (i_data nd) <= Z.to_nat off)%nat) by (destruct (Hk3 ltac:(lia)); [unfold kBufferSize in *; lia|lia]).
    right. split; [done|]. right. left. split; [done|]. unfold blen, ztake, zdrop.
    split; [lia|]. by rewrite drop_ge, take_nil by lia. }
  eapply wp_bind_returns; [exact (out_Write_ok output bytes s1)|].
  intros [st output'] s2 ([Hq2 Hev2] & Hfs2 & Hw & Ht). cbn [fst snd] in *. rewrite Htr1 in Hw.
  destruct (ok st) eqn:Est; cbn [negb]; cycle 1.
  { apply wp_ret. split; [congruence|]. exists []. destruct Ht as [?|Ht]; [done|].
    split_and!; [done|apply prefix_nil|auto]. }
  assert (is_u64 remaining /\ is_u64 off) as [Hur Huo] by (unfold is_u64, off_max, u64_modulus in *; lia).
  rewrite u64_sub_small, u64_add_small by (unfold is_u64, off_max, u64_modulus, blen in *; lia).
  eapply wp_returns_mono.
  { apply IH; try lia. unfold reading. by rewrite Hfs2, Hfs. }
  intros [st3 o3] s3 (Hfs3 & d & Hw3 & Hpre & Hres). cbn [fst snd] in *.
  split; [congruence|]. exists (bytes ++ d). rewrite Hw3, Hw, <- app_assoc.
  assert (Hsplit : ztake remaining (zdrop off (i_data nd))
    = bytes ++ ztake (remaining - Z.of_nat k) (zdrop (off + Z.of_nat k) (i_data nd))).
  { rewrite <- zdrop_zdrop by lia. unfold bytes.
    replace (take k (drop (Z.to_nat off) (i_data nd))) with (ztake (Z.of_nat k) (zdrop off (i_data nd)))
      by (unfold ztake; by rewrite Nat2Z.id).
    rewrite ztake_app_zdrop by lia. f_equal. lia. }
  rewrite Hsplit. split_and!; [done|by apply prefix_app|].
  destruct Hres as [[Hc Hlen]|[Hst3 [Hc|[(Hc & Hlen & ->)|Hc]]]].
  - left. split; [done|]. rewrite blen_app, Hbl. lia.
  - right. split; [done|]. left. destruct Hc. split; [done|congruence].
  - right. split; [done|]. right. left. split; [done|split; [lia|done]].
  - auto.
Qed.

End Loop.

(** What [Head] says to [Get], of the store it saw; it leaves the traffic alone. *)
Definition head_goal (keep : list rpc_event -> Prop) (id : ChunkId) (m : store_map)
    (r : StatusOr HeadChunkResponse) (tr : list rpc_event) (m' : store_map) : Prop :=
  keep tr /\ same_map m m' /\ head_spec (accepts id) calm m id r /\
  (forall c p, m id = Some (c, p) -> 80 + blen p <= off_max).

Lemma head_spec_same acc (calm' : Prop) m m' id r :
  same_map m m' -> head_spec acc calm' m id r -> head_spec acc calm' m' id r.
Proof.
  intros E [st Ha Hc|st Ha Hn Hc|c p Ha Hm|st Ha Hc Hno].
  - by apply hs_invalid.
  - apply hs_missing; [done|by rewrite E|done].
  - apply hs_found; [done|by rewrite E].
  - by apply hs_fault.
Qed.

Lemma head_spec_weaken acc (calm1 calm2 : Prop) m id r :
  (calm2 -> calm1) -> head_spec acc calm1 m id r -> head_spec acc calm2 m id r.
Proof.
  intros Himp [st Ha Hc|st Ha Hn Hc|c p Ha Hm|st Ha Hc Hno];
    [by apply hs_invalid|by apply hs_missing|by apply hs_found|apply hs_fault; auto].
Qed.

Lemma head_goal_proper keep id m1 m2 r tr m1' m2' :
  same_map m1 m2 -> same_map m1' m2' -> head_goal keep id m1 r tr m1' -> head_goal keep id m2 r tr m2'.
Proof.
  intros E E' (Hk & Hm & Hs & Hr). split_and!.
  - done.
  - by rewrite <- E, <- E'.
  - by eapply head_spec_same.
  - intros c p Hp. apply (Hr c). by rewrite <- (E id).
Qed.

Lemma chunks_room f id c p : store_ok root f -> chunks root f id = Some (c, p) -> 80 + blen p <= off_max.
Proof.
  intros Hok Hx. unfold chunks in Hx.
  destruct (lookup_file f (PathFor root id)) as [d|] eqn:Hd; [|done].
  destruct (chunks_file _ _ _ _ Hok Hd) as (c' & p' & -> & [Hv _] & Hp & Hpl & Hmax).
  rewrite chunk_file_length in Hmax by done. change (file_chunk (chunk_file c' p') = Some (c, p)) in Hx.
  unfold file_chunk in Hx. rewrite Hp, Hpl in Hx.
  by injection Hx as <- <-.
Qed.

Lemma Head_goal_wp (keep : list rpc_event -> Prop) id g l :
  keep (l_trace l) -> store_ok root g -> (store_need 0 (l_events l) < fuel)%nat ->
  (calm -> l_quiet l = true /\ name_fits (PathFor root id) = true) ->
  wp (Head fuel root id) (verdict root (head_goal keep id) g) (join l g).
Proof.
  intros Hkeep Hok Hf Hcalm. unfold verdict. eapply wp_returns_mono; [exact (cs_Head_ok store fuel id (join l g) Hok Hf)|].
  intros r s' ([_ Htr] & Hfs & Hs). rewrite Hfs, Htr. split; [done|]. split_and!; [done|done|by eapply (head_spec_weaken _ _ _ _ _ _ Hcalm)|].
  intros c p. by apply chunks_room.
Qed.

(** The payload of a chunk file starts behind the header. *)
Lemma zdrop_chunk c p n :
  ok (ValidateChecksum c) = true -> 0 <= n -> zdrop (n + 80) (chunk_file c p) = zdrop n p.
Proof.
  intros Hc Hn. rewrite Z.add_comm, <- zdrop_zdrop by lia. f_equal.
  pose proof (file_payload_chunk_file c p Hc) as Hp. unfold file_payload in Hp.
  change (zdrop 80 (chunk_file c p)) with (drop kHeaderSize (chunk_file c p)). done.
Qed.

Section Rest.
Context {S : Type} `{OutputContract S}.

Lemma Get_rest_wp req m1 r (output : S) g l :
  store_ok root g -> is_u64 (offset (range req)) -> is_u64 (size (range req)) ->
  (store_need (size (range req)) (l_events l) < fuel)%nat ->
  head_spec (accepts (get_chunk_id req)) calm m1 (get_chunk_id req) r ->
  (forall c p, m1 (get_chunk_id req) = Some (c, p) -> 80 + blen p <= off_max) ->
  (calm -> l_quiet l = true /\ name_fits (PathFor root (get_chunk_id req)) = true) ->
  wp (Get_rest req output r) (returns (fun x s' => s_fs s' = g /\ exists d,
    out_written x.2 (s_trace s') = out_written output (l_trace l) ++ d /\
    get_outcomes accepts calm req m1 (chunks root g) (out_broken x.2 (s_trace s')) x.1 d)) (join l g).
Proof.
  intros Hok Ho Hsz Hf Hhead Hroom Hcalm.
  assert (Hret : forall st, (forall broken, get_outcomes accepts calm req m1 (chunks root g) broken st []) ->
    wp (mret (st, output)) (returns (fun x s' => s_fs s' = g /\ exists d,
      out_written x.2 (s_trace s') = out_written output (l_trace l) ++ d /\
      get_outcomes accepts calm req m1 (chunks root g) (out_broken x.2 (s_trace s')) x.1 d)) (join l g)).
  { intros st Hx. apply wp_ret. split; [done|]. exists []. by rewrite app_nil_r. }
  unfold Get_rest.
  destruct Hhead as [st Ha Hc|st Ha Hn Hc|c p Ha Hm|st Ha Hc Hno]; cbn [so_value SO_error SO_value so_status];
    rewrite ?NormalizeError_id by (apply not_ok_code; congruence).
  - apply Hret. intros. by apply go_invalid.
  - apply Hret. intros. by apply go_missing.
  - cbn [hr_size]. destruct (ok (ValidateByteRange _ _)) eqn:Hrange; cbn [negb]; cycle 1.
    { apply Hret. intros. by eapply go_range. }
    pose proof (Hroom _ _ Hm) as Hlen. pose proof (blen_nonneg p) as Hp0.
    assert (Hu : is_u64 (blen p)) by (unfold is_u64, off_max, u64_modulus in *; lia).
    pose proof (proj1 (ValidateByteRange_ok _ _ Ho Hsz Hu) Hrange) as Hin.
    eapply wp_bind_returns; [by apply (open_read_rule _ _ (join l g)); first [exact (so_wf _ _ Hok)|done]|].
    intros raw s2 [fd i nd e Hn Hi Hr Hfd|Hmiss|e He Hq]; cbn [s_fs join] in *.
    + pose proof (lookup_file_some _ _ _ _ Hn Hi) as Hlook.
      destruct (chunks_file _ _ _ _ Hok Hlook) as (c2 & p2 & Hd & [Hv _] & Hparse & Hpl & Hmax).
      pose proof (chunks_some _ _ _ _ _ _ Hok Hlook Hparse Hpl) as Hm2.
      eapply scope_const_wp; [|lia|].
      * rewrite valid_make by done. cbn [negb].
        rewrite u64_add_small by (rewrite ?kHeaderSize_eq; unfold is_u64, off_max, u64_modulus in *; lia).
        unfold store_need in Hf.
        eapply (Get_loop_any_wp _ _ _ i nd); [by apply opened_reading|..];
          rewrite ?kHeaderSize_eq; unfold is_u64 in *; cbn [s_events ret_st join]; lia.
      * intros _ [st o] s3 e3 (Hfs3 & x & Hw & Hpre & Hres). cbn [fst snd s_fs s_trace s_quiet ret_st join] in *.
        split; [by rewrite Hfs3; apply close_opened|]. exists x. split; [done|].
        rewrite kHeaderSize_eq, Hd in Hpre, Hres. change (Z.of_nat 80) with 80 in *.
        rewrite zdrop_chunk in Hpre by (done || (unfold is_u64 in Ho; lia)).
        rewrite chunk_file_length in Hres by done.
        destruct Hres as [[-> Hbl]|[Hst Hres]].
        { eapply go_done; try done. apply prefix_length_eq; [done|].
          unfold blen, ztake in *. rewrite length_take. lia. }
        { eapply go_cut; try done. destruct Hres as [[Hc Hq]|[(Hc & Hbl & Hx)|Hc]]; auto.
          - left. split; [done|]. intros [? _]%Hcalm. congruence.
          - right. left. split; [done|split; [lia|]]. rewrite Hx. apply f_equal.
            apply zdrop_chunk; [done|unfold is_u64 in Ho; lia]. }
    + eapply scope_const_wp; [|intros _ a s3 HP; exact HP|lia].
      rewrite valid_failed. cbn [negb].
      eapply wp_bind_returns; [apply open_failure_wp|]. intros st s3 ([_ Htr3] & Hfs3 & Hc).
      apply wp_ret. cbn [returns fst snd]. split; [done|]. exists []. rewrite Htr3, app_nil_r. split; [done|].
      rewrite bool_decide_true in Hc by done. eapply go_gone; [done| |done]. apply chunks_none; [done|].
      unfold lookup_file in Hmiss. destruct (f_names g !! _) as [i|] eqn:Hi; [|done].
      destruct (wf_names _ (so_wf _ _ Hok) _ _ Hi) as [nd Hnd]. cbn in Hmiss. by rewrite Hnd in Hmiss.
    + eapply scope_const_wp; [|intros _ a s3 HP; exact HP|lia].
      rewrite valid_failed. cbn [negb].
      eapply wp_bind_returns; [apply open_failure_wp|]. intros st s3 ([_ Htr3] & Hfs3 & Hc).
      apply wp_ret. cbn [returns fst snd]. split; [done|]. exists []. rewrite Htr3, app_nil_r. split; [done|].
      rewrite bool_decide_false in Hc by done. apply go_fault; [done|].
      intros [Hqt Hfit]%Hcalm. specialize (Hq Hqt). congruence.
  - apply Hret. intros. by apply go_fault.
Qed.

End Rest.

Definition Get_answer (req : GetChunkRequest) (head : StatusOr HeadChunkResponse) : prog answer :=
  r ← Get_rest req (mkVectorOutput []) head; mret (GetAnswer (code r.1) (vo_value r.2)).

Lemma Get_answer_wp keep req m1 r tr g l :
  store_ok root g -> is_u64 (offset (range req)) -> is_u64 (size (range req)) ->
  (store_need (size (range req)) (l_events l) < fuel)%nat -> head_goal keep (get_chunk_id req) m1 r tr m1 ->
  (calm -> l_quiet l = true /\ name_fits (PathFor root (get_chunk_id req)) = true) ->
  wp (Get_answer req r) (verdict root (fun m a _ m' => same_map m m' /\ get_answers accepts calm req m1 m a) g) (join l g).
Proof.
  intros Hok Ho Hsz Hf (_ & _ & Hhead & Hroom) Hcalm. unfold Get_answer.
  eapply wp_bind_returns; [exact (Get_rest_wp req m1 r (mkVectorOutput []) g l Hok Ho Hsz Hf Hhead Hroom Hcalm)|].
  intros x s' (E & d & Hw & Hg). apply wp_ret. unfold verdict. cbn [returns]. rewrite E. split; [done|split; [done|]].
  cbn in Hw. rewrite Hw. by apply get_outcomes_answers.
Qed.

(** ** The operations are linearizable *)

Lemma execute_one_obeys cmd :
  is_get cmd = false -> obeys root PStart (execute_one store fuel cmd) (fun _ ph => ended ph).
Proof.
  assert (Hread : forall {X Y} (p : prog X) (k : X -> Y),
    obeys root PStart p (fun _ ph => ph = PStart \/ ph = PDone) ->
    obeys root PStart (x ← p; mret (k x)) (fun _ ph => ended ph)).
  { intros X Y p k Hp. eapply obeys_bind; [exact Hp|]. intros x ph Hph. apply obeys_ret.
    destruct Hph as [->| ->]; [by left|by right; right]. }
  intros Hget. destruct cmd as [addr req data|req|id|id|id|id]; cbn [execute_one]; [|done|..].
  - refine (obeys_bind _ _ _ _ _ _ (Put_obeys root fuel addr req (mkVectorInput (vi_data:=data) 0)) _).
    intros x ph Hph. by apply obeys_ret.
  - exact (Hread _ _ _ _ (Head_obeys root fuel id)).
  - exact (Hread _ _ _ _ (Delete_obeys root id)).
  - refine (Hread _ _ (Size fuel root id) _ _).
    refine (obeys_bind _ _ _ _ _ _ (Head_obeys root fuel id) _). intros x ph Hph. by apply obeys_ret.
  - refine (Hread _ _ (Exists fuel root id) ExistsAnswer _).
    refine (obeys_bind _ _ _ _ _ _ (Head_obeys root fuel id) _). intros x ph Hph. by apply obeys_ret.
Qed.

(** The first look of a Get is that of [Head], the second that of the rest. *)
#[program]
Definition get_two_looks req :
  two_looks root (store_fits root fuel calm (DoGet req)) (sp_reads (Specification:=store_specification calm) (DoGet req))
    (execute_one store fuel (DoGet req)) := {|
  tl_first := Head fuel root (get_chunk_id req);
  tl_second := Get_rest req (mkVectorOutput []);
  tl_wrap p := r ← p; mret (GetAnswer (code r.1) (vo_value r.2));
  tl_looked m r tr := head_goal (fun _ => True) (get_chunk_id req) m r tr m |}.
Next Obligation. done. Qed.
Next Obligation. done. Qed.
Next Obligation. intros req m m' x tr E Hg. by eapply head_goal_proper. Qed.
Next Obligation. intros req. apply Head_obeys. Qed.
Next Obligation.
  intros req l g [(_ & _ & Hf) Hcalm] Hok. eapply wp_returns_mono.
  - apply (Head_goal_wp (fun _ => True)); [done|exact Hok| |intros Hc; by destruct (Hcalm Hc) as (? & _ & _ & ? & _)].
    change (store_need (size (range req)) (l_events l) < fuel)%nat in Hf. unfold store_need in *. lia.
  - intros r s' (Hok' & Hg). split; [done|]. destruct (Hg) as (_ & Hm & Hrest). split; [done|by split].
Qed.
Next Obligation.
  intros req x. refine (obeys_bind _ _ _ _ _ _ (Get_rest_obeys req (mkVectorOutput []) x) _).
  intros r ph Hph. by apply obeys_ret.
Qed.
Next Obligation.
  intros req m1 x l0 l g [Hb Hcalm] [Hev Hq] Hg Hok. destruct (bounded_later _ _ _ _ _ Hb Hev) as (Ho & Hs & Hf).
  refine (Get_answer_wp (fun _ => True) req m1 x (l_trace l) g l Hok Ho Hs Hf Hg _).
  intros Hc. rewrite Hq. by destruct (Hcalm Hc) as (? & _ & _ & ? & _).
Qed.

Lemma execute_one_creates cmd : creates root (temps_for root (store_stream cmd)) (execute_one store fuel cmd).
Proof.
  destruct cmd as [addr req data|req|id|id|id|id]; cbn [execute_one]; (apply creates_bind; [|done]).
  - exact (Put_creates root fuel addr req (mkVectorInput (vi_data:=data) 0)).
  - refine (creates_bind root _ (Head fuel root _) _ (Head_creates root fuel _ _) _).
    intros x. exact (Get_rest_creates _ req (mkVectorOutput []) x).
  - exact (Head_creates root fuel _ id).
  - exact (Delete_creates root _ id).
  - refine (creates_bind root _ (Head fuel root _) _ (Head_creates root fuel _ _) _). intros x. done.
  - refine (creates_bind root _ (Head fuel root _) _ (Head_creates root fuel _ _) _). intros x. done.
Qed.

#[program]
Definition store_linearizable : Linearizable (spec:=store_specification calm) root (execute_one store fuel) := {|
  op_fits := store_fits root fuel calm;
  op_free cmd q := calm /\ temps_for root (store_stream cmd) q;
  op_makes cmd := temps_for root (store_stream cmd) |}.
Next Obligation. intros cmd q [_ Hq]. by eapply temps_for_shaped. Qed.
Next Obligation. intros cmd. apply execute_one_creates. Qed.
Next Obligation. intros cmd m1 m2 a tr m1' m2' E E' Ha. by eapply answers_proper. Qed.
Next Obligation. intros [] m1 m1' m2 m2' a tr E1 E2 Ha; try done. by eapply get_answers_proper. Qed.
Next Obligation. intros cmd Hg. by apply execute_one_obeys. Qed.
Next Obligation. intros cmd l g Hg Hb Hok Hfree. apply execute_one_answers; [done..|]. intros Hc q Hq. by apply Hfree. Qed.
Next Obligation. intros [|req| | | |] Hg; try done. exact (get_two_looks req). Defined.

End Store.
