(* ===== verification/ConcurrencyTheorems.v ===== *)
(** * Concurrent operations on one FileChunkStore: what clients of the worker may
    rely on when their calls overlap. *)
From stdpp Require Import functions.
From S2P Require Import Prelude Status Types Path Proto System Prog UniqueFd Blake3 MemOS FileIO Files.
From S2P Require Import ChunkFormat Streams ChunkStore FileStore StorePaths StoreRead StoreSpec Sequence StoreTheorems.
From S2P Require Import Concurrent Protocol Interference Names Interleaving Linearize OneWinner Answers.

(** ** Concrete runs *)

(** One turn on a healthy machine. *)
Definition play_turn {C A} (peer : forall c : rpc_call, list rpc_event -> rpc_reply c) (code : C -> prog A) (n : nat) (c : config (C:=C) (A:=A)) : option (config (C:=C) (A:=A)) :=
  match cf_threads c !! n with
  | Some (Waiting cmd l) => Some (mkConfig (<[n := Running cmd (code cmd) l]> (cf_threads c)) (cf_fs c))
  | Some (Running cmd (Ret a) l) => Some (mkConfig (<[n := Finished cmd a l]> (cf_threads c)) (cf_fs c))
  | Some (Running cmd (Sys call k) l) =>
      let '(r, s) := mem_call peer call NoFault (join l (cf_fs c)) in
      Some (mkConfig (<[n := Running cmd (k r) (locals_of s)]> (cf_threads c)) (s_fs s))
  | _ => None
  end.

Fixpoint play {C A} (peer : forall c : rpc_call, list rpc_event -> rpc_reply c) (code : C -> prog A) (ns : list nat) (c : config (C:=C) (A:=A)) : option (config (C:=C) (A:=A)) :=
  match ns with
  | [] => Some c
  | n :: ns => c ← play_turn peer code n c; play peer code ns c
  end.

Lemma play_turn_step {C A} peer (code : C -> prog A) n c c' :
  play_turn peer code n c = Some c' -> config_step code n c c'.
Proof.
  destruct c as [ths f]. unfold play_turn. cbn [cf_threads cf_fs]. destruct (ths !! n) as [t|] eqn:En; [|done].
  intros Hp. destruct t as [cmd l|cmd [a|m| |c0 k] l|cmd a l]; try done.
  - injection Hp as <-. econstructor; [exact En|constructor].
  - injection Hp as <-. econstructor; [exact En|constructor].
  - pose proof (mem_call_ok peer c0 NoFault (join l f) I) as Hok.
    destruct (mem_call _ c0 NoFault (join l f)) as [r s]. injection Hp as <-.
    econstructor; [exact En|constructor]. by exists r.
Qed.

Lemma play_schedule {C A} peer (code : C -> prog A) ns c c' :
  play peer code ns c = Some c' -> schedule (config_step code) ns c c'.
Proof.
  revert c. induction ns as [|n ns IH]; intros c Hp; cbn in Hp.
  - injection Hp as <-. constructor.
  - destruct (play_turn peer code n c) as [c1|] eqn:E; [|done]. econstructor; [by eapply play_turn_step|by apply IH].
Qed.

(** A thread that runs alone: whatever its program guarantees, it reaches. *)
Section Solo.
Context {C A : Type} (code : C -> prog A) (n : nat) (cmd : C).

(** [K] is what the thread still has to do around [p]. *)
Lemma solo {B} (K : prog B -> prog A) (p : prog B) Q l ths f :
  (forall c k, K (Sys c k) = Sys c (fun r => K (k r))) ->
  wp p (returns Q) (join l f) -> ths !! n = Some (Running cmd (K p) l) ->
  exists ns b s', Q b s' /\ schedule (config_step code) ns (mkConfig ths f)
    (mkConfig (<[n := Running cmd (K (Ret b)) (locals_of s')]> ths) (s_fs s')).
Proof.
  intros HK. revert l ths f. induction p as [b|m| |call k IH]; intros l ths f Hp Hn;
    pose proof (wp_returns_inv _ _ _ Hp) as Hi; [|done..|].
  - exists [], b, (join l f). split; [done|]. rewrite locals_join. cbn [s_fs join].
    rewrite list_insert_id by done. constructor.
  - destruct (call_post_total call (join l f)) as (r & s & Hpost).
    pose proof (wp_sys _ _ _ _ Hp r s Hpost) as Hr. rewrite <- (join_locals s) in Hr.
    assert (Hlen : (n < length ths)%nat) by (by eapply lookup_lt_Some).
    destruct (IH r (locals_of s) (<[n := Running cmd (K (k r)) (locals_of s)]> ths) (s_fs s) Hr)
      as (ns & b & s' & HQ & Hs); [by rewrite list_lookup_insert_eq|].
    exists (n :: ns), b, s'. split; [done|]. rewrite list_insert_insert_eq in Hs.
    refine (sched_cons _ _ _ _ _ _ _ Hs). econstructor; [exact Hn|]. rewrite HK. constructor. by exists r.
Qed.

Lemma solo_returns (p : prog A) Q l ths f :
  wp p (returns Q) (join l f) -> ths !! n = Some (Running cmd p l) ->
  exists ns a s', Q a s' /\ schedule (config_step code) ns (mkConfig ths f)
    (mkConfig (<[n := Finished cmd a (locals_of s')]> ths) (s_fs s')).
Proof.
  intros Hp Hn. destruct (solo (fun p => p) p Q l ths f (fun _ _ => eq_refl) Hp Hn) as (ns & a & s' & HQ & Hs).
  assert (Hlen : (n < length ths)%nat) by (by eapply lookup_lt_Some).
  exists (ns ++ [n]), a, s'. split; [done|]. eapply schedule_trans; [exact Hs|].
  eapply sched_cons; [|constructor].
  replace (<[n := Finished cmd a (locals_of s')]> ths) with
    (<[n := Finished cmd a (locals_of s')]> (<[n := Running cmd (Ret a) (locals_of s')]> ths))
    by apply list_insert_insert_eq.
  econstructor; [by rewrite list_lookup_insert_eq|constructor].
Qed.

(** From its invocation on. *)
Lemma solo_command Q l ths f :
  wp (code cmd) (returns Q) (join l f) -> ths !! n = Some (Waiting cmd l) ->
  exists ns a s', Q a s' /\ schedule (config_step code) ns (mkConfig ths f)
    (mkConfig (<[n := Finished cmd a (locals_of s')]> ths) (s_fs s')).
Proof.
  intros Hp Hn. assert (Hlen : (n < length ths)%nat) by (by eapply lookup_lt_Some).
  destruct (solo_returns (code cmd) Q l (<[n := Running cmd (code cmd) l]> ths) f Hp) as (ns & a & s' & HQ & Hs);
    [by rewrite list_lookup_insert_eq|].
  rewrite list_insert_insert_eq in Hs. exists (n :: ns), a, s'. split; [done|].
  refine (sched_cons _ _ _ _ _ _ _ Hs). econstructor; [exact Hn|constructor].
Qed.

End Solo.

(** A chunk is replaced while a Get of it is between its two looks. *)
Section Replaced.
Context `{Libc} `{Blake3} (root : string) (fuel : nat).
Abbreviation store := (mkFileChunkStore root).
Abbreviation step := (config_step (execute_one store fuel)).

(** The first look of a Get. *)
Lemma get_looks f req l t ths :
  store_ok root f -> (store_need (size (range req)) (l_events l) < fuel)%nat ->
  exists ns r l', schedule step ns (mkConfig (Waiting (DoGet req) l :: t :: ths) f)
      (mkConfig (Running (DoGet req) (Get_answer root fuel req r) l' :: t :: ths) f) /\
    head_spec (ok (ValidateId (get_chunk_id req)))
      (l_quiet l' = true /\ name_fits (PathFor root (get_chunk_id req)) = true)
      (chunks root f) (get_chunk_id req) r /\
    (l_events l' <= l_events l)%nat /\ l_quiet l' = l_quiet l.
Proof.
  intros Hok Hf. unfold store_need in Hf.
  set (around := fun (p : prog (StatusOr HeadChunkResponse)) =>
    r ← (p ≫= Get_rest root fuel req (mkVectorOutput [])); mret (GetAnswer (code r.1) (vo_value r.2)) : prog answer).
  destruct (solo (execute_one store fuel) 0 (DoGet req) around
    (Head fuel root (get_chunk_id req)) _ l
    (Running (DoGet req) (execute_one store fuel (DoGet req)) l :: t :: ths) f
    (fun _ _ => eq_refl) (Head_wp fuel root (get_chunk_id req) (join l f) (so_wf _ _ Hok) ltac:(cbn [s_events join]; lia)) eq_refl)
    as (ns & r & s' & ([[Hq He] _] & Hfs & Hr) & Hs).
  cbn [s_fs join] in Hfs. rewrite Hfs in Hs.
  exists (0%nat :: ns), r, (locals_of s'). split_and!; [| |done|done].
  2: { cbn [locals_of l_quiet]. rewrite Hq. by apply head_result_spec. }
  refine (sched_cons _ _ _ _ _ _ _ Hs). exact (cs_turn _ 0 (Waiting (DoGet req) l :: t :: ths) f _ _ _ eq_refl (ts_invoke _ _ _ _)).
Qed.

(** The replacement, while some thread stands still. *)
Lemma replaced f id addr put data c p ld lp :
  store_ok root f -> store_clean root f -> put_chunk_id put = id -> chunks root f id = Some (c, p) ->
  ok (ValidateId id) = true -> ok (ValidateChecksum (expected_checksum put)) = true -> data_matches put data ->
  l_quiet ld = true -> l_quiet lp = true -> name_fits (PathFor root id) = true ->
  admissible store fuel (l_events lp) (DoPut addr put data) -> forall t,
  exists ns ld' lp' f', schedule step ns
      (mkConfig [t; Waiting (DoDelete id) ld; Waiting (DoPut addr put data) lp] f)
      (mkConfig [t; Finished (DoDelete id) (DeleteAnswer kOk) ld'; Finished (DoPut addr put data) (PutAnswer kOk) lp'] f') /\
    store_ok root f' /\ chunks root f' id = Some (expected_checksum put, data).
Proof.
  intros Hok Hclean <- Hm Hid Hsum Hdata Hqd Hqp Hreach Hput t.
  destruct (solo_command (execute_one store fuel) 1 (DoDelete (put_chunk_id put)) _ ld
    [t; Waiting (DoDelete (put_chunk_id put)) ld; Waiting (DoPut addr put data) lp] f
    (execute_one_wp store fuel (DoDelete (put_chunk_id put)) (chunks root f) (join ld f)
       ltac:(by split_and!) Hreach) eq_refl) as (ns1 & a1 & s1 & (_ & -> & Hin1) & Hs1).
  destruct Hin1 as (_ & Hok1 & Hclean1 & Hm1).
  assert (E1 : abstract_one (cs_accepts store) (chunks root f) (DoDelete (put_chunk_id put)) =
    (DeleteAnswer kOk, <[put_chunk_id put := None]> (chunks root f))) by (cbn; by rewrite Hid, Hm).
  rewrite E1 in Hs1, Hm1. cbn [fst snd] in Hs1, Hm1.
  destruct (solo_command (execute_one store fuel) 2 (DoPut addr put data) _ lp
    [t; Finished (DoDelete (put_chunk_id put)) (DeleteAnswer kOk) (locals_of s1); Waiting (DoPut addr put data) lp]
    (s_fs s1) (execute_one_wp store fuel (DoPut addr put data) _ (join lp (s_fs s1))
       (conj Hqp (conj Hok1 (conj Hclean1 Hm1))) Hput) eq_refl) as (ns2 & a2 & s2 & (_ & -> & Hin2) & Hs2).
  destruct Hin2 as (_ & Hok2 & _ & Hm2).
  assert (E2 : abstract_one (cs_accepts store) (<[put_chunk_id put := None]> (chunks root f)) (DoPut addr put data) =
    (PutAnswer kOk, <[put_chunk_id put := Some (expected_checksum put, data)]> (<[put_chunk_id put := None]> (chunks root f)))).
  { cbn. rewrite Hid, Hsum, bool_decide_true by done. cbn [negb andb]. by rewrite store_insert_eq. }
  rewrite E2 in Hm2, Hs2. cbn [fst snd] in Hm2, Hs2.
  exists (ns1 ++ ns2), (locals_of s1), (locals_of s2), (s_fs s2).
  split_and!; [|exact Hok2|].
  - eapply schedule_trans; [exact Hs1|exact Hs2].
  - transitivity ((<[put_chunk_id put := Some (expected_checksum put, data)]>
      (<[put_chunk_id put := None]> (chunks root f))) (put_chunk_id put)); [exact (Hm2 _)|apply store_insert_eq].
Qed.

(** The second look, at the replacement. *)
Lemma Get_answer_replaced req c p put data r f f' l :
  store_ok root f -> store_ok root f' -> is_u64 (offset (range req)) -> is_u64 (size (range req)) ->
  (store_need (size (range req)) (l_events l) < fuel)%nat ->
  chunks root f (get_chunk_id req) = Some (c, p) ->
  chunks root f' (get_chunk_id req) = Some (expected_checksum put, data) ->
  ok (ValidateId (get_chunk_id req)) = true ->
  ok (ValidateByteRange (range req) (blen p)) = true -> 0 < size (range req) ->
  head_spec (ok (ValidateId (get_chunk_id req)))
    (l_quiet l = true /\ name_fits (PathFor root (get_chunk_id req)) = true)
    (chunks root f) (get_chunk_id req) r ->
  l_quiet l = true /\ name_fits (PathFor root (get_chunk_id req)) = true ->
  wp (Get_answer root fuel req r) (returns (fun a s' =>
    a = GetAnswer (if bool_decide (offset (range req) + size (range req) <= blen data) then kOk else kCorruption)
          (ztake (size (range req)) (zdrop (offset (range req)) data)) /\ s_fs s' = f')) (join l f').
Proof.
  intros Hok Hok' Ho Hsz Hf Hm Hm' Haccept Hin Hpos Hspec Hcalm.
  eapply wp_bind_returns.
  { exact (Get_rest_wp root fuel (l_quiet l = true /\ name_fits (PathFor root (get_chunk_id req)) = true)
      req (chunks root f) r (mkVectorOutput []) f' l Hok' Ho Hsz Hf Hspec
      (fun c p => chunks_room root f (get_chunk_id req) c p Hok) (fun H => H)). }
  intros [st o] s' (Hfs & d & Hd & Hout). cbn in Hd. subst d. apply wp_ret. cbn [returns fst snd].
  split; [|done]. cbn [fst snd out_broken] in Hout.
  destruct (get_outcomes_replaced (fun id => ok (ValidateId id)) _ req _ _ st (vo_value o) c p
    (expected_checksum put) data Hcalm (proj1 Ho) Hpos Haccept Hm Hin Hm' Hout) as [-> ->]. done.
Qed.

End Replaced.

Definition quiet_locals : locals := mkLocals 0 0 true [].

(** The chunk [w_id] is replaced by a shorter one while it is being read. *)
Definition w_short : list byte := string_bytes "hi".
Definition w_put_short : PutChunkRequest :=
  mkPutChunkRequest w_id 2 (mkChecksum kBlake3 (hex_string (blake3 w_short))).
Definition w_get : GetChunkRequest := mkGetChunkRequest w_id (mkByteRange 0 5).
Definition w_cmds3 : list (command * locals) :=
  [(DoGet w_get, quiet_locals); (DoDelete w_id, quiet_locals); (DoPut 99 w_put_short w_short, quiet_locals)].
Definition w_overlap : list nat := replicate 5 0%nat ++ replicate 3 1%nat ++ replicate 14 2%nat ++ replicate 5 0%nat.
Definition w_end : option (config (C:=command) (A:=answer)) :=
  play (fun c _ => no_peer c) (execute_one (mkFileChunkStore "/r") 200) w_overlap (initial w_cmds3 w_fs).
Definition answer_of (t : thread (C:=command) (A:=answer)) : option answer :=
  match t with Finished _ a _ => Some a | _ => None end.

Lemma w_cmds3_bounded :
  Forall (fun x => bounded (mkFileChunkStore "/r") 200 (l_events x.2) x.1) w_cmds3.
Proof. repeat constructor; vm_compute; intuition congruence || lia. Qed.

(** ** Properties *)

(** What an operation does to the chunk [id]: it stores it, deletes it, or lets it
    be. *)
Definition store_spares (id : ChunkId) (cmd : command) : Prop := cmd <> DoDelete id.
Definition store_stores (id : ChunkId) (cmd : command) (a : answer) (_ : list rpc_event) (x : chunk) : Prop :=
  match cmd with
  | DoPut _ req data => a = PutAnswer kOk /\ put_chunk_id req = id /\ x = (expected_checksum req, data)
  | _ => False
  end.

Section Chunk.
Context `{Blake3} (calm : Prop) (id : ChunkId).
Abbreviation sp_answers := (sp_answers (Specification:=store_specification calm)).
Abbreviation sp_twice := (sp_twice (Specification:=store_specification calm)).

Lemma store_spares_ok cmd m a tr m' :
  sp_answers cmd m a tr m' -> store_spares id cmd -> m' id = m id \/ m id = None /\ exists x, m' id = Some x.
Proof.
  intros Ha Hdel.
  assert (Habs : same_map (abstract_one (fun id => ok (ValidateId id)) m cmd).2 m' ->
    m' id = m id \/ m id = None /\ exists x, m' id = Some x).
  { intros E. rewrite (E id). destruct cmd as [addr req data|req|id'|id'|id'|id']; cbn; repeat case_match; cbn; auto.
    - destruct (decide (put_chunk_id req = id)) as [<-|Hne].
      + right. split; [done|]. eexists. apply store_insert_eq.
      + left. by rewrite store_insert_ne.
    - left. rewrite store_insert_ne; [done|congruence]. }
  destruct Ha as [[_ E]|(_ & _ & [E|(_ & _ & _ & _ & E)])]; [by apply Habs|left; by rewrite (E id)|by apply Habs].
Qed.

Lemma store_stores_ok cmd m a tr m' x :
  sp_twice cmd = false -> sp_answers cmd m a tr m' -> store_stores id cmd a tr x -> m id = None /\ m' id = Some x.
Proof.
  intros _ Ha Hs. destruct cmd as [addr req data| | | | |]; try done. destruct Hs as (-> & <- & ->).
  destruct Ha as [[Ha E]|(_ & [Hf|Hf] & _)]; [|done..]. cbn in Ha, E. repeat case_match; cbn in *; try done.
  split; [done|]. by rewrite (E _), store_insert_eq.
Qed.

Lemma store_stores_once cmd a tr x : store_stores id cmd a tr x -> sp_twice cmd = false.
Proof. by destruct cmd. Qed.

End Chunk.

Section Theorems.
Context `{Libc} `{Blake3} (root : string) (fuel : nat).

(** Two Puts at the same time read from different streams; so they do not meet at
    a temporary name. *)
Lemma store_undisturbed calm cmds f :
  (calm -> store_clean root f /\ distinct_streams (fun x => store_stream x.1) cmds) ->
  undisturbed root (execute_one (mkFileChunkStore root) fuel) (Linearizable0:=store_linearizable root fuel calm) cmds f.
Proof.
  intros Hcalm. refine (undisturbed_streams root _ calm store_stream cmds f _ _ Hcalm); intros cmd q Hq; exact Hq.
Qed.

Lemma store_fits_all (calm : Prop) cmds :
  Forall (fun x => bounded (mkFileChunkStore root) fuel (l_events x.2) x.1) cmds ->
  (calm -> Forall (fun x => l_quiet x.2 = true /\
    admissible (mkFileChunkStore root) fuel (l_events x.2) x.1) cmds) ->
  Forall (fun x => store_fits root fuel calm x.1 x.2) cmds.
Proof.
  intros Hb Hc. apply Forall_lookup_2. intros n x Hx. split; [exact (Forall_lookup_1 _ _ _ _ Hb Hx)|].
  intros Hcalm. exact (Forall_lookup_1 _ _ _ _ (Hc Hcalm) Hx).
Qed.

(** C2: any number of operations on one store, interleaved at their system calls
    in any way, run as on an abstract store: the store is sound at every moment,
    no thread is stuck, and each operation but Get takes effect, or meets a
    fault, at one moment between its invocation and its return; a Get looks at
    the store at two such moments.  When all is [calm] there are no faults: on
    a healthy machine with a clean store, for admissible operations only (names
    and sizes the file system can hold), where the Puts read from streams of
    their own, each operation but Get answers exactly as the abstract one at its moment,
    and a Get checks the range against the chunk of its first moment and reads
    that of its second, with kNotFound or kCorruption when that is gone or too
    short. *)
Theorem FileChunkStore_linearizable (calm : Prop) cmds f ns c
  (Hok : store_ok root f)
  (Hb : Forall (fun x => bounded (mkFileChunkStore root) fuel (l_events x.2) x.1) cmds)
  (Hcalm : calm -> (store_clean root f /\ distinct_streams (fun x => store_stream x.1) cmds) /\
    Forall (fun x => l_quiet x.2 = true /\ admissible (mkFileChunkStore root) fuel (l_events x.2) x.1) cmds)
  (Hs : schedule (config_step (execute_one (mkFileChunkStore root) fuel)) ns (initial cmds f) c) :
  store_ok root (cf_fs c) /\ Forall (fun t => ~ stuck t) (cf_threads c) /\
  exists a, schedule (aturn (spec:=store_specification calm)) ns (abstract_initial cmds (chunks root f)) a /\
    same_map (ac_store a) (chunks root (cf_fs c)) /\ Forall2 agree (cf_threads c) (ac_threads a).
Proof.
  refine (linearization root _ (Linearizable0:=store_linearizable root fuel calm) cmds f ns c Hok _ _ Hs).
  - apply store_fits_all; [done|]. intros Hc. apply (Hcalm Hc).
  - apply store_undisturbed. intros Hc. apply (Hcalm Hc).
Qed.

(** C10: overlapping Puts of one chunk: when one reports success, the store holds
    its data under the identifier from then on, and no other Put of that chunk
    reports success, whatever other operations run, unless one of them deletes
    the chunk. *)
Theorem Concurrent_Put_once cmds f ns c n addr req data l
  (Hok : store_ok root f)
  (Hb : Forall (fun x => bounded (mkFileChunkStore root) fuel (l_events x.2) x.1) cmds)
  (Hdel : Forall (fun x => x.1 <> DoDelete (put_chunk_id req)) cmds)
  (Hs : schedule (config_step (execute_one (mkFileChunkStore root) fuel)) ns (initial cmds f) c)
  (Hn : cf_threads c !! n = Some (Finished (DoPut addr req data) (PutAnswer kOk) l)) :
  chunks root (cf_fs c) (put_chunk_id req) = Some (expected_checksum req, data) /\
  chunk_valid (expected_checksum req, data) /\
  forall k addr' req' data' l', k <> n ->
    cf_threads c !! k = Some (Finished (DoPut addr' req' data') (PutAnswer kOk) l') ->
    put_chunk_id req' <> put_chunk_id req.
Proof.
  pose proof (one_winner_run (put_chunk_id req) (store_spares (put_chunk_id req)) (store_stores (put_chunk_id req))
    (store_spares_ok False _) (store_stores_ok False _) (store_stores_once False _) root (execute_one (mkFileChunkStore root) fuel)
    (Linearizable0:=store_linearizable root fuel False) cmds f ns c n (DoPut addr req data) (PutAnswer kOk) l (expected_checksum req, data) Hok) as Hrun.
  destruct (Hrun (store_fits_all False _ Hb (fun c => match c with end))
    (store_undisturbed False cmds f (fun c => match c with end)) Hdel Hs Hn) as (Hc & Hv & Hone); [done|].
  split_and!; [done..|]. intros k addr' req' data' l' Hkn Hk Heq. by eapply Hone.
Qed.

End Theorems.

(** C20: [Get] checks the range against the chunk it finds first and then opens the
    chunk again.  On a healthy machine, from any sound and clean store that holds
    the chunk under an accepted identifier, for any non-empty range inside it and
    any replacement [data] of the announced size and checksum, there is a schedule of the Get with one Delete and one Put in which both
    report success and the Get delivers what the replacement has of the range: it
    reports kOk when that is all of the range, and otherwise kCorruption although
    the store is sound, an answer no state of the store accounts for. *)
Theorem Get_reopens `{Libc} `{Blake3} root fuel f req c p addr put data lg ld lp
  (Hok : store_ok root f) (Hclean : store_clean root f)
  (Hid : put_chunk_id put = get_chunk_id req)
  (Hm : chunks root f (get_chunk_id req) = Some (c, p))
  (Haccept : ok (ValidateId (get_chunk_id req)) = true)
  (Hin : ok (ValidateByteRange (range req) (blen p)) = true) (Hpos : 0 < size (range req))
  (Hsum : ok (ValidateChecksum (expected_checksum put)) = true) (Hdata : data_matches put data)
  (Hquiet : l_quiet lg = true /\ l_quiet ld = true /\ l_quiet lp = true)
  (Hget : admissible (mkFileChunkStore root) fuel (l_events lg) (DoGet req))
  (Hput : admissible (mkFileChunkStore root) fuel (l_events lp) (DoPut addr put data)) :
  let delivered := ztake (size (range req)) (zdrop (offset (range req)) data) in
  let reported := if bool_decide (offset (range req) + size (range req) <= blen data) then kOk else kCorruption in
  exists ns lg' ld' lp' f',
    schedule (config_step (execute_one (mkFileChunkStore root) fuel)) ns
      (initial [(DoGet req, lg); (DoDelete (get_chunk_id req), ld); (DoPut addr put data, lp)] f)
      (mkConfig [Finished (DoGet req) (GetAnswer reported delivered) lg';
                 Finished (DoDelete (get_chunk_id req)) (DeleteAnswer kOk) ld';
                 Finished (DoPut addr put data) (PutAnswer kOk) lp'] f') /\
    store_ok root f' /\
    chunks root f' (get_chunk_id req) = Some (expected_checksum put, data) /\
    forall accepts m, (abstract_one accepts m (DoGet req)).1 <> GetAnswer kCorruption delivered.
Proof.
  destruct Hquiet as (Hqg & Hqd & Hqp). pose proof Hget as (Ho & Hsz & Hreach & Hneed).
  intros delivered reported.
  destruct (get_looks root fuel f req lg (Waiting (DoDelete (get_chunk_id req)) ld) [Waiting (DoPut addr put data) lp] Hok Hneed) as (ns1 & r & l1 & Hrun1 & Hspec & Hev & Hq1).
  destruct (replaced root fuel f (get_chunk_id req) addr put data c p ld lp Hok Hclean Hid Hm Haccept Hsum Hdata
    Hqd Hqp Hreach Hput (Running (DoGet req) (Get_answer root fuel req r) l1))
    as (ns2 & ld' & lp' & f' & Hrun2 & Hok' & Hnew).
  assert (Hneed1 : (store_need (size (range req)) (l_events l1) < fuel)%nat)
    by (change (store_need (size (range req)) (l_events lg) < fuel)%nat in Hneed; unfold store_need in *; lia).
  destruct (solo_returns (execute_one (mkFileChunkStore root) fuel) 0 (DoGet req) (Get_answer root fuel req r) _ l1
    [Running (DoGet req) (Get_answer root fuel req r) l1; Finished (DoDelete (get_chunk_id req)) (DeleteAnswer kOk) ld';
     Finished (DoPut addr put data) (PutAnswer kOk) lp'] f' (Get_answer_replaced root fuel req c p put data r f f' l1 Hok Hok' Ho Hsz Hneed1 Hm Hnew Haccept Hin Hpos
       Hspec (conj (eq_trans Hq1 Hqg) Hreach)) eq_refl) as (ns3 & a & s3 & [Ha Hfs] & Hrun3).
  exists (ns1 ++ ns2 ++ ns3), (locals_of s3), ld', lp', f'. split_and!; [|done|done|].
  - eapply schedule_trans; [exact Hrun1|]. eapply schedule_trans; [exact Hrun2|].
    rewrite Hfs, Ha in Hrun3. exact Hrun3.
  - intros accepts m. cbn. by repeat case_match.
Qed.

(** ** Witnesses *)

Definition outcome (w : option (config (C:=command) (A:=answer))) : option (list (option answer)) :=
  (fun c => answer_of <$> cf_threads c) <$> w.

Lemma outcome_inv w l : outcome w = Some l -> exists c, w = Some c /\ answer_of <$> cf_threads c = l.
Proof. destruct w as [c|]; [|done]. intros E. exists c. split; [done|]. by injection E. Qed.

(** On a healthy machine, all of them. *)
Lemma w_cmds3_calm :
  (store_clean "/r" w_fs /\ distinct_streams (fun x : command * locals => store_stream x.1) w_cmds3) /\
  Forall (fun x => l_quiet x.2 = true /\
    admissible (mkFileChunkStore "/r") 200 (l_events x.2) x.1) w_cmds3.
Proof.
  split; [split|].
  - intros id pid addr. apply lookup_singleton_ne, PathFor_not_temp.
  - split.
    + intros [|[|[|n]]] x a [= <-]; cbn; try done. by intros [= <-].
    + intros [|[|[|n]]] [|[|[|k]]] x y a Hnk [= <-] [= <-]; done.
  - repeat (apply Forall_cons_2; [split; [done|]|]); [..|by apply Forall_nil_2]; cbn [fst snd l_events quiet_locals admissible].
    + split; [done|]. split; [done|]. split; [exact w_reach|]. vm_compute; lia.
    + exact w_reach.
    + split; [done|]. split; [by apply store_room_short; vm_compute|vm_compute; lia].
Qed.

(** The five bytes of the chunk are asked for, and it is replaced by two. *)
Lemma Get_reopens_witness :
  exists ns lg' ld' lp' f',
    schedule (config_step (execute_one (mkFileChunkStore "/r") 200)) ns (initial w_cmds3 w_fs)
      (mkConfig [Finished (DoGet w_get) (GetAnswer kCorruption w_short) lg'; Finished (DoDelete w_id) (DeleteAnswer kOk) ld';
                 Finished (DoPut 99 w_put_short w_short) (PutAnswer kOk) lp'] f') /\
    store_ok "/r" f'.
Proof.
  pose proof (Forall_inv (proj2 w_cmds3_calm)) as [_ Hget].
  pose proof (Forall_inv (Forall_inv_tail (Forall_inv_tail (proj2 w_cmds3_calm)))) as [_ Hput].
  destruct (Get_reopens "/r" 200 w_fs w_get w_sum w_data 99 w_put_short w_short quiet_locals quiet_locals quiet_locals
    w_fs_ok (proj1 (proj1 w_cmds3_calm)) eq_refl ltac:(by vm_compute) ltac:(by vm_compute) ltac:(by vm_compute) eq_refl
    ltac:(by vm_compute) ltac:(by vm_compute) (conj eq_refl (conj eq_refl eq_refl)) Hget Hput)
    as (ns & lg' & ld' & lp' & f' & Hs & Hok & _).
  exists ns, lg', ld', lp', f'. exact (conj Hs Hok).
Defined.

Lemma FileChunkStore_linearizable_witness :
  exists c a, w_end = Some c /\
    answer_of <$> cf_threads c = [Some (GetAnswer kCorruption w_short); Some (DeleteAnswer kOk); Some (PutAnswer kOk)] /\
    schedule (aturn (spec:=store_specification True)) w_overlap (abstract_initial w_cmds3 (chunks "/r" w_fs)) a /\
    same_map (ac_store a) (chunks "/r" (cf_fs c)) /\ Forall2 agree (cf_threads c) (ac_threads a).
Proof.
  assert (E : outcome w_end = Some [Some (GetAnswer kCorruption w_short); Some (DeleteAnswer kOk); Some (PutAnswer kOk)])
    by (vm_compute; reflexivity).
  destruct (outcome_inv _ _ E) as (c & Ec & El).
  destruct (FileChunkStore_linearizable "/r" 200 True w_cmds3 w_fs w_overlap c w_fs_ok w_cmds3_bounded (fun _ => w_cmds3_calm) (play_schedule _ _ _ _ _ Ec))
    as (_ & _ & a & Ha & Hm & Hag).
  exists c, a. exact (conj Ec (conj El (conj Ha (conj Hm Hag)))).
Defined.

(** Two Puts of one chunk that take turns: the second loses at its link. *)
Definition w_two : list (command * locals) :=
  [(DoPut 77 w_put w_data, quiet_locals); (DoPut 99 w_put w_data, quiet_locals)].
Definition w_alternate : list nat := concat (replicate 12 [0; 1])%nat ++ [0; 0]%nat.
Definition w_two_end : option (config (C:=command) (A:=answer)) :=
  play (fun c _ => no_peer c) (execute_one (mkFileChunkStore "/r") 200) w_alternate (initial w_two empty_fs).

Lemma w_two_bounded :
  Forall (fun x => bounded (mkFileChunkStore "/r") 200 (l_events x.2) x.1) w_two.
Proof. repeat constructor; vm_compute; intuition congruence || lia. Qed.

Lemma Concurrent_Put_once_witness :
  exists c, w_two_end = Some c /\
    answer_of <$> cf_threads c = [Some (PutAnswer kOk); Some (PutAnswer kAlreadyExists)] /\
    chunks "/r" (cf_fs c) w_id = Some (w_sum, w_data).
Proof.
  assert (E : outcome w_two_end = Some [Some (PutAnswer kOk); Some (PutAnswer kAlreadyExists)])
    by (vm_compute; reflexivity).
  assert (E0 : (fun c => cf_threads c !! 0%nat) <$> w_two_end =
      Some (Some (Finished (DoPut 77 w_put w_data) (PutAnswer kOk) quiet_locals))) by (vm_compute; reflexivity).
  destruct (outcome_inv _ _ E) as (c & Ec & El). rewrite Ec in E0.
  assert (Hn : cf_threads c !! 0%nat = Some (Finished (DoPut 77 w_put w_data) (PutAnswer kOk) quiet_locals)) by (by injection E0).
  assert (Hdel : Forall (fun x => x.1 <> DoDelete (put_chunk_id w_put)) w_two) by (by repeat constructor).
  exists c. exact (conj Ec (conj El (proj1 (Concurrent_Put_once "/r" 200 w_two empty_fs w_alternate c 0 77 w_put w_data quiet_locals
    (store_ok_empty "/r") w_two_bounded Hdel (play_schedule _ _ _ _ _ Ec) Hn)))).
Defined.
