(* ===== verification/DataPlane.v ===== *)
(** * DataPlaneService: the worker's operations over any ChunkStore
    (src/src/storage/worker/data_plane_service.cpp). *)
From stdpp Require Import functions.
From S2P Require Import Prelude Status Types Path Proto System Prog UniqueFd Blake3 FileIO.
From S2P Require Import Streams ChunkStore.

(** ** Definitions *)

Module DataPlaneService.

(** The only member is [store_]. *)
Record t (C : Type) := mk { store_ : C }.
Arguments mk {C} _.
Arguments store_ {C} _.

Section Operations.
Context {C : Type} `{ChunkStore C}.

Definition PutChunk {S} `{ChunkInputStream S} (self : t C) (fuel : nat) (addr : Z)
    (request : PutChunkRequest) (input : S) : prog (Status * S) :=
  if negb (ChunkId_valid (put_chunk_id request)) then
    mret (Status_make kInvalidArgument "chunk_id cannot be empty", input)
  else
    let status := ValidateChecksum (expected_checksum request) in
    if negb (ok status) then mret (status, input)
    else cs_Put (store_ self) fuel addr request input.

Definition GetChunk {S} `{ChunkOutputStream S} (self : t C) (fuel : nat)
    (request : GetChunkRequest) (output : S) : prog (Status * S) :=
  if negb (ChunkId_valid (get_chunk_id request)) then
    mret (Status_make kInvalidArgument "chunk_id cannot be empty", output)
  else cs_Get (store_ self) fuel request output.

Definition HeadChunk (self : t C) (fuel : nat) (request : HeadChunkRequest)
  : prog (StatusOr HeadChunkResponse) :=
  if negb (ChunkId_valid (head_chunk_id request)) then
    mret (SO_error (Status_make kInvalidArgument "chunk_id cannot be empty"))
  else cs_Head (store_ self) fuel (head_chunk_id request).

Definition DeleteChunk (self : t C) (request : DeleteChunkRequest) : prog Status :=
  if negb (ChunkId_valid (delete_chunk_id request)) then
    mret (Status_make kInvalidArgument "chunk_id cannot be empty")
  else cs_Delete (store_ self) (delete_chunk_id request).

End Operations.
End DataPlaneService.

(** ** Lemmas *)

Section Service.
Context {C : Type} `{ChunkStoreContract C}.
Context (self : DataPlaneService.t C).
Abbreviation store := (DataPlaneService.store_ self).

(** The identifiers the service takes. *)
Definition service_accepts (id : ChunkId) : bool := ChunkId_valid id && cs_accepts store id.

(** The conditions under which nothing but the request decides. *)
Definition put_calm (s : state) (req : PutChunkRequest) (addr : Z) : Prop :=
  s_quiet s = true /\ cs_free store (s_fs s) (put_chunk_id req) addr /\ cs_room store (put_chunk_id req) addr (expected_size req).
Definition read_calm (s : state) (id : ChunkId) : Prop := s_quiet s = true /\ cs_reach store id.

(** What a call of [PutChunk] leaves, as an operation of the abstract store. *)
Definition put_outcome {S} `{InputContract S} (addr : Z) (req : PutChunkRequest) (input : S) (s : state)
    (r : Status * S) (s' : state) : Prop :=
  later s s' /\ cs_inv store (s_fs s') /\
  (s_quiet s = true -> cs_clean store (s_fs s) -> cs_clean store (s_fs s')) /\
  exists d, in_delivered r.2 (s_trace s') = in_delivered input (s_trace s) ++ d /\
    put_spec (service_accepts (put_chunk_id req)) (put_calm s req addr) (in_broken r.2 (s_trace s'))
      (cs_chunks store (s_fs s)) req d (in_exhausted r.2 (s_trace s')) r.1
      (cs_chunks store (s_fs s')).

Lemma Service_PutChunk_wp {S} `{InputContract S} fuel addr req (input : S) s :
  cs_inv store (s_fs s) -> is_u64 (expected_size req) -> in_wf input (s_trace s) ->
  (cs_need store (expected_size req) (s_events s) < fuel)%nat ->
  wp (DataPlaneService.PutChunk self fuel addr req input) (returns (put_outcome addr req input s)) s.
Proof.
  intros Hi Hs Hin Hf. unfold DataPlaneService.PutChunk.
  assert (Hrej : forall st, code st = kInvalidArgument ->
    service_accepts (put_chunk_id req) && ok (ValidateChecksum (expected_checksum req)) = false ->
    put_outcome addr req input s (st, input) s).
  { intros st Hc Ha. split; [done|split; [done|split; [done|]]]. exists []. cbn [fst snd].
    rewrite app_nil_r. split; [done|]. by apply ps_invalid. }
  destruct (ChunkId_valid (put_chunk_id req)) eqn:Hv; cbn [negb]; cycle 1.
  { apply wp_ret, Hrej; [done|]. unfold service_accepts. by rewrite Hv. }
  destruct (ok (ValidateChecksum (expected_checksum req))) eqn:Hc; cbn [negb]; cycle 1.
  { apply wp_ret, Hrej; [by apply ValidateChecksum_code|]. apply andb_false_r. }
  eapply wp_returns_mono; [eapply cs_Put_ok; [exact Hi|exact Hs|exact Hin|exact Hf]|].
  intros r s' (Hl & Hi' & Hcl & d & Hd & Hsp). split; [done|split; [done|split; [done|]]].
  exists d. split; [done|]. unfold service_accepts. by rewrite Hv.
Qed.

Definition get_outcome {S} `{OutputContract S} (req : GetChunkRequest) (output : S) (s : state)
    (r : Status * S) (s' : state) : Prop :=
  later s s' /\ s_fs s' = s_fs s /\
  exists d, out_written r.2 (s_trace s') = out_written output (s_trace s) ++ d /\
    get_spec (service_accepts (get_chunk_id req)) (read_calm s (get_chunk_id req)) (out_broken r.2 (s_trace s'))
      (cs_chunks store (s_fs s)) req r.1 d.

Lemma Service_GetChunk_wp {S} `{OutputContract S} fuel req (output : S) s :
  cs_inv store (s_fs s) -> is_u64 (offset (range req)) -> is_u64 (size (range req)) ->
  (cs_need store (size (range req)) (s_events s) < fuel)%nat ->
  wp (DataPlaneService.GetChunk self fuel req output) (returns (get_outcome req output s)) s.
Proof.
  intros Hi Ho Hs Hf. unfold DataPlaneService.GetChunk.
  destruct (ChunkId_valid (get_chunk_id req)) eqn:Hv; cbn [negb]; cycle 1.
  { apply wp_ret. split; [done|split; [done|]]. exists []. cbn [fst snd]. rewrite app_nil_r.
    split; [done|]. apply gs_invalid; [|done]. unfold service_accepts. by rewrite Hv. }
  eapply wp_returns_mono; [eapply cs_Get_ok; [exact Hi|exact Ho|exact Hs|exact Hf]|].
  intros r s' (Hl & Hfs & d & Hd & Hsp). split; [done|split; [done|]].
  exists d. split; [done|]. unfold service_accepts. by rewrite Hv.
Qed.

Definition head_outcome (id : ChunkId) (s : state) (r : StatusOr HeadChunkResponse) (s' : state) : Prop :=
  local_step s s' /\ s_fs s' = s_fs s /\
  head_spec (service_accepts id) (read_calm s id) (cs_chunks store (s_fs s)) id r.

Lemma Service_HeadChunk_wp fuel req s :
  cs_inv store (s_fs s) -> (cs_need store 0 (s_events s) < fuel)%nat ->
  wp (DataPlaneService.HeadChunk self fuel req) (returns (head_outcome (head_chunk_id req) s)) s.
Proof.
  intros Hi Hf. unfold DataPlaneService.HeadChunk.
  destruct (ChunkId_valid (head_chunk_id req)) eqn:Hv; cbn [negb]; cycle 1.
  { apply wp_ret. split; [done|split; [done|]].
    apply hs_invalid; [|done]. unfold service_accepts. by rewrite Hv. }
  eapply wp_returns_mono; [eapply cs_Head_ok; [exact Hi|exact Hf]|].
  intros r s' (Hl & Hfs & Hsp). split; [done|split; [done|]].
  unfold service_accepts. by rewrite Hv.
Qed.

Definition delete_outcome (id : ChunkId) (s : state) (st : Status) (s' : state) : Prop :=
  local_step s s' /\ cs_inv store (s_fs s') /\
  (cs_clean store (s_fs s) -> cs_clean store (s_fs s')) /\
  delete_spec (service_accepts id) (read_calm s id) (cs_chunks store (s_fs s)) id st
    (cs_chunks store (s_fs s')).

Lemma Service_DeleteChunk_wp req s :
  cs_inv store (s_fs s) ->
  wp (DataPlaneService.DeleteChunk self req) (returns (delete_outcome (delete_chunk_id req) s)) s.
Proof.
  intros Hi. unfold DataPlaneService.DeleteChunk.
  destruct (ChunkId_valid (delete_chunk_id req)) eqn:Hv; cbn [negb]; cycle 1.
  { apply wp_ret. split; [done|split; [done|split; [done|]]].
    apply ds_invalid; [|done..]. unfold service_accepts. by rewrite Hv. }
  eapply wp_returns_mono; [eapply cs_Delete_ok; exact Hi|].
  intros r s' (Hl & Hi' & Hcl & Hsp). split; [done|split; [done|split; [done|]]].
  unfold service_accepts. by rewrite Hv.
Qed.

End Service.
