(* ===== verification/Services.v ===== *)
(** * The RPC services: status conversions, the adapters between RPC streams and
    the store's streams, and the handlers (src/src/rpc/services.cpp,
    src/include/storage/rpc/services.h). *)
From stdpp Require Import functions.
From S2P Require Import Prelude Status Types Path Proto System Prog UniqueFd Blake3 FileIO.
From S2P Require Import Streams ChunkStore DataPlane.

(** ** Definitions *)

(** [SetHealthy], applied to a fresh response. *)
Definition SetHealthy (service : string) : rpc.HealthResponse :=
  rpc.mkHealthResponse (rpc.mkStatus rpc.STATUS_CODE_OK "ok") service.

Definition ToRpcStatusCode (c : StatusCode) : rpc.StatusCode :=
  match c with
  | kOk => rpc.STATUS_CODE_OK
  | kInvalidArgument => rpc.STATUS_CODE_INVALID_ARGUMENT
  | kNotFound => rpc.STATUS_CODE_NOT_FOUND
  | kAlreadyExists => rpc.STATUS_CODE_ALREADY_EXISTS
  | kUnavailable => rpc.STATUS_CODE_UNAVAILABLE
  | kTimeout => rpc.STATUS_CODE_TIMEOUT
  | kIoError => rpc.STATUS_CODE_IO_ERROR
  | kCorruption => rpc.STATUS_CODE_CORRUPTION
  | kResourceExhausted => rpc.STATUS_CODE_RESOURCE_EXHAUSTED
  | kInternal => rpc.STATUS_CODE_INTERNAL
  end.

(** [SetStatus]: the status stored in the response. *)
Definition SetStatus (status : Status) : rpc.Status :=
  rpc.mkStatus (ToRpcStatusCode (code status)) (message status).

Definition ToGrpcStatus (status : Status) : grpc.Status :=
  match code status with
  | kOk => grpc.Status_OK
  | kInvalidArgument => grpc.mkStatus grpc.INVALID_ARGUMENT (message status)
  | kNotFound => grpc.mkStatus grpc.NOT_FOUND (message status)
  | kAlreadyExists => grpc.mkStatus grpc.ALREADY_EXISTS (message status)
  | kUnavailable => grpc.mkStatus grpc.UNAVAILABLE (message status)
  | kTimeout => grpc.mkStatus grpc.DEADLINE_EXCEEDED (message status)
  | kResourceExhausted => grpc.mkStatus grpc.RESOURCE_EXHAUSTED (message status)
  | kCorruption => grpc.mkStatus grpc.DATA_LOSS (message status)
  | kIoError => grpc.mkStatus grpc.UNKNOWN (message status)
  | kInternal => grpc.mkStatus grpc.INTERNAL (message status)
  end.

(** [RpcInputStream]: the members [data_] and [offset_]; [reader_] is the
    stream of the call being served. *)
Record RpcInputStream := mkRpcInputStream { data_ : list byte; offset_ : nat }.

Definition RpcInputStream_make : RpcInputStream := mkRpcInputStream [] 0.

(** The end of [RpcInputStream::Read]: copying out of [data_]. *)
Definition RpcInputStream_copy (x : RpcInputStream) (n : Z) : StatusOr (list byte) * RpcInputStream :=
  let count := Z.to_nat (Z.min n (Z.of_nat (length (data_ x) - offset_ x))) in
  (SO_value (take count (drop (offset_ x) (data_ x))),
   mkRpcInputStream (data_ x) (offset_ x + count)).

(** [RpcInputStream::Read] *)
#[export] Instance RpcInputStream_stream : ChunkInputStream RpcInputStream :=
  fun x n =>
    if bool_decide (n = 0) then
      mret (SO_error (Status_make kInvalidArgument "input buffer cannot be empty"), x)
    else if bool_decide (offset_ x = length (data_ x)) then
      frame ← perform (Rpc ServerRead);
      match frame with
      | None => mret (SO_value [], x)
      | Some (rpc.payload_data d) =>
          let x := mkRpcInputStream d 0 in
          if bool_decide (d = []) then
            mret (SO_error (Status_make kInvalidArgument "empty data frame"), x)
          else mret (RpcInputStream_copy x n)
      | Some _ =>
          mret (SO_error (Status_make kInvalidArgument "metadata must be the first frame only"), x)
      end
    else mret (RpcInputStream_copy x n).

(** [RpcOutputStream]: its only member is the writer of the call. *)
Inductive RpcOutputStream := mkRpcOutputStream.

(** [RpcOutputStream::Write] *)
#[export] Instance RpcOutputStream_stream : ChunkOutputStream RpcOutputStream :=
  fun x d =>
    written ← perform (Rpc (ServerWrite (rpc.mkChunkData d)));
    mret (if (written : bool) then Status_Ok
          else Status_make kUnavailable "client closed get stream", x).

Module ControlPlaneService.
Definition Health : grpc.Status * rpc.HealthResponse :=
  (grpc.Status_OK, SetHealthy "control-plane").
End ControlPlaneService.

Module WorkerService.

(** [data_plane_]: a pointer, null in a default-constructed service. *)
Record t (C : Type) := mk { data_plane_ : option (DataPlaneService.t C) }.
Arguments mk {C} _.
Arguments data_plane_ {C} _.

Definition not_configured : grpc.Status :=
  grpc.mkStatus grpc.FAILED_PRECONDITION "data plane is not configured".

Section Handlers.
Context {C : Type} `{ChunkStore C}.

Definition Health : grpc.Status * rpc.HealthResponse := (grpc.Status_OK, SetHealthy "worker").

(** The handlers return the status of the call and the response; [addr] is the
    address of the local object [input]. *)
Definition PutChunk (self : t C) (fuel : nat) (addr : Z)
  : prog (grpc.Status * rpc.OperationResponse) :=
  match data_plane_ self with
  | None => mret (not_configured, rpc.OperationResponse_default)
  | Some data_plane =>
      first ← perform (Rpc ServerRead);
      match first with
      | Some (rpc.payload_metadata metadata) =>
          let request := mkPutChunkRequest (mkChunkId (rpc.md_chunk_id metadata))
            (rpc.md_expected_size metadata)
            (mkChecksum kBlake3 (rpc.md_expected_checksum metadata)) in
          r ← DataPlaneService.PutChunk data_plane fuel addr request RpcInputStream_make;
          mret (grpc.Status_OK, rpc.mkOperationResponse (SetStatus r.1))
      | _ =>
          mret (grpc.mkStatus grpc.INVALID_ARGUMENT "first put frame must contain metadata",
                rpc.OperationResponse_default)
      end
  end.

Definition GetChunk (self : t C) (fuel : nat) (request : rpc.GetChunkRequest) : prog grpc.Status :=
  match data_plane_ self with
  | None => mret not_configured
  | Some data_plane =>
      r ← DataPlaneService.GetChunk data_plane fuel
            (mkGetChunkRequest (mkChunkId (rpc.gr_chunk_id request))
               (mkByteRange (rpc.gr_offset request) (rpc.gr_size request))) mkRpcOutputStream;
      mret (ToGrpcStatus r.1)
  end.

Definition HeadChunk (self : t C) (fuel : nat) (request : rpc.HeadChunkRequest)
  : prog (grpc.Status * rpc.HeadChunkResponse) :=
  match data_plane_ self with
  | None => mret (not_configured, rpc.HeadChunkResponse_default)
  | Some data_plane =>
      result ← DataPlaneService.HeadChunk data_plane fuel
                 (mkHeadChunkRequest (mkChunkId (rpc.hq_chunk_id request)));
      mret (match so_value result with
            | None =>
                (grpc.Status_OK, rpc.mkHeadChunkResponse (SetStatus (so_status result)) "" 0 "")
            | Some v =>
                (grpc.Status_OK,
                 rpc.mkHeadChunkResponse (SetStatus Status_Ok) (chunk_id_value (hr_chunk_id v))
                   (hr_size v) (value (hr_checksum v)))
            end)
  end.

Definition DeleteChunk (self : t C) (request : rpc.DeleteChunkRequest)
  : prog (grpc.Status * rpc.OperationResponse) :=
  match data_plane_ self with
  | None => mret (not_configured, rpc.OperationResponse_default)
  | Some data_plane =>
      status ← DataPlaneService.DeleteChunk data_plane
                 (mkDeleteChunkRequest (mkChunkId (rpc.dq_chunk_id request)));
      mret (grpc.Status_OK, rpc.mkOperationResponse (SetStatus status))
  end.

End Handlers.
End WorkerService.

(** ** The bytes an RPC stream carries *)

(** What the peer sent in data frames. *)
Definition received_frame (e : rpc_event) : list byte :=
  match e with
  | ev ServerRead (Some (rpc.payload_data d)) => d
  | _ => []
  end.
Definition received (tr : list rpc_event) : list byte := tr ≫= received_frame.

(** A frame the store can take data from. *)
Definition data_frame (f : rpc.PutChunkFrame) : Prop :=
  match f with rpc.payload_data d => d <> [] | _ => False end.

(** What was written to the peer and taken by the library. *)
Definition sent_frame (e : rpc_event) : list byte :=
  match e with
  | ev (ServerWrite m) true => rpc.data m
  | _ => []
  end.
Definition sent (tr : list rpc_event) : list byte := tr ≫= sent_frame.

(** The part of the current frame not handed out yet. *)
Definition pending (x : RpcInputStream) : list byte := drop (offset_ x) (data_ x).

(** ** Lemmas *)

Lemma received_app tr e : received (tr ++ [e]) = received tr ++ received_frame e.
Proof. unfold received. rewrite bind_app. cbn. by rewrite app_nil_r. Qed.

Lemma sent_app tr e : sent (tr ++ [e]) = sent tr ++ sent_frame e.
Proof. unfold sent. rewrite bind_app. cbn. by rewrite app_nil_r. Qed.

Definition rpc_delivered (x : RpcInputStream) (tr : list rpc_event) : list byte :=
  take (length (received tr) - length (pending x)) (received tr).
Definition rpc_wf (x : RpcInputStream) (tr : list rpc_event) : Prop :=
  (offset_ x <= length (data_ x))%nat /\ exists pre, received tr = pre ++ pending x.

Lemma rpc_delivered_pre x tr pre : received tr = pre ++ pending x -> rpc_delivered x tr = pre.
Proof.
  intros E. unfold rpc_delivered. rewrite E, length_app.
  rewrite take_app_length'; [done|lia].
Qed.

(** Copying hands out the beginning of what is pending. *)
Lemma rpc_copy x n tr pre :
  (offset_ x <= length (data_ x))%nat -> received tr = pre ++ pending x -> 0 < n ->
  let r := RpcInputStream_copy x n in
  exists bytes, so_value r.1 = Some bytes /\ rpc_wf r.2 tr /\ rpc_delivered r.2 tr = pre ++ bytes /\
    blen bytes <= n /\ (bytes = [] -> pending x = []).
Proof.
  intros Ho E Hn r. set (k := Z.to_nat (Z.min n (Z.of_nat (length (data_ x) - offset_ x)))).
  exists (take k (pending x)).
  assert (Ep : pending r.2 = drop k (pending x)).
  { unfold pending. cbn. by rewrite drop_drop. }
  assert (Er : received tr = (pre ++ take k (pending x)) ++ pending r.2).
  { by rewrite Ep, <- app_assoc, take_drop. }
  split_and!.
  - done.
  - split; [unfold r, RpcInputStream_copy; cbn [fst snd offset_ data_]; lia|by eexists].
  - by apply rpc_delivered_pre.
  - unfold blen. rewrite length_take. lia.
  - intros Hnil%(f_equal length). unfold pending in *. rewrite length_take, length_drop in Hnil.
    apply nil_length_inv. rewrite length_drop. cbn in Hnil. lia.
Qed.

(** The contract of a stream created when the traffic was [tr0]. *)
#[program]
Definition RpcInputStream_contract (tr0 : list rpc_event) : InputContract RpcInputStream := {|
  in_delivered := rpc_delivered;
  in_exhausted x tr := (exists mid, tr = tr0 ++ mid ++ [ev ServerRead None]) /\ pending x = [];
  in_broken x tr := exists mid f, tr = tr0 ++ mid ++ [ev ServerRead (Some f)] /\ ~ data_frame f;
  in_wf x tr := tr0 `prefix_of` tr /\ rpc_wf x tr |}.
Next Obligation.
  intros tr0 x n s Hn [[mid Emid] [Ho [pre E]]]. unfold in_Read, RpcInputStream_stream.
  assert (Hlast : forall e, s_trace s ++ [e] = tr0 ++ mid ++ [e]) by (intros e; by rewrite Emid, app_assoc).
  assert (Hmore : forall e, tr0 `prefix_of` s_trace s ++ [e]) by (intros e; rewrite Hlast; by eexists).
  rewrite (bool_decide_false (n = 0)) by lia. pose proof (rpc_delivered_pre _ _ _ E) as Hd.
  case_bool_decide as Hend.
  - assert (Hp : pending x = []) by (unfold pending; rewrite Hend; apply drop_all).
    apply wp_perform_bind. intros frame s' Hpost. cbn [call_post] in Hpost.
    destruct Hpost as [r k e Hk _]. cbn in Hk. subst k.
    assert (Hl : later s (mkState e (s_events s) (s_quiet s) (s_trace s ++ [ev ServerRead r]) (s_fs s)))
      by done.
    destruct r as [[|m|d]|].
    + apply wp_ret. cbn [returns fst snd s_trace so_value SO_error]. split; [done|split; [done|]].
      assert (Er : received (s_trace s ++ [ev ServerRead (Some rpc.payload_not_set)]) = pre ++ pending x)
        by (rewrite received_app; cbn; by rewrite app_nil_r).
      rewrite (rpc_delivered_pre _ _ _ Er), Hd. split; [split; [apply Hmore|by split; [|exists pre]]|].
      split; [done|split; [done|]]. eexists _, _. split; [apply Hlast|by intros []].
    + apply wp_ret. cbn [returns fst snd s_trace so_value SO_error]. split; [done|split; [done|]].
      assert (Er : received (s_trace s ++ [ev ServerRead (Some (rpc.payload_metadata m))]) = pre ++ pending x)
        by (rewrite received_app; cbn; by rewrite app_nil_r).
      rewrite (rpc_delivered_pre _ _ _ Er), Hd. split; [split; [apply Hmore|by split; [|exists pre]]|].
      split; [done|split; [done|]]. eexists _, _. split; [apply Hlast|by intros []].
    + assert (Er : received (s_trace s ++ [ev ServerRead (Some (rpc.payload_data d))])
                   = pre ++ pending (mkRpcInputStream d 0)).
      { rewrite received_app, E, Hp, app_nil_r. done. }
      case_bool_decide as Hd0; apply wp_ret; cbn [returns fst snd s_trace]; (split; [done|split; [done|]]).
      * cbn [so_value SO_error]. rewrite (rpc_delivered_pre _ _ _ Er), Hd.
        split; [split; [apply Hmore|split; [cbn; lia|by exists pre]]|]. split; [done|split; [done|]].
        eexists _, _. split; [apply Hlast|by intros Hx].
      * destruct (rpc_copy (mkRpcInputStream d 0) n _ pre ltac:(cbn; lia) Er Hn)
          as (bytes & -> & Hwf & Hdel & Hb & Hnil).
        rewrite Hdel, Hd. split; [by split; [apply Hmore|]|split; [done|split; [done|]]]. intros Hbn.
        by apply Hnil in Hbn.
    + apply wp_ret. cbn [returns fst snd s_trace so_value SO_value]. split; [done|split; [done|]].
      assert (Er : received (s_trace s ++ [ev ServerRead None]) = pre ++ pending x)
        by (rewrite received_app; cbn; by rewrite app_nil_r).
      rewrite (rpc_delivered_pre _ _ _ Er), Hd, app_nil_r.
      split; [split; [apply Hmore|by split; [|exists pre]]|split; [done|split; [by rewrite blen_nil; lia|]]].
      intros _. split; [by eexists|done].
  - apply wp_ret. destruct (rpc_copy x n _ pre Ho E Hn) as (bytes & Hv & Hwf & Hdel & Hb & Hnil).
    split; [done|split; [done|]]. rewrite Hv, Hdel, Hd.
    split; [split; [by exists mid|done]|split; [done|split; [done|]]]. intros Hbn%Hnil.
    apply (f_equal length) in Hbn. unfold pending in Hbn. rewrite length_drop in Hbn. cbn in Hbn. lia.
Qed.

#[export] Program Instance RpcOutputStream_contract : OutputContract RpcOutputStream := {
  out_written x tr := sent tr; out_broken x tr := exists tr' m, tr = tr' ++ [ev (ServerWrite m) false] }.
Next Obligation.
  intros x d s. unfold out_Write, RpcOutputStream_stream.
  apply wp_perform_bind. intros b s' Hpost. cbn [call_post] in Hpost.
  destruct Hpost as [r k e Hk _]. cbn in Hk. subst k. apply wp_ret.
  cbn [returns fst snd s_trace]. rewrite sent_app.
  destruct r; (split; [done|split; [done|split; [done|]]]); [by left|right]. by eexists _, _.
Qed.
