(* ===== verification/HandlerSpec.v ===== *)
(** * What the worker's handlers do, in every environment, over any store that
    keeps the ChunkStore contract. *)
From stdpp Require Import functions.
From S2P Require Import Prelude Status Types Path Proto System Prog UniqueFd Blake3 FileIO.
From S2P Require Import Streams ChunkStore DataPlane Services.

(** ** Lemmas *)

Lemma rpc_wf_make tr : rpc_wf RpcInputStream_make tr.
Proof. split; [cbn; lia|]. exists (received tr). by rewrite app_nil_r. Qed.

Lemma rpc_delivered_make tr : rpc_delivered RpcInputStream_make tr = received tr.
Proof. apply rpc_delivered_pre. by rewrite app_nil_r. Qed.

Lemma received_more tr tr' : received (tr ++ tr') = received tr ++ received tr'.
Proof. apply bind_app. Qed.

Lemma sent_more tr tr' : sent (tr ++ tr') = sent tr ++ sent tr'.
Proof. apply bind_app. Qed.

(** What a stream object has handed out is the beginning of what was received. *)
Lemma rpc_delivered_prefix x tr : rpc_delivered x tr `prefix_of` received tr.
Proof. unfold rpc_delivered. eexists. symmetry. apply take_drop. Qed.

Lemma SetStatus_ok st : rpc.code (SetStatus st) = rpc.STATUS_CODE_OK <-> ok st = true.
Proof. destruct st as [c m]. unfold ok. by destruct c. Qed.

Lemma ToGrpcStatus_ok st : grpc.ok (ToGrpcStatus st) = ok st.
Proof. destruct st as [c m]. by destruct c. Qed.

Section Handlers.
Context {C : Type} `{ChunkStoreContract C}.
Context (store : C).

(** The service of a configured worker. *)
Definition serving : WorkerService.t C := WorkerService.mk (Some (DataPlaneService.mk store)).
Abbreviation accepts id := (service_accepts (DataPlaneService.mk store) id).

Definition put_request (md : rpc.PutChunkMetadata) : PutChunkRequest :=
  mkPutChunkRequest (mkChunkId (rpc.md_chunk_id md)) (rpc.md_expected_size md)
    (mkChecksum kBlake3 (rpc.md_expected_checksum md)).

(** An upload: the first frame decides; the store then does a Put with [d], the
    beginning of the data of the frames read, and all of it once the end of the
    stream was read ([fin]); the input is [broken] by a frame without data. *)
Definition put_handled (addr : Z) (s : state) (r : grpc.Status * rpc.OperationResponse) (s' : state) : Prop :=
  exists first tr, s_trace s' = s_trace s ++ ev ServerRead first :: tr /\
  match first with
  | Some (rpc.payload_metadata md) =>
      exists st d (broken fin : Prop), r = (grpc.Status_OK, rpc.mkOperationResponse (SetStatus st)) /\
        cs_inv store (s_fs s') /\ d `prefix_of` received tr /\ (fin -> d = received tr /\ exists mid, tr = mid ++ [ev ServerRead None]) /\
        (broken -> exists mid f, tr = mid ++ [ev ServerRead (Some f)] /\ ~ data_frame f) /\
        put_spec (accepts (mkChunkId (rpc.md_chunk_id md)))
          (put_calm (DataPlaneService.mk store) s (put_request md) addr) broken
          (cs_chunks store (s_fs s)) (put_request md) d fin st (cs_chunks store (s_fs s'))
  | _ =>
      r = (grpc.mkStatus grpc.INVALID_ARGUMENT "first put frame must contain metadata",
           rpc.OperationResponse_default) /\ s_fs s' = s_fs s
  end.

Lemma Handler_PutChunk_wp fuel addr s :
  cs_inv store (s_fs s) -> (cs_need store u64_max (s_events s) < fuel)%nat ->
  wp (WorkerService.PutChunk serving fuel addr) (returns (put_handled addr s)) s.
Proof.
  intros Hinv Hfuel. eapply wp_bind_returns; [apply (rpc_rule ServerRead)|].
  intros first s1 (Hq1 & Hfs1 & Htr1 & Hev1 & Hty). cbn in Hev1.
  assert (Hno : s_fs s1 = s_fs s -> s_trace s1 = s_trace s ++ ev ServerRead first :: []) by done.
  destruct first as [[|md|x]|]; [| |apply wp_ret; by exists (Some (rpc.payload_data x)), []|].
  1,3: apply wp_ret; by eexists _, [].
  cbn [rpc_typed] in Hty. apply is_u64b_true in Hty. rewrite <- Hfs1 in Hinv.
  eapply wp_bind_returns.
  { apply wp_returns_extends,
      (Service_PutChunk_wp (H3:=RpcInputStream_contract (s_trace s1)) (DataPlaneService.mk store)).
    - exact Hinv.
    - exact Hty.
    - split; [done|apply rpc_wf_make].
    - refine (Nat.le_lt_trans _ _ _ (cs_need_mono _ _ _ _ _ _ _) Hfuel); cbn [expected_size];
        unfold is_u64, u64_max in *; lia. }
  intros [st x] s2 [(Hl & Hi & _ & d & Hd & Hspec) [tr Htr]]. apply wp_ret.
  exists (Some (rpc.payload_metadata md)), tr. rewrite Htr, Htr1, <- app_assoc. split; [done|].
  pose (I := RpcInputStream_contract (s_trace s1)).
  exists st, d, (in_broken x (s_trace s2)), (in_exhausted x (s_trace s2)). split; [done|split; [done|]].
  cbn [in_delivered RpcInputStream_contract fst snd] in Hd, Hspec.
  rewrite rpc_delivered_make in Hd.
  assert (Hall : received (s_trace s2) = received (s_trace s1) ++ received tr)
    by (by rewrite Htr, received_more).
  split; [|split; [|split]].
  - pose proof (rpc_delivered_prefix x (s_trace s2)) as Hp. rewrite Hd, Hall in Hp.
    by apply prefix_app_inv in Hp.
  - intros [[mid Hmid] Hp]. split; [|exists mid; rewrite Htr in Hmid; by apply app_inv_head in Hmid].
    unfold rpc_delivered in Hd. rewrite Hp in Hd. cbn [length] in Hd.
    rewrite Nat.sub_0_r, firstn_all, Hall in Hd. by apply app_inv_head in Hd.
  - intros (mid & f & Hmid & Hf). exists mid, f. rewrite Htr in Hmid. by apply app_inv_head in Hmid.
  - unfold put_calm in Hspec |- *. rewrite <- Hfs1. by rewrite Hq1 in Hspec.
Qed.

(** A download: [d] was written to the peer; it can be [broken] off by a message
    that the library does not take. *)
Definition get_handled (req : rpc.GetChunkRequest) (s : state) (g : grpc.Status) (s' : state) : Prop :=
  s_fs s' = s_fs s /\ exists st d (broken : Prop) tr, g = ToGrpcStatus st /\ s_trace s' = s_trace s ++ tr /\ sent tr = d /\
    (broken -> exists mid m, s_trace s' = mid ++ [ev (ServerWrite m) false]) /\
    let q := mkGetChunkRequest (mkChunkId (rpc.gr_chunk_id req)) (mkByteRange (rpc.gr_offset req) (rpc.gr_size req)) in
    get_spec (accepts (get_chunk_id q)) (read_calm (DataPlaneService.mk store) s (get_chunk_id q)) broken
      (cs_chunks store (s_fs s)) q st d.

Lemma Handler_GetChunk_wp fuel req s :
  cs_inv store (s_fs s) -> is_u64 (rpc.gr_offset req) -> is_u64 (rpc.gr_size req) ->
  (cs_need store (rpc.gr_size req) (s_events s) < fuel)%nat ->
  wp (WorkerService.GetChunk serving fuel req) (returns (get_handled req s)) s.
Proof.
  intros Hinv Ho Hs Hf.
  eapply wp_bind_returns; [by apply wp_returns_extends, (Service_GetChunk_wp (DataPlaneService.mk store))|].
  intros [st x] s1 [(_ & Hfs & d & Hd & Hspec) [tr Htr]]. apply wp_ret. split; [done|].
  exists st, d, (out_broken x (s_trace s1)), tr. split; [done|split; [done|]].
  split; [|split; [done|exact Hspec]].
  cbn [out_written RpcOutputStream_contract snd] in Hd. rewrite Htr, sent_more in Hd.
  by apply app_inv_head in Hd.
Qed.

(** An inquiry. *)
Definition head_handled (req : rpc.HeadChunkRequest) (s : state)
    (r : grpc.Status * rpc.HeadChunkResponse) (s' : state) : Prop :=
  s_fs s' = s_fs s /\ exists a,
    let id := mkChunkId (rpc.hq_chunk_id req) in
    head_spec (accepts id) (read_calm (DataPlaneService.mk store) s id) (cs_chunks store (s_fs s)) id a /\
    r = (grpc.Status_OK, match so_value a with
         | None => rpc.mkHeadChunkResponse (SetStatus (so_status a)) "" 0 ""
         | Some v => rpc.mkHeadChunkResponse (SetStatus Status_Ok) (chunk_id_value (hr_chunk_id v))
                       (hr_size v) (value (hr_checksum v))
         end).

Lemma Handler_HeadChunk_wp fuel req s :
  cs_inv store (s_fs s) -> (cs_need store 0 (s_events s) < fuel)%nat ->
  wp (WorkerService.HeadChunk serving fuel req) (returns (head_handled req s)) s.
Proof.
  intros Hinv Hf.
  eapply wp_bind_returns; [by apply (Service_HeadChunk_wp (DataPlaneService.mk store))|].
  intros a s1 (_ & Hfs & Hspec). apply wp_ret. split; [done|]. exists a. split; [exact Hspec|].
  by destruct (so_value a).
Qed.

(** A removal. *)
Definition delete_handled (req : rpc.DeleteChunkRequest) (s : state)
    (r : grpc.Status * rpc.OperationResponse) (s' : state) : Prop :=
  cs_inv store (s_fs s') /\ exists st,
    let id := mkChunkId (rpc.dq_chunk_id req) in
    r = (grpc.Status_OK, rpc.mkOperationResponse (SetStatus st)) /\
    delete_spec (accepts id) (read_calm (DataPlaneService.mk store) s id) (cs_chunks store (s_fs s)) id st
      (cs_chunks store (s_fs s')).

Lemma Handler_DeleteChunk_wp req s :
  cs_inv store (s_fs s) ->
  wp (WorkerService.DeleteChunk serving req) (returns (delete_handled req s)) s.
Proof.
  intros Hinv.
  eapply wp_bind_returns; [by apply (Service_DeleteChunk_wp (DataPlaneService.mk store))|].
  intros st s1 (_ & Hi & _ & Hspec). apply wp_ret. split; [done|]. by exists st.
Qed.

End Handlers.

Arguments serving {C} _.
