(* ===== verification/ServerConcurrency.v ===== *)
(** * The handlers of a worker at the same time: what each may answer, and that
    its code, run alone, is fit for company. *)
From stdpp Require Import functions.
From S2P Require Import Prelude Status Types Path Proto System Prog UniqueFd Blake3 MemOS FileIO Files.
From S2P Require Import ChunkFormat Streams ChunkStore FileStore StorePaths StoreRead StoreSpec Sequence.
From S2P Require Import Concurrent Protocol Interference Names Interleaving Linearize Answers.
From S2P Require Import DataPlane Services HandlerSpec.

(** ** Definitions *)

(** The calls a worker serves; [addr] is the address of the handler's input
    stream. *)
Inductive worker_call :=
| ServePut (addr : Z)
| ServeGet (req : rpc.GetChunkRequest)
| ServeHead (req : rpc.HeadChunkRequest)
| ServeDelete (req : rpc.DeleteChunkRequest).

Inductive worker_answer :=
| PutServed (r : grpc.Status * rpc.OperationResponse)
| GetServed (g : grpc.Status)
| HeadServed (r : grpc.Status * rpc.HeadChunkResponse)
| DeleteServed (r : grpc.Status * rpc.OperationResponse).

(** A handler of the worker whose store is at [root]. *)
Definition serve `{Libc} `{Blake3} (root : string) (fuel : nat) (cmd : worker_call) : prog worker_answer :=
  let self := serving (mkFileChunkStore root) in
  match cmd with
  | ServePut addr => r ← WorkerService.PutChunk self fuel addr; mret (PutServed r)
  | ServeGet req => g ← WorkerService.GetChunk self fuel req; mret (GetServed g)
  | ServeHead req => r ← WorkerService.HeadChunk self fuel req; mret (HeadServed r)
  | ServeDelete req => r ← WorkerService.DeleteChunk self req; mret (DeleteServed r)
  end.

Definition worker_accepts (id : ChunkId) : bool := ChunkId_valid id && ok (ValidateId id).
Definition get_request (req : rpc.GetChunkRequest) : GetChunkRequest :=
  mkGetChunkRequest (mkChunkId (rpc.gr_chunk_id req)) (mkByteRange (rpc.gr_offset req) (rpc.gr_size req)).

Section Specs.
Context `{Blake3} (root : string).
(** When all is [calm], a request whose names fit is not hindered by faults. *)
Context (calm : Prop).
Abbreviation reachable id := (calm /\ name_fits (PathFor root id) = true).

(** An upload, by its traffic: the first frame decides, and the data of the frames
    after it, all of them if the end of the stream was read, are put. *)
Definition put_served (addr : Z) (m : store_map) (r : grpc.Status * rpc.OperationResponse) (tr : list rpc_event) (m' : store_map) : Prop :=
  exists first rest, tr = ev ServerRead first :: rest /\
  match first with
  | Some (rpc.payload_metadata md) =>
      exists st d (broken fin : Prop), r = (grpc.Status_OK, rpc.mkOperationResponse (SetStatus st)) /\
        d `prefix_of` received rest /\ (fin -> d = received rest /\ exists mid, rest = mid ++ [ev ServerRead None]) /\
        (broken -> exists mid f, rest = mid ++ [ev ServerRead (Some f)] /\ ~ data_frame f) /\
        put_spec (worker_accepts (mkChunkId (rpc.md_chunk_id md)))
          (calm /\ store_room root (mkChunkId (rpc.md_chunk_id md)) addr (rpc.md_expected_size md))
          broken m (put_request md) d fin st m'
  | _ =>
      r = (grpc.mkStatus grpc.INVALID_ARGUMENT "first put frame must contain metadata",
           rpc.OperationResponse_default) /\ same_map m m'
  end.

(** A download, which looks twice: the messages that were taken are what Get hands
    out. *)
Definition get_served (req : rpc.GetChunkRequest) (m1 m2 : store_map) (g : grpc.Status) (tr : list rpc_event) : Prop :=
  exists st (broken : Prop), g = ToGrpcStatus st /\ (broken -> exists mid m, tr = mid ++ [ev (ServerWrite m) false]) /\
    get_outcomes worker_accepts (reachable (mkChunkId (rpc.gr_chunk_id req))) (get_request req) m1 m2 broken st (sent tr).

Definition head_served (req : rpc.HeadChunkRequest) (m : store_map) (r : grpc.Status * rpc.HeadChunkResponse) : Prop :=
  exists a, let id := mkChunkId (rpc.hq_chunk_id req) in
    head_spec (worker_accepts id) (reachable id) m id a /\
    r = (grpc.Status_OK, match so_value a with
         | None => rpc.mkHeadChunkResponse (SetStatus (so_status a)) "" 0 ""
         | Some v => rpc.mkHeadChunkResponse (SetStatus Status_Ok) (chunk_id_value (hr_chunk_id v))
                       (hr_size v) (value (hr_checksum v))
         end).

Definition delete_served (req : rpc.DeleteChunkRequest) (m : store_map)
    (r : grpc.Status * rpc.OperationResponse) (m' : store_map) : Prop :=
  exists st, let id := mkChunkId (rpc.dq_chunk_id req) in
    r = (grpc.Status_OK, rpc.mkOperationResponse (SetStatus st)) /\
    delete_spec (worker_accepts id) (reachable id) m id st m'.

Definition worker_specification : Specification worker_call worker_answer := {|
  sp_twice cmd := match cmd with ServeGet _ => true | _ => false end;
  sp_answers cmd m a tr m' :=
    match cmd, a with
    | ServePut addr, PutServed r => put_served addr m r tr m'
    | ServeHead req, HeadServed r => same_map m m' /\ head_served req m r
    | ServeDelete req, DeleteServed r => delete_served req m r m'
    | _, _ => False
    end;
  sp_reads cmd m1 m2 a tr :=
    match cmd, a with ServeGet req, GetServed g => get_served req m1 m2 g tr | _, _ => False end |}.

(** ** Lemmas *)

(** The specifications of the contract, with less calm and on equal stores. *)
Lemma put_spec_same acc (calm1 calm2 : Prop) broken m1 m2 req d fin st m1' m2' :
  (calm2 -> calm1) -> same_map m1 m2 -> same_map m1' m2' ->
  put_spec acc calm1 broken m1 req d fin st m1' -> put_spec acc calm2 broken m2 req d fin st m2'.
Proof.
  intros Himp E E' Hs. revert E'. destruct Hs as [st' m' Ha Hc Hd Hm|st' m' Ha Hwhy Hm|st' m' Ha Hf Hdm Hn Hm Hst]; intros E'.
  - apply ps_invalid; try done. by rewrite <- E, <- E'.
  - apply ps_rejected; try done; [|by rewrite <- E, <- E'].
    destruct Hwhy as [st' Hst Hb|st' Hc Hdm Hw|st' Hc Hf Hdm Hs|st' Hc Hno].
    + by apply pr_input.
    + by apply pr_corrupt.
    + apply pr_exists; try done. by rewrite (E _).
    + apply pr_fault; auto.
  - apply ps_stored; try done.
    + by rewrite (E _).
    + rewrite <- E', <- Hm. symmetry. by apply same_map_insert.
    + destruct Hst as [?|[? ?]]; auto.
Qed.

Lemma delete_spec_same acc (calm1 calm2 : Prop) m1 m2 id st m1' m2' :
  (calm2 -> calm1) -> same_map m1 m2 -> same_map m1' m2' ->
  delete_spec acc calm1 m1 id st m1' -> delete_spec acc calm2 m2 id st m2'.
Proof.
  intros Himp E E' Hs. revert E'. destruct Hs as [st' m' Ha Hc Hm|st' m' Ha Hn Hc Hm|m' Ha Hs Hm|st' m' Ha Hc Hno Hm]; intros E'.
  - apply ds_invalid; try done. by rewrite <- E, <- E'.
  - apply ds_missing; try done; [by rewrite (E id)|]. by rewrite <- E, <- E'.
  - apply ds_done; [done|by rewrite (E id)|]. rewrite <- E', <- Hm. symmetry. by apply same_map_insert.
  - apply ds_fault; auto. by rewrite <- E, <- E'.
Qed.

(** A download looks at one identifier only. *)
Lemma get_outcomes_accepts (acc1 acc2 : ChunkId -> bool) calm' req m1 m2 broken st out :
  acc1 (get_chunk_id req) = acc2 (get_chunk_id req) ->
  get_outcomes acc1 calm' req m1 m2 broken st out -> get_outcomes acc2 calm' req m1 m2 broken st out.
Proof.
  intros E [st' Ha Hc|st' Ha Hn Hc|c p Ha Hm Hv|st' Hc Hno|st' c1 p1 H1 H2 Hc|c1 p1 c2 p2 out' Ha H1 Hr H2 Ho Hl|st' c1 p1 c2 p2 out' H1 Hr H2 Ho Hst Hc];
    rewrite ?E in *.
  - by apply go_invalid.
  - by apply go_missing.
  - by eapply go_range.
  - by apply go_fault.
  - by eapply go_gone.
  - by eapply go_done.
  - by eapply go_cut.
Qed.

End Specs.

#[export] Instance RpcInputStream_idle : IdleInput RpcInputStream.
Proof.
  intros x n. unfold in_Read, RpcInputStream_stream.
  case_bool_decide; [apply idles_ret|]. case_bool_decide; [|apply idles_ret].
  apply idles_bind; [by apply idles_perform|]. intros [[|md|d]|]; try apply idles_ret.
  case_bool_decide; apply idles_ret.
Qed.

#[export] Instance RpcOutputStream_idle : IdleOutput RpcOutputStream.
Proof.
  intros x d. unfold out_Write, RpcOutputStream_stream.
  apply idles_bind; [by apply idles_perform|]. intros b. apply idles_ret.
Qed.

Section Worker.
Context `{Libc} `{Blake3} (root : string) (fuel : nat) (calm : Prop).
Abbreviation store := (mkFileChunkStore root).
Abbreviation sp_answers := (sp_answers (Specification:=worker_specification root calm)).
Abbreviation sp_reads := (sp_reads (Specification:=worker_specification root calm)).
Abbreviation sp_twice := (sp_twice (Specification:=worker_specification root calm)).

(** What a handler needs at its start: no traffic yet, enough fuel, and quiet when
    all is calm. *)
Definition serve_fits (cmd : worker_call) (l : locals) : Prop :=
  l_trace l = [] /\ (calm -> l_quiet l = true) /\
  match cmd with
  | ServePut _ => (cs_need store u64_max (l_events l) < fuel)%nat
  | ServeGet req => is_u64 (rpc.gr_offset req) /\ is_u64 (rpc.gr_size req) /\
      (cs_need store (rpc.gr_size req) (l_events l) < fuel)%nat
  | ServeHead _ => (cs_need store 0 (l_events l) < fuel)%nat
  | ServeDelete _ => True
  end.

Lemma serve_answers_proper cmd m1 m2 a tr m1' m2' :
  same_map m1 m2 -> same_map m1' m2' ->
  sp_answers cmd m1 a tr m1' -> sp_answers cmd m2 a tr m2'.
Proof.
  intros E E' Ha. destruct cmd as [addr|req|req|req], a as [r|g|r|r]; try done; cbn in *.
  - destruct Ha as (first & rest & Htr & Hc). exists first, rest. split; [done|].
    destruct first as [[|md|x]|]; try (destruct Hc as [-> Hm]; split; [done|by rewrite <- E, <- E']).
    destruct Hc as (st & d & broken & fin & Hr & Hd & Hf & Hb & Hs). exists st, d, broken, fin.
    split_and!; [done..|]. by eapply put_spec_same; [| | |exact Hs].
  - destruct Ha as [Hm (x & Hs & Hr)]. split; [by rewrite <- E, <- E'|]. exists x. split; [|done].
    by eapply head_spec_same.
  - destruct Ha as (st & Hr & Hs). exists st. split; [done|]. by eapply delete_spec_same; [| | |exact Hs].
Qed.

Lemma serve_reads_proper cmd m1 m1' m2 m2' a tr :
  same_map m1 m1' -> same_map m2 m2' ->
  sp_reads cmd m1 m2 a tr -> sp_reads cmd m1' m2' a tr.
Proof.
  intros E1 E2 Ha. destruct cmd as [addr|req|req|req], a as [r|g|r|r]; try done; cbn in *.
  destruct Ha as (st & broken & Hg & Hb & Hs). exists st, broken. split_and!; [done..|].
  by eapply get_outcomes_proper.
Qed.

(** The handlers that act once keep the protocol. *)
Lemma serve_obeys cmd :
  sp_twice cmd = false -> obeys root PStart (serve root fuel cmd) (fun _ ph => ended ph).
Proof.
  assert (Hlast : forall {X} (p : prog X) (k : X -> worker_answer),
    obeys root PStart p (fun _ ph => ended ph) -> obeys root PStart (x ← p; mret (k x)) (fun _ ph => ended ph)).
  { intros X p k Hp. eapply obeys_bind; [exact Hp|]. intros x ph Hph. by apply obeys_ret. }
  assert (Hearly : forall {X} (x : X), obeys root PStart (mret x) (fun _ ph => ended ph)).
  { intros X x. apply obeys_ret. by left. }
  assert (Hread : forall {X} (p : prog X), obeys root PStart p (fun _ ph => ph = PStart \/ ph = PDone) ->
    obeys root PStart p (fun _ ph => ended ph)).
  { intros X p Hp. eapply obeys_mono; [exact Hp|]. intros _ ph [->| ->]; [by left|by right; right]. }
  intros Htw. destruct cmd as [addr|req|req|req]; [|done|..]; cbn [serve]; apply Hlast.
  - unfold WorkerService.PutChunk, serving. cbn [WorkerService.data_plane_].
    apply obeys_idle; [done|]. intros [[|md|x]|]; try apply Hearly.
    eapply (obeys_bind _ _ _ _ (fun _ ph => ended ph)); [|intros x ph Hph; by apply obeys_ret].
    unfold DataPlaneService.PutChunk. destruct (negb _); [apply Hearly|]. cbn zeta. destruct (negb _); [apply Hearly|].
    exact (Put_obeys root fuel addr _ RpcInputStream_make).
  - unfold WorkerService.HeadChunk, serving. cbn [WorkerService.data_plane_].
    eapply (obeys_bind _ _ _ _ (fun _ ph => ended ph)); [|intros x ph Hph; by apply obeys_ret].
    unfold DataPlaneService.HeadChunk. destruct (negb _); [apply Hearly|]. apply Hread. exact (Head_obeys root fuel _).
  - unfold WorkerService.DeleteChunk, serving. cbn [WorkerService.data_plane_].
    eapply (obeys_bind _ _ _ _ (fun _ ph => ended ph)); [|intros x ph Hph; by apply obeys_ret].
    unfold DataPlaneService.DeleteChunk. destruct (negb _); [apply Hearly|]. apply Hread. exact (Delete_obeys root _).
Qed.

(** The stream an upload reads from. *)
Definition serve_stream (cmd : worker_call) : option Z := match cmd with ServePut addr => Some addr | _ => None end.

(** Run alone they answer as specified. *)
Lemma serve_wp cmd l g :
  sp_twice cmd = false -> serve_fits cmd l -> store_ok root g ->
  (calm -> forall q, temps_for root (serve_stream cmd) q -> f_names g !! q = None) ->
  wp (serve root fuel cmd) (verdict root (sp_answers cmd) g) (join l g).
Proof.
  intros Htw (Htr & Hq & Hf) Hok Hfree. destruct cmd as [addr|req|req|req]; [|done|..]; cbn [serve].
  - eapply wp_bind_returns; [exact (Handler_PutChunk_wp store fuel addr (join l g) Hok Hf)|].
    intros r s' (first & tr & Htr' & Hpost). apply wp_ret. cbn [s_trace join] in Htr'. rewrite Htr in Htr'.
    unfold verdict. cbn [returns]. rewrite Htr'.
    assert (Hno : r = (grpc.mkStatus grpc.INVALID_ARGUMENT "first put frame must contain metadata",
        rpc.OperationResponse_default) /\ s_fs s' = g -> store_ok root (s_fs s') /\
        r = (grpc.mkStatus grpc.INVALID_ARGUMENT "first put frame must contain metadata",
        rpc.OperationResponse_default) /\ same_map (chunks root g) (chunks root (s_fs s'))) by (by intros [-> ->]).
    destruct first as [[|md|x]|].
    1,3,4: destruct (Hno Hpost) as [Hok' Hpost']; split; [exact Hok'|by eexists _, tr].
    destruct Hpost as (st & d & broken & fin & Hr & Hinv & Hd & Hfin & Hb & Hs). split; [exact Hinv|].
    exists (Some (rpc.payload_metadata md)), tr. split; [done|]. exists st, d, broken, fin. split_and!; try done.
    eapply put_spec_same; [|reflexivity..|exact Hs].
    intros [Hc Hroom]. split; [by apply Hq|split; [|exact Hroom]]. intros pid. apply (Hfree Hc). by eexists _, _.
  - eapply wp_bind_returns; [exact (Handler_HeadChunk_wp store fuel req (join l g) Hok Hf)|].
    intros r s' (Hfs & a & Hs & Hr). apply wp_ret. unfold verdict. cbn [returns]. rewrite Hfs.
    split; [done|split; [done|]]. exists a. split; [|exact Hr]. eapply head_spec_weaken; [|exact Hs].
    intros [Hc Hfit]. split; [by apply Hq|exact Hfit].
  - eapply wp_bind_returns; [exact (Handler_DeleteChunk_wp store req (join l g) Hok)|].
    intros r s' (Hinv & st & Hr & Hs). apply wp_ret. split; [exact Hinv|]. exists st. split; [exact Hr|].
    eapply delete_spec_same; [|reflexivity..|exact Hs]. intros [Hc Hfit]. split; [by apply Hq|exact Hfit].
Qed.

(** A download looks twice: at the chunk that [Head] finds, and at the one that is
    opened for reading. *)
Section Download.
Context (req : rpc.GetChunkRequest).
Abbreviation id := (mkChunkId (rpc.gr_chunk_id req)).
Abbreviation reachable := (calm /\ name_fits (PathFor root id) = true).
(** What is left to do with the result of [DataPlaneService.GetChunk]. *)
Definition served_status (p : prog (Status * RpcOutputStream)) : prog worker_answer :=
  g ← (r ← p; mret (ToGrpcStatus r.1)); mret (GetServed g).

Lemma serve_get_code :
  serve root fuel (ServeGet req) =
  served_status (DataPlaneService.GetChunk (DataPlaneService.mk store) fuel (get_request req) mkRpcOutputStream).
Proof. done. Qed.

Lemma served_status_obeys p :
  obeys root PStart p (fun _ ph => ended ph) -> obeys root PStart (served_status p) (fun _ ph => ended ph).
Proof.
  intros Hp. unfold served_status. eapply (obeys_bind _ _ _ _ (fun _ ph => ended ph)).
  - eapply obeys_bind; [exact Hp|]. intros x ph Hph. by apply obeys_ret.
  - intros x ph Hph. by apply obeys_ret.
Qed.

Lemma served_status_wp m1 p g l :
  l_trace l = [] ->
  wp p (returns (fun x s' => s_fs s' = g /\ exists d,
    out_written x.2 (s_trace s') = out_written mkRpcOutputStream (l_trace l) ++ d /\
    get_outcomes worker_accepts reachable (get_request req) m1 (chunks root g) (out_broken x.2 (s_trace s')) x.1 d)) (join l g) ->
  store_ok root g ->
  wp (served_status p) (verdict root (fun m a tr m' => same_map m m' /\ sp_reads (ServeGet req) m1 m a tr) g) (join l g).
Proof.
  intros Htr Hp Hok. unfold served_status.
  eapply wp_bind_returns; [eapply wp_bind_returns; [exact Hp|]|].
  - intros x s' (Hfs & d & Hd & Ho). apply wp_ret. cbn [returns].
    instantiate (1 := fun gs s' => s_fs s' = g /\ get_served root calm req m1 (chunks root g) gs (s_trace s')).
    split; [exact Hfs|]. cbn [out_written RpcOutputStream_contract] in Hd. rewrite Htr in Hd. cbn in Hd. subst d.
    exists x.1, (out_broken x.2 (s_trace s')). split; [done|split; [done|exact Ho]].
  - intros gs s' [Hfs Hg]. apply wp_ret. unfold verdict. cbn [returns]. rewrite Hfs. by split.
Qed.

#[program]
Definition valid_get_looks (Hv : ChunkId_valid id = true) :
  two_looks root (serve_fits (ServeGet req)) (sp_reads (ServeGet req)) (serve root fuel (ServeGet req)) := {|
  tl_first := Head fuel root id;
  tl_second := Get_rest root fuel (get_request req) mkRpcOutputStream;
  tl_wrap := served_status;
  tl_looked m r tr := head_goal reachable (fun tr => tr = []) id m r tr m |}.
Next Obligation. intros Hv. rewrite serve_get_code. unfold DataPlaneService.GetChunk. cbn [get_chunk_id get_request]. rewrite Hv. cbn [negb]. reflexivity. Qed.
Next Obligation. done. Qed.
Next Obligation. intros Hv m m' x tr E Hg. by eapply head_goal_proper. Qed.
Next Obligation. intros Hv. apply Head_obeys. Qed.
Next Obligation.
  intros Hv l g (Htr & Hq & _ & _ & Hf) Hok. eapply wp_returns_mono.
  - apply (Head_goal_wp _ _ reachable (fun tr => tr = [])); [done|exact Hok| |intros [Hc Hfit]; split; [by apply Hq|exact Hfit]].
    change (store_need (rpc.gr_size req) (l_events l) < fuel)%nat in Hf. unfold store_need in *. lia.
  - intros r s' (Hok' & Hk & Hm & Hrest). split; [done|]. split; [done|]. split; [exact Hk|by split].
Qed.
Next Obligation. intros Hv x. apply served_status_obeys. exact (Get_rest_obeys root fuel (get_request req) mkRpcOutputStream x). Qed.
Next Obligation.
  intros Hv m1 x l0 l g (_ & Hq & Ho & Hs & Hf) [Hev Hql] (Htr & _ & Hhead & Hroom) Hok.
  apply served_status_wp; [exact Htr| |exact Hok].
  assert (Hcalm : reachable -> l_quiet l = true /\ name_fits (PathFor root id) = true).
  { intros [Hc Hfit]. rewrite Hql. split; [by apply Hq|exact Hfit]. }
  assert (Hneed : (store_need (rpc.gr_size req) (l_events l) < fuel)%nat).
  { change (store_need (rpc.gr_size req) (l_events l0) < fuel)%nat in Hf. unfold store_need in *. lia. }
  eapply wp_returns_mono; [exact (Get_rest_wp root fuel reachable (get_request req) m1 x mkRpcOutputStream g l Hok Ho Hs
    Hneed Hhead Hroom Hcalm)|].
  intros r s' (Hfs & d & Hd & Hg). split; [done|]. exists d. split; [done|].
  eapply get_outcomes_accepts; [|exact Hg]. cbn [get_chunk_id get_request]. unfold worker_accepts. by rewrite Hv.
Qed.

(** A request without an identifier is refused before the first look. *)
#[program]
Definition invalid_get_looks (Hv : ChunkId_valid id = false) :
  two_looks root (serve_fits (ServeGet req)) (sp_reads (ServeGet req)) (serve root fuel (ServeGet req)) := {|
  tl_first := mret tt;
  tl_second _ := mret (Status_make kInvalidArgument "chunk_id cannot be empty", mkRpcOutputStream);
  tl_wrap := served_status;
  tl_looked _ _ tr := tr = [] |}.
Next Obligation. intros Hv. rewrite serve_get_code. unfold DataPlaneService.GetChunk. cbn [get_chunk_id get_request]. rewrite Hv. cbn [negb]. reflexivity. Qed.
Next Obligation. done. Qed.
Next Obligation. done. Qed.
Next Obligation. intros Hv. apply obeys_ret. by left. Qed.
Next Obligation. intros Hv l g [Htr _] Hok. apply wp_ret. by split. Qed.
Next Obligation. intros Hv x. apply served_status_obeys, obeys_ret. by left. Qed.
Next Obligation.
  intros Hv m1 x l0 l g _ _ Htr Hok. apply served_status_wp; [exact Htr| |exact Hok].
  apply wp_ret. split; [done|]. exists []. split; [by rewrite app_nil_r|].
  apply go_invalid; [|done]. cbn [get_chunk_id get_request]. unfold worker_accepts. by rewrite Hv.
Qed.

End Download.

(** What the handlers create. *)
Lemma serve_creates cmd : creates root (temps_for root (serve_stream cmd)) (serve root fuel cmd).
Proof.
  destruct cmd as [addr|req|req|req].
  - refine (begins_creates root _ _ _ (serve_obeys (ServePut addr) eq_refl) _). apply begins_bind; [|done].
    unfold WorkerService.PutChunk, serving. cbn [WorkerService.data_plane_].
    apply begins_idle; [done|]. intros [[|md|x]|]; try done. apply begins_bind; [|done].
    unfold DataPlaneService.PutChunk. destruct (negb _); [done|]. cbn zeta. destruct (negb _); [done|].
    exact (Put_begins root fuel addr _ RpcInputStream_make).
  - rewrite serve_get_code. unfold served_status. do 2 (apply creates_bind; [|done]).
    unfold DataPlaneService.GetChunk. destruct (negb _); [done|].
    refine (creates_bind root _ (Head fuel root _) _ (Head_creates root fuel _ _) _).
    intros x. exact (Get_rest_creates root fuel _ (get_request req) mkRpcOutputStream x).
  - cbn [serve]. apply creates_bind; [|done].
    unfold WorkerService.HeadChunk, serving. cbn [WorkerService.data_plane_]. apply creates_bind; [|done].
    unfold DataPlaneService.HeadChunk. destruct (negb _); [done|]. exact (Head_creates root fuel _ _).
  - cbn [serve]. apply creates_bind; [|done].
    unfold WorkerService.DeleteChunk, serving. cbn [WorkerService.data_plane_]. apply creates_bind; [|done].
    unfold DataPlaneService.DeleteChunk. destruct (negb _); [done|]. exact (Delete_creates root _ _).
Qed.

#[program]
Definition serve_linearizable : Linearizable (spec:=worker_specification root calm) root (serve root fuel) := {|
  op_fits := serve_fits;
  op_free cmd q := calm /\ temps_for root (serve_stream cmd) q;
  op_makes cmd := temps_for root (serve_stream cmd) |}.
Next Obligation. intros cmd q [_ Hq]. by eapply temps_for_shaped. Qed.
Next Obligation. intros cmd. apply serve_creates. Qed.
Next Obligation. intros cmd m1 m2 a tr m1' m2' E E' Ha. exact (serve_answers_proper cmd m1 m2 a tr m1' m2' E E' Ha). Qed.
Next Obligation. intros cmd m1 m1' m2 m2' a tr E1 E2 Ha. exact (serve_reads_proper cmd m1 m1' m2 m2' a tr E1 E2 Ha). Qed.
Next Obligation. intros cmd Htw. exact (serve_obeys cmd Htw). Qed.
Next Obligation.
  intros cmd l g Htw Hf Hok Hfree. refine (serve_wp cmd l g Htw Hf Hok _). intros Hc q Hq. by apply Hfree.
Qed.
Next Obligation.
  intros [|req| |] Htw; try done. destruct (ChunkId_valid (mkChunkId (rpc.gr_chunk_id req))) eqn:Hv.
  - exact (valid_get_looks req Hv).
  - exact (invalid_get_looks req Hv).
Defined.

End Worker.
