(* ===== verification/Client.v ===== *)
(** * GrpcDataPlaneClient: the client side of the data path
    (src/src/storage/client/data_plane_client.cpp). *)
From S2P Require Import Prelude Status Types Path Proto System Prog UniqueFd Blake3 FileIO.

(** ** Definitions *)

(** [FromRpcCode]; the [default] label catches the values the enum lacks. *)
Definition FromRpcCode (c : rpc.StatusCode) : StatusCode :=
  if bool_decide (c = rpc.STATUS_CODE_OK) then kOk
  else if bool_decide (c = rpc.STATUS_CODE_INVALID_ARGUMENT) then kInvalidArgument
  else if bool_decide (c = rpc.STATUS_CODE_NOT_FOUND) then kNotFound
  else if bool_decide (c = rpc.STATUS_CODE_ALREADY_EXISTS) then kAlreadyExists
  else if bool_decide (c = rpc.STATUS_CODE_UNAVAILABLE) then kUnavailable
  else if bool_decide (c = rpc.STATUS_CODE_TIMEOUT) then kTimeout
  else if bool_decide (c = rpc.STATUS_CODE_IO_ERROR) then kIoError
  else if bool_decide (c = rpc.STATUS_CODE_CORRUPTION) then kCorruption
  else if bool_decide (c = rpc.STATUS_CODE_RESOURCE_EXHAUSTED) then kResourceExhausted
  else kInternal.

Definition FromRpcStatus (status : rpc.Status) : Status :=
  if bool_decide (rpc.code status = rpc.STATUS_CODE_OK) then Status_Ok
  else Status_make (FromRpcCode (rpc.code status)) (rpc.message status).

Definition FromGrpcCode (c : grpc.StatusCode) : StatusCode :=
  match c with
  | grpc.INVALID_ARGUMENT => kInvalidArgument
  | grpc.NOT_FOUND => kNotFound
  | grpc.ALREADY_EXISTS => kAlreadyExists
  | grpc.DEADLINE_EXCEEDED => kTimeout
  | grpc.RESOURCE_EXHAUSTED => kResourceExhausted
  | grpc.DATA_LOSS => kCorruption
  | grpc.UNKNOWN => kIoError
  | grpc.INTERNAL => kInternal
  | _ => kUnavailable
  end.

Definition FromGrpcStatus (status : grpc.Status) : Status :=
  if grpc.ok status then Status_Ok
  else Status_make (FromGrpcCode (grpc.error_code status)) (grpc.error_message status).

(** The virtual class [DataPlaneClient]. *)
Class DataPlaneClient (D : Type) := {
  dc_PutChunk : D -> nat -> WorkerEndpoint -> PutChunkRequest -> string -> prog Status;
  dc_GetChunk : D -> nat -> WorkerEndpoint -> GetChunkRequest -> string -> prog Status;
  dc_HeadChunk : D -> WorkerEndpoint -> HeadChunkRequest -> prog (StatusOr HeadChunkResponse);
  dc_DeleteChunk : D -> WorkerEndpoint -> DeleteChunkRequest -> prog Status }.

Module GrpcDataPlaneClient.

(** [deadline_], in seconds. *)
Record t := mk { deadline_ : Z }.
Definition default : t := mk 300.

Definition kBufferSize : Z := 3 * 1024 * 1024.

Section Operations.
Context `{Libc}.

(** [MakeStub] and [set_deadline]: what a call is addressed to. *)
Definition MakeStub (self : t) (endpoint : WorkerEndpoint) : rpc_context :=
  mkContext (host endpoint +:+ ":" +:+ to_string (data_port endpoint)) (deadline_ self).

Definition put_metadata (request : PutChunkRequest) : rpc.PutChunkFrame :=
  rpc.payload_metadata (rpc.mkPutChunkMetadata (chunk_id_value (put_chunk_id request))
    (expected_size request) (value (expected_checksum request))).

(** The upload loop: [inl] for the early return, [inr] for the two [break]s. *)
Fixpoint PutChunk_loop (fuel rfuel : nat) (fd : Z) : prog (Status + unit) :=
  match fuel with
  | O => Fuel
  | S fuel =>
      count ← read_retry rfuel fd kBufferSize;
      match count with
      | None =>
          _ ← perform (Rpc TryCancel);
          _ ← perform (Rpc WritesDone);
          _ ← perform (Rpc FinishPut);
          st ← errno_status "read source failed: ";
          mret (inl st)
      | Some bytes =>
          if bool_decide (blen bytes = 0) then mret (inr tt)
          else
            written ← perform (Rpc (ClientWrite (rpc.payload_data bytes)));
            if (written : bool) then PutChunk_loop fuel rfuel fd else mret (inr tt)
      end
  end.

Definition PutChunk (self : t) (fuel : nat) (endpoint : WorkerEndpoint) (request : PutChunkRequest)
    (source : string) : prog Status :=
  raw ← perform (Open source [O_RDONLY; O_CLOEXEC]);
  UniqueFd.scope_const raw (fun fd =>
    if negb (UniqueFd.valid fd) then errno_status "open source failed: "
    else
      _ ← perform (Rpc (StartPut (MakeStub self endpoint)));
      written ← perform (Rpc (ClientWrite (put_metadata request)));
      if negb written then
        _ ← perform (Rpc WritesDone);
        finished ← perform (Rpc FinishPut);
        mret (FromGrpcStatus (finished.1 : grpc.Status))
      else
        r ← PutChunk_loop fuel fuel (UniqueFd.get fd);
        match r with
        | inl st => mret st
        | inr _ =>
            _ ← perform (Rpc WritesDone);
            finished ← perform (Rpc FinishPut);
            if negb (grpc.ok (finished.1 : grpc.Status)) then mret (FromGrpcStatus finished.1)
            else mret (FromRpcStatus (rpc.or_status (finished.2 : rpc.OperationResponse)))
        end).

(** The lambda [fail]. *)
Definition fail (destination : string) (fd : UniqueFd.t) (status : Status)
  : prog (Status * UniqueFd.t) :=
  fd ← UniqueFd.reset fd (-1);
  _ ← perform (Unlink destination);
  mret (status, fd).

(** The download loop: the last value of [write_status]. *)
Fixpoint GetChunk_loop (fuel wfuel : nat) (fd : Z) : prog Status :=
  match fuel with
  | O => Fuel
  | S fuel =>
      frame ← perform (Rpc ClientRead);
      match frame with
      | None => mret Status_Ok
      | Some frame =>
          write_status ← WriteAll_client wfuel fd (rpc.data frame) (blen (rpc.data frame));
          if negb (ok write_status) then
            _ ← perform (Rpc TryCancel); mret write_status
          else GetChunk_loop fuel wfuel fd
      end
  end.

Definition GetChunk (self : t) (fuel : nat) (endpoint : WorkerEndpoint) (request : GetChunkRequest)
    (destination : string) : prog Status :=
  raw ← perform (Open destination [O_WRONLY; O_CREAT; O_EXCL; O_CLOEXEC]);
  UniqueFd.scope raw (fun fd =>
    if negb (UniqueFd.valid fd) then
      e ← perform GetErrno;
      e2 ← perform GetErrno;
      mret (Status_make (if bool_decide (e = EEXIST) then kAlreadyExists else kIoError)
              ("create destination failed: " +:+ strerror e2), fd)
    else
      _ ← perform (Rpc (StartGet (MakeStub self endpoint)
             (rpc.mkGetChunkRequest (chunk_id_value (get_chunk_id request))
                (offset (range request)) (size (range request)))));
      write_status ← GetChunk_loop fuel fuel (UniqueFd.get fd);
      grpc_status ← perform (Rpc FinishGet);
      if negb (ok write_status) then fail destination fd write_status
      else if negb (grpc.ok (grpc_status : grpc.Status)) then
        fail destination fd (FromGrpcStatus grpc_status)
      else
        synced ← perform (Fdatasync (UniqueFd.get fd));
        if bool_decide (synced <> 0) then
          st ← errno_status "fdatasync destination failed: ";
          fail destination fd st
        else mret (Status_Ok, fd)).

Definition HeadChunk (self : t) (endpoint : WorkerEndpoint) (request : HeadChunkRequest)
  : prog (StatusOr HeadChunkResponse) :=
  r ← perform (Rpc (CallHead (MakeStub self endpoint)
         (rpc.mkHeadChunkRequest (chunk_id_value (head_chunk_id request)))));
  let '(grpc_status, response) := (r : grpc.Status * rpc.HeadChunkResponse) in
  mret (if negb (grpc.ok grpc_status) then SO_error (FromGrpcStatus grpc_status)
        else
          let status := FromRpcStatus (rpc.hresp_status response) in
          if negb (ok status) then SO_error status
          else SO_value (mkHeadChunkResponse (mkChunkId (rpc.hresp_chunk_id response))
                 (rpc.hresp_size response) (mkChecksum kBlake3 (rpc.hresp_checksum response)))).

Definition DeleteChunk (self : t) (endpoint : WorkerEndpoint) (request : DeleteChunkRequest)
  : prog Status :=
  r ← perform (Rpc (CallDelete (MakeStub self endpoint)
         (rpc.mkDeleteChunkRequest (chunk_id_value (delete_chunk_id request)))));
  let '(grpc_status, response) := (r : grpc.Status * rpc.OperationResponse) in
  mret (if grpc.ok grpc_status then FromRpcStatus (rpc.or_status response)
        else FromGrpcStatus grpc_status).

End Operations.
End GrpcDataPlaneClient.

#[export] Instance GrpcDataPlaneClient_ops `{Libc} : DataPlaneClient GrpcDataPlaneClient.t := {
  dc_PutChunk := GrpcDataPlaneClient.PutChunk;
  dc_GetChunk := GrpcDataPlaneClient.GetChunk;
  dc_HeadChunk := GrpcDataPlaneClient.HeadChunk;
  dc_DeleteChunk := GrpcDataPlaneClient.DeleteChunk }.
