(* ===== verification/ClientSpec.v ===== *)
(** * What GrpcDataPlaneClient does to the files and says to the peer, in every
    environment. *)
From S2P Require Import Prelude Status Types Path Proto System Prog UniqueFd Blake3 FileIO Files Client.

(** ** Definitions *)

(** The verdict on an upload: the status of the call, then the response. *)
Definition upload_status (g : grpc.Status) (resp : rpc.OperationResponse) : Status :=
  if grpc.ok g then FromRpcStatus (rpc.or_status resp) else FromGrpcStatus g.

(** Data frames the library took. *)
Definition accepted (l : list (list byte)) : list rpc_event :=
  (fun b => ev (ClientWrite (rpc.payload_data b)) true) <$> l.
Definition frames_ok (l : list (list byte)) : Prop :=
  Forall (fun b => 0 < blen b <= GrpcDataPlaneClient.kBufferSize) l.

(** The traffic of an upload of the content [d], and its result. *)
Inductive upload (quiet : bool) (ctx : rpc_context) (md : rpc.PutChunkFrame) (d : list byte)
  : list rpc_event -> Status -> Prop :=
| up_refused wd g resp :
    upload quiet ctx md d
      [ev (StartPut ctx) tt; ev (ClientWrite md) false; ev WritesDone wd; ev FinishPut (g, resp)]
      (FromGrpcStatus g)
| up_read_error st l wd fin :
    quiet = false -> code st = kIoError -> frames_ok l -> concat l `prefix_of` d ->
    upload quiet ctx md d
      ([ev (StartPut ctx) tt; ev (ClientWrite md) true] ++ accepted l ++
       [ev TryCancel tt; ev WritesDone wd; ev FinishPut fin]) st
| up_broken l b wd g resp :
    frames_ok (l ++ [b]) -> concat (l ++ [b]) `prefix_of` d ->
    upload quiet ctx md d
      ([ev (StartPut ctx) tt; ev (ClientWrite md) true] ++ accepted l ++
       [ev (ClientWrite (rpc.payload_data b)) false; ev WritesDone wd; ev FinishPut (g, resp)])
      (upload_status g resp)
| up_sent l wd g resp :
    frames_ok l -> concat l = d ->
    upload quiet ctx md d
      ([ev (StartPut ctx) tt; ev (ClientWrite md) true] ++ accepted l ++
       [ev WritesDone wd; ev FinishPut (g, resp)])
      (upload_status g resp).

(** Messages the peer streamed to the client, and the bytes in them. *)
Definition streamed (l : list rpc.ChunkData) : list rpc_event :=
  (fun m => ev ClientRead (Some m)) <$> l.
Definition contents (l : list rpc.ChunkData) : list byte := concat (rpc.data <$> l).

(** The traffic of a download that went well: the messages up to the end of the
    stream, then the status of the call, which is OK. *)
Definition fetched (ctx : rpc_context) (req : rpc.GetChunkRequest) (d : list byte) (tr : list rpc_event) : Prop :=
  exists l g, tr = [ev (StartGet ctx req) tt] ++ streamed l ++ [ev ClientRead None; ev FinishGet g] /\
    grpc.ok g = true /\ d = contents l.

(** The traffic of a download that the peer cut short, or whose messages no file
    can hold. *)
Inductive hindered (ctx : rpc_context) (req : rpc.GetChunkRequest) : list rpc_event -> Prop :=
| hi_ended l g :
    grpc.ok g = false ->
    hindered ctx req ([ev (StartGet ctx req) tt] ++ streamed l ++ [ev ClientRead None; ev FinishGet g])
| hi_too_large l g :
    off_max < blen (contents l) ->
    hindered ctx req ([ev (StartGet ctx req) tt] ++ streamed l ++ [ev TryCancel tt; ev FinishGet g]).

(** The request message of a download. *)
Definition get_message (request : GetChunkRequest) : rpc.GetChunkRequest :=
  rpc.mkGetChunkRequest (chunk_id_value (get_chunk_id request))
    (offset (range request)) (size (range request)).

(** What a download that received [d] leaves under the name [dest]. *)
Inductive download (quiet : bool) (f : fs) (dest : string) (d : list byte) : Status -> fs -> Prop :=
| down_not_created st :
    d = [] -> (code st = kAlreadyExists /\ is_Some (f_names f !! dest) \/
               code st = kIoError /\ (quiet = true -> name_fits dest = false)) ->
    download quiet f dest d st f
| down_failed st i nd keep :
    ok st = false -> f_names f !! dest = None -> f_inodes f !! i = None -> name_fits dest = true ->
    blen (i_data nd) <= off_max ->
    (quiet = true -> keep = false) ->
    download quiet f dest d st (left_fs f dest i nd keep)
| down_complete i :
    f_names f !! dest = None -> f_inodes f !! i = None -> name_fits dest = true -> blen d <= off_max ->
    download quiet f dest d Status_Ok (left_fs f dest i (mkInode d true) true).

(** ** Lemmas *)

Lemma FromGrpcStatus_error g : grpc.ok g = false -> ok (FromGrpcStatus g) = false.
Proof.
  intros Hg. unfold FromGrpcStatus. rewrite Hg. apply not_ok_code. unfold Status_make. cbn.
  by destruct (grpc.error_code g).
Qed.

Section Upload.
Context `{Libc}.

(** The calls that end an upload. *)
Lemma writes_done_rule s :
  wp (perform (Rpc WritesDone)) (returns (fun r s' =>
    later s s' /\ s_fs s' = s_fs s /\ s_trace s' = s_trace s ++ [ev WritesDone r])) s.
Proof. by apply rpc_quiet_rule. Qed.

(** Reading on from an open file. *)
Definition reading_on (s s' : state) (fd : Z) (i : positive) : Prop :=
  exists pos, s_fs s' = set_fds (<[fd := FdFile i pos false]> (f_fds (s_fs s))) (s_fs s).

Lemma reading_on_trans s1 s2 s3 fd i : reading_on s1 s2 fd i -> reading_on s2 s3 fd i -> reading_on s1 s3 fd i.
Proof.
  intros [p1 E1] [p2 E2]. exists p2. rewrite E2, E1. unfold set_fds. cbn. by rewrite insert_insert_eq.
Qed.

Lemma reading_on_fs s s1 s2 fd i : reading_on s s1 fd i -> s_fs s2 = s_fs s1 -> reading_on s s2 fd i.
Proof. intros [p E] E2. exists p. congruence. Qed.

Lemma reading_on_self s fd i pos nd : reading s fd i pos nd -> reading_on s s fd i.
Proof.
  intros [Hfd _]. exists pos. rewrite insert_id by done. by destruct (s_fs s).
Qed.

(** How the upload loop ends. *)
Inductive upload_loop (quiet : bool) (d : list byte) : list rpc_event -> Status + unit -> Prop :=
| ul_read_error st l wd fin :
    quiet = false -> code st = kIoError -> frames_ok l -> concat l `prefix_of` d ->
    upload_loop quiet d (accepted l ++ [ev TryCancel tt; ev WritesDone wd; ev FinishPut fin]) (inl st)
| ul_broken l b :
    frames_ok (l ++ [b]) -> concat (l ++ [b]) `prefix_of` d ->
    upload_loop quiet d (accepted l ++ [ev (ClientWrite (rpc.payload_data b)) false]) (inr tt)
| ul_sent l :
    frames_ok l -> concat l = d -> upload_loop quiet d (accepted l) (inr tt).

(** One more accepted frame before the rest of the loop. *)
Lemma upload_loop_cons quiet b d tr r :
  0 < blen b <= GrpcDataPlaneClient.kBufferSize -> upload_loop quiet d tr r ->
  upload_loop quiet (b ++ d) (ev (ClientWrite (rpc.payload_data b)) true :: tr) r.
Proof.
  intros Hb [st l wd fin Hq Hc Hl Hp|l b' Hl Hp|l Hl Hp].
  - apply (ul_read_error _ _ st (b :: l)); [done|done|by constructor|by apply prefix_app].
  - apply (ul_broken _ _ (b :: l)); [by constructor|by apply prefix_app].
  - apply (ul_sent _ _ (b :: l)); [by constructor|]. cbn. by rewrite Hp.
Qed.

Lemma PutChunk_loop_wp fuel rfuel fd i pos nd s :
  reading s fd i pos nd -> (length (i_data nd) - pos < fuel)%nat -> (s_events s < rfuel)%nat ->
  wp (GrpcDataPlaneClient.PutChunk_loop fuel rfuel fd)
    (returns (fun r s' => later s s' /\ reading_on s s' fd i /\
       exists tr, s_trace s' = s_trace s ++ tr /\ upload_loop (s_quiet s) (drop pos (i_data nd)) tr r)) s.
Proof.
  revert pos s. induction fuel as [|fuel IH]; intros pos s Hr Hf Hrf; [lia|].
  cbn [GrpcDataPlaneClient.PutChunk_loop].
  eapply wp_bind_returns; [by eapply read_retry_wp|].
  intros count s1 ([Hl1 Htr1] & [(k & (Hk1 & Hk2 & Hk3) & -> & Hfs1)|(-> & Hq & Hfs1)]).
  - assert (Hlen : blen (take k (drop pos (i_data nd))) = Z.of_nat k)
      by (unfold blen; rewrite length_take, length_drop; lia).
    rewrite Hlen. case_bool_decide as Hk0.
    + apply wp_ret. assert (k = 0%nat) as -> by lia.
      split; [done|split; [by exists (pos + 0)%nat|]]. exists []. rewrite app_nil_r. split; [done|].
      apply (ul_sent _ _ []); [constructor|]. cbn. rewrite drop_ge; [done|].
      destruct (Hk3 eq_refl); [by cbn in *|lia].
    + eapply wp_bind_returns; [by apply (rpc_quiet_rule (ClientWrite _))|].
      intros b s2 (Hl2 & Hfs2 & Htr2).
      assert (Hb : 0 < blen (take k (drop pos (i_data nd))) <= GrpcDataPlaneClient.kBufferSize).
      { rewrite Hlen. unfold GrpcDataPlaneClient.kBufferSize in *. lia. }
      assert (Hon : reading_on s s2 fd i) by (exists (pos + k)%nat; by rewrite Hfs2, Hfs1).
      rewrite Htr1 in Htr2. destruct b; cycle 1.
      { apply wp_ret. split; [by transitivity s1|split; [done|]].
        exists [ev (ClientWrite (rpc.payload_data (take k (drop pos (i_data nd))))) false].
        split; [done|]. apply (ul_broken _ _ []); [by constructor|]. cbn. rewrite app_nil_r.
        exists (drop k (drop pos (i_data nd))). by rewrite take_drop. }
      eapply wp_returns_mono.
      { apply (IH (pos + k)%nat); [|lia|destruct Hl1, Hl2; lia].
        split; rewrite Hfs2, Hfs1; [apply lookup_insert_eq|apply Hr]. }
      intros r s3 (Hl3 & Hon3 & tr & Htr3 & Hup).
      split; [by transitivity s1; [|transitivity s2]|split; [by eapply reading_on_trans|]].
      exists (ev (ClientWrite (rpc.payload_data (take k (drop pos (i_data nd))))) true :: tr).
      split; [by rewrite Htr3, Htr2, <- app_assoc|].
      rewrite <- (take_drop k (drop pos (i_data nd))) at 1. rewrite drop_drop.
      apply upload_loop_cons; [done|]. destruct Hl1 as [<- _], Hl2 as [<- _]. done.
  - eapply wp_bind_returns; [by apply (rpc_quiet_rule TryCancel)|]. intros x s2 (Hl2 & Hfs2 & Htr2).
    eapply wp_bind_returns; [by apply (rpc_quiet_rule WritesDone)|]. intros wd s3 (Hl3 & Hfs3 & Htr3).
    eapply wp_bind_returns; [by apply (rpc_quiet_rule FinishPut)|]. intros fin s4 (Hl4 & Hfs4 & Htr4).
    eapply wp_bind_returns; [apply errno_status_wp|]. intros st s5 [-> ->]. apply wp_ret.
    split; [by transitivity s1; [|transitivity s2; [|transitivity s3]]|].
    split; [eapply reading_on_fs; [by eapply reading_on_self|congruence]|].
    exists [ev TryCancel tt; ev WritesDone wd; ev FinishPut fin]. destruct x. split.
    + rewrite Htr4, Htr3, Htr2, Htr1. by rewrite <- !app_assoc.
    + apply (ul_read_error _ _ _ []); [done|done|constructor|]. apply prefix_nil.
Qed.

(** Closing the descriptor of a file that was read undoes the opening. *)
Lemma close_reading_on s s' fd i f :
  s_fs s = opened_fs fd i f -> reading_on s s' fd i -> f_fds f !! fd = None -> close_fs fd (s_fs s') = f.
Proof.
  intros Hs [p ->] Hfd. rewrite Hs. unfold close_fs, opened_fs, set_fds. cbn.
  rewrite insert_insert_eq, delete_insert_id by done. by destruct f.
Qed.

(** The end of an upload: what the loop reports, then the verdict. *)
Lemma upload_loop_end quiet ctx md d tr wd g resp :
  upload_loop quiet d tr (inr tt) ->
  upload quiet ctx md d
    ([ev (StartPut ctx) tt; ev (ClientWrite md) true] ++ tr ++ [ev WritesDone wd; ev FinishPut (g, resp)])
    (upload_status g resp).
Proof.
  intros Hl. inversion Hl; subst.
  - rewrite <- !app_assoc. by apply up_broken.
  - by apply up_sent.
Qed.

Definition put_chunk_post (self : GrpcDataPlaneClient.t) (endpoint : WorkerEndpoint)
    (req : PutChunkRequest) (source : string) (s : state) (st : Status) (s' : state) : Prop :=
  later s s' /\ s_fs s' = s_fs s /\ exists tr, s_trace s' = s_trace s ++ tr /\
  ((tr = [] /\ code st = kIoError /\
    (s_quiet s = true -> lookup_file (s_fs s) source = None \/ name_fits source = false)) \/
   (exists d, lookup_file (s_fs s) source = Some d /\
      upload (s_quiet s) (GrpcDataPlaneClient.MakeStub self endpoint)
        (GrpcDataPlaneClient.put_metadata req) d tr st)).

(** The exchange with the peer, once the source is open. *)
Lemma PutChunk_exchange_wp self fuel endpoint req fd i nd s :
  reading s fd i 0 nd -> (length (i_data nd) < fuel)%nat -> (s_events s < fuel)%nat ->
  wp (_ ← perform (Rpc (StartPut (GrpcDataPlaneClient.MakeStub self endpoint)));
      written ← perform (Rpc (ClientWrite (GrpcDataPlaneClient.put_metadata req)));
      if negb written then
        _ ← perform (Rpc WritesDone);
        finished ← perform (Rpc FinishPut);
        mret (FromGrpcStatus (finished.1 : grpc.Status))
      else
        r ← GrpcDataPlaneClient.PutChunk_loop fuel fuel fd;
        match r with
        | inl st => mret st
        | inr _ =>
            _ ← perform (Rpc WritesDone);
            finished ← perform (Rpc FinishPut);
            if negb (grpc.ok (finished.1 : grpc.Status)) then mret (FromGrpcStatus finished.1)
            else mret (FromRpcStatus (rpc.or_status (finished.2 : rpc.OperationResponse)))
        end)
    (returns (fun st s' => later s s' /\ reading_on s s' fd i /\ exists tr, s_trace s' = s_trace s ++ tr /\
       upload (s_quiet s) (GrpcDataPlaneClient.MakeStub self endpoint)
         (GrpcDataPlaneClient.put_metadata req) (i_data nd) tr st)) s.
Proof.
  intros Hr Hf He.
  eapply wp_bind_returns; [by apply (rpc_quiet_rule (StartPut _))|]. intros [] s1 (Hl1 & Hfs1 & Htr1).
  eapply wp_bind_returns; [by apply (rpc_quiet_rule (ClientWrite _))|]. intros b s2 (Hl2 & Hfs2 & Htr2).
  assert (Hl02 : later s s2) by (by transitivity s1).
  assert (Hon : forall s', s_fs s' = s_fs s2 -> reading_on s s' fd i).
  { intros s' E. eapply reading_on_fs; [by eapply reading_on_self|congruence]. }
  destruct b; cbn [negb]; cycle 1.
  - eapply wp_bind_returns; [by apply (rpc_quiet_rule WritesDone)|]. intros wd s3 (Hl3 & Hfs3 & Htr3).
    eapply wp_bind_returns; [by apply (rpc_quiet_rule FinishPut)|]. intros [g resp] s4 (Hl4 & Hfs4 & Htr4).
    apply wp_ret. split; [by transitivity s2; [|transitivity s3]|split; [apply Hon; congruence|]].
    eexists. split; [|apply (up_refused _ _ _ _ wd g resp)].
    rewrite Htr4, Htr3, Htr2, Htr1. by rewrite <- !app_assoc.
  - eapply wp_bind_returns.
    { apply (PutChunk_loop_wp _ _ _ i 0 nd); [|lia|destruct Hl02; lia].
      destruct Hr. split; by rewrite Hfs2, Hfs1. }
    intros r s3 (Hl3 & Hon3 & tr & Htr3 & Hup).
    assert (Hq : s_quiet s2 = s_quiet s) by apply Hl02. rewrite Hq, drop_0 in Hup.
    assert (Hon0 : reading_on s s3 fd i).
    { apply (reading_on_trans s s2); [by apply Hon|exact Hon3]. }
    destruct r as [st|[]].
    + apply wp_ret. split; [by transitivity s2|split; [done|]].
      eexists. split; [rewrite Htr3, Htr2, Htr1; by rewrite <- !app_assoc|].
      inversion Hup; subst. by apply up_read_error.
    + eapply wp_bind_returns; [by apply (rpc_quiet_rule WritesDone)|]. intros wd s4 (Hl4 & Hfs4 & Htr4).
      eapply wp_bind_returns; [by apply (rpc_quiet_rule FinishPut)|]. intros [g resp] s5 (Hl5 & Hfs5 & Htr5).
      eapply upload_loop_end in Hup.
      assert (Hst : forall st, st = upload_status g resp ->
        returns (fun st s' => later s s' /\ reading_on s s' fd i /\ exists tr, s_trace s' = s_trace s ++ tr /\
          upload (s_quiet s) (GrpcDataPlaneClient.MakeStub self endpoint)
            (GrpcDataPlaneClient.put_metadata req) (i_data nd) tr st) (Done st) s5).
      { intros st ->. split; [by transitivity s2; [|transitivity s3; [|transitivity s4]]|].
        split; [eapply reading_on_fs; [exact Hon0|congruence]|].
        eexists. split; [|exact Hup]. rewrite Htr5, Htr4, Htr3, Htr2, Htr1. by rewrite <- !app_assoc. }
      unfold upload_status in Hst. cbn [fst snd].
      destruct (grpc.ok g) eqn:Hg; cbn [negb]; by apply wp_ret, Hst.
Qed.

Lemma Client_PutChunk_wp self fuel endpoint req source s :
  fs_wf (s_fs s) -> (forall d, lookup_file (s_fs s) source = Some d -> (length d < fuel)%nat) ->
  (s_events s < fuel)%nat ->
  wp (GrpcDataPlaneClient.PutChunk self fuel endpoint req source)
    (returns (put_chunk_post self endpoint req source s)) s.
Proof.
  intros Hwf Hlen He. eapply wp_bind_returns; [by apply open_read_rule|].
  assert (Hfail : forall st s1, code st = kIoError -> later s s1 -> s_fs s1 = s_fs s ->
    s_trace s1 = s_trace s ->
    (s_quiet s = true -> lookup_file (s_fs s) source = None \/ name_fits source = false) ->
    put_chunk_post self endpoint req source s st s1).
  { intros st s1 Hc Hl Hfs Htr Hq. split; [done|split; [done|]]. exists []. rewrite app_nil_r.
    split; [done|]. by left. }
  intros raw s1 [fd i nd e Hn Hi Hfd0 Hfd|Hm|e He' Hq].
  - eapply scope_const_wp; [|lia|].
    + rewrite valid_make by done. cbn [negb]. eapply PutChunk_exchange_wp.
      * by apply opened_reading.
      * by eapply Hlen, lookup_file_some.
      * done.
    + intros _ st s2 e2 (Hl & Hon & tr & Htr & Hup). split; [done|]. split.
      { cbn. eapply close_reading_on; [|exact Hon|done]. done. }
      exists tr. split; [done|]. right. exists (i_data nd). split; [by eapply lookup_file_some|done].
  - eapply scope_const_wp; [|intros _ a s2 HP; exact HP|lia].
    rewrite valid_failed. cbn [negb]. end_errno st. apply Hfail; auto using later_local with steps.
  - eapply scope_const_wp; [|intros _ a s2 HP; exact HP|lia].
    rewrite valid_failed. cbn [negb]. end_errno st. apply Hfail; auto using later_local with steps.
Qed.

End Upload.

Section Download.
Context `{Libc}.
Context (f : fs) (dest : string) (fd : Z) (i : positive).
Context (Hdest : f_names f !! dest = None) (Hfit : name_fits dest = true).
Context (Hi : f_inodes f !! i = None) (Hfd0 : 0 <= fd) (Hfd : f_fds f !! fd = None).

(** The download loop appends every message to the file, in order. *)
Lemma GetChunk_loop_wp fuel wfuel d b s :
  s_fs s = writing_fs f fd i dest d b -> blen d <= off_max ->
  (s_events s < fuel)%nat -> (max_message + s_events s < wfuel)%nat ->
  wp (GrpcDataPlaneClient.GetChunk_loop fuel wfuel fd)
    (returns (fun st s' => later s s' /\ exists x b',
       s_fs s' = writing_fs f fd i dest (d ++ x) b' /\ blen (d ++ x) <= off_max /\
       (ok st = true -> length x + max_message * s_events s' <= max_message * s_events s)%nat /\
       if ok st then exists l, s_trace s' = s_trace s ++ streamed l ++ [ev ClientRead None] /\ x = contents l
       else s_quiet s = true -> exists l,
         s_trace s' = s_trace s ++ streamed l ++ [ev TryCancel tt] /\ off_max < blen (d ++ contents l))) s.
Proof.
  revert d b s. induction fuel as [|fuel IH]; intros d b s Hs Hmax Hf Hw; [lia|].
  cbn [GrpcDataPlaneClient.GetChunk_loop].
  eapply wp_bind_returns; [by apply (rpc_rule ClientRead)|].
  intros frame s1 (Hq1 & Hfs1 & Htr1 & Hev1 & Hty).
  destruct frame as [m|]; cbn in Hev1; cycle 1.
  { apply wp_ret. split; [split; [done|lia]|]. exists [], b. rewrite app_nil_r.
    split; [congruence|split; [done|split; [rewrite Hev1; cbn; lia|]]]. exists []. by split. }
  cbn [rpc_typed] in Hty. apply bool_decide_eq_true in Hty.
  eapply wp_bind_returns.
  { unfold WriteAll_client. rewrite ztake_all by lia.
    eapply WriteAll_wp; [by rewrite Hfs1|]. unfold blen in Hty. lia. }
  intros st s2 ([Hl2 Htr2] & x & b' & Hfs2 & Hsz & _ & Hres). specialize (Hsz Hmax).
  destruct (ok st) eqn:Hst; cbn [negb]; cycle 1.
  { eapply wp_bind_returns; [by apply (rpc_quiet_rule TryCancel)|]. intros [] s3 (Hl3 & Hfs3 & Htr3).
    apply wp_ret. split; [destruct Hl2, Hl3; split; [congruence|lia]|]. exists x, b'.
    split; [congruence|split; [done|split; [congruence|]]]. rewrite Hst. intros Hq. exists [m].
    destruct Hres as [[-> _]|[_ Hlarge]]; [done|]. split; [by rewrite Htr3, Htr2, Htr1, <- !app_assoc|].
    unfold contents. cbn. rewrite app_nil_r. apply Hlarge. congruence. }
  destruct Hres as [[_ ->]|[Hc _]]; [|apply ok_code in Hst; congruence].
  eapply wp_returns_mono; [apply (IH _ _ s2 Hfs2 Hsz); destruct Hl2; lia|].
  intros st3 s3 (Hl3 & x3 & b3 & Hfs3 & Hmax3 & Hlen & Hres).
  split; [destruct Hl2, Hl3; split; [congruence|lia]|]. exists (rpc.data m ++ x3), b3.
  rewrite app_assoc. split; [done|split; [done|split]].
  { intros Hok. specialize (Hlen Hok). rewrite length_app, Hev1. destruct Hl2 as [_ Hev2].
    pose proof (Nat.mul_le_mono_l _ _ max_message Hev2). unfold blen in Hty. lia. }
  assert (Htr : forall l e, s_trace s3 = s_trace s2 ++ streamed l ++ [e] -> s_trace s3 = s_trace s ++ streamed (m :: l) ++ [e]).
  { intros l e ->. rewrite Htr2, Htr1. by rewrite <- app_assoc. }
  destruct (ok st3).
  - destruct Hres as (l & Htr3 & ->). exists (m :: l). by split; [apply Htr|].
  - intros Hq. destruct Hl2 as [Hq2 _]. destruct Hres as (l & Htr3 & Hlarge); [congruence|].
    exists (m :: l). split; [by apply Htr|]. by rewrite <- app_assoc in Hlarge.
Qed.

(** The lambda [fail] removes what was created. *)
Lemma fail_wp st d b s :
  s_fs s = writing_fs f fd i dest d b ->
  wp (GrpcDataPlaneClient.fail dest (UniqueFd.make fd) st)
    (returns (fun r s' => r = (st, UniqueFd.default) /\ local_step s s' /\ exists keep : bool,
       (s_quiet s = true -> keep = false) /\ s_fs s' = left_fs f dest i (mkInode d b) keep)) s.
Proof.
  intros Hs. eapply wp_bind_returns.
  { apply (UniqueFd_reset_wp _ _ (returns (fun fd' s' => fd' = UniqueFd.default /\
      local_step s s' /\ s_fs s' = left_fs f dest i (mkInode d b) true))).
    - cbn. lia.
    - intros _ _ e. cbn [returns UniqueFd.fd_ UniqueFd.make]. split; [done|split; [done|]].
      cbn [s_fs ret_st]. by rewrite Hs, close_writing. }
  intros fd' s1 (-> & Hl1 & Hfs1).
  eapply wp_bind_returns.
  { apply (unlink_rule dest i); [|done]. rewrite Hfs1. apply lookup_insert_eq. }
  intros r s2 (Hl2 & keep & Hk & Hfs2). apply wp_ret. split; [done|split; [by transitivity s1|]].
  exists keep. destruct Hl1 as [[Hq _] _]. rewrite Hq in Hk. split; [done|].
  rewrite Hfs2, Hfs1. unfold set_names, left_fs. cbn. destruct keep; [done|]. by rewrite delete_insert_id.
Qed.

(** How the exchange leaves the descriptor and the files. *)
Definition exchange_post (ctx : rpc_context) (m : rpc.GetChunkRequest) (s : state) (r : Status * UniqueFd.t) (s' : state) : Prop :=
  later s s' /\
  ((r.2 = UniqueFd.default /\ ok r.1 = false /\
    (s_quiet s = true -> exists tr, s_trace s' = s_trace s ++ tr /\ hindered ctx m tr) /\ exists nd keep,
      blen (i_data nd) <= off_max /\ (s_quiet s = true -> keep = false) /\
      s_fs s' = left_fs f dest i nd keep) \/
   (r.2 = UniqueFd.make fd /\ r.1 = Status_Ok /\ exists d,
      blen d <= off_max /\ (length d <= max_message * s_events s)%nat /\
      s_fs s' = writing_fs f fd i dest d true /\
      exists tr, s_trace s' = s_trace s ++ tr /\ fetched ctx m d tr)).

Lemma GetChunk_exchange_wp fuel ctx req b s :
  s_fs s = writing_fs f fd i dest [] b -> (max_message + s_events s < fuel)%nat ->
  wp (_ ← perform (Rpc (StartGet ctx req));
      write_status ← GrpcDataPlaneClient.GetChunk_loop fuel fuel fd;
      grpc_status ← perform (Rpc FinishGet);
      if negb (ok write_status) then
        GrpcDataPlaneClient.fail dest (UniqueFd.make fd) write_status
      else if negb (grpc.ok (grpc_status : grpc.Status)) then
        GrpcDataPlaneClient.fail dest (UniqueFd.make fd) (FromGrpcStatus grpc_status)
      else
        synced ← perform (Fdatasync fd);
        if bool_decide (synced <> 0) then
          st ← errno_status "fdatasync destination failed: ";
          GrpcDataPlaneClient.fail dest (UniqueFd.make fd) st
        else mret (Status_Ok, UniqueFd.make fd))
    (returns (exchange_post ctx req s)) s.
Proof.
  intros Hs Hf.
  eapply wp_bind_returns; [by apply (rpc_quiet_rule (StartGet _ _))|]. intros [] s1 (Hl1 & Hfs1 & Htr1).
  eapply wp_bind_returns.
  { apply (GetChunk_loop_wp _ _ [] b); [congruence|done|destruct Hl1; lia|destruct Hl1; lia]. }
  intros st s2 (Hl2 & x & b2 & Hfs2 & Hmax & Hlen & Hres). cbn [app] in Hfs2, Hmax.
  eapply wp_bind_returns; [by apply (rpc_quiet_rule FinishGet)|]. intros g s3 (Hl3 & Hfs3 & Htr3).
  rewrite Hfs2 in Hfs3.
  assert (Hl03 : later s s3) by (by transitivity s1; [|transitivity s2]).
  assert (Hq3 : s_quiet s3 = s_quiet s) by apply Hl03.
  (* every exit through [fail] *)
  assert (Hexit : forall st' s4, ok st' = false -> local_step s3 s4 -> s_fs s4 = s_fs s3 ->
    (s_quiet s = true -> exists tr, s_trace s3 = s_trace s ++ tr /\ hindered ctx req tr) ->
    wp (GrpcDataPlaneClient.fail dest (UniqueFd.make fd) st') (returns (exchange_post ctx req s)) s4).
  { intros st' s4 Hst' [Hl4 Htr4] Hfs4 Hwhy. rewrite Hfs3 in Hfs4.
    eapply wp_returns_mono; [exact (fail_wp st' _ _ _ Hfs4)|].
    intros r s5 (-> & [Hl5 Htr5] & keep & Hk & Hfs5). split; [by transitivity s3; [|transitivity s4]|].
    left. split; [done|split; [done|split; [by rewrite Htr5, Htr4|]]]. exists (mkInode x b2), keep. split; [done|split; [|done]].
    destruct Hl4 as [Hq4 _]. by rewrite Hq4, Hq3 in Hk. }
  destruct (ok st) eqn:Hst; cbn [negb]; cycle 1.
  { apply Hexit; [done..|]. intros Hq. destruct Hl1 as [Hq1 _]. destruct Hres as (l & Htr2 & Hlarge); [congruence|].
    eexists. split; [|by apply (hi_too_large _ _ l g)]. rewrite Htr3, Htr2, Htr1. by rewrite <- !app_assoc. }
  destruct Hres as (l & Htr2 & ->).
  assert (Htr : s_trace s3 = s_trace s ++ [ev (StartGet ctx req) tt] ++ streamed l ++ [ev ClientRead None; ev FinishGet g]).
  { rewrite Htr3, Htr2, Htr1. by rewrite <- !app_assoc. }
  destruct (grpc.ok g) eqn:Hg; cbn [negb]; cycle 1.
  { apply Hexit; [by apply FromGrpcStatus_error|done|done|]. intros _. eexists. by split; [exact Htr|apply hi_ended]. }
  apply wp_perform_bind. intros synced s4 Hpost. cbn [call_post] in Hpost.
  destruct Hpost as [j pos w nd e Hj Hnd|p m e Hj _|e Hq].
  - rewrite Hfs3 in Hj. cbn in Hj. rewrite lookup_insert_eq in Hj. injection Hj as <- <- <-.
    rewrite Hfs3 in Hnd. cbn in Hnd. rewrite lookup_insert_eq in Hnd. injection Hnd as <-.
    rewrite bool_decide_false by (intros []; done). apply wp_ret. split; [done|]. right.
    split; [done|split; [done|]]. exists (contents l). split; [done|]. split.
    { specialize (Hlen eq_refl). destruct Hl1 as [_ Hev1].
      pose proof (Nat.mul_le_mono_l _ _ max_message Hev1). lia. }
    cbn [s_fs s_trace ret_st]. split.
    + rewrite Hfs3. unfold sync_inode, writing_fs, set_inodes. cbn. by rewrite insert_insert_eq.
    + eexists. split; [exact Htr|by exists l, g].
  - rewrite Hfs3 in Hj. cbn in Hj. by rewrite lookup_insert_eq in Hj.
  - rewrite bool_decide_true by done.
    eapply wp_bind_returns; [apply errno_status_wp|]. intros st' s5 [-> ->]. apply Hexit; [done..|].
    intros Hquiet. rewrite Hq3 in Hq. destruct (Hq Hquiet) as (Hbad & _). exfalso.
    assert (Hw : f_fds (s_fs s3) !! fd = Some (FdFile i (length (contents l)) true)) by (rewrite Hfs3; apply lookup_insert_eq).
    apply Hbad in Hw. rewrite Hfs3 in Hw. cbn in Hw. by rewrite lookup_insert_eq in Hw.
Qed.

End Download.

Section GetChunk.
Context `{Libc}.

(** A download leaves the destination complete and on the disk, or reports an
    error and leaves nothing under its name that it created, faults apart.  On a
    healthy machine only the peer can hinder it, once the name is free. *)
Definition get_chunk_post (self : GrpcDataPlaneClient.t) (endpoint : WorkerEndpoint) (req : GetChunkRequest)
    (dest : string) (s : state) (st : Status) (s' : state) : Prop :=
  later s s' /\ exists d, download (s_quiet s) (s_fs s) dest d st (s_fs s') /\
    (length d <= max_message * s_events s)%nat /\
    (st = Status_Ok -> exists tr, s_trace s' = s_trace s ++ tr /\
       fetched (GrpcDataPlaneClient.MakeStub self endpoint) (get_message req) d tr) /\
    (ok st = false -> s_quiet s = true -> f_names (s_fs s) !! dest = None -> name_fits dest = true ->
     exists tr, s_trace s' = s_trace s ++ tr /\
       hindered (GrpcDataPlaneClient.MakeStub self endpoint) (get_message req) tr).

Lemma Client_GetChunk_wp self fuel endpoint req dest s :
  (max_message + s_events s < fuel)%nat ->
  wp (GrpcDataPlaneClient.GetChunk self fuel endpoint req dest)
    (returns (get_chunk_post self endpoint req dest s)) s.
Proof.
  intros Hf. eapply wp_bind_returns; [by apply open_excl_rule|].
  assert (Hno : forall st s1, later s s1 -> s_fs s1 = s_fs s -> st <> Status_Ok ->
    (code st = kAlreadyExists /\ is_Some (f_names (s_fs s) !! dest) \/
     code st = kIoError /\ (s_quiet s = true -> name_fits dest = false)) ->
    get_chunk_post self endpoint req dest s st s1).
  { intros st s1 Hl Hfs Hst Hc. split; [done|]. exists []. split; [|split; [cbn; lia|split; [done|]]].
    - rewrite Hfs. by apply down_not_created.
    - intros _ Hq Hn Hfit. destruct Hc as [[_ [i Hi]]|[_ Hno]]; [congruence|]. specialize (Hno Hq). congruence. }
  intros raw s1 [fd i e Hn Hi Hfit Hfd0 Hfd|Ht|e He Hq]; cbn [s_fs s_quiet ret_st] in *.
  - eapply scope_wp.
    + rewrite valid_make by done. cbn [negb]. by eapply (GetChunk_exchange_wp (s_fs s) dest fd i).
    + intros st fdo s2 [Hl [(E & Hst & Hwhy & nd & keep & Hmax & Hk & Hfs)|(E & _)]] Hneg; cbn in E; subst; [|cbn in Hneg; lia].
      split; [done|]. exists []. split; [|split; [cbn; lia|split; [intros E; cbn in Hst; by rewrite E in Hst|by auto]]].
      rewrite Hfs. by apply down_failed.
    + intros st fdo s2 e2 [Hl [(E & _)|(E & Hst & d & Hmax & Hlen & Hfs & Hd)]] Hpos; cbn in E; subst; [cbn in Hpos; lia|].
      cbn in Hst. subst. split; [done|]. exists d. split; [|split; [done|split; [done|by intros]]]. cbn [s_fs ret_st UniqueFd.fd_ UniqueFd.make].
      rewrite Hfs, close_writing by done. by apply down_complete.
  - eapply (scope_wp _ _ (fun x s' => x.2 = UniqueFd.make (-1) /\ get_chunk_post self endpoint req dest s x.1 s')).
    + rewrite valid_failed. cbn [negb]. apply wp_bind, wp_get_errno, wp_bind, wp_get_errno, wp_ret.
      cbn [s_errno ret_st]. split; [done|]. apply Hno; [done|done|done|by left].
    + by intros r fdo s4 [_ HP].
    + intros r fdo s4 e4 [E _] Hpos. cbn in E. by subst.
  - eapply (scope_wp _ _ (fun x s' => x.2 = UniqueFd.make (-1) /\ get_chunk_post self endpoint req dest s x.1 s')).
    + rewrite valid_failed. cbn [negb]. apply wp_bind, wp_get_errno, wp_bind, wp_get_errno, wp_ret.
      cbn [s_errno ret_st]. rewrite bool_decide_false by done. split; [done|].
      apply Hno; [done|done|done|by right].
    + by intros r fdo s4 [_ HP].
    + intros r fdo s4 e4 [E _] Hpos. cbn in E. by subst.
Qed.

End GetChunk.
