(* ===== verification/StorageClient.v ===== *)
(** * StorageClient: whole-object operations over any DataPlaneClient
    (src/src/storage/client/storage_client.cpp). *)
From S2P Require Import Prelude Status Types Path Proto System Prog UniqueFd Blake3 FileIO Files.
From S2P Require Import Client ClientSpec.

(** ** Definitions *)

Section HashFile.
Context `{Libc} `{Blake3}.

Definition HashFile_kBufferSize : Z := 1024 * 1024.

Fixpoint HashFile_loop (fuel rfuel : nat) (fd : Z) (h : hasher) (size : Z)
  : prog (Status + (hasher * Z)) :=
  match fuel with
  | O => Fuel
  | S fuel =>
      count ← read_retry rfuel fd HashFile_kBufferSize;
      match count with
      | None => st ← errno_status "read file failed: "; mret (inl st)
      | Some bytes =>
          if bool_decide (blen bytes = 0) then mret (inr (h, size))
          else HashFile_loop fuel rfuel fd (hasher_update h bytes) (u64_add size (blen bytes))
      end
  end.

(** [HashFile]: the size and the checksum of a file. *)
Definition HashFile (fuel : nat) (path : string) : prog (StatusOr (Z * Checksum)) :=
  raw ← perform (Open path [O_RDONLY; O_CLOEXEC]);
  UniqueFd.scope_const raw (fun fd =>
    if negb (UniqueFd.valid fd) then
      st ← errno_status "open file failed: "; mret (SO_error st)
    else
      r ← HashFile_loop fuel fuel (UniqueFd.get fd) hasher_init 0;
      match r with
      | inl st => mret (SO_error st)
      | inr (h, size) =>
          let digest := hasher_finalize h BLAKE3_OUT_LEN in
          let hex := of_chars (hex_assign digest 0 (replicate (length digest * 2) "0"%char)) in
          mret (SO_value (size, mkChecksum kBlake3 hex))
      end).

End HashFile.

Module StorageClient.

(** The members [data_plane_] and [worker_]. *)
Record t (D : Type) := mk { data_plane_ : D; worker_ : WorkerEndpoint }.
Arguments mk {D} _ _.
Arguments data_plane_ {D} _.
Arguments worker_ {D} _.

Definition ToChunkId (object_id : ObjectId) : StatusOr ChunkId :=
  if negb (ObjectId_valid object_id) then
    SO_error (Status_make kInvalidArgument "object_id cannot be empty")
  else SO_value (mkChunkId (object_id_value object_id)).

Section Operations.
Context `{Libc} `{Blake3} {D : Type} `{DataPlaneClient D}.

Definition Put (self : t D) (fuel : nat) (object_id : ObjectId) (source : string) : prog Status :=
  let chunk_id := ToChunkId object_id in
  match so_value chunk_id with
  | None => mret (so_status chunk_id)
  | Some id =>
      hash ← HashFile fuel source;
      match so_value hash with
      | None => mret (so_status hash)
      | Some (size, checksum) =>
          dc_PutChunk (data_plane_ self) fuel (worker_ self) (mkPutChunkRequest id size checksum) source
      end
  end.

(** The temporary name of [Get]. *)
Definition temp_for (destination : string) (pid id : Z) : string :=
  path_append (path_parent destination)
    (path_filename destination +:+ ".tmp." +:+ to_string pid +:+ "." +:+ to_string id).

(** [Get] from the download on. *)
Definition Get_download (self : t D) (fuel : nat) (chunk_id : ChunkId) (head : HeadChunkResponse)
    (temp destination : string) : prog Status :=
  status ← dc_GetChunk (data_plane_ self) fuel (worker_ self)
             (mkGetChunkRequest chunk_id (mkByteRange 0 (hr_size head))) temp;
  if negb (ok status) then
    _ ← perform (Unlink temp); mret status
  else
    hash ← HashFile fuel temp;
    match so_value hash with
    | None => _ ← perform (Unlink temp); mret (so_status hash)
    | Some (size, checksum) =>
        if bool_decide (size <> hr_size head) || bool_decide (checksum <> hr_checksum head) then
          _ ← perform (Unlink temp);
          mret (Status_make kCorruption "download checksum mismatch")
        else
          linked ← perform (Link temp destination);
          if bool_decide (linked <> 0) then
            link_error ← perform GetErrno;
            _ ← perform (Unlink temp);
            mret (Status_make (if bool_decide (link_error = EEXIST) then kAlreadyExists else kIoError)
                    ("commit destination failed: " +:+ strerror link_error))
          else
            _ ← perform (Unlink temp); mret Status_Ok
    end.

(** [Get]; [next_temp_id] is the process-wide counter, returned as it is left.
    [std::filesystem::exists] throws when it cannot tell. *)
Definition Get (self : t D) (fuel : nat) (next_temp_id : Z) (object_id : ObjectId)
    (destination : string) : prog (Status * Z) :=
  let chunk_id := ToChunkId object_id in
  match so_value chunk_id with
  | None => mret (so_status chunk_id, next_temp_id)
  | Some id =>
      present ← perform (Exists destination);
      match present with
      | None => Throw "filesystem_error"
      | Some true =>
          mret (Status_make kAlreadyExists ("destination already exists: " +:+ destination), next_temp_id)
      | Some false =>
          head ← dc_HeadChunk (data_plane_ self) (worker_ self) (mkHeadChunkRequest id);
          match so_value head with
          | None => mret (so_status head, next_temp_id)
          | Some response =>
              pid ← perform Getpid;
              let temp := temp_for destination pid next_temp_id in
              let next_temp_id := u64_add next_temp_id 1 in
              taken ← perform (Exists temp);
              match taken with
              | None => Throw "filesystem_error"
              | Some true =>
                  mret (Status_make kAlreadyExists ("temporary destination already exists: " +:+ temp),
                        next_temp_id)
              | Some false =>
                  status ← Get_download self fuel id response temp destination;
                  mret (status, next_temp_id)
              end
          end
      end
  end.

Definition Head (self : t D) (object_id : ObjectId) : prog (StatusOr HeadChunkResponse) :=
  let chunk_id := ToChunkId object_id in
  match so_value chunk_id with
  | None => mret (SO_error (so_status chunk_id))
  | Some id => dc_HeadChunk (data_plane_ self) (worker_ self) (mkHeadChunkRequest id)
  end.

Definition Delete (self : t D) (object_id : ObjectId) : prog Status :=
  let chunk_id := ToChunkId object_id in
  match so_value chunk_id with
  | None => mret (so_status chunk_id)
  | Some id => dc_DeleteChunk (data_plane_ self) (worker_ self) (mkDeleteChunkRequest id)
  end.

End Operations.
End StorageClient.

(** ** The contract of a DataPlaneClient

    An upload may do what [dc_put_spec] says and leaves the files alone;
    [dc_head_spec] and [dc_delete_spec] relate a request to its answer; a download is a [download],
    of bytes that [dc_get_spec] relates to the request when it succeeds, and on a
    healthy machine it fails only for the reasons of [dc_hindered]; no operation
    touches any other file. *)
Class DataPlaneClientContract (D : Type) `{DataPlaneClient D} := {
  dc_head_spec : D -> WorkerEndpoint -> HeadChunkRequest -> state -> StatusOr HeadChunkResponse -> state -> Prop;
  dc_put_spec : D -> WorkerEndpoint -> PutChunkRequest -> string -> state -> Status -> state -> Prop;
  dc_get_spec : D -> WorkerEndpoint -> GetChunkRequest -> list byte -> state -> state -> Prop;
  dc_delete_spec : D -> WorkerEndpoint -> DeleteChunkRequest -> state -> Status -> state -> Prop;
  dc_hindered : D -> WorkerEndpoint -> GetChunkRequest -> state -> state -> Prop;
  dc_PutChunk_ok : forall (d : D) fuel endpoint req source s,
    fs_wf (s_fs s) -> (forall x, lookup_file (s_fs s) source = Some x -> (length x < fuel)%nat) ->
    (s_events s < fuel)%nat ->
    wp (dc_PutChunk d fuel endpoint req source) (returns (fun st s' =>
      later s s' /\ s_fs s' = s_fs s /\ dc_put_spec d endpoint req source s st s')) s;
  dc_GetChunk_ok : forall (d : D) fuel endpoint req dest s,
    (max_message + s_events s < fuel)%nat ->
    wp (dc_GetChunk d fuel endpoint req dest) (returns (fun st s' =>
      later s s' /\ exists x, download (s_quiet s) (s_fs s) dest x st (s_fs s') /\
        (length x <= max_message * s_events s)%nat /\
        (st = Status_Ok -> dc_get_spec d endpoint req x s s') /\
        (ok st = false -> s_quiet s = true -> f_names (s_fs s) !! dest = None -> name_fits dest = true ->
         dc_hindered d endpoint req s s'))) s;
  dc_HeadChunk_ok : forall (d : D) endpoint req s,
    wp (dc_HeadChunk d endpoint req) (returns (fun r s' =>
      later s s' /\ s_fs s' = s_fs s /\ dc_head_spec d endpoint req s r s')) s;
  dc_DeleteChunk_ok : forall (d : D) endpoint req s,
    wp (dc_DeleteChunk d endpoint req) (returns (fun r s' => later s s' /\ s_fs s' = s_fs s /\ dc_delete_spec d endpoint req s r s')) s }.

(** ** Lemmas *)

(** An inquiry sends one message and returns the peer's answer. *)
Definition head_answer (d : GrpcDataPlaneClient.t) (endpoint : WorkerEndpoint) (req : HeadChunkRequest)
    (tr : list rpc_event) (r : StatusOr HeadChunkResponse) (tr' : list rpc_event) : Prop :=
  exists g resp,
    tr' = tr ++ [ev (CallHead (GrpcDataPlaneClient.MakeStub d endpoint)
                       (rpc.mkHeadChunkRequest (chunk_id_value (head_chunk_id req)))) (g, resp)] /\
    r = if negb (grpc.ok g) then SO_error (FromGrpcStatus g)
        else if negb (ok (FromRpcStatus (rpc.hresp_status resp)))
        then SO_error (FromRpcStatus (rpc.hresp_status resp))
        else SO_value (mkHeadChunkResponse (mkChunkId (rpc.hresp_chunk_id resp))
               (rpc.hresp_size resp) (mkChecksum kBlake3 (rpc.hresp_checksum resp))).

(** So does a removal. *)
Definition delete_answer (d : GrpcDataPlaneClient.t) (endpoint : WorkerEndpoint) (req : DeleteChunkRequest)
    (tr : list rpc_event) (st : Status) (tr' : list rpc_event) : Prop :=
  exists g resp,
    tr' = tr ++ [ev (CallDelete (GrpcDataPlaneClient.MakeStub d endpoint)
                       (rpc.mkDeleteChunkRequest (chunk_id_value (delete_chunk_id req)))) (g, resp)] /\
    st = upload_status g resp.

#[export] Program Instance GrpcDataPlaneClient_contract `{Libc} :
  DataPlaneClientContract GrpcDataPlaneClient.t := {
  dc_head_spec d endpoint req s r s' := head_answer d endpoint req (s_trace s) r (s_trace s');
  dc_delete_spec d endpoint req s st s' := delete_answer d endpoint req (s_trace s) st (s_trace s');
  dc_put_spec d endpoint req source := put_chunk_post d endpoint req source;
  dc_get_spec d endpoint req x s s' := exists tr, s_trace s' = s_trace s ++ tr /\
    fetched (GrpcDataPlaneClient.MakeStub d endpoint) (get_message req) x tr;
  dc_hindered d endpoint req s s' := exists tr, s_trace s' = s_trace s ++ tr /\
    hindered (GrpcDataPlaneClient.MakeStub d endpoint) (get_message req) tr }.
Next Obligation.
  intros ? d fuel endpoint req source s Hwf Hlen He.
  eapply wp_returns_mono; [exact (Client_PutChunk_wp d fuel endpoint req source s Hwf Hlen He)|].
  intros st s' Hp. split; [apply Hp|split; [apply Hp|done]].
Qed.
Next Obligation.
  intros ? d fuel endpoint req dest s Hf.
  eapply wp_returns_mono; [exact (Client_GetChunk_wp d fuel endpoint req dest s Hf)|].
  intros st s' (Hl & x & Hd & Hlen & Htr & Hwhy). split; [done|]. by exists x.
Qed.
Next Obligation.
  intros ? d endpoint req s. eapply wp_bind_returns; [by apply (rpc_quiet_rule (CallHead _ _))|].
  intros [g r] s' (Hl & Hfs & Htr). apply wp_ret.
  split; [done|split; [done|]]. exists g, r. by split.
Qed.
Next Obligation.
  intros ? d endpoint req s. eapply wp_bind_returns; [by apply (rpc_quiet_rule (CallDelete _ _))|].
  intros [g r] s' (Hl & Hfs & Htr). apply wp_ret. split; [done|split; [done|]]. by exists g, r.
Qed.

Section Hash.
Context `{Libc} `{Blake3}.

(** The checksum of a content. *)
Definition content_checksum (d : list byte) : Checksum := mkChecksum kBlake3 (hex_string (blake3 d)).

Lemma HashFile_loop_wp fuel rfuel fd h i pos nd s :
  reading s fd i pos nd -> blen (i_data nd) <= off_max -> absorbed h (take pos (i_data nd)) ->
  (pos <= length (i_data nd))%nat ->
  (length (i_data nd) - pos < fuel)%nat -> (s_events s < rfuel)%nat ->
  wp (HashFile_loop fuel rfuel fd h (Z.of_nat pos))
    (returns (fun r s' => local_step s s' /\ reading_on s s' fd i /\
       match r with
       | inr (h', size) => absorbed h' (i_data nd) /\ size = blen (i_data nd)
       | inl st => code st = kIoError /\ s_quiet s = false
       end)) s.
Proof.
  revert h pos s. induction fuel as [|fuel IH]; intros h pos s Hr Hmax Hh Hpos Hf Hrf; [lia|].
  cbn [HashFile_loop]. eapply wp_bind_returns; [by eapply read_retry_wp|].
  intros count s1 (Hl1 & [(k & (Hk1 & Hk2 & Hk3) & -> & Hfs1)|(-> & Hq & Hfs1)]).
  - assert (Hlen : blen (take k (drop pos (i_data nd))) = Z.of_nat k)
      by (unfold blen; rewrite length_take, length_drop; lia).
    assert (Hon : reading_on s s1 fd i) by (by exists (pos + k)%nat).
    rewrite Hlen. case_bool_decide as Hk0.
    + apply wp_ret. split; [done|split; [done|]].
      assert (pos = length (i_data nd)) as Hend.
      { assert (k = 0%nat) as Hz by lia. destruct (Hk3 Hz) as [Hx|]; [by cbn in Hx|lia]. }
      rewrite Hend, take_ge in Hh by lia. split; [done|]. unfold blen. by rewrite Hend.
    + rewrite u64_add_small by (unfold is_u64, u64_modulus, off_max, blen in *; lia).
      rewrite <- Nat2Z.inj_add. eapply wp_returns_mono.
      { apply (IH _ (pos + k)%nat); [|done| |lia|lia|destruct Hl1 as [[_ ?] _]; lia].
        - split; rewrite Hfs1; [apply lookup_insert_eq|apply Hr].
        - rewrite <- (take_take_drop (i_data nd) pos k). by apply absorbed_update. }
      intros r s2 (Hl2 & Hon2 & Hres). split; [by transitivity s1|split; [by eapply reading_on_trans|]].
      destruct r; [|done]. destruct Hl1 as [[Hq _] _]. by rewrite Hq in Hres.
  - eapply wp_bind_returns; [apply errno_status_wp|]. intros st s2 [-> ->]. apply wp_ret.
    split; [done|split; [|done]]. eapply reading_on_fs; [by eapply reading_on_self|done].
Qed.

(** What [HashFile] says of a file. *)
Definition hash_result (quiet : bool) (f : fs) (path : string) (r : StatusOr (Z * Checksum)) : Prop :=
  (exists d, lookup_file f path = Some d /\ r = SO_value (blen d, content_checksum d)) \/
  (exists st, r = SO_error st /\ code st = kIoError /\
     (quiet = true -> lookup_file f path = None \/ name_fits path = false)).

Lemma HashFile_wp fuel path s :
  fs_wf (s_fs s) -> (forall d, lookup_file (s_fs s) path = Some d -> (length d < fuel)%nat) ->
  (s_events s < fuel)%nat ->
  wp (HashFile fuel path) (returns (fun r s' => local_step s s' /\ s_fs s' = s_fs s /\
    hash_result (s_quiet s) (s_fs s) path r)) s.
Proof.
  intros Hwf Hlen He. eapply wp_bind_returns; [by apply open_read_rule|].
  intros raw s1 [fd i nd e Hn Hi Hfd0 Hfd|Hm|e He' Hq].
  - pose proof (lookup_file_some _ _ _ _ Hn Hi) as Hd.
    eapply (scope_const_wp _ _ (fun r s' => local_step s s' /\
      reading_on (ret_st s e (opened_fs fd i (s_fs s))) s' fd i /\
      hash_result (s_quiet s) (s_fs s) path r)); [|lia|].
    + rewrite valid_make by done. cbn [negb].
      eapply wp_bind_returns.
      { apply (HashFile_loop_wp _ _ _ _ i 0 nd); [by apply opened_reading|by eapply wf_size| |lia| |done].
        - apply absorbed_init.
        - apply Hlen in Hd. lia. }
      intros [st|[h size]] s2 (Hl & Hon & Hres); apply wp_ret.
      * destruct Hres as [Hc Hqf]. split; [by etransitivity; [|exact Hl]|split; [done|]].
        right. exists st. split; [done|split; [done|]]. cbn in Hqf. congruence.
      * destruct Hres as [Hh ->]. split; [by etransitivity; [|exact Hl]|split; [done|]].
        left. exists (i_data nd). split; [done|]. do 2 f_equal. unfold content_checksum. f_equal.
        exact (FinalizeHex_spec _ _ Hh).
    + intros _ r s2 e2 (Hl & Hon & Hres). split; [by apply local_step_ret_l|split; [|done]].
      cbn. eapply close_reading_on; [|exact Hon|done]. done.
  - eapply scope_const_wp; [|intros _ a s2 HP; exact HP|lia].
    rewrite valid_failed. cbn [negb]. eapply wp_bind_returns; [apply errno_status_wp|].
    intros st s2 [-> ->]. apply wp_ret. split; [done|split; [done|]]. right. eexists. split_and!; auto.
  - eapply scope_const_wp; [|intros _ a s2 HP; exact HP|lia].
    rewrite valid_failed. cbn [negb]. eapply wp_bind_returns; [apply errno_status_wp|].
    intros st s2 [-> ->]. apply wp_ret. split; [done|split; [done|]]. right. eexists. split_and!; auto.
Qed.

End Hash.
