(* ===== verification/ObjectSpec.v ===== *)
(** * What StorageClient does: uploads of what the source holds, downloads that
    are committed only when they match what the worker reported. *)
From S2P Require Import Prelude Status Types Path Proto System Prog UniqueFd Blake3 FileIO Files.
From S2P Require Import Client ClientSpec StorageClient.

(** ** Definitions *)

(** What [StorageClient.Get] may do to the files.  [reported] says that the
    worker described the object in this way and then streamed these bytes. *)
Inductive get_object `{Blake3} (quiet : bool) (f : fs) (dest : string)
    (reported : HeadChunkResponse -> list byte -> Prop) : Status -> fs -> Prop :=
| go_refused st : ok st = false -> get_object quiet f dest reported st f
| go_discarded st temp i nd keep :
    ok st = false -> temp <> dest -> f_names f !! temp = None -> f_inodes f !! i = None ->
    (quiet = true -> keep = false) ->
    get_object quiet f dest reported st (left_fs f temp i nd keep)
| go_committed temp i d keep head :
    f_names f !! dest = None -> temp <> dest -> f_names f !! temp = None -> f_inodes f !! i = None ->
    (quiet = true -> keep = false) -> reported head d ->
    blen d = hr_size head -> content_checksum d = hr_checksum head -> 
    get_object quiet f dest reported Status_Ok
      (committed_fs f temp dest i (mkInode d true) keep (f_stable f)).

(** ** Lemmas *)

Section Names.

Lemma filename_chars_plain l : no_slash (filename_chars l).
Proof.
  induction l as [|c l IH]; [done|]. cbn [filename_chars].
  destruct (existsb is_slash (c :: l)) eqn:E; [done|]. done.
Qed.

Lemma filename_plain p : no_slash (chars (path_filename p)).
Proof. unfold path_filename. rewrite chars_of_chars. apply filename_chars_plain. Qed.

(** The temporary name is not the destination. *)
Lemma temp_for_ne dest pid n : StorageClient.temp_for dest pid n <> dest.
Proof.
  intros E%(f_equal path_filename). unfold StorageClient.temp_for in E.
  rewrite path_filename_append in E.
  - apply (f_equal chars) in E. apply (f_equal length) in E.
    rewrite chars_app, length_app in E. rewrite chars_app, length_app in E. cbn in E. lia.
  - rewrite !chars_app. rewrite !no_slash_app.
    split_and!; try done; [apply filename_plain|apply to_string_no_slash..].
  - rewrite !chars_app. intros Hnil%(f_equal length). rewrite !length_app in Hnil. cbn in Hnil. lia.
Qed.

End Names.

Section Get.
Context `{Libc} `{Blake3} {D : Type} `{DataPlaneClientContract D}.

Lemma unlink_absent_rule p s :
  f_names (s_fs s) !! p = None ->
  wp (perform (Unlink p)) (returns (fun _ s' => local_step s s' /\ s_fs s' = s_fs s)) s.
Proof.
  intros Hn. apply wp_perform. intros r s' Hpost. cbn [returns call_post] in *.
  destruct Hpost as [e [i Hi]|_|e _ _]; [congruence|split; [auto with steps|done]..].
Qed.

(** Unlinking the temporary name of an attempt. *)
Lemma unlink_left {A} (x : A) f temp i nd k s :
  s_fs s = left_fs f temp i nd k -> f_names f !! temp = None -> name_fits temp = true ->
  wp (_ ← perform (Unlink temp); mret x) (returns (fun r s' => r = x /\ local_step s s' /\
    exists k', (s_quiet s = true -> k' = false) /\ s_fs s' = left_fs f temp i nd k')) s.
Proof.
  intros Hs Hn Hfit. destruct k.
  - eapply wp_bind_returns.
    { apply (unlink_rule temp i); [|done]. rewrite Hs. apply lookup_insert_eq. }
    intros r s1 (Hl & keep & Hk & Hfs). apply wp_ret. split; [done|split; [done|]].
    exists keep. split; [done|]. rewrite Hfs, Hs. unfold set_names, left_fs. cbn.
    destruct keep; [done|]. by rewrite delete_insert_id.
  - eapply wp_bind_returns; [apply unlink_absent_rule; by rewrite Hs|].
    intros r s1 (Hl & Hfs). apply wp_ret. split; [done|split; [done|]].
    exists false. split; [done|]. congruence.
Qed.

Section Download.
Context (self : StorageClient.t D) (temp dest : string).
Context (reported : state -> HeadChunkResponse -> list byte -> Prop).
Context (Hlocal : forall s s' head d, s_trace s' = s_trace s -> reported s head d -> reported s' head d).
Context (Hne : temp <> dest).
(** What may stop it on a healthy machine. *)
Context (stopped : state -> Prop).
Context (Hstopped : forall s s', s_trace s' = s_trace s -> stopped s -> stopped s').
Context (Hmismatch : forall s head d, reported s head d ->
  blen d <> hr_size head \/ content_checksum d <> hr_checksum head -> stopped s).

Definition download_post (s : state) (st : Status) (s' : state) : Prop :=
  later s s' /\ get_object (s_quiet s) (s_fs s) dest (reported s') st (s_fs s') /\
  (ok st = false -> s_quiet s = true -> name_fits temp = true -> name_fits dest = true -> stopped s').

(** Leaving through an [Unlink] of the temporary name. *)
Lemma discard_download st f i nd k s0 s :
  ok st = false -> f = s_fs s0 -> later s0 s ->
  s_fs s = left_fs f temp i nd k -> f_names f !! temp = None -> f_inodes f !! i = None ->
  name_fits temp = true -> (s_quiet s0 = true -> name_fits dest = true -> stopped s) ->
  wp (_ ← perform (Unlink temp); mret st) (returns (download_post s0)) s.
Proof.
  intros Hst -> Hl0 Hs Hn Hi Hfit Hwhy. eapply wp_returns_mono; [by eapply unlink_left|].
  intros r s1 (-> & [Hl Htr] & k' & Hk & Hfs). split; [by transitivity s|]. rewrite Hfs. split.
  - apply go_discarded; try done. destruct Hl0 as [Hq _]. by rewrite Hq in Hk.
  - intros _ Hq _ Hd. by eapply Hstopped, Hwhy.
Qed.

(** The comparison with the reported size and checksum, and the commit. *)
Lemma commit_download_wp head i d s0 s :
  later s0 s -> s_fs s = left_fs (s_fs s0) temp i (mkInode d true) true ->
  f_names (s_fs s0) !! temp = None -> f_names (s_fs s0) !! dest = None ->
  f_inodes (s_fs s0) !! i = None -> name_fits temp = true -> reported s head d ->
  wp (if bool_decide (blen d <> hr_size head) || bool_decide (content_checksum d <> hr_checksum head) then
        _ ← perform (Unlink temp);
        mret (Status_make kCorruption "download checksum mismatch")
      else
        linked ← perform (Link temp dest);
        if bool_decide (linked <> 0) then
          link_error ← perform GetErrno;
          _ ← perform (Unlink temp);
          mret (Status_make (if bool_decide (link_error = EEXIST) then kAlreadyExists else kIoError)
                  ("commit destination failed: " +:+ strerror link_error))
        else
          _ ← perform (Unlink temp); mret Status_Ok)
    (returns (download_post s0)) s.
Proof.
  intros Hl0 Hs Hnt Hnd Hi Hfit Hrep. assert (Hq0 : s_quiet s = s_quiet s0) by apply Hl0.
  destruct (bool_decide _ || bool_decide _) eqn:Hcmp.
  { eapply discard_download; try done. intros _ _. apply (Hmismatch _ _ _ Hrep).
    apply orb_true_elim in Hcmp as [Hc|Hc]; apply bool_decide_eq_true in Hc; auto. }
  apply orb_false_elim in Hcmp as [Hsz%bool_decide_eq_false Hsum%bool_decide_eq_false].
  apply dec_stable in Hsz, Hsum.
  apply wp_perform_bind. intros linked s1 Hpost. cbn [call_post] in Hpost.
  assert (Hlink : forall e, (s_quiet s0 = true -> name_fits dest = true -> stopped s) -> wp
    (link_error ← perform GetErrno; _ ← perform (Unlink temp);
     mret (Status_make (if bool_decide (link_error = EEXIST) then kAlreadyExists else kIoError)
             ("commit destination failed: " +:+ strerror link_error)))
    (returns (download_post s0)) (ret_st s e (s_fs s))).
  { intros e Hwhy. apply wp_bind, wp_get_errno. eapply discard_download; try done; [by case_bool_decide|].
    intros Hq Hd. by eapply Hstopped, Hwhy. }
  destruct Hpost as [j e Hj Hnone|[j Hj]|e He Hq].
  - rewrite bool_decide_false by (intros []; done).
    rewrite Hs in Hj, Hnone |- *. cbn in Hj, Hnone. rewrite lookup_insert_eq in Hj. injection Hj as <-.
    eapply wp_bind_returns.
    { apply (unlink_rule temp i); [|done]. cbn. rewrite lookup_insert_ne by done. apply lookup_insert_eq. }
    intros r s2 (Hl2 & keep & Hk & Hfs2). apply wp_ret. cbn [s_quiet ret_st] in Hk. rewrite Hq0 in Hk.
    assert (E : s_fs s2 = committed_fs (s_fs s0) temp dest i (mkInode d true) keep (f_stable (s_fs s0))).
    { rewrite Hfs2. unfold set_names, left_fs, committed_fs. cbn. destruct keep; [done|].
      by rewrite delete_insert_ne, delete_insert_id. }
    split; [transitivity s; [done|by destruct Hl2]|split; [|done]]. rewrite E. eapply go_committed; try done.
    destruct Hl2 as [_ Htr2]. exact (Hlocal s _ _ _ Htr2 Hrep).
  - rewrite Hs in Hj. cbn in Hj. by rewrite lookup_insert_ne, Hnd in Hj.
  - rewrite bool_decide_true by done. apply Hlink. intros Hq1 Hd. rewrite Hq0 in Hq.
    destruct (Hq Hq1) as [Hno|?]; [|congruence]. rewrite Hs in Hno. cbn in Hno. by rewrite lookup_insert_eq in Hno.
Qed.

Lemma Get_download_wp fuel id head s :
  fs_wf (s_fs s) -> f_names (s_fs s) !! temp = None -> f_names (s_fs s) !! dest = None ->
  (forall d s', dc_get_spec (StorageClient.data_plane_ self) (StorageClient.worker_ self)
     (mkGetChunkRequest id (mkByteRange 0 (hr_size head))) d s s' -> reported s' head d) ->
  (forall s', dc_hindered (StorageClient.data_plane_ self) (StorageClient.worker_ self)
     (mkGetChunkRequest id (mkByteRange 0 (hr_size head))) s s' -> stopped s') ->
  (max_message * s_events s + max_message + s_events s < fuel)%nat ->
  wp (StorageClient.Get_download self fuel id head temp dest) (returns (download_post s)) s.
Proof.
  intros Hwf Hnt Hnd Hrep Hhind Hf.
  eapply wp_bind_returns; [eapply dc_GetChunk_ok; lia|].
  intros st s1 (Hl1 & x & Hd & Hlen & Hget & Hwhy).
  assert (Hq1 : s_quiet s1 = s_quiet s) by apply Hl1.
  destruct (ok st) eqn:Hst; cbn [negb]; cycle 1.
  { remember (s_fs s1) as f1 eqn:Ef1.
    destruct Hd as [st _ _|st i nd keep _ Hn Hi Hfit Hmax Hk|i Hn Hi Hfit Hmax]; [| |done].
    - eapply wp_bind_returns; [apply unlink_absent_rule; by rewrite <- Ef1|].
      intros r s2 ([Hl2 Htr2] & Hfs2). apply wp_ret. split; [by transitivity s1|split].
      + rewrite Hfs2, <- Ef1. by apply go_refused.
      + intros _ Hq Ht _. by eapply Hstopped, Hhind, Hwhy.
    - eapply discard_download; try done. intros Hq _. by apply Hhind, Hwhy. }
  remember (s_fs s1) as f1 eqn:Ef1.
  assert (Hget' : reported s1 head x).
  { apply Hrep, Hget. clear -Hst Hd. destruct Hd as [st _ [[Hc _]|[Hc _]]| |]; [..|done];
      [apply ok_code in Hst; congruence..|congruence]. }
  destruct Hd as [st _ Hc|st i nd keep Hst' _ _ _ _ _|i Hn Hi Hfit Hmax];
    [apply ok_code in Hst; destruct Hc as [[??]|[??]]; congruence|congruence|].
  assert (Hlook : lookup_file (s_fs s1) temp = Some x).
  { rewrite <- Ef1. unfold lookup_file, left_fs. cbn. rewrite lookup_insert_eq. cbn.
    by rewrite lookup_insert_eq. }
  eapply wp_bind_returns.
  { apply HashFile_wp; [rewrite <- Ef1; by apply wf_left|rewrite Hlook; intros d [= <-]; lia|].
    destruct Hl1. lia. }
  intros hash s2 ([Hl2 Htr2] & Hfs2 & Hh). assert (Hl02 : later s s2) by (by transitivity s1).
  rewrite <- Ef1 in Hfs2.
  destruct Hh as [(d & Hd & ->)|(st & -> & Hc & Hno)].
  - rewrite Hlook in Hd. injection Hd as <-. cbn [so_value SO_value].
    eapply commit_download_wp; try done. exact (Hlocal _ _ _ _ Htr2 Hget').
  - cbn [so_value SO_error so_status]. eapply discard_download; try done.
    + apply NormalizeError_not_ok.
    + intros Hq _. rewrite Hq1 in Hno. destruct (Hno Hq); congruence.
Qed.

End Download.

Definition exists_answer (p : string) (s : state) (r : option bool) (s' : state) : Prop :=
  local_step s s' /\ s_fs s' = s_fs s /\
  (r = None -> s_quiet s = false) /\ (r = Some false -> f_names (s_fs s) !! p = None) /\
  (s_quiet s = true -> r = Some (bool_decide (is_Some (f_names (s_fs s) !! p)))).

Lemma exists_rule p s : wp (perform (Exists p)) (returns (exists_answer p s)) s.
Proof.
  apply wp_perform. intros r s' Hpost. cbn [returns call_post] in *. unfold exists_answer.
  destruct Hpost as [e Hs|e Hn|e r Hq Hr]; (split; [auto with steps|split; [done|]]).
  - split_and!; [done|done|]. intros _. by rewrite bool_decide_true.
  - split_and!; [done|done|]. intros _. rewrite bool_decide_false; [done|]. rewrite Hn. by intros [].
  - split_and!; [|done|]; [intros _; by apply not_true_is_false|by intros ?%Hq].
Qed.

(** Between [s] and [s'] the worker described the object like this, in answer to
    an inquiry, and then streamed these bytes, in answer to a request for
    everything it had described; nothing else was said. *)
Definition reported_by (self : StorageClient.t D) (id : ObjectId) (s s' : state)
    (head : HeadChunkResponse) (d : list byte) : Prop :=
  exists s1 s2 s3 s4, s_trace s1 = s_trace s /\
    dc_head_spec (StorageClient.data_plane_ self) (StorageClient.worker_ self)
      (mkHeadChunkRequest (mkChunkId (object_id_value id))) s1 (SO_value head) s2 /\
    s_trace s3 = s_trace s2 /\
    dc_get_spec (StorageClient.data_plane_ self) (StorageClient.worker_ self)
      (mkGetChunkRequest (mkChunkId (object_id_value id)) (mkByteRange 0 (hr_size head))) d s3 s4 /\
    s_trace s' = s_trace s4.

Lemma reported_by_local self id s s1 s2 head d :
  s_trace s2 = s_trace s1 -> reported_by self id s s1 head d -> reported_by self id s s2 head d.
Proof.
  intros Htr (a & b & c & e & ? & ? & ? & ? & E). exists a, b, c, e. rewrite Htr. by split_and!.
Qed.

(** Why a Get that finds its names free can fail on a healthy machine: the worker
    describes nothing, the download is hindered, or what was streamed is not
    what was described. *)
Inductive get_stopped (self : StorageClient.t D) (id : ObjectId) (s s' : state) : Prop :=
| gst_undescribed r s1 s2 :
    s_trace s1 = s_trace s ->
    dc_head_spec (StorageClient.data_plane_ self) (StorageClient.worker_ self)
      (mkHeadChunkRequest (mkChunkId (object_id_value id))) s1 r s2 -> so_value r = None ->
    s_trace s' = s_trace s2 -> get_stopped self id s s'
| gst_hindered head s1 s2 s3 s4 :
    s_trace s1 = s_trace s ->
    dc_head_spec (StorageClient.data_plane_ self) (StorageClient.worker_ self)
      (mkHeadChunkRequest (mkChunkId (object_id_value id))) s1 (SO_value head) s2 ->
    s_trace s3 = s_trace s2 ->
    dc_hindered (StorageClient.data_plane_ self) (StorageClient.worker_ self)
      (mkGetChunkRequest (mkChunkId (object_id_value id)) (mkByteRange 0 (hr_size head))) s3 s4 ->
    s_trace s' = s_trace s4 -> get_stopped self id s s'
| gst_mismatch head d :
    reported_by self id s s' head d ->
    blen d <> hr_size head \/ content_checksum d <> hr_checksum head -> get_stopped self id s s'.

Lemma get_stopped_local self id s s1 s2 :
  s_trace s2 = s_trace s1 -> get_stopped self id s s1 -> get_stopped self id s s2.
Proof.
  intros Htr [r a b Ha Hs Hv He|head a b c e Ha Hs Hc Hh He|head d Hr Hm].
  - eapply gst_undescribed; try done. congruence.
  - eapply gst_hindered; try done. congruence.
  - eapply gst_mismatch; [|done]. by eapply reported_by_local.
Qed.

(** The names a Get needs are free, and fit the file system. *)
Definition get_names_free (id : ObjectId) (dest : string) (next : Z) (f : fs) : Prop :=
  object_id_value id <> ""%string /\ f_names f !! dest = None /\ name_fits dest = true /\
  forall pid, 0 <= pid < 2 ^ 31 -> f_names f !! StorageClient.temp_for dest pid next = None /\
    name_fits (StorageClient.temp_for dest pid next) = true.

(** How [Get] ends: with a status, or with the exception of [exists], which
    needs a fault and leaves the files alone. *)
Definition get_object_post (self : StorageClient.t D) (id : ObjectId) (dest : string) (next : Z) (s : state)
    (o : outcome (Status * Z)) (s' : state) : Prop :=
  match o with
  | Done (st, next') =>
      later s s' /\ (next' = next \/ next' = u64_add next 1) /\
      get_object (s_quiet s) (s_fs s) dest (reported_by self id s s') st (s_fs s') /\
      (ok st = false -> s_quiet s = true -> get_names_free id dest next (s_fs s) -> get_stopped self id s s')
  | Threw _ => later s s' /\ s_quiet s = false /\ s_fs s' = s_fs s
  | OutOfFuel => False
  end.

(** A value of a [StatusOr] that was built by its constructors. *)
Lemma ToChunkId_value id c :
  so_value (StorageClient.ToChunkId id) = Some c -> c = mkChunkId (object_id_value id).
Proof. unfold StorageClient.ToChunkId. destruct (negb _); [done|]. by intros [= <-]. Qed.

Lemma ToChunkId_nonempty id c :
  so_value (StorageClient.ToChunkId id) = Some c -> object_id_value id <> ""%string.
Proof. unfold StorageClient.ToChunkId, ObjectId_valid, id_valid. intros Hid E. by rewrite E in Hid. Qed.

Lemma ToChunkId_none id :
  so_value (StorageClient.ToChunkId id) = None -> code (so_status (StorageClient.ToChunkId id)) = kInvalidArgument.
Proof. unfold StorageClient.ToChunkId. by destruct (negb _). Qed.

Lemma ToChunkId_empty id : so_value (StorageClient.ToChunkId id) = None -> object_id_value id = ""%string.
Proof.
  unfold StorageClient.ToChunkId, ObjectId_valid, id_valid. intros Hid.
  destruct (decide (object_id_value id = ""%string)) as [E|E]; [done|].
  by rewrite bool_decide_true in Hid.
Qed.

Lemma Object_Get_wp (self : StorageClient.t D) fuel next id dest s :
  fs_wf (s_fs s) -> (forall r s1 s2, dc_head_spec (StorageClient.data_plane_ self) (StorageClient.worker_ self)
    (mkHeadChunkRequest (mkChunkId (object_id_value id))) s1 r s2 -> SO_built r) ->
  (max_message * s_events s + max_message + s_events s < fuel)%nat ->
  wp (StorageClient.Get self fuel next id dest) (get_object_post self id dest next s) s.
Proof.
  intros Hwf Hbuilt Hf. unfold StorageClient.Get.
  destruct (so_value (StorageClient.ToChunkId id)) as [c|] eqn:Hid; cycle 1.
  { apply wp_ret. cbn. split; [done|split; [by left|split]].
    - apply go_refused, not_ok_code. by rewrite ToChunkId_none.
    - intros _ _ [Hne _]. by apply ToChunkId_empty in Hid. }
  apply ToChunkId_value in Hid as ->.
  apply wp_bind. eapply wp_mono; [apply exists_rule|].
  intros [present|m|] s1; cbn [returns]; [|done..].
  intros ([Hl1 Htr1] & Hfs1 & Hthrow & Hfalse & Hcalm). destruct present as [[]|].
  { apply wp_ret. cbn. split; [done|split; [by left|split; [rewrite Hfs1; by apply go_refused|]]].
    intros _ Hq (_ & Hn & _). specialize (Hcalm Hq). rewrite Hn in Hcalm. discriminate. }
  2:{ split; [done|split; [auto|done]]. }
  apply wp_bind. eapply wp_mono; [apply dc_HeadChunk_ok|].
  intros [head|m|] s2; cbn [returns]; [|done..]. intros (Hl2 & Hfs2 & Hspec).
  assert (Hl02 : later s s2) by (by transitivity s1).
  destruct (so_value head) as [response|] eqn:Hv; cycle 1.
  { apply wp_ret. cbn. split; [done|split; [by left|split]].
    - rewrite Hfs2, Hfs1. apply go_refused.
      apply Hbuilt in Hspec. destruct Hspec; [apply NormalizeError_not_ok|done].
    - intros _ _ _. by eapply gst_undescribed. }
  assert (head = SO_value response) as ->.
  { apply Hbuilt in Hspec. destruct Hspec; [done|]. by injection Hv as <-. }
  apply wp_perform_bind. intros pid s3 [Hpid ->].
  apply wp_bind. eapply wp_mono; [apply exists_rule|].
  intros [taken|m|] s4; cbn [returns]; [|done..].
  intros ([Hl4 Htr4] & Hfs4 & Hthrow4 & Hfalse4 & Hcalm4).
  assert (Hl04 : later s s4) by (by transitivity s2).
  assert (Hfs04 : s_fs s4 = s_fs s) by congruence.
  destruct taken as [[]|].
  { apply wp_ret. cbn. split; [done|split; [by right|split; [rewrite Hfs04; by apply go_refused|]]].
    intros _ Hq (_ & _ & _ & Hfree). destruct Hl02 as [Hq2 _]. rewrite Hq2, Hfs2, Hfs1 in Hcalm4.
    specialize (Hcalm4 Hq). rewrite (proj1 (Hfree pid Hpid)) in Hcalm4. discriminate. }
  2:{ split; [done|split; [|done]]. destruct Hl02 as [<- _]. auto. }
  specialize (Hfalse eq_refl). specialize (Hfalse4 eq_refl). rewrite Hfs2, Hfs1 in Hfalse4.
  apply wp_bind. eapply wp_mono.
  { eapply (Get_download_wp self _ dest (reported_by self id s) (reported_by_local self id s)
      (temp_for_ne dest pid next) (get_stopped self id s) (get_stopped_local self id s) (gst_mismatch self id s)).
    - by rewrite Hfs04.
    - by rewrite Hfs04.
    - by rewrite Hfs04.
    - intros d s5 Hget. exists s1, s2, s4, s5. by split_and!.
    - intros s5 Hh. by eapply gst_hindered.
    - destruct Hl04 as [_ He]. pose proof (Nat.mul_le_mono_l _ _ max_message He). lia. }
  intros [st|m|] s5; cbn [returns]; [|done..]. intros (Hl5 & Hgo & Hwhy). apply wp_ret. cbn.
  destruct Hl04 as [Hq Hev]. rewrite Hfs04, Hq in Hgo. rewrite Hq in Hwhy.
  split; [transitivity s4; [by split|done]|split; [by right|split; [done|]]].
  intros Hst Hquiet (_ & _ & Hfit & Hfree). by apply Hwhy; [..|apply Hfree|].
Qed.

(** The two operations that only ask the worker: an empty identifier goes no
    further. *)
Lemma Object_Head_wp (self : StorageClient.t D) id s :
  wp (StorageClient.Head self id) (returns (fun r s' => later s s' /\ s_fs s' = s_fs s /\
    ((object_id_value id = "" /\ s_trace s' = s_trace s /\ exists st, r = SO_error st /\ code st = kInvalidArgument) \/
     dc_head_spec (StorageClient.data_plane_ self) (StorageClient.worker_ self)
       (mkHeadChunkRequest (mkChunkId (object_id_value id))) s r s'))) s.
Proof.
  unfold StorageClient.Head. destruct (so_value (StorageClient.ToChunkId id)) as [c|] eqn:Hid.
  - apply ToChunkId_value in Hid as ->. eapply wp_returns_mono; [apply dc_HeadChunk_ok|].
    intros r s' (Hl & Hfs & Hspec). split; [done|split; [done|by right]].
  - apply wp_ret. split; [done|split; [done|left]].
    split; [by apply ToChunkId_empty|split; [done|]]. eexists. split; [done|by apply ToChunkId_none].
Qed.

Lemma Object_Delete_wp (self : StorageClient.t D) id s :
  wp (StorageClient.Delete self id) (returns (fun st s' => later s s' /\ s_fs s' = s_fs s /\
    ((object_id_value id = "" /\ s_trace s' = s_trace s /\ code st = kInvalidArgument) \/
     dc_delete_spec (StorageClient.data_plane_ self) (StorageClient.worker_ self)
       (mkDeleteChunkRequest (mkChunkId (object_id_value id))) s st s'))) s.
Proof.
  unfold StorageClient.Delete. destruct (so_value (StorageClient.ToChunkId id)) as [c|] eqn:Hid.
  - apply ToChunkId_value in Hid as ->. eapply wp_returns_mono; [apply dc_DeleteChunk_ok|].
    intros r s' (Hl & Hfs & Hspec). split; [done|split; [done|by right]].
  - apply wp_ret. split; [done|split; [done|left]].
    split; [by apply ToChunkId_empty|split; [done|by apply ToChunkId_none]].
Qed.

(** An upload asks the worker to store exactly what the source holds. *)
Definition put_object_post (self : StorageClient.t D) (id : ObjectId) (source : string) (s : state)
    (st : Status) (s' : state) : Prop :=
  later s s' /\ s_fs s' = s_fs s /\
  ((object_id_value id = "" /\ code st = kInvalidArgument /\ s_trace s' = s_trace s) \/
   (object_id_value id <> "" /\ code st = kIoError /\ s_trace s' = s_trace s /\
    (s_quiet s = true -> lookup_file (s_fs s) source = None \/ name_fits source = false)) \/
   (object_id_value id <> "" /\
    exists d s1, lookup_file (s_fs s) source = Some d /\ local_step s s1 /\ s_fs s1 = s_fs s /\
      dc_put_spec (StorageClient.data_plane_ self) (StorageClient.worker_ self)
        (mkPutChunkRequest (mkChunkId (object_id_value id)) (blen d) (content_checksum d)) source
        s1 st s')).

Lemma Object_Put_wp (self : StorageClient.t D) fuel id source s :
  fs_wf (s_fs s) -> (forall d, lookup_file (s_fs s) source = Some d -> (length d < fuel)%nat) ->
  (s_events s < fuel)%nat ->
  wp (StorageClient.Put self fuel id source) (returns (put_object_post self id source s)) s.
Proof.
  intros Hwf Hlen He. unfold StorageClient.Put.
  destruct (so_value (StorageClient.ToChunkId id)) as [c|] eqn:Hid; cycle 1.
  { apply wp_ret. split; [done|split; [done|]]. left.
    split; [by apply ToChunkId_empty|by split; [apply ToChunkId_none|]]. }
  pose proof (ToChunkId_nonempty _ _ Hid) as Hne. apply ToChunkId_value in Hid as ->.
  eapply wp_bind_returns; [by apply HashFile_wp|].
  intros hash s1 (Hl1 & Hfs1 & [(d & Hd & ->)|(st & -> & Hc & Hq)]).
  - cbn [so_value SO_value]. eapply wp_returns_mono.
    { eapply dc_PutChunk_ok; rewrite ?Hfs1; [done|done|]. destruct Hl1 as [[_ ?] _]. lia. }
    intros st s2 (Hl2 & Hfs2 & Hspec). destruct (Hl1) as [Hl1' _].
    split; [by transitivity s1|split; [congruence|]]. right. right. split; [done|]. by exists d, s1.
  - cbn [so_value SO_error so_status]. apply wp_ret. destruct Hl1 as [Hl1 Htr1].
    split; [done|split; [done|]]. right. left. split; [done|split; [|done]].
    by rewrite NormalizeError_id by (apply not_ok_code; congruence).
Qed.

End Get.
