(* ===== verification/Config.v ===== *)
(** * Process set-up: configuration and logging (src/src/common/config.cpp,
    src/src/common/logging.cpp and their headers).

    The command-line parser and the logging library are parameters. *)
From S2P Require Import Prelude Status Types Prog.

(** ** Definitions *)

(** The command-line library: the words of the command line and the options
    with the values their variables have; the message of a [ParseError], or the
    values afterwards.  An option no word mentions keeps its value. *)
Class Cli := {
  cli_parse : list string -> list (string * string) -> string + (string -> string);
  cli_keeps : forall argv options assigned name v,
    cli_parse argv options = inr assigned -> (name, v) ∈ options ->
    Forall (fun word => String.prefix name word = false) argv -> assigned name = v }.

Record ControlConfig := mkControlConfig { control_listen_address : string }.
Record WorkerConfig := mkWorkerConfig {
  worker_id : WorkerId; worker_listen_address : string; storage_root : string }.
Record ClientConfig := mkClientConfig { control_address : string; worker_address : string }.

(** The default member initializers. *)
Definition ControlConfig_default : ControlConfig := mkControlConfig "127.0.0.1:50051".
Definition WorkerConfig_default : WorkerConfig :=
  mkWorkerConfig (mkWorkerId "worker-v0") "127.0.0.1:50052" "./worker-data".
Definition ClientConfig_default : ClientConfig := mkClientConfig "127.0.0.1:50051" "127.0.0.1:50052".

Section Config.
Context `{Cli}.

(** [Parse]: the exception becomes a status; the variables are returned. *)
Definition Parse (argv : list string) (options : list (string * string))
  : Status * (string -> string) :=
  match cli_parse argv options with
  | inr assigned => (Status_Ok, assigned)
  | inl what => (Status_make kInvalidArgument what, fun _ => ""%string)
  end.

(** The options of the worker with the defaults of their variables. *)
Definition worker_options : list (string * string) :=
  [("--listen", worker_listen_address WorkerConfig_default);
   ("--worker-id", worker_id_value (worker_id WorkerConfig_default));
   ("--storage-root", storage_root WorkerConfig_default)].

Definition LoadControlConfig (argv : list string) : StatusOr ControlConfig :=
  let config := ControlConfig_default in
  let '(status, assigned) := Parse argv [("--listen", control_listen_address config)] in
  if negb (ok status) then SO_error status
  else SO_value (mkControlConfig (assigned "--listen"%string)).

Definition LoadWorkerConfig (argv : list string) : StatusOr WorkerConfig :=
  let config := WorkerConfig_default in
  let '(status, assigned) := Parse argv
    [("--listen", worker_listen_address config); ("--worker-id", worker_id_value (worker_id config));
     ("--storage-root", storage_root config)] in
  if negb (ok status) then SO_error status
  else
    let config := mkWorkerConfig (mkWorkerId (assigned "--worker-id"%string))
      (assigned "--listen"%string) (assigned "--storage-root"%string) in
    if negb (WorkerId_valid (worker_id config)) then
      SO_error (Status_make kInvalidArgument "--worker-id cannot be empty")
    else SO_value config.

Definition LoadClientConfig (argv : list string) : StatusOr ClientConfig :=
  let config := ClientConfig_default in
  let '(status, assigned) := Parse argv
    [("--control", control_address config); ("--worker", worker_address config)] in
  if negb (ok status) then SO_error status
  else SO_value (mkClientConfig (assigned "--control"%string) (assigned "--worker"%string)).

End Config.

(** ** Logging *)

(** [spdlog]: levels and how they are read; an unknown name reads as [off]. *)
Class Spdlog := {
  level : Type;
  level_eq_dec : EqDecision level;
  level_off : level;
  from_str : string -> level }.
#[export] Existing Instance level_eq_dec.

Inductive LogDestination := kStdout | kStderr.
Record LoggingOptions := mkLoggingOptions {
  log_level : string; log_pattern : string; log_destination : LogDestination }.
Definition LoggingOptions_default : LoggingOptions :=
  mkLoggingOptions "info" "[%Y-%m-%d %H:%M:%S.%e] [%l] %v" kStderr.

Section Logging.
Context `{Spdlog}.

(** The library's registry: whether a logger named "storage" exists, and the
    sink, the level and the pattern in force. *)
Record logging := mkLogging {
  lg_registered : bool; lg_sink : LogDestination; lg_level : level; lg_pattern : string }.

(** Creating a second logger of the same name throws. *)
Definition InitLogging (options : LoggingOptions) (st : logging) : outcome Status * logging :=
  let lvl := from_str (log_level options) in
  if bool_decide (lvl = level_off) && bool_decide (log_level options <> "off"%string) then
    (Done (Status_make kInvalidArgument ("unknown log level: " +:+ log_level options)), st)
  else if lg_registered st then (Threw "logger with name 'storage' already exists", st)
  else
    let sink := match log_destination options with kStdout => kStdout | kStderr => kStderr end in
    (Done Status_Ok, mkLogging true sink lvl (log_pattern options)).

(** Calls one after the other; each caller catches what its call throws. *)
Fixpoint InitLogging_calls (calls : list LoggingOptions) (st : logging)
  : list (outcome Status) * logging :=
  match calls with
  | [] => ([], st)
  | options :: calls =>
      let r := InitLogging options st in
      let rest := InitLogging_calls calls r.2 in
      (r.1 :: rest.1, rest.2)
  end.

(** The level is one of the library's names. *)
Definition level_known (options : LoggingOptions) : bool :=
  negb (bool_decide (from_str (log_level options) = level_off)) || bool_decide (log_level options = "off"%string).

Definition unknown_level (options : LoggingOptions) : outcome Status :=
  Done (mkStatus kInvalidArgument ("unknown log level: " +:+ log_level options)).
Definition logger_exists : outcome Status := Threw "logger with name 'storage' already exists".

(** ** Lemmas *)

Lemma level_known_false options :
  level_known options = negb (bool_decide (from_str (log_level options) = level_off) &&
                              bool_decide (log_level options <> "off"%string)).
Proof.
  unfold level_known. by destruct (decide (from_str (log_level options) = level_off)),
    (decide (log_level options = "off"%string)); repeat case_bool_decide.
Qed.

Lemma InitLogging_unknown options st :
  level_known options = false -> InitLogging options st = (unknown_level options, st).
Proof.
  rewrite level_known_false, negb_false_iff. intros Hk. unfold InitLogging. by rewrite Hk.
Qed.

Lemma InitLogging_known options st :
  level_known options = true ->
  InitLogging options st =
    if lg_registered st then (logger_exists, st)
    else (Done Status_Ok,
          mkLogging true (log_destination options) (from_str (log_level options)) (log_pattern options)).
Proof.
  rewrite level_known_false, negb_true_iff. intros Hk. unfold InitLogging. rewrite Hk.
  by destruct (lg_registered st), (log_destination options).
Qed.

Lemma InitLogging_calls_registered calls st :
  lg_registered st = true ->
  InitLogging_calls calls st =
    ((fun o => if level_known o then logger_exists else unknown_level o) <$> calls, st).
Proof.
  intros Hr. induction calls as [|o calls IH]; [done|]. cbn [InitLogging_calls fmap list_fmap].
  destruct (level_known o) eqn:Ek.
  - rewrite InitLogging_known, Hr by done. cbn [fst snd]. by rewrite IH.
  - rewrite InitLogging_unknown by done. cbn [fst snd]. by rewrite IH.
Qed.

End Logging.

(** ** Properties *)

(** C37: the worker's configuration is rejected, with kInvalidArgument, exactly
    when the command line does not parse or empties the worker identifier;
    otherwise it holds the parsed values, and an option that no word of the
    command line mentions keeps its default. *)
Theorem LoadWorkerConfig_spec `{Cli} argv :
  let parsed := cli_parse argv worker_options in
  match so_value (LoadWorkerConfig argv) with
  | None =>
      code (so_status (LoadWorkerConfig argv)) = kInvalidArgument /\
      ((exists what, parsed = inl what) \/
       (exists assigned, parsed = inr assigned /\ assigned "--worker-id"%string = ""%string))
  | Some config =>
      (exists assigned, parsed = inr assigned /\ assigned "--worker-id"%string <> ""%string /\
         config = mkWorkerConfig (mkWorkerId (assigned "--worker-id"%string))
                    (assigned "--listen"%string) (assigned "--storage-root"%string)) /\
      (Forall (fun word => String.prefix "--worker-id" word = false) argv ->
       worker_id config = worker_id WorkerConfig_default) /\
      (Forall (fun word => String.prefix "--listen" word = false) argv ->
       worker_listen_address config = worker_listen_address WorkerConfig_default) /\
      (Forall (fun word => String.prefix "--storage-root" word = false) argv ->
       storage_root config = storage_root WorkerConfig_default)
  end.
Proof.
  cbv zeta. unfold LoadWorkerConfig, Parse. change (cli_parse argv [_; _; _]) with (cli_parse argv worker_options).
  destruct (cli_parse argv worker_options) as [what|assigned] eqn:E; [split; [done|left; by eexists]|]. cbn [ok negb].
  change (ok Status_Ok) with true. cbn [negb].
  destruct (WorkerId_valid _) eqn:Hv; cbn [negb so_value SO_error SO_value].
  - split; [exists assigned; split_and!; try done; by apply bool_decide_eq_true in Hv|].
    split_and!; intros Ha; cbn; [f_equal|..]; eapply cli_keeps; try done; unfold worker_options; set_solver.
  - split; [done|right]. exists assigned. split; [done|].
    unfold WorkerId_valid, id_valid in Hv. cbn in Hv. apply bool_decide_eq_false in Hv.
    destruct (decide (assigned "--worker-id"%string = ""%string)); [done|by destruct Hv].
Qed.

(** However often a process calls [InitLogging], the first call with a level
    the library knows decides the sink, the level and the pattern, and it is the
    only one that reports success: the earlier ones report kInvalidArgument and
    change nothing, a later one with a known level throws. *)
Theorem InitLogging_once `{Spdlog} before options after st
  (Hfresh : lg_registered st = false)
  (Hbefore : Forall (fun o => level_known o = false) before)
  (Hknown : level_known options = true) :
  let r := InitLogging_calls (before ++ options :: after) st in
  r.1 = (unknown_level <$> before) ++ Done Status_Ok ::
          ((fun o => if level_known o then logger_exists else unknown_level o) <$> after) /\
  r.2 = mkLogging true (log_destination options) (from_str (log_level options)) (log_pattern options).
Proof.
  cbv zeta. induction Hbefore as [|o before Ho _ IH]; cbn [app fmap list_fmap InitLogging_calls].
  - rewrite InitLogging_known by done. rewrite Hfresh. cbn [fst snd].
    by rewrite InitLogging_calls_registered.
  - rewrite InitLogging_unknown by done. cbn [fst snd]. destruct IH as [-> ->]. done.
Qed.

(** ** Witnesses *)

(** A parser that knows words of the form "--option=value" only. *)
Fixpoint option_value (name : string) (argv : list string) (v : string) : string :=
  match argv with
  | [] => v
  | word :: argv =>
      option_value name argv
        (if String.prefix (name +:+ "=") word
         then String.substring (S (String.length name)) (String.length word) word else v)
  end.

Lemma prefix_app_left a b w : String.prefix a w = false -> String.prefix (a +:+ b) w = false.
Proof.
  revert w. induction a as [|x a IH]; intros w Hw; [by destruct w|].
  destruct w as [|y w]; [done|]. change (String x a +:+ b) with (String x (a +:+ b)).
  cbn in Hw |- *. destruct (ascii_dec x y); [by apply IH|done].
Qed.

Lemma option_value_kept name argv v :
  Forall (fun word => String.prefix name word = false) argv -> option_value name argv v = v.
Proof. induction 1 as [|w argv Hw _ IH]; [done|]. cbn [option_value]. by rewrite prefix_app_left. Qed.

(** Two options of one name are refused. *)
#[program]
Definition plain_cli : Cli := {|
  cli_parse argv options :=
    if bool_decide (NoDup options.*1)
    then inr (fun name => option_value name argv (default ""%string (list_to_map (M:=gmap string string) options !! name)))
    else inl "duplicate option"%string |}.
Next Obligation.
  intros argv options assigned name v Hp Hin Ha. cbn in Hp. case_bool_decide as Hnd; [|done].
  injection Hp as <-. rewrite option_value_kept by done.
  by rewrite (proj1 (elem_of_list_to_map (M:=gmap string) _ _ _ Hnd) Hin).
Qed.

Lemma LoadWorkerConfig_spec_witness :
  worker_listen_address <$> so_value (LoadWorkerConfig (H:=plain_cli) ["--worker-id=w7"%string]) =
    Some "127.0.0.1:50052"%string.
Proof.
  pose proof (LoadWorkerConfig_spec (H:=plain_cli) ["--worker-id=w7"%string]) as Hs. cbn zeta in Hs.
  destruct (so_value _) as [c|] eqn:E.
  - destruct Hs as (_ & _ & Hl & _). cbn. f_equal. apply Hl. by repeat constructor.
  - by vm_compute in E.
Defined.

(** The level names of the library. *)
Definition plain_level (name : string) : nat :=
  match name with
  | "trace" => 0 | "debug" => 1 | "info" => 2 | "warning" | "warn" => 3
  | "error" | "err" => 4 | "critical" => 5 | _ => 6
  end%string%nat.
Definition plain_spdlog : Spdlog := {|
  level := nat; level_eq_dec := _; level_off := 6%nat; from_str := plain_level |}.

Definition chatty : LoggingOptions := mkLoggingOptions "chatty" "%v" kStdout.

Lemma InitLogging_once_witness :
  (InitLogging_calls (H:=plain_spdlog) [chatty; LoggingOptions_default; chatty; LoggingOptions_default]
     (mkLogging (H:=plain_spdlog) false kStdout 2%nat "")).1 =
    [unknown_level chatty; Done Status_Ok; unknown_level chatty; logger_exists].
Proof.
  apply (InitLogging_once (H:=plain_spdlog) [chatty] LoggingOptions_default [chatty; LoggingOptions_default]);
    [done|by repeat constructor|done].
Defined.
