(* ===== verification/Mains.v ===== *)
(** * The three programs: src/src/worker/worker_main.cpp,
    src/src/control/control_main.cpp, src/src/client/client_main.cpp. *)
From S2P Require Import Prelude Status Types Path Proto System Prog UniqueFd Blake3 FileIO Files.
From S2P Require Import Streams ChunkStore FileStore StoreSpec DataPlane Services Client ClientSpec StorageClient ObjectSpec Config.

(** ** Definitions *)

(** What a server program did: the lines it logged, the service it offered and
    the address, its exit status. *)
Record served (S : Type) := mkServed {
  sv_log : list string; sv_service : option (string * S); sv_exit : Z }.
Arguments mkServed {S} _ _ _.
Arguments sv_log {S} _.
Arguments sv_service {S} _.
Arguments sv_exit {S} _.

(** [starts]: [BuildAndStart] returns a server for the address; [Wait] returns
    when it is shut down. *)
Section Servers.
Context `{Cli} `{Spdlog}.
Context (starts : string -> bool) (logging0 : logging).

Definition worker_main (argv : list string)
  : outcome (served (WorkerService.t FileChunkStore)) :=
  match (InitLogging LoggingOptions_default logging0).1 with
  | Done log_status =>
      if negb (ok log_status) then Done (mkServed [] None 1)
      else
        let config := LoadWorkerConfig argv in
        match so_value config with
        | None =>
            Done (mkServed ["invalid worker configuration: " +:+ message (so_status config)] None 1)
        | Some c =>
            let chunk_store := mkFileChunkStore (storage_root c) in
            let data_plane := DataPlaneService.mk chunk_store in
            let service := WorkerService.mk (Some data_plane) in
            if starts (worker_listen_address c) then
              Done (mkServed
                ["worker " +:+ worker_id_value (worker_id c) +:+ " listening on " +:+ worker_listen_address c;
                 "worker storage root: " +:+ storage_root c]
                (Some (worker_listen_address c, service)) 0)
            else
              Done (mkServed ["failed to start worker on " +:+ worker_listen_address c] None 1)
        end
  | Threw what => Threw what
  | OutOfFuel => OutOfFuel
  end%string.

Definition control_main (argv : list string) : outcome (served unit) :=
  match (InitLogging LoggingOptions_default logging0).1 with
  | Done log_status =>
      if negb (ok log_status) then Done (mkServed [] None 1)
      else
        let config := LoadControlConfig argv in
        match so_value config with
        | None =>
            Done (mkServed ["invalid control-plane configuration: " +:+ message (so_status config)] None 1)
        | Some c =>
            if starts (control_listen_address c) then
              Done (mkServed ["control-plane listening on " +:+ control_listen_address c]
                (Some (control_listen_address c, tt)) 0)
            else
              Done (mkServed ["failed to start control-plane on " +:+ control_listen_address c] None 1)
        end
  | Threw what => Threw what
  | OutOfFuel => OutOfFuel
  end%string.

End Servers.

(** Standard output, standard error, exit status. *)
Record printed := mkPrinted { p_out : string; p_err : string; p_exit : Z }.

Definition newline : string := String "010"%char EmptyString.

(** [Report] *)
Definition Report (status : Status) : printed :=
  if ok status then mkPrinted "" "" 0
  else mkPrinted "" ("error: " +:+ message status +:+ newline) 1.

(** The command-line library, as the client uses it.  An application declares
    options, each with the initial value of its variable, and subcommands, each
    with its required positional arguments and the variables they are stored in;
    [app_require] is the number of subcommands a line must have. *)
Record cli_app := mkApp {
  app_text : list (string * string);
  app_u16 : list (string * Z);
  app_subcommands : list (string * list (string * string));
  app_require : nat }.

(** A line that was parsed: the options' values, which subcommands were given, and
    the variables of the positional arguments. *)
Record cli_line := mkLine {
  ln_text : string -> string;
  ln_u16 : string -> Z;
  ln_ran : string -> bool;
  ln_variable : string -> string }.

(** Parsing gives the values, or what the library prints and the exit status for a
    line it rejects or answers itself.  An option no word mentions keeps its value,
    a 16-bit number stays one, and where one subcommand is required, one is given. *)
Class ClientCli := {
  app_parse : cli_app -> list string -> printed + cli_line;
  app_keeps_text : forall app argv line name v,
    app_parse app argv = inr line -> (name, v) ∈ app_text app ->
    Forall (fun word => String.prefix name word = false) argv -> ln_text line name = v;
  app_keeps_u16 : forall app argv line name v,
    app_parse app argv = inr line -> (name, v) ∈ app_u16 app ->
    Forall (fun word => String.prefix name word = false) argv -> ln_u16 line name = v;
  app_u16_fits : forall app argv line name v,
    app_parse app argv = inr line -> (name, v) ∈ app_u16 app -> 0 <= v < 65536 -> 0 <= ln_u16 line name < 65536;
  app_one : forall app argv line,
    app_parse app argv = inr line -> app_require app = 1%nat ->
    exists name, name ∈ (app_subcommands app).*1 /\
      forall other, other ∈ (app_subcommands app).*1 -> ln_ran line other = bool_decide (other = name) }.

(** The application of [main]. *)
Definition client_app : cli_app := {|
  app_text := [("--worker-host", "127.0.0.1")];
  app_u16 := [("--worker-control-port", 50052); ("--worker-data-port", 50052)];
  app_subcommands :=
    [("put", [("object-id", "object_id"); ("source", "path")]);
     ("get", [("object-id", "object_id"); ("destination", "path")]);
     ("head", [("object-id", "object_id")]);
     ("delete", [("object-id", "object_id")])];
  app_require := 1 |}%string.

Section ClientMain.
Context `{Libc} `{Blake3} `{ClientCli}.

Definition client_main (fuel : nat) (argv : list string) : prog printed :=
  match app_parse client_app argv with
  | inl exit => mret exit
  | inr line =>
      let worker_host := ln_text line "--worker-host" in
      let worker_control_port := ln_u16 line "--worker-control-port" in
      let worker_data_port := ln_u16 line "--worker-data-port" in
      let object_id := ln_variable line "object_id" in
      let path := ln_variable line "path" in
      let data_plane := GrpcDataPlaneClient.mk 3600 in
      let client := StorageClient.mk data_plane (mkWorkerEndpoint worker_host worker_control_port worker_data_port) in
      if ln_ran line "put" then
        st ← StorageClient.Put client fuel (mkObjectId object_id) path; mret (Report st)
      else if ln_ran line "get" then
        r ← StorageClient.Get client fuel 0 (mkObjectId object_id) path; mret (Report r.1)
      else if ln_ran line "delete" then
        st ← StorageClient.Delete client (mkObjectId object_id); mret (Report st)
      else
        response ← StorageClient.Head client (mkObjectId object_id);
        mret (match so_value response with
              | None => Report (so_status response)
              | Some v =>
                  mkPrinted ("object_id=" +:+ object_id +:+ " size=" +:+ to_string (hr_size v)
                             +:+ " checksum=" +:+ value (hr_checksum v) +:+ newline) "" 0
              end)
  end%string.

End ClientMain.
