(* ===== verification/ClientTheorems.v ===== *)
(** * The client's operations, run in any environment: what a status that says
    success means, and what a failure leaves behind. *)
From S2P Require Import Prelude Status Types Path Proto System Prog UniqueFd Blake3 MemOS FileIO Files.
From S2P Require Import Client ClientSpec StorageClient ObjectSpec.

(** ** Definitions *)

(** A message the library did not take. *)
Definition refused (e : rpc_event) : Prop :=
  match e with ev (ClientWrite _) false => True | _ => False end.

(** The traffic of an upload that went through: the metadata, the whole content
    in data frames, and an answer that says OK. *)
Definition uploaded (ctx : rpc_context) (md : rpc.PutChunkFrame) (d : list byte) (tr : list rpc_event) : Prop :=
  exists l wd g resp,
    tr = [ev (StartPut ctx) tt; ev (ClientWrite md) true] ++ accepted l ++ [ev WritesDone wd; ev FinishPut (g, resp)] /\
    concat l = d /\ grpc.ok g = true /\ rpc.code (rpc.or_status resp) = rpc.STATUS_CODE_OK.

(** The library stopped taking messages, and the call ended with OK all the same. *)
Definition cut_short (tr : list rpc_event) : Prop :=
  List.Exists refused tr /\ exists g resp, list.last tr = Some (ev FinishPut (g, resp)) /\ grpc.ok g = true.

(** In this traffic the peer described the object, and then streamed [d] as its
    content; nothing else was said. *)
Definition told (self : StorageClient.t GrpcDataPlaneClient.t) (id : ObjectId) (tr : list rpc_event)
    (head : HeadChunkResponse) (d : list byte) : Prop :=
  let ctx := GrpcDataPlaneClient.MakeStub (StorageClient.data_plane_ self) (StorageClient.worker_ self) in
  exists g resp get,
    tr = ev (CallHead ctx (rpc.mkHeadChunkRequest (object_id_value id))) (g, resp) :: get /\
    grpc.ok g = true /\ rpc.code (rpc.hresp_status resp) = rpc.STATUS_CODE_OK /\
    head = mkHeadChunkResponse (mkChunkId (rpc.hresp_chunk_id resp)) (rpc.hresp_size resp)
             (mkChecksum kBlake3 (rpc.hresp_checksum resp)) /\
    fetched ctx (rpc.mkGetChunkRequest (object_id_value id) 0 (rpc.hresp_size resp)) d get.

Abbreviation client_context self :=
  (GrpcDataPlaneClient.MakeStub (StorageClient.data_plane_ self) (StorageClient.worker_ self)).

(** An upload of an object, as far as the client can tell: its metadata are the
    size and the checksum of the content that follows. *)
Definition object_sent `{Blake3} (self : StorageClient.t GrpcDataPlaneClient.t) (id : ObjectId)
    (source : string) (s s' : state) : Prop :=
  exists d tr, lookup_file (s_fs s) source = Some d /\ s_trace s' = s_trace s ++ tr /\
    (uploaded (client_context self) (rpc.payload_metadata (rpc.mkPutChunkMetadata (object_id_value id)
       (blen d) (hex_string (blake3 d)))) d tr \/ cut_short tr).

(** A download of an object: the destination is new and holds what the worker
    streamed, which is what it had described. *)
Definition object_received `{Blake3} (self : StorageClient.t GrpcDataPlaneClient.t) (id : ObjectId)
    (dest : string) (s s' : state) : Prop :=
  f_names (s_fs s) !! dest = None /\ exists tr d head,
    s_trace s' = s_trace s ++ tr /\ told self id tr head d /\
    lookup_file (s_fs s') dest = Some d /\ blen d = hr_size head /\ content_checksum d = hr_checksum head.

(** ** Lemmas *)

Lemma FromRpcStatus_ok st : ok (FromRpcStatus st) = true <-> rpc.code st = rpc.STATUS_CODE_OK.
Proof.
  unfold FromRpcStatus. case_bool_decide as E; [done|]. split; [|done].
  intros Hok%ok_code. cbn in Hok. unfold FromRpcCode in Hok. revert Hok. by repeat case_bool_decide.
Qed.

Lemma FromGrpcStatus_ok g : ok (FromGrpcStatus g) = true <-> grpc.ok g = true.
Proof.
  split; [|unfold FromGrpcStatus; by intros ->].
  intros Hok. destruct (grpc.ok g) eqn:Hg; [done|]. by rewrite FromGrpcStatus_error in Hok.
Qed.

Lemma upload_status_ok g resp :
  ok (upload_status g resp) = true <-> grpc.ok g = true /\ rpc.code (rpc.or_status resp) = rpc.STATUS_CODE_OK.
Proof.
  unfold upload_status. destruct (grpc.ok g) eqn:Hg; [|rewrite FromGrpcStatus_ok, Hg; naive_solver].
  rewrite FromRpcStatus_ok. naive_solver.
Qed.

Lemma last_three {A} (l : list A) a b c : list.last (l ++ [a; b; c]) = Some c.
Proof. by rewrite list.last_app. Qed.

Lemma upload_ok quiet ctx md d tr st :
  upload quiet ctx md d tr st -> ok st = true -> uploaded ctx md d tr \/ cut_short tr.
Proof.
  intros [wd g resp|st' l wd fin _ Hc|l b wd g resp Hl Hp|l wd g resp Hl Hd] Hok.
  - right. split; [by apply List.Exists_cons_tl, List.Exists_cons_hd|].
    exists g, resp. split; [done|]. by apply FromGrpcStatus_ok.
  - apply ok_code in Hok. congruence.
  - right. apply upload_status_ok in Hok as [Hg _]. split.
    + apply List.Exists_app. right. apply List.Exists_app. right. by apply List.Exists_cons_hd.
    + exists g, resp. split; [|done]. by rewrite app_assoc, last_three.
  - left. apply upload_status_ok in Hok as [Hg Hr]. by exists l, wd, g, resp.
Qed.

(** The operations of a download, seen from the names. *)
Lemma download_frame quiet f dest d st f' :
  fs_wf f -> download quiet f dest d st f' ->
  f_fds f' = f_fds f /\ (forall p, p <> dest -> lookup_file f' p = lookup_file f p) /\
  (ok st = false -> quiet = true -> f_names f' = f_names f) /\
  (ok st = true -> f_names f !! dest = None /\ exists i, f_names f' !! dest = Some i /\
     f_inodes f' !! i = Some (mkInode d true)).
Proof.
  intros Hwf [st' _ Hc|st' i nd keep Hst Hn Hi Hfit Hmax Hk|i Hn Hi Hfit Hmax].
  - split; [done|split; [done|split; [done|]]]. intros Hok%ok_code.
    destruct Hc as [[? _]|[? _]]; congruence.
  - split; [done|split; [by intros; apply lookup_left|split; [|by rewrite Hst]]].
    intros _ Hq. by rewrite Hk.
  - split; [done|split; [by intros; apply lookup_left|split; [done|]]]. intros _. split; [done|].
    exists i. split; [apply lookup_insert_eq|]. cbn. apply lookup_insert_eq.
Qed.

(** The operations of [Get], seen from the names. *)
Lemma get_object_frame `{Blake3} quiet f dest reported st f' :
  fs_wf f -> get_object quiet f dest reported st f' ->
  f_fds f' = f_fds f /\ (forall p, is_Some (f_names f !! p) -> lookup_file f' p = lookup_file f p) /\
  (ok st = false -> lookup_file f' dest = lookup_file f dest /\ (quiet = true -> f_names f' = f_names f)) /\
  (ok st = true -> f_names f !! dest = None /\ exists d head, lookup_file f' dest = Some d /\
     reported head d /\ blen d = hr_size head /\ content_checksum d = hr_checksum head).
Proof.
  intros Hwf [st' Hst|st' temp i nd keep Hst Hne Hn Hi Hk|temp i d keep head Hd Hne Hn Hi Hk Hrep Hsz Hsum].
  - split; [done|split; [done|split; [done|by rewrite Hst]]].
  - split; [done|]. split.
    { intros p [j Hj]. apply lookup_left; [done|done|]. intros ->. congruence. }
    split; [|by rewrite Hst]. intros _. split; [by apply lookup_left|]. intros Hq. by rewrite Hk.
  - split; [done|]. split.
    { intros p [j Hj]. rewrite lookup_committed by (done || intros ->; congruence).
      rewrite decide_False; [done|]. intros ->. congruence. }
    split; [done|]. intros _. split; [done|]. exists d, head. split; [|done].
    rewrite lookup_committed by done. by rewrite decide_True.
Qed.

Section Told.
Context `{Libc} `{Blake3}.

Lemma grpc_heads_built (self : StorageClient.t GrpcDataPlaneClient.t) req r s1 s2 :
  dc_head_spec (StorageClient.data_plane_ self) (StorageClient.worker_ self) req s1 r s2 -> SO_built r.
Proof.
  cbn. intros (g & resp & _ & ->).
  destruct (grpc.ok g) eqn:Hg; cbn [negb].
  - destruct (ok _) eqn:Hr; cbn [negb]; [apply SO_built_value|]. apply SO_built_error.
    unfold FromRpcStatus. case_bool_decide; [done|]. apply Status_make_wf.
  - apply SO_built_error. unfold FromGrpcStatus. rewrite Hg. apply Status_make_wf.
Qed.

Lemma reported_told self id s s' head d tr :
  s_trace s' = s_trace s ++ tr -> reported_by self id s s' head d -> told self id tr head d.
Proof.
  intros Htr (s1 & s2 & s3 & s4 & H1 & (g & resp & H2 & Hv) & H3 & (get & H4 & Hf) & H5).
  destruct (grpc.ok g) eqn:Hg; cbn [negb] in Hv; [|done].
  destruct (ok (FromRpcStatus _)) eqn:Hr; cbn [negb] in Hv; [|done]. injection Hv as ->.
  exists g, resp, get. apply FromRpcStatus_ok in Hr.
  split; [|done]. rewrite H5, H4, H3, H2, H1, <- !app_assoc in Htr. by apply app_inv_head in Htr.
Qed.

(** The two object operations, from their postconditions. *)
Lemma put_object_sent self id source s st s' :
  put_object_post self id source s st s' ->
  (ok st = false /\ s_trace s' = s_trace s) \/
  (exists d tr, lookup_file (s_fs s) source = Some d /\ s_trace s' = s_trace s ++ tr /\
     upload (s_quiet s) (client_context self) (rpc.payload_metadata (rpc.mkPutChunkMetadata
       (object_id_value id) (blen d) (hex_string (blake3 d)))) d tr st).
Proof.
  intros (_ & _ & [(_ & Hc & Etr)|[(_ & Hc & Etr & _)|(_ & d & s1 & Hd & [[Hq1 _] Htr1] & Hfs1 & Hspec)]]).
  1,2: left; split; [apply not_ok_code; congruence|done].
  destruct Hspec as (_ & _ & tr & Htr & Hcase). rewrite Htr1 in Htr.
  destruct Hcase as [(-> & Hc & _)|(d' & Hd' & Hup)].
  - left. split; [apply not_ok_code; congruence|by rewrite app_nil_r in Htr].
  - right. rewrite Hfs1, Hd in Hd'. injection Hd' as <-. rewrite Hq1 in Hup. by exists d, tr.
Qed.

Lemma put_object_ok self id source s st s' :
  put_object_post self id source s st s' -> ok st = true -> object_sent self id source s s'.
Proof.
  intros Hpost Hok. destruct (put_object_sent _ _ _ _ _ _ Hpost) as [[? _]|(d & tr & Hd & Htr & Hup)];
    [congruence|]. exists d, tr. split_and!; try done. by eapply upload_ok.
Qed.

(** Without a source there is nothing to announce. *)
Lemma put_object_missing self id source s st s' :
  put_object_post self id source s st s' -> object_id_value id <> ""%string ->
  lookup_file (s_fs s) source = None -> code st = kIoError /\ s_trace s' = s_trace s.
Proof.
  intros (_ & _ & [(Hid & _)|[(_ & Hc & Htr & _)|(_ & d & s1 & Hd & _)]]) Hne Hnone; [done|done|congruence].
Qed.

(** A Put of a source that can be read gets to the exchange with the peer. *)
Lemma put_object_healthy self id source s st s' d :
  put_object_post self id source s st s' -> object_id_value id <> ""%string -> s_quiet s = true ->
  lookup_file (s_fs s) source = Some d -> name_fits source = true ->
  exists tr, s_trace s' = s_trace s ++ tr /\
    upload true (client_context self) (rpc.payload_metadata (rpc.mkPutChunkMetadata
       (object_id_value id) (blen d) (hex_string (blake3 d)))) d tr st.
Proof.
  intros (_ & _ & [(Hid & _)|[(_ & _ & _ & Hq)|(_ & d' & s1 & Hd' & [[Hq1 _] Htr1] & Hfs1 & Hspec)]]) Hne Hquiet Hd Hfit.
  - done.
  - destruct (Hq Hquiet); congruence.
  - rewrite Hd in Hd'. injection Hd' as <-. destruct Hspec as (_ & _ & tr & Htr & Hcase).
    rewrite Htr1 in Htr. rewrite Hq1, Hquiet, Hfs1, Hd in Hcase. exists tr. split; [done|].
    destruct Hcase as [(_ & _ & Hq)|(d' & [= <-] & Hup)]; [destruct (Hq eq_refl); congruence|done].
Qed.

Lemma get_object_ok self id dest next s st next' s' :
  fs_wf (s_fs s) -> get_object_post self id dest next s (Done (st, next')) s' ->
  s_trace s `prefix_of` s_trace s' -> ok st = true -> object_received self id dest s s'.
Proof.
  intros Hwf (_ & _ & Hgo & _) [tr Htr] Hok.
  apply get_object_frame in Hgo as (_ & _ & _ & Hyes); [|done].
  destruct (Hyes Hok) as (Hn & d & head & Hd & Hrep & Hsz & Hsum).
  split; [done|]. exists tr, d, head. split; [exact Htr|split; [|done]]. by eapply reported_told.
Qed.

(** What can stop a Get whose names are free, on a healthy machine, in terms of
    the traffic. *)
Inductive get_obstacle (self : StorageClient.t GrpcDataPlaneClient.t) (id : ObjectId) (tr : list rpc_event) : Prop :=
| gob_undescribed g resp :
    tr = [ev (CallHead (client_context self) (rpc.mkHeadChunkRequest (object_id_value id))) (g, resp)] ->
    ~ (grpc.ok g = true /\ rpc.code (rpc.hresp_status resp) = rpc.STATUS_CODE_OK) ->
    get_obstacle self id tr
| gob_hindered g resp get :
    tr = ev (CallHead (client_context self) (rpc.mkHeadChunkRequest (object_id_value id))) (g, resp) :: get ->
    grpc.ok g = true ->
    hindered (client_context self) (rpc.mkGetChunkRequest (object_id_value id) 0 (rpc.hresp_size resp)) get ->
    get_obstacle self id tr
| gob_mismatch head d :
    told self id tr head d -> blen d <> hr_size head \/ content_checksum d <> hr_checksum head ->
    get_obstacle self id tr.

Lemma get_stopped_obstacle self id s s' tr :
  s_trace s' = s_trace s ++ tr -> get_stopped self id s s' -> get_obstacle self id tr.
Proof.
  intros Htr [r s1 s2 E1 (g & resp & E2 & Hr) Hv E3|head s1 s2 s3 s4 E1 (g & resp & E2 & Hr) E3 (get & E4 & Hh) E5|head d Hrep Hm].
  - eapply (gob_undescribed _ _ _ g resp).
    + rewrite E3, E2, E1 in Htr. by apply app_inv_head in Htr.
    + intros [Hg Hc]. apply FromRpcStatus_ok in Hc. rewrite Hg, Hc in Hr. cbn in Hr. by subst.
  - destruct (grpc.ok g) eqn:Hg; cbn [negb] in Hr; [|done].
    destruct (ok (FromRpcStatus _)) eqn:Hc; cbn [negb] in Hr; [|done]. injection Hr as ->.
    eapply (gob_hindered _ _ _ g resp get); [|done|exact Hh].
    rewrite E5, E4, E3, E2, E1, <- !app_assoc in Htr. by apply app_inv_head in Htr.
  - eapply gob_mismatch; [by eapply reported_told|done].
Qed.

End Told.

Section Properties.
Context `{Posix} `{Libc} `{Blake3}.

(** C30: an upload returns in every environment, leaves all files alone, and
    reports success only when the whole source was sent after the metadata and
    the peer answered OK, or when the library stopped taking messages and ended
    the call with OK itself; a source that is missing is reported as kIoError
    without any traffic. *)
Theorem Client_PutChunk_success self fuel endpoint req source (w : os)
  (Hwf : fs_wf (s_fs (view w)))
  (Hlen : forall d, lookup_file (s_fs (view w)) source = Some d -> (length d < fuel)%nat)
  (Hfuel : (s_events (view w) < fuel)%nat) :
  let r := run (GrpcDataPlaneClient.PutChunk self fuel endpoint req source) w in
  exists st tr, r.1 = Done st /\ s_fs (view r.2) = s_fs (view w) /\
    s_trace (view r.2) = s_trace (view w) ++ tr /\
    (lookup_file (s_fs (view w)) source = None -> code st = kIoError /\ tr = []) /\
    (ok st = true -> exists d, lookup_file (s_fs (view w)) source = Some d /\
       (uploaded (GrpcDataPlaneClient.MakeStub self endpoint) (GrpcDataPlaneClient.put_metadata req) d tr \/
        cut_short tr)).
Proof.
  intros r.
  destruct (returns_run _ _ w (Client_PutChunk_wp self fuel endpoint req source (view w) Hwf Hlen Hfuel))
    as (st & Hr & _ & Hfs & tr & Htr & Hres).
  exists st, tr. split; [exact Hr|split; [exact Hfs|split; [exact Htr|]]].
  destruct Hres as [(-> & Hc & _)|(d & Hd & Hup)].
  - split; [done|]. intros Hok%ok_code. congruence.
  - split; [congruence|]. intros Hok. exists d. split; [done|]. by eapply upload_ok.
Qed.

(** C31: a download returns in every environment and touches no other file; a
    status that says success means that the destination did not exist, now
    holds exactly the bytes the peer streamed for this request, and has been
    forced to the disk; otherwise nothing is left under a new name, faults
    apart. *)
Theorem Client_GetChunk_complete self fuel endpoint req dest (w : os)
  (Hwf : fs_wf (s_fs (view w))) (Hfuel : (max_message + s_events (view w) < fuel)%nat) :
  let r := run (GrpcDataPlaneClient.GetChunk self fuel endpoint req dest) w in
  let f := s_fs (view w) in
  let f' := s_fs (view r.2) in
  exists st, r.1 = Done st /\ f_fds f' = f_fds f /\
    (forall p, p <> dest -> lookup_file f' p = lookup_file f p) /\
    (ok st = false -> s_quiet (view w) = true -> f_names f' = f_names f) /\
    (ok st = true -> f_names f !! dest = None /\ exists d i tr,
       s_trace (view r.2) = s_trace (view w) ++ tr /\
       fetched (GrpcDataPlaneClient.MakeStub self endpoint) (get_message req) d tr /\
       f_names f' !! dest = Some i /\ f_inodes f' !! i = Some (mkInode d true)).
Proof.
  intros r f f'.
  destruct (returns_run _ _ w (Client_GetChunk_wp self fuel endpoint req dest (view w) Hfuel))
    as (st & Hr & _ & d & Hd & _ & Htr & _).
  exists st. split; [exact Hr|].
  assert (Hst : ok st = true -> st = Status_Ok).
  { clear -Hd. destruct Hd as [st _ [[Hc _]|[Hc _]]|st i nd keep Hst|]; try done.
    - intros Hok%ok_code. congruence.
    - intros Hok%ok_code. congruence.
    - congruence. }
  apply download_frame in Hd as (Hfds & Hother & Hno & Hyes); [|done].
  split; [done|split; [done|split; [done|]]]. intros Hok. destruct (Hyes Hok) as (Hn & i & Hi & Hnd).
  split; [done|]. destruct (Htr (Hst Hok)) as (tr & Htr' & Hf). by exists d, i, tr.
Qed.

(** C23: the client's Get never changes a file that exists, and creates the
    destination only with content whose size and BLAKE3 checksum are those the
    worker reported in this very run, and which the worker streamed in it; any
    other outcome leaves the destination as it was, and no new name, faults
    apart.  Only a fault makes it leave through an exception. *)
Theorem Object_Get_verified (self : StorageClient.t GrpcDataPlaneClient.t) fuel next id dest (w : os)
  (Hwf : fs_wf (s_fs (view w)))
  (Hfuel : (max_message * s_events (view w) + max_message + s_events (view w) < fuel)%nat) :
  let r := run (StorageClient.Get self fuel next id dest) w in
  let f := s_fs (view w) in
  let f' := s_fs (view r.2) in
  f_fds f' = f_fds f /\ (forall p, is_Some (f_names f !! p) -> lookup_file f' p = lookup_file f p) /\
  match r.1 with
  | Done (st, _) =>
      if ok st then object_received self id dest (view w) (view r.2)
      else lookup_file f' dest = lookup_file f dest /\ (s_quiet (view w) = true -> f_names f' = f_names f)
  | Threw _ => s_quiet (view w) = false /\ f' = f
  | OutOfFuel => False
  end.
Proof.
  intros r f f'.
  pose proof (wp_run _ _ w (wp_and _ _ _ _ (Object_Get_wp self fuel next id dest (view w) Hwf
    (fun r s1 s2 => grpc_heads_built self _ r s1 s2) Hfuel) (wp_extends _ (view w)))) as [Hget [tr Htr]].
  fold r in Hget, Htr. destruct (r.1) as [[st next']|m|] eqn:Hr; [|..|done].
  - pose proof (get_object_ok self id dest next (view w) st next' (view r.2) Hwf Hget (ex_intro _ tr Htr)) as Hok.
    destruct Hget as (_ & _ & Hgo & _). apply get_object_frame in Hgo as (Hfds & Hold & Hno & _); [|done].
    split; [done|split; [done|]]. destruct (ok st); [by apply Hok|by apply Hno].
  - destruct Hget as (_ & Hq & Hfs). fold f' f in Hfs. by rewrite Hfs.
Qed.

(** C24: the client's Put announces to the worker exactly the size and the BLAKE3
    checksum of the content it then sends, under the object's identifier, and
    leaves all files alone.  An empty identifier is reported as kInvalidArgument
    and a missing source as kIoError, both without any traffic; on a healthy
    machine every file whose name fits is sent to the worker under a non-empty
    identifier. *)
Theorem Object_Put_announces (self : StorageClient.t GrpcDataPlaneClient.t) fuel id source (w : os)
  (Hwf : fs_wf (s_fs (view w)))
  (Hlen : forall d, lookup_file (s_fs (view w)) source = Some d -> (length d < fuel)%nat)
  (Hfuel : (s_events (view w) < fuel)%nat) :
  let r := run (StorageClient.Put self fuel id source) w in
  let announced d := rpc.payload_metadata
    (rpc.mkPutChunkMetadata (object_id_value id) (blen d) (hex_string (blake3 d))) in
  exists st, r.1 = Done st /\ s_fs (view r.2) = s_fs (view w) /\
    ((ok st = false /\ s_trace (view r.2) = s_trace (view w)) \/
     exists d tr, lookup_file (s_fs (view w)) source = Some d /\ s_trace (view r.2) = s_trace (view w) ++ tr /\
       upload (s_quiet (view w)) (client_context self) (announced d) d tr st) /\
    (object_id_value id = ""%string -> code st = kInvalidArgument /\ s_trace (view r.2) = s_trace (view w)) /\
    (object_id_value id <> ""%string -> lookup_file (s_fs (view w)) source = None ->
       code st = kIoError /\ s_trace (view r.2) = s_trace (view w)) /\
    (forall d, object_id_value id <> ""%string -> s_quiet (view w) = true ->
       lookup_file (s_fs (view w)) source = Some d -> name_fits source = true ->
       exists tr, s_trace (view r.2) = s_trace (view w) ++ tr /\
         upload true (client_context self) (announced d) d tr st) /\
    (ok st = true -> object_sent self id source (view w) (view r.2)).
Proof.
  intros r announced.
  destruct (returns_run _ _ w (Object_Put_wp self fuel id source (view w) Hwf Hlen Hfuel)) as (st & Hr & Hpost).
  exists st. split; [exact Hr|split; [apply Hpost|]].
  split_and!.
  - by eapply put_object_sent.
  - intros Hid. destruct Hpost as (_ & _ & [(_ & Hc & Htr)|[(Hne & _)|(Hne & _)]]); done.
  - intros Hne Hnone. by eapply put_object_missing.
  - intros d Hne Hq Hd Hfit. by eapply put_object_healthy.
  - intros Hok. by eapply put_object_ok.
Qed.

(** C32: HashFile reports the number of bytes of a file and their BLAKE3 checksum,
    whatever sizes the reads return and however often they are interrupted; it
    fails only with kIoError, on a healthy machine only for a file that cannot
    be opened, and leaves no descriptor open. *)
Theorem HashFile_spec fuel path (w : os)
  (Hwf : fs_wf (s_fs (view w)))
  (Hlen : forall d, lookup_file (s_fs (view w)) path = Some d -> (length d < fuel)%nat)
  (Hfuel : (s_events (view w) < fuel)%nat) :
  let r := run (HashFile fuel path) w in
  s_fs (view r.2) = s_fs (view w) /\
  ((exists d, lookup_file (s_fs (view w)) path = Some d /\
      r.1 = Done (SO_value (blen d, mkChecksum kBlake3 (hex_string (blake3 d))))) \/
   (exists st, r.1 = Done (SO_error st) /\ code st = kIoError /\
      (s_quiet (view w) = true -> lookup_file (s_fs (view w)) path = None \/ name_fits path = false))).
Proof.
  intros r. destruct (returns_run _ _ w (HashFile_wp fuel path (view w) Hwf Hlen Hfuel))
    as (a & Hr & _ & Hfs & [(d & Hd & ->)|(st & -> & Hc & Hq)]); (split; [exact Hfs|]).
  - left. exists d. split; [exact Hd|exact Hr].
  - right. exists st. split; [exact Hr|done].
Qed.

(** C33: when another process creates the temporary file after Get has looked for
    it, Get reports that it exists and then removes the other process' file. *)
Theorem Get_removes_foreign_temp (self : StorageClient.t GrpcDataPlaneClient.t) fuel id head temp dest (w : os)
  (Hquiet : s_quiet (view w) = true) (Htemp : is_Some (f_names (s_fs (view w)) !! temp))
  (Hfit : name_fits temp = true) (Hfuel : (max_message + s_events (view w) < fuel)%nat) :
  let r := run (StorageClient.Get_download self fuel id head temp dest) w in
  exists st, r.1 = Done st /\ code st = kAlreadyExists /\
    f_names (s_fs (view r.2)) = delete temp (f_names (s_fs (view w))).
Proof.
  apply (returns_run _ (fun st s' => code st = kAlreadyExists /\
    f_names (s_fs s') = delete temp (f_names (s_fs (view w))))).
  eapply wp_bind_returns; [by apply (Client_GetChunk_wp (StorageClient.data_plane_ self))|].
  intros st s1 ([Hq1 _] & x & Hd & _).
  remember (s_fs s1) as f1 eqn:Ef1.
  destruct Hd as [st _ [[Hc _]|[_ Hno]]|st i nd keep _ Hn|i Hn]; [|by rewrite Hno in Hfit|..].
  2,3: destruct Htemp; congruence.
  assert (Hst : ok st = false) by (apply not_ok_code; congruence). rewrite Hst. cbn [negb].
  destruct Htemp as [i Hi]. rewrite Ef1 in Hi |- *.
  eapply wp_bind_returns; [by apply (unlink_rule temp i)|].
  intros r s2 (_ & keep & Hk & Hfs2). apply wp_ret. split; [done|]. rewrite Hfs2.
  rewrite Hk by congruence. done.
Qed.

End Properties.

(** ** Witnesses *)

(** A machine with one file. *)
Definition one_file (p : string) (d : list byte) : fs :=
  mkFs {[ p := 1%positive ]} ∅ {[ 1%positive := mkInode d true ]} ∅.

Lemma one_file_wf p d : blen d <= off_max -> fs_wf (one_file p d).
Proof.
  intros Hd. split; cbn.
  - intros q i [_ <-]%lookup_singleton_Some. by rewrite lookup_singleton_eq.
  - intros *. by rewrite lookup_empty.
  - by intros i nd [_ <-]%lookup_singleton_Some.
Qed.

(** A worker that holds one object and sends it in one message. *)
Definition object_peer (d : list byte) (c : rpc_call) (tr : list rpc_event) : rpc_reply c :=
  match c with
  | CallHead _ m => (grpc.Status_OK, rpc.mkHeadChunkResponse rpc.Status_default (rpc.hq_chunk_id m) (blen d)
                                       (hex_string (blake3 d)))
  | ClientRead => match tr with [_; ev (StartGet _ _) _] | [ev (StartGet _ _) _] => Some (rpc.mkChunkData d) | _ => None end
  | c => no_peer c
  end.

Definition w_hello : list byte := string_bytes "hello".
Definition w_client : StorageClient.t GrpcDataPlaneClient.t :=
  StorageClient.mk GrpcDataPlaneClient.default (mkWorkerEndpoint "127.0.0.1" 50052 50052).
Definition w_source : fs := one_file "/src" w_hello.
(** The machine with the file, one message to come. *)
Definition w_machine : os := mkMem (mkState 0 1 true [] w_source) [] (object_peer w_hello).

Lemma w_source_wf : fs_wf w_source.
Proof. apply one_file_wf. by vm_compute. Qed.

Lemma w_source_short fuel :
  (5 < fuel)%nat -> forall d, lookup_file w_source "/src" = Some d -> (length d < fuel)%nat.
Proof. intros Hf d. vm_compute lookup_file. intros [= <-]. cbn. lia. Qed.

(** The object is sent, received and verified. *)
Example w_client_runs :
  (run (StorageClient.Put w_client 100 (mkObjectId "a") "/src") w_machine).1 = Done Status_Ok /\
  let r := run (StorageClient.Get w_client 100 0 (mkObjectId "a") "/dst") w_machine in
  r.1 = Done (Status_Ok, 1) /\ lookup_file (s_fs (view r.2)) "/dst" = Some w_hello.
Proof. split; [|split]; vm_compute; reflexivity. Qed.

Definition w_upload : PutChunkRequest :=
  mkPutChunkRequest (mkChunkId "a") 5 (content_checksum w_hello).
Abbreviation w_worker := (StorageClient.worker_ w_client).

Lemma Client_PutChunk_success_witness :
  exists d tr, lookup_file w_source "/src" = Some d /\
    (uploaded (client_context w_client) (GrpcDataPlaneClient.put_metadata w_upload) d tr \/ cut_short tr).
Proof.
  destruct (Client_PutChunk_success GrpcDataPlaneClient.default 100 w_worker w_upload "/src" w_machine
    w_source_wf (w_source_short 100 ltac:(lia)) ltac:(cbn; lia)) as (st & tr & Hr & _ & _ & _ & Hok).
  assert (E : (run (GrpcDataPlaneClient.PutChunk GrpcDataPlaneClient.default 100 w_worker w_upload "/src")
    w_machine).1 = Done Status_Ok) by (vm_compute; reflexivity).
  rewrite E in Hr. injection Hr as <-. destruct (Hok eq_refl) as (d & Hd & Htr).
  exists d, tr. split; [exact Hd|exact Htr].
Defined.

Lemma w_fuel n : (n <= 1)%nat -> (max_message * n + max_message + n < S (S (max_message * 2)))%nat.
Proof. generalize max_message. intros m Hn. destruct n as [|[|n]]; lia. Qed.

Lemma w_fuel_one n : (n <= 1)%nat -> (max_message + n < S (S (max_message * 2)))%nat.
Proof. generalize max_message. lia. Qed.

Abbreviation w_enough := (S (S (max_message * 2))).

Lemma Client_GetChunk_complete_witness :
  lookup_file (s_fs (view (run (GrpcDataPlaneClient.GetChunk GrpcDataPlaneClient.default w_enough w_worker
    (mkGetChunkRequest (mkChunkId "a") (mkByteRange 0 5)) "/dst") w_machine).2)) "/src" = Some w_hello.
Proof.
  destruct (Client_GetChunk_complete GrpcDataPlaneClient.default w_enough w_worker
    (mkGetChunkRequest (mkChunkId "a") (mkByteRange 0 5)) "/dst" w_machine w_source_wf
    (w_fuel_one 1 (le_n 1))) as (st & _ & _ & Hother & _).
  rewrite Hother by done. vm_compute. reflexivity.
Defined.

Lemma Object_Get_verified_witness :
  lookup_file (s_fs (view (run (StorageClient.Get w_client w_enough 0 (mkObjectId "a") "/dst") w_machine).2)) "/src"
  = Some w_hello.
Proof.
  destruct (Object_Get_verified w_client w_enough 0 (mkObjectId "a") "/dst" w_machine w_source_wf
    (w_fuel 1 (le_n 1))) as (_ & Hold & _).
  rewrite Hold by (vm_compute; by eexists). vm_compute. reflexivity.
Defined.

Lemma Object_Put_announces_witness :
  object_sent w_client (mkObjectId "a") "/src" (view w_machine)
    (view (run (StorageClient.Put w_client 100 (mkObjectId "a") "/src") w_machine).2) /\
  s_trace (view (run (StorageClient.Put w_client 100 (mkObjectId "") "/src") w_machine).2) = s_trace (view w_machine).
Proof.
  split.
  - destruct (Object_Put_announces w_client 100 (mkObjectId "a") "/src" w_machine
      w_source_wf (w_source_short 100 ltac:(lia)) ltac:(cbn; lia)) as (st & Hr & _ & _ & _ & _ & _ & Hok).
    rewrite (proj1 w_client_runs) in Hr. injection Hr as <-. exact (Hok eq_refl).
  - destruct (Object_Put_announces w_client 100 (mkObjectId "") "/src" w_machine
      w_source_wf (w_source_short 100 ltac:(lia)) ltac:(cbn; lia)) as (st & _ & _ & _ & Hempty & _).
    exact (proj2 (Hempty eq_refl)).
Defined.

Lemma HashFile_spec_witness :
  s_fs (view (run (HashFile 100 "/src") w_machine).2) = w_source.
Proof.
  exact (proj1 (HashFile_spec 100 "/src" w_machine w_source_wf (w_source_short 100 ltac:(lia)) ltac:(cbn; lia))).
Defined.

Lemma Get_removes_foreign_temp_witness :
  f_names (s_fs (view (run (StorageClient.Get_download w_client w_enough (mkChunkId "a")
    (mkHeadChunkResponse (mkChunkId "a") 5 (content_checksum w_hello)) "/src" "/dst") w_machine).2)) = ∅.
Proof.
  destruct (Get_removes_foreign_temp w_client w_enough (mkChunkId "a")
    (mkHeadChunkResponse (mkChunkId "a") 5 (content_checksum w_hello)) "/src" "/dst" w_machine eq_refl
    ltac:(vm_compute; by eexists) ltac:(by vm_compute) (w_fuel_one 1 (le_n 1))) as (st & _ & _ & Hn).
  rewrite Hn. vm_compute. reflexivity.
Defined.
