(* ===== verification/Fuel.v ===== *)
(** * Fuel is only a bound: a program with a larger bound does the same calls and
    gives the same result, unless the smaller one was used up. *)
From S2P Require Import Prelude Status Types Path Proto System Prog UniqueFd Blake3 FileIO.
From S2P Require Import ChunkFormat Streams ChunkStore FileStore StoreSpec MemOS DataPlane Services HandlerSpec.
From S2P Require Import Client StorageClient.

(** ** Definitions *)

(** [q] behaves like [p] wherever [p] does not stop for lack of fuel. *)
Inductive extends {A} : prog A -> prog A -> Prop :=
| ext_fuel q : extends Fuel q
| ext_ret a : extends (Ret a) (Ret a)
| ext_throw m : extends (Throw m) (Throw m)
| ext_sys c k k' : (forall r, extends (k r) (k' r)) -> extends (Sys c k) (Sys c k').

(** ** Lemmas *)

#[export] Instance extends_refl {A} : Reflexive (extends (A:=A)).
Proof. intros p. induction p; by constructor. Qed.

Lemma extends_bind {A B} (p p' : prog A) (f f' : A -> prog B) :
  extends p p' -> (forall a, extends (f a) (f' a)) -> extends (p ≫= f) (p' ≫= f').
Proof. intros Hp Hf. induction Hp as [q|a|m|c k k' _ IH]; cbn; [apply ext_fuel|apply Hf|apply ext_throw|by apply ext_sys]. Qed.

Lemma extends_run `{Posix} {A} (p q : prog A) (w : os) :
  extends p q -> (run p w).1 <> OutOfFuel -> run q w = run p w.
Proof.
  intros Hpq. revert w. induction Hpq as [q|a|m|c k k' _ IH]; intros w Hw; cbn in *; try done.
  destruct (sys c w) as [r w']. by apply IH.
Qed.

(** Structural steps: the same call first, the same test, or a smaller loop. *)
Create HintDb fuel.
#[export] Hint Extern 0 (extends ?p ?p) => reflexivity : fuel.
#[export] Hint Extern 0 (extends Fuel _) => apply ext_fuel : fuel.
Ltac mono_step :=
  intros;
  match goal with
  | |- extends ?p ?p => reflexivity
  | |- extends (_ ≫= _) (_ ≫= _) => apply extends_bind
  | |- extends (if ?b then _ else _) (if ?b then _ else _) => destruct b
  | |- extends (match ?x with _ => _ end) _ => destruct x
  | |- _ => solve [eauto with fuel lia]
  end.
Ltac mono := repeat mono_step.

Section Mono.
Context `{Libc} `{Blake3}.

Lemma WriteAll_loop_mono n m fd data x :
  (n <= m)%nat -> extends (WriteAll_loop n fd data x) (WriteAll_loop m fd data x).
Proof.
  revert m x. induction n as [|n IH]; intros [|m] x Hm; try apply ext_fuel; [lia|].
  apply le_S_n in Hm. cbn [WriteAll_loop]. mono.
Qed.

Lemma PreadSome_loop_mono n m fd k x :
  (n <= m)%nat -> extends (PreadSome_loop n fd k x) (PreadSome_loop m fd k x).
Proof.
  revert m. induction n as [|n IH]; intros [|m] Hm; try apply ext_fuel; [lia|].
  apply le_S_n in Hm. cbn [PreadSome_loop]. mono.
Qed.

Lemma PreadSome_mono n m fd k x : (n <= m)%nat -> extends (PreadSome n fd k x) (PreadSome m fd k x).
Proof. intros Hm. unfold PreadSome. destruct (bool_decide _); [done|by apply PreadSome_loop_mono]. Qed.

End Mono.
#[export] Hint Resolve WriteAll_loop_mono PreadSome_mono : fuel.

Section Store.
Context `{Libc} `{Blake3}.

Lemma ReadHeader_loop_mono n m pn pm fd header x :
  (n <= m)%nat -> (pn <= pm)%nat ->
  extends (ReadHeader_loop n pn fd header x) (ReadHeader_loop m pm fd header x).
Proof.
  revert m header x. induction n as [|n IH]; intros [|m] header x Hm Hp; try apply ext_fuel; [lia|].
  apply le_S_n in Hm. cbn [ReadHeader_loop]. mono.
Qed.

Lemma ReadHeader_mono n m fd id : (n <= m)%nat -> extends (ReadHeader n fd id) (ReadHeader m fd id).
Proof.
  intros Hm. unfold ReadHeader. apply extends_bind; [by apply ReadHeader_loop_mono|]. intros a. mono.
Qed.

Lemma scope_mono {A} raw (f g : UniqueFd.t -> prog (A * UniqueFd.t)) :
  (forall fd, extends (f fd) (g fd)) -> extends (UniqueFd.scope raw f) (UniqueFd.scope raw g).
Proof. intros Hf. unfold UniqueFd.scope. apply extends_bind; [apply Hf|]. intros a. mono. Qed.

Lemma scope_const_mono {A} raw (f g : UniqueFd.t -> prog A) :
  (forall fd, extends (f fd) (g fd)) -> extends (UniqueFd.scope_const raw f) (UniqueFd.scope_const raw g).
Proof. intros Hf. apply scope_mono. intros fd. apply extends_bind; [apply Hf|]. intros a. mono. Qed.

Lemma Head_mono n m root id : (n <= m)%nat -> extends (Head n root id) (Head m root id).
Proof.
  intros Hm. unfold Head. destruct (negb _); [done|]. apply extends_bind; [done|]. intros raw.
  apply scope_const_mono. intros fd. destruct (negb _); [done|by apply ReadHeader_mono].
Qed.

Lemma Get_loop_mono {S} `{ChunkOutputStream S} n m pn pm fd k x (output : S) :
  (n <= m)%nat -> (pn <= pm)%nat ->
  extends (Get_loop n pn fd k x output) (Get_loop m pm fd k x output).
Proof.
  revert m k x output. induction n as [|n IH]; intros [|m] k x output Hm Hp; try apply ext_fuel; [lia|].
  apply le_S_n in Hm. cbn [Get_loop]. mono.
Qed.

Lemma Get_mono {S} `{ChunkOutputStream S} n m root req (output : S) :
  (n <= m)%nat -> extends (Get n root req output) (Get m root req output).
Proof.
  intros Hm. unfold Get. apply extends_bind; [by apply Head_mono|]. intros head.
  destruct (so_value head); [|done]. destruct (negb _); [done|]. apply extends_bind; [done|]. intros raw.
  apply scope_const_mono. intros fd. destruct (negb _); [done|by apply Get_loop_mono].
Qed.

Lemma Put_loop_mono {S} `{ChunkInputStream S} n m wn wm req fd temp h x (input : S) :
  (n <= m)%nat -> (wn <= wm)%nat ->
  extends (Put_loop n wn req fd temp h x input) (Put_loop m wm req fd temp h x input).
Proof.
  revert m h x input. induction n as [|n IH]; intros [|m] h x input Hm Hp; try apply ext_fuel; [lia|].
  apply le_S_n in Hm. cbn [Put_loop]. unfold WriteAll. mono.
Qed.

Lemma Put_body_mono {S} `{ChunkInputStream S} n m root req temp final (input : S) fd :
  (n <= m)%nat -> extends (Put_body n root req temp final input fd) (Put_body m root req temp final input fd).
Proof.
  intros Hm. unfold Put_body. apply extends_bind; [by apply WriteAll_loop_mono|]. intros st.
  destruct (negb _); [done|]. apply extends_bind; [by apply Put_loop_mono|]. intros [r x]. mono.
Qed.

Lemma Put_mono {S} `{ChunkInputStream S} n m root addr req (input : S) :
  (n <= m)%nat -> extends (Put n root addr req input) (Put m root addr req input).
Proof.
  intros Hm. unfold Put. do 2 (destruct (negb _); [done|]). apply extends_bind; [done|]. intros [e|]; [done|].
  apply extends_bind; [done|]. intros pid. apply extends_bind; [done|]. intros raw.
  apply scope_mono. intros fd. destruct (negb _); [done|by apply Put_body_mono].
Qed.

End Store.

Section Services.
Context `{Libc} `{Blake3}.

(** The handlers over a FileChunkStore. *)
Lemma Worker_PutChunk_mono n m (store : FileChunkStore) addr :
  (n <= m)%nat -> extends (WorkerService.PutChunk (serving store) n addr) (WorkerService.PutChunk (serving store) m addr).
Proof.
  intros Hm. cbn [WorkerService.PutChunk serving WorkerService.data_plane_]. apply extends_bind; [done|].
  intros [[]|]; try done. apply extends_bind; [|done]. unfold DataPlaneService.PutChunk.
  do 2 (destruct (negb _); [done|]). exact (Put_mono n m (root_ store) addr _ _ Hm).
Qed.

Lemma Worker_GetChunk_mono n m (store : FileChunkStore) req :
  (n <= m)%nat -> extends (WorkerService.GetChunk (serving store) n req) (WorkerService.GetChunk (serving store) m req).
Proof.
  intros Hm. cbn [WorkerService.GetChunk serving WorkerService.data_plane_]. apply extends_bind; [|done].
  unfold DataPlaneService.GetChunk. destruct (negb _); [done|]. exact (Get_mono n m (root_ store) _ _ Hm).
Qed.

(** The client's operations. *)
Lemma read_retry_mono n m fd k : (n <= m)%nat -> extends (read_retry n fd k) (read_retry m fd k).
Proof.
  revert m. induction n as [|n IH]; intros [|m] Hm; try apply ext_fuel; [lia|].
  apply le_S_n in Hm. cbn [read_retry]. mono.
Qed.
#[local] Hint Resolve read_retry_mono : fuel.

Lemma PutChunk_loop_mono n m rn rm fd :
  (n <= m)%nat -> (rn <= rm)%nat ->
  extends (GrpcDataPlaneClient.PutChunk_loop n rn fd) (GrpcDataPlaneClient.PutChunk_loop m rm fd).
Proof.
  revert m. induction n as [|n IH]; intros [|m] Hm Hp; try apply ext_fuel; [lia|].
  apply le_S_n in Hm. cbn [GrpcDataPlaneClient.PutChunk_loop]. mono.
Qed.

Lemma Client_PutChunk_mono n m self endpoint req source :
  (n <= m)%nat ->
  extends (GrpcDataPlaneClient.PutChunk self n endpoint req source) (GrpcDataPlaneClient.PutChunk self m endpoint req source).
Proof.
  intros Hm. unfold GrpcDataPlaneClient.PutChunk. apply extends_bind; [done|]. intros raw.
  apply scope_const_mono. intros fd. destruct (negb _); [done|]. do 2 (apply extends_bind; [done|]; intros ?).
  destruct (negb _); [done|]. apply extends_bind; [by apply PutChunk_loop_mono|]. intros [?|?]; done.
Qed.

Lemma GetChunk_loop_mono n m wn wm fd :
  (n <= m)%nat -> (wn <= wm)%nat ->
  extends (GrpcDataPlaneClient.GetChunk_loop n wn fd) (GrpcDataPlaneClient.GetChunk_loop m wm fd).
Proof.
  revert m. induction n as [|n IH]; intros [|m] Hm Hp; try apply ext_fuel; [lia|].
  apply le_S_n in Hm. cbn [GrpcDataPlaneClient.GetChunk_loop]. unfold WriteAll_client. mono.
Qed.

Lemma Client_GetChunk_mono n m self endpoint req dest :
  (n <= m)%nat ->
  extends (GrpcDataPlaneClient.GetChunk self n endpoint req dest) (GrpcDataPlaneClient.GetChunk self m endpoint req dest).
Proof.
  intros Hm. unfold GrpcDataPlaneClient.GetChunk. apply extends_bind; [done|]. intros raw.
  apply scope_mono. intros fd. destruct (negb _); [done|]. apply extends_bind; [done|]. intros _.
  apply extends_bind; [by apply GetChunk_loop_mono|]. intros st. done.
Qed.

Lemma HashFile_loop_mono n m rn rm fd h x :
  (n <= m)%nat -> (rn <= rm)%nat -> extends (HashFile_loop n rn fd h x) (HashFile_loop m rm fd h x).
Proof.
  revert m h x. induction n as [|n IH]; intros [|m] h x Hm Hp; try apply ext_fuel; [lia|].
  apply le_S_n in Hm. cbn [HashFile_loop]. mono.
Qed.

Lemma HashFile_mono n m path : (n <= m)%nat -> extends (HashFile n path) (HashFile m path).
Proof.
  intros Hm. unfold HashFile. apply extends_bind; [done|]. intros raw.
  apply scope_const_mono. intros fd. destruct (negb _); [done|].
  apply extends_bind; [by apply HashFile_loop_mono|done].
Qed.

Lemma Object_Put_mono n m (self : StorageClient.t GrpcDataPlaneClient.t) id source :
  (n <= m)%nat -> extends (StorageClient.Put self n id source) (StorageClient.Put self m id source).
Proof.
  intros Hm. unfold StorageClient.Put. destruct (so_value _); [|done].
  apply extends_bind; [by apply HashFile_mono|]. intros hash. destruct (so_value hash) as [[]|]; [|done].
  by apply Client_PutChunk_mono.
Qed.

Lemma Object_Get_mono n m (self : StorageClient.t GrpcDataPlaneClient.t) next id dest :
  (n <= m)%nat -> extends (StorageClient.Get self n next id dest) (StorageClient.Get self m next id dest).
Proof.
  intros Hm. unfold StorageClient.Get. destruct (so_value _); [|done].
  apply extends_bind; [done|]. intros [[]|]; [done| |done].
  apply extends_bind; [done|]. intros head. destruct (so_value head); [|done].
  apply extends_bind; [done|]. intros pid. apply extends_bind; [done|]. intros [[]|]; [done| |done].
  apply extends_bind; [|done]. unfold StorageClient.Get_download.
  apply extends_bind; [by apply Client_GetChunk_mono|]. intros st. destruct (negb _); [done|].
  apply extends_bind; [by apply HashFile_mono|done].
Qed.

(** ** Properties *)

(** The bounds on the loops are only that: in every environment, a run of an
    operation that does not use up its bound is repeated, call by call and with
    the same result, under every larger bound.  So a bound that is large enough
    for one run describes the code's unbounded loops. *)
Theorem fuel_is_only_a_bound `{Posix} n m (w : os) (Hnm : (n <= m)%nat) :
  (forall S (input : S) `{ChunkInputStream S} root addr req, (run (Put n root addr req input) w).1 <> OutOfFuel ->
     run (Put m root addr req input) w = run (Put n root addr req input) w) /\
  (forall S (output : S) `{ChunkOutputStream S} root req, (run (Get n root req output) w).1 <> OutOfFuel ->
     run (Get m root req output) w = run (Get n root req output) w) /\
  (forall root id, (run (Head n root id) w).1 <> OutOfFuel -> run (Head m root id) w = run (Head n root id) w) /\
  (forall (self : StorageClient.t GrpcDataPlaneClient.t) id source,
     (run (StorageClient.Put self n id source) w).1 <> OutOfFuel ->
     run (StorageClient.Put self m id source) w = run (StorageClient.Put self n id source) w) /\
  (forall (self : StorageClient.t GrpcDataPlaneClient.t) next id dest,
     (run (StorageClient.Get self n next id dest) w).1 <> OutOfFuel ->
     run (StorageClient.Get self m next id dest) w = run (StorageClient.Get self n next id dest) w).
Proof.
  split; [|split; [|split; [|split]]]; intros; (apply extends_run; [|done]).
  - by apply Put_mono.
  - by apply Get_mono.
  - by apply Head_mono.
  - by apply Object_Put_mono.
  - by apply Object_Get_mono.
Qed.

End Services.

(** ** Witnesses *)

(** A Put that ends within 200 iterations ends in the same way under any larger
    bound. *)
Definition w_request : PutChunkRequest :=
  mkPutChunkRequest (mkChunkId "c1") 5 (mkChecksum kBlake3 (hex_string (blake3 (string_bytes "hello")))).
Definition w_input : VectorInput (string_bytes "hello") := mkVectorInput 0.

Lemma fuel_is_only_a_bound_witness :
  (run (Put (200 + max_message) "/r" 77 w_request w_input) (quiet_world empty_fs)).1
  = Done (Status_Ok, mkVectorInput 5).
Proof.
  assert (Hrun : (run (Put 200 "/r" 77 w_request w_input) (quiet_world empty_fs)).1
    = Done (Status_Ok, mkVectorInput 5)) by (vm_compute; reflexivity).
  rewrite <- Hrun.
  refine (f_equal fst (proj1 (fuel_is_only_a_bound 200 (200 + max_message) (quiet_world empty_fs)
    (Nat.le_add_r 200 max_message)) _ w_input _ "/r"%string 77 w_request _)).
  rewrite Hrun. discriminate.
Defined.
