(* ===== verification/ServiceTheorems.v ===== *)
(** * The worker's handlers, end to end: what a client's messages make of the
    store, and which answer the client gets. *)
From stdpp Require Import functions.
From S2P Require Import Prelude Status Types Path Proto System Prog UniqueFd Blake3 MemOS FileIO Files.
From S2P Require Import ChunkFormat Streams ChunkStore FileStore StorePaths StoreRead StorePut StoreSpec Sequence StoreTheorems.
From S2P Require Import DataPlane Services HandlerSpec Client Fuel.

Section Handlers.
Context `{Posix} {C : Type} `{ChunkStoreContract C}.
Context (store : C).

Abbreviation chunks_of w := (cs_chunks store (s_fs (view w))).

(** Why an upload whose metadata are [md] and whose later traffic is [tr] is not to
    be stored in the store [m]. *)
Inductive refusable (m : store_map) (md : rpc.PutChunkMetadata) (tr : list rpc_event) : Prop :=
| rf_name : service_accepts (DataPlaneService.mk store) (mkChunkId (rpc.md_chunk_id md)) = false -> refusable m md tr
| rf_checksum : ok (ValidateChecksum (expected_checksum (put_request md))) = false -> refusable m md tr
| rf_taken : is_Some (m (mkChunkId (rpc.md_chunk_id md))) -> refusable m md tr
| rf_frame mid f : tr = mid ++ [ev ServerRead (Some f)] -> ~ data_frame f -> refusable m md tr
| rf_length : rpc.md_expected_size md < blen (received tr) -> refusable m md tr
| rf_content mid : tr = mid ++ [ev ServerRead None] -> ~ data_matches (put_request md) (received tr) -> refusable m md tr.

(** Only such an upload is refused on a healthy machine with room, and every such
    upload is. *)
Lemma put_handled_refused addr s r s' md tr st :
  put_handled store addr s r s' -> s_trace s' = s_trace s ++ ev ServerRead (Some (rpc.payload_metadata md)) :: tr ->
  r = (grpc.Status_OK, rpc.mkOperationResponse (SetStatus st)) ->
  (put_calm (DataPlaneService.mk store) s (put_request md) addr -> ok st = false ->
     refusable (cs_chunks store (s_fs s)) md tr) /\
  (refusable (cs_chunks store (s_fs s)) md tr -> ok st = false).
Proof.
  intros (first & tr' & Htr & Hpost) Htrace Hr. rewrite Htrace in Htr. apply app_inv_head in Htr.
  assert (Hfirst : Some (rpc.payload_metadata md) = first)
    by exact (f_equal (fun l => match l with ev ServerRead x :: _ => x | _ => None end) Htr).
  subst first. injection Htr as <-.
  destruct Hpost as (st' & d & broken & fin & E & _ & Hd & Hfin & Hbroken & Hspec). rewrite Hr in E.
  assert (Est : ok st = ok st') by (destruct st as [[]], st' as [[]]; by injection E).
  rewrite Est. destruct Hspec as [st1 m1 Ha Hc _ _|st1 m1 Ha Hwhy _|st1 m1 Ha Hf Hdm Hn _ Hst].
  - split; [|intros _; apply not_ok_code; congruence]. intros _ _. apply andb_false_iff in Ha as [Ha|Ha];
      [by apply rf_name|by apply rf_checksum].
  - split; [|intros _; destruct Hwhy as [|? Hc ?|? Hc|? [Hc|Hc]]; [done|apply not_ok_code; congruence..]].
    intros Hcalm _. destruct Hwhy as [st1 _ Hb|st1 _ Hm [Hf|Hlt]|st1 _ _ _ Hs|st1 _ Hc].
    + destruct (Hbroken Hb) as (mid & f & Hmid & Hnf). by eapply rf_frame.
    + destruct (Hfin Hf) as [-> [mid Hmid]]. by eapply rf_content.
    + apply rf_length. apply prefix_length in Hd. cbn [put_request expected_size] in Hlt. unfold blen in *. lia.
    + by apply rf_taken.
    + by destruct (Hc Hcalm).
  - destruct Hst as [->|[Hc Hno]]; [|split; [intros Hcalm; by destruct (Hno Hcalm)|intros _; apply not_ok_code; congruence]].
    split; [done|]. intros Href. exfalso. destruct (Hfin Hf) as [-> [mid Hmid]]. apply andb_true_iff in Ha as [Ha1 Ha2].
    destruct Href as [Hx|Hx|Hx|mid' f Hx Hnf|Hx|mid' _ Hx]; [congruence|congruence| | | |done].
    + cbn [put_chunk_id put_request] in Hn. rewrite Hn in Hx. by destruct Hx.
    + rewrite Hmid in Hx. apply app_inj_tail in Hx as [_ Hx].
      apply (f_equal (fun e => match e with ev ServerRead x => x | _ => None end)) in Hx. done.
    + destruct Hdm as [Hsz _]. cbn [put_request expected_size] in Hsz. lia.
Qed.

(** ** Properties *)

(** C21: the PutChunk handler, over any store that keeps the ChunkStore contract:
    without a metadata frame first the call is refused and the store untouched.
    Otherwise the handler answers with the code of the outcome; either the
    upload failed and the store is as it was, or the store has gained the chunk,
    which it lacked, with the bytes of all following data frames, which match the
    announced size and checksum.  An upload whose identifier or checksum is
    malformed, whose chunk is stored already, or whose frames do not match is
    never reported as a success; and on a healthy machine with room for it no
    other upload fails. *)
Theorem Worker_PutChunk_stores_frames fuel addr (w : os)
  (Hinv : cs_inv store (s_fs (view w)))
  (Hfuel : (cs_need store u64_max (s_events (view w)) < fuel)%nat) :
  let r := run (WorkerService.PutChunk (serving store) fuel addr) w in
  exists first tr, s_trace (view r.2) = s_trace (view w) ++ ev ServerRead first :: tr /\
  match first with
  | Some (rpc.payload_metadata md) =>
      exists st, r.1 = Done (grpc.Status_OK, rpc.mkOperationResponse (SetStatus st)) /\
        cs_inv store (s_fs (view r.2)) /\
        ((ok st = false /\ same_map (chunks_of w) (chunks_of r.2)) \/
         ((st = Status_Ok \/ code st = kIoError) /\
          blen (received tr) = rpc.md_expected_size md /\
          hex_string (blake3 (received tr)) = rpc.md_expected_checksum md /\
          chunks_of w (mkChunkId (rpc.md_chunk_id md)) = None /\
          same_map (<[mkChunkId (rpc.md_chunk_id md) :=
                        Some (mkChecksum kBlake3 (rpc.md_expected_checksum md), received tr)]> (chunks_of w))
            (chunks_of r.2))) /\
        (put_calm (DataPlaneService.mk store) (view w) (put_request md) addr -> ok st = false ->
           refusable (chunks_of w) md tr) /\
        (refusable (chunks_of w) md tr -> ok st = false)
  | _ =>
      r.1 = Done (grpc.mkStatus grpc.INVALID_ARGUMENT "first put frame must contain metadata",
                  rpc.OperationResponse_default) /\ s_fs (view r.2) = s_fs (view w)
  end.
Proof.
  intros r.
  destruct (returns_run _ _ w (Handler_PutChunk_wp store fuel addr (view w) Hinv Hfuel)) as (a & Hr & Hhandled).
  pose proof Hhandled as (first & tr & Htr & Hpost).
  exists first, tr. split; [exact Htr|]. change (run _ w) with r in Hr, Htr, Hpost, Hhandled. rewrite Hr.
  destruct first as [[|md|x]|]; [by destruct Hpost as [-> ?]| |by destruct Hpost as [-> ?]..].
  destruct Hpost as (st & d & broken & fin & -> & Hi & Hpre & Hfin & _ & Hspec). exists st.
  split; [done|split; [done|split; [|by eapply put_handled_refused]]].
  destruct (put_spec_cases _ _ _ _ _ _ _ _ _ Hspec) as [?|(Hst & Hf & [Hsz Hsum] & Hn & E)]; [by left|].
  destruct (Hfin Hf) as [<- _]. by right.
Qed.

(** C22: the GetChunk handler ends the call with OK only when the whole requested
    range of the stored chunk was written to the peer, and, for a range that is
    not empty, whenever it was; whatever it answers, the peer has received a
    prefix of that range or nothing, and the files are as they were.  On a healthy
    machine only a message the library does not take keeps a range of a stored
    chunk, under an accepted identifier, from being delivered, an empty one
    included. *)
Theorem Worker_GetChunk_streams_range fuel req (w : os)
  (Hinv : cs_inv store (s_fs (view w)))
  (Ho : is_u64 (rpc.gr_offset req)) (Hs : is_u64 (rpc.gr_size req))
  (Hfuel : (cs_need store (rpc.gr_size req) (s_events (view w)) < fuel)%nat) :
  let r := run (WorkerService.GetChunk (serving store) fuel req) w in
  let stored := chunks_of w (mkChunkId (rpc.gr_chunk_id req)) in
  exists g tr, r.1 = Done g /\ s_fs (view r.2) = s_fs (view w) /\ s_trace (view r.2) = s_trace (view w) ++ tr /\
    (sent tr = [] \/ exists c p n, stored = Some (c, p) /\
       sent tr = take n (ztake (rpc.gr_size req) (zdrop (rpc.gr_offset req) p))) /\
    (grpc.ok g = true -> g = grpc.Status_OK /\ exists c p, stored = Some (c, p) /\
       service_accepts (DataPlaneService.mk store) (mkChunkId (rpc.gr_chunk_id req)) = true /\
       ok (ValidateByteRange (mkByteRange (rpc.gr_offset req) (rpc.gr_size req)) (blen p)) = true /\
       sent tr = ztake (rpc.gr_size req) (zdrop (rpc.gr_offset req) p)) /\
    (forall c p, stored = Some (c, p) -> 0 < rpc.gr_size req -> rpc.gr_offset req + rpc.gr_size req <= blen p ->
       sent tr = ztake (rpc.gr_size req) (zdrop (rpc.gr_offset req) p) -> g = grpc.Status_OK) /\
    (forall c p, stored = Some (c, p) ->
       read_calm (DataPlaneService.mk store) (view w) (mkChunkId (rpc.gr_chunk_id req)) ->
       service_accepts (DataPlaneService.mk store) (mkChunkId (rpc.gr_chunk_id req)) = true ->
       ok (ValidateByteRange (mkByteRange (rpc.gr_offset req) (rpc.gr_size req)) (blen p)) = true ->
       grpc.ok g = true \/ exists mid m, s_trace (view r.2) = mid ++ [ev (ServerWrite m) false]).
Proof.
  intros r stored.
  destruct (returns_run _ _ w (Handler_GetChunk_wp store fuel req (view w) Hinv Ho Hs Hfuel))
    as (g & Hr & Hfs & st & d & broken & tr & -> & Htr & <- & Hbroken & Hspec).
  exists (ToGrpcStatus st), tr. split; [exact Hr|split; [exact Hfs|split; [exact Htr|]]].
  destruct (get_spec_cases _ _ _ _ _ _ _ Hspec) as [Hprefix Hok].
  split; [exact Hprefix|]. rewrite ToGrpcStatus_ok. split; [|split].
  - intros (c & p & Hm & Ha & Hv & -> & Hd)%Hok. split; [done|]. by exists c, p.
  - intros c p Hp Hpos Hin Hsent. destruct (ok st) eqn:Hst.
    { destruct (Hok eq_refl) as (c1 & p1 & Hm1 & Ha1 & Hv1 & Est & Hd1). by rewrite Est. }
    pose proof (get_spec_short _ _ _ _ _ _ _ Hspec Hst Hpos) as Hshort. cbn [range size] in Hshort.
    rewrite Hsent in Hshort. unfold is_u64, blen, ztake, zdrop in *. rewrite length_take, length_drop in Hshort. lia.
  - intros c p Hm Hcalm Ha Hv. destruct (get_spec_calm _ _ _ _ _ _ _ _ _ Hspec Hcalm Ha Hm Hv) as [->|Hb]; [by left|right].
    by apply Hbroken.
Qed.

(** The HeadChunk and DeleteChunk handlers report in the response what the
    store did: a response that says OK carries the stored size and checksum, or
    means that the chunk was there and is gone; any other response to a Delete
    leaves the store as it was.  The call itself always ends with OK. *)
Theorem Worker_Head_and_Delete fuel (id : string) (w : os)
  (Hinv : cs_inv store (s_fs (view w)))
  (Hfuel : (cs_need store 0 (s_events (view w)) < fuel)%nat) :
  let m := chunks_of w in
  (exists resp,
     (run (WorkerService.HeadChunk (serving store) fuel (rpc.mkHeadChunkRequest id)) w).1 =
       Done (grpc.Status_OK, resp) /\
     (rpc.code (rpc.hresp_status resp) = rpc.STATUS_CODE_OK ->
      exists c p, m (mkChunkId id) = Some (c, p) /\ rpc.hresp_chunk_id resp = id /\
        rpc.hresp_size resp = blen p /\ rpc.hresp_checksum resp = value c)) /\
  (exists resp,
     let r := run (WorkerService.DeleteChunk (serving store) (rpc.mkDeleteChunkRequest id)) w in
     r.1 = Done (grpc.Status_OK, resp) /\
     ((rpc.code (rpc.or_status resp) = rpc.STATUS_CODE_OK /\ is_Some (m (mkChunkId id)) /\
       same_map (<[mkChunkId id := None]> m) (chunks_of r.2)) \/
      (rpc.code (rpc.or_status resp) <> rpc.STATUS_CODE_OK /\ same_map m (chunks_of r.2)))).
Proof.
  intros m. split.
  - destruct (returns_run _ _ w (Handler_HeadChunk_wp store fuel (rpc.mkHeadChunkRequest id) (view w) Hinv Hfuel))
      as (r & Hr & _ & a & Hspec & ->).
    eexists. split; [exact Hr|]. intros Hok.
    destruct Hspec as [st _ _|st _ _ _|c p _ Hm|st _ _ _]; [..|by exists c, p|];
      cbn in Hok; apply SetStatus_ok in Hok; by rewrite NormalizeError_not_ok in Hok.
  - destruct (returns_run _ _ w (Handler_DeleteChunk_wp store (rpc.mkDeleteChunkRequest id) (view w) Hinv))
      as (r & Hr & _ & st & -> & Hspec).
    eexists. split; [exact Hr|]. cbn [rpc.or_status]. rewrite SetStatus_ok.
    destruct (delete_spec_cases _ _ _ _ _ _ Hspec) as [(-> & Hs & E)|[Hst E]]; [by left|right].
    split; [by rewrite Hst|exact E].
Qed.

End Handlers.

(** ** Status values on the wire *)

(** C29: every status the worker can produce reaches the client unchanged, both
    inside a response message and as the final status of a call. *)
Theorem status_wire_roundtrip (st : Status) (Hwf : Status_wf st) :
  FromRpcStatus (SetStatus st) = st /\ FromGrpcStatus (ToGrpcStatus st) = st.
Proof.
  destruct st as [c m]. unfold Status_wf in Hwf. cbn in Hwf.
  destruct c; try done. rewrite Hwf by done. done.
Qed.

(** A status the client does not know is an error to it: whatever number the
    peer puts into the code of a response, and whatever status the library ends
    a call with, the client reports success only for OK. *)
Theorem unknown_codes_are_errors :
  (forall st, ok (FromRpcStatus st) = true <-> rpc.code st = rpc.STATUS_CODE_OK) /\
  (forall g, ok (FromGrpcStatus g) = true <-> grpc.error_code g = grpc.OK) /\
  (forall c, ~ (1 <= c <= 8) -> c <> 0 -> FromRpcCode c = kInternal).
Proof.
  assert (Hcode : forall c, FromRpcCode c = kOk -> c = rpc.STATUS_CODE_OK).
  { intros c. unfold FromRpcCode. by repeat case_bool_decide. }
  split_and!.
  - intros [c m]. unfold FromRpcStatus. cbn [rpc.code rpc.message]. case_bool_decide as E; [done|].
    split; [|done]. intros Hok%ok_code. cbn in Hok. by apply Hcode in Hok.
  - intros [c m]. by destruct c.
  - intros c Hc Hc0. unfold FromRpcCode, rpc.STATUS_CODE_OK, rpc.STATUS_CODE_INVALID_ARGUMENT,
      rpc.STATUS_CODE_NOT_FOUND, rpc.STATUS_CODE_ALREADY_EXISTS, rpc.STATUS_CODE_UNAVAILABLE,
      rpc.STATUS_CODE_TIMEOUT, rpc.STATUS_CODE_IO_ERROR, rpc.STATUS_CODE_CORRUPTION,
      rpc.STATUS_CODE_RESOURCE_EXHAUSTED. repeat case_bool_decide; try lia. done.
Qed.

(** ** Witnesses *)

Lemma w_inv : cs_inv w_store w_fs.
Proof. exact w_fs_ok. Qed.

Lemma w_inv_empty : cs_inv w_store empty_fs.
Proof. exact (store_ok_empty "/r"). Qed.

Lemma w_cs_need n e : 0 <= n <= 5 -> (e <= 2)%nat -> (cs_need w_store n e < 200)%nat.
Proof. exact (w_need n e). Qed.

Definition w_frames : list rpc.PutChunkFrame :=
  [rpc.payload_metadata (rpc.mkPutChunkMetadata "c1" 5 (value w_sum));
   rpc.payload_data (string_bytes "he"); rpc.payload_data (string_bytes "llo")].
Definition w_serving : os := mkMem (quiet_state empty_fs) [] (frame_peer w_frames []).

(** What is observed of a result, observed once. *)
Lemma observe {A B C} (f : A -> B) (g : A -> C) x b c : (fun r => (f r, g r)) x = (b, c) -> f x = b /\ g x = c.
Proof. by intros [= <- <-]. Qed.
Lemma observe_more {A B C D} (f : A -> B) (g : A -> C) (h : A -> D) x b c d :
  (fun r => (f r, (g r, h r))) x = (b, (c, d)) -> f x = b /\ (g x = c /\ h x = d).
Proof. by intros [= <- <- <-]. Qed.

Definition w_bound : nat := S (cs_need w_store u64_max 0).
Lemma w_bound_large : (200 <= w_bound)%nat.
Proof.
  unfold w_bound. cbn [cs_need FileChunkStore_contract]. unfold store_need.
  assert (Z.to_nat 200 <= Z.to_nat u64_max)%nat by (apply Z2Nat.inj_le; unfold u64_max, u64_modulus; lia).
  change (Z.to_nat 200) with 200%nat in *. lia.
Qed.

Abbreviation w_upload n := (run (WorkerService.PutChunk (serving w_store) n 77) w_serving).
Definition w_upload_read : list rpc_event := (fun f => ev ServerRead (Some f)) <$> w_frames.

Lemma w_upload_end :
  (w_upload 200).1 = Done (grpc.Status_OK, rpc.mkOperationResponse (SetStatus Status_Ok)) /\
  s_trace (view (w_upload 200).2) = w_upload_read ++ [ev ServerRead None].
Proof. apply (observe fst (fun r => s_trace (view r.2))). vm_compute. reflexivity. Qed.

Lemma w_upload_run : w_upload w_bound = w_upload 200.
Proof. apply extends_run; [apply Worker_PutChunk_mono, w_bound_large|]. by rewrite (proj1 w_upload_end). Qed.

Lemma Worker_PutChunk_stores_frames_witness :
  cs_chunks w_store (s_fs (view (w_upload w_bound).2)) w_id = Some (w_sum, w_data).
Proof.
  destruct (Worker_PutChunk_stores_frames w_store w_bound 77 w_serving
    w_inv_empty (Nat.lt_succ_diag_r _)) as (first & tr & Htr & Hres). cbv zeta in *.
  rewrite w_upload_run in *. rewrite (proj2 w_upload_end) in Htr.
  assert (Efirst : Some (rpc.payload_metadata (rpc.mkPutChunkMetadata "c1" 5 (value w_sum))) = first)
    by exact (f_equal (fun l => match l with ev ServerRead x :: _ => x | _ => None end) Htr).
  assert (Etr : tail w_upload_read ++ [ev ServerRead None] = tr) by exact (f_equal tail Htr).
  subst first tr.
  destruct Hres as (st & Hst & _ & [[Hno _]|(_ & _ & _ & _ & E)] & _).
  - rewrite (proj1 w_upload_end) in Hst. destruct st as [[] m]; by injection Hst.
  - rewrite (E w_id). transitivity (Some (w_sum, w_data)); [|reflexivity]. vm_compute. reflexivity.
Defined.

Abbreviation w_stream := (run (WorkerService.GetChunk (serving w_store) 200 (rpc.mkGetChunkRequest "c1" 1 3)) (quiet_world w_fs)).

Lemma w_stream_end : w_stream.1 = Done grpc.Status_OK.
Proof. vm_compute. reflexivity. Qed.

Lemma Worker_GetChunk_streams_range_witness :
  exists tr, s_trace (view w_stream.2) = tr /\ sent tr = string_bytes "ell".
Proof.
  destruct (Worker_GetChunk_streams_range w_store 200 (rpc.mkGetChunkRequest "c1" 1 3) (quiet_world w_fs) w_inv
    ltac:(by vm_compute) ltac:(by vm_compute) ltac:(apply w_cs_need; cbn; lia)) as (g & tr & Hg & _ & Htr & _ & Hok & _).
  cbv zeta in *. rewrite w_stream_end in Hg. injection Hg as <-.
  destruct (Hok eq_refl) as (_ & c & p & Hp & _ & _ & Hsent). exists tr. split; [exact Htr|]. rewrite Hsent.
  assert (E : Some (c, p) = Some (w_sum, w_data)) by (rewrite <- Hp; exact w_taken). injection E as -> ->.
  vm_compute. reflexivity.
Defined.

Lemma Worker_Head_and_Delete_witness :
  exists resp, (run (WorkerService.HeadChunk (serving w_store) 200 (rpc.mkHeadChunkRequest "c1"))
    (quiet_world w_fs)).1 = Done (grpc.Status_OK, resp).
Proof.
  destruct (Worker_Head_and_Delete w_store 200 "c1" (quiet_world w_fs) w_inv
    ltac:(apply w_cs_need; cbn; lia)) as ((resp & Hr & _) & _).
  exists resp. exact Hr.
Defined.

Lemma status_wire_roundtrip_witness :
  FromRpcStatus (SetStatus (Status_make kCorruption "BLAKE3 checksum mismatch")) =
  Status_make kCorruption "BLAKE3 checksum mismatch".
Proof.
  exact (proj1 (status_wire_roundtrip (Status_make kCorruption "BLAKE3 checksum mismatch")
    (Status_make_wf _ _))).
Defined.
