(* ===== verification/EndToEnd.v ===== *)
(** * A client and a worker together: what a client's success means for the
    store at the other end, and what comes back. *)
From stdpp Require Import functions.
From S2P Require Import Prelude Status Types Path Proto System Prog UniqueFd Blake3 FileIO Files.
From S2P Require Import Streams ChunkStore DataPlane Services HandlerSpec.
From S2P Require Import Client ClientSpec StorageClient ObjectSpec ClientTheorems.
From S2P Require Import MemOS StoreSpec StoreTheorems ServiceTheorems Fuel.

(** ** Definitions

    The two sides of a call see it as two traces.  The RPC library connects
    them: messages arrive in the order they were sent, each once, up to the
    point where the reader stops; a reader sees the end of the stream only
    after the last message; a call that ends with OK ended with the status and
    the response of the handler that served it. *)

Definition client_frames (tr : list rpc_event) : list rpc.PutChunkFrame :=
  omap (fun e => match e with ev (ClientWrite m) true => Some m | _ => None end) tr.
Definition server_reads (tr : list rpc_event) : list (option rpc.PutChunkFrame) :=
  omap (fun e => match e with ev ServerRead r => Some r | _ => None end) tr.
Definition put_answers (tr : list rpc_event) : list (grpc.Status * rpc.OperationResponse) :=
  omap (fun e => match e with ev FinishPut r => Some r | _ => None end) tr.

Definition client_messages (tr : list rpc_event) : list rpc.ChunkData :=
  omap (fun e => match e with ev ClientRead (Some m) => Some m | _ => None end) tr.
Definition server_messages (tr : list rpc_event) : list rpc.ChunkData :=
  omap (fun e => match e with ev (ServerWrite m) true => Some m | _ => None end) tr.
Definition get_requests (tr : list rpc_event) : list rpc.GetChunkRequest :=
  omap (fun e => match e with ev (StartGet _ m) _ => Some m | _ => None end) tr.
Definition get_answers (tr : list rpc_event) : list grpc.Status :=
  omap (fun e => match e with ev FinishGet g => Some g | _ => None end) tr.

Definition head_requests (tr : list rpc_event) : list rpc.HeadChunkRequest :=
  omap (fun e => match e with ev (CallHead _ m) _ => Some m | _ => None end) tr.
Definition head_answers (tr : list rpc_event) : list (grpc.Status * rpc.HeadChunkResponse) :=
  omap (fun e => match e with ev (CallHead _ _) r => Some r | _ => None end) tr.

(** The client's traffic [trc] and a handler's, [trw], with its result: the
    handler serves what the client sends. *)
Definition upload_link (trc trw : list rpc_event) (o : outcome (grpc.Status * rpc.OperationResponse)) : Prop :=
  (exists n, server_reads trw `prefix_of` (Some <$> client_frames trc) ++ replicate n None) /\
  (forall a, a ∈ put_answers trc -> grpc.ok a.1 = true -> o = Done a).

Definition inquiry_link (trc : list rpc_event) (req : rpc.HeadChunkRequest)
    (o : outcome (grpc.Status * rpc.HeadChunkResponse)) : Prop :=
  (forall m, m ∈ head_requests trc -> m = req) /\
  (forall a, a ∈ head_answers trc -> grpc.ok a.1 = true -> o = Done a).

Definition download_link (trc trw : list rpc_event) (req : rpc.GetChunkRequest) (o : outcome grpc.Status) : Prop :=
  (forall m, m ∈ get_requests trc -> m = req) /\
  (forall g, g ∈ get_answers trc -> grpc.ok g = true -> o = Done g /\ client_messages trc = server_messages trw).

(** ** Lemmas *)

Lemma client_frames_accepted l tr :
  client_frames (accepted l ++ tr) = (rpc.payload_data <$> l) ++ client_frames tr.
Proof. unfold client_frames, accepted. rewrite omap_app. f_equal. induction l as [|b l IH]; [done|]. cbn. f_equal. exact IH. Qed.

Lemma put_answers_accepted l tr : put_answers (accepted l ++ tr) = put_answers tr.
Proof. unfold put_answers, accepted. rewrite omap_app. induction l as [|b l IH]; [done|]. exact IH. Qed.

(** Both, for the traffic of an upload. *)
Lemma upload_projections ctx md l tr :
  client_frames ([ev (StartPut ctx) tt; ev (ClientWrite md) true] ++ accepted l ++ tr) =
    md :: (rpc.payload_data <$> l) ++ client_frames tr /\
  put_answers ([ev (StartPut ctx) tt; ev (ClientWrite md) true] ++ accepted l ++ tr) = put_answers tr.
Proof. rewrite <- client_frames_accepted, <- (put_answers_accepted l tr). by split. Qed.

(** Data of a read, and what was received as the data of all reads. *)
Definition read_data (r : option rpc.PutChunkFrame) : list byte :=
  match r with Some (rpc.payload_data d) => d | _ => [] end.

Lemma received_reads tr : received tr = server_reads tr ≫= read_data.
Proof.
  induction tr as [|[c r] tr IH]; [done|]. change (ev c r :: tr) with ([ev c r] ++ tr).
  rewrite received_more, IH. unfold server_reads. rewrite omap_app, bind_app. f_equal.
  by destruct c; try done; destruct r as [[]|]; cbn; rewrite ?app_nil_r.
Qed.

Lemma bind_prefix {A B} (f : A -> list B) l k : l `prefix_of` k -> l ≫= f `prefix_of` k ≫= f.
Proof. intros [m ->]. rewrite bind_app. by apply prefix_app_r. Qed.

Lemma read_data_frames l n :
  ((Some <$> (rpc.payload_data <$> l)) ++ replicate n None) ≫= read_data = concat l.
Proof.
  rewrite bind_app. assert (E : replicate n None ≫= read_data = []) by (by induction n).
  rewrite E, app_nil_r. induction l as [|b l IH]; cbn; [done|]. by f_equal.
Qed.

(** Equal length makes a prefix the whole. *)
Lemma prefix_blen {A} (l k : list A) : l `prefix_of` k -> blen l = blen k -> l = k.
Proof.
  intros [m ->] E. unfold blen in E. rewrite length_app in E.
  assert (m = []) as -> by (destruct m; [done|cbn in E; lia]). by rewrite app_nil_r.
Qed.

Lemma sent_messages tr : sent tr = contents (server_messages tr).
Proof.
  induction tr as [|[c r] tr IH]; [done|]. change (ev c r :: tr) with ([ev c r] ++ tr).
  rewrite sent_more, IH. unfold server_messages, contents. rewrite omap_app, fmap_app, concat_app.
  f_equal. by destruct c; try done; destruct r; cbn; rewrite ?app_nil_r.
Qed.

(** A projection that sees nothing in the messages of a stream. *)
Lemma omap_streamed {B} (f : rpc_event -> option B) l tr :
  (forall m, f (ev ClientRead (Some m)) = None) -> omap f (streamed l ++ tr) = omap f tr.
Proof.
  intros Hf. rewrite omap_app. assert (E : omap f (streamed l) = []); [|by rewrite E].
  induction l as [|m l IH]; [done|]. cbn. rewrite Hf. exact IH.
Qed.

Lemma streamed_messages l tr : client_messages (streamed l ++ tr) = l ++ client_messages tr.
Proof.
  unfold client_messages. rewrite omap_app. f_equal. induction l as [|b l IH]; [done|]. cbn. f_equal. exact IH.
Qed.

(** The projections of the traffic of an object download that ends with [e]. *)
Lemma object_projections ctx hm gm a l e :
  let tr := ev (CallHead ctx hm) a :: [ev (StartGet ctx gm) tt] ++ streamed l ++ e in
  head_answers tr = a :: head_answers e /\ get_requests tr = gm :: get_requests e /\
  get_answers tr = get_answers e /\ client_messages tr = l ++ client_messages e.
Proof.
  intros tr. split; [|split; [|split]].
  - unfold head_answers, tr. cbn. f_equal. by rewrite omap_streamed.
  - unfold get_requests, tr. cbn. f_equal. by rewrite omap_streamed.
  - unfold get_answers, tr. cbn. by rewrite omap_streamed.
  - transitivity (client_messages (streamed l ++ e)); [done|apply streamed_messages].
Qed.

(** What a successful upload sent, and the answer it got. *)
Lemma upload_frames quiet ctx md d tr st :
  upload quiet ctx md d tr st -> ok st = true ->
  exists g resp, (g, resp) ∈ put_answers tr /\ grpc.ok g = true /\
    (client_frames tr = [] \/
     exists l, client_frames tr = md :: (rpc.payload_data <$> l) /\ concat l `prefix_of` d /\
       rpc.code (rpc.or_status resp) = rpc.STATUS_CODE_OK).
Proof.
  intros [wd g resp|st' l wd fin _ Hc|l b wd g resp Hl Hp|l wd g resp Hl Hd] Hok.
  - exists g, resp. split; [cbn; set_solver|]. split; [by apply FromGrpcStatus_ok|by left].
  - apply ok_code in Hok. congruence.
  - apply upload_status_ok in Hok as [Hg Hr]. exists g, resp.
    destruct (upload_projections ctx md l [ev (ClientWrite (rpc.payload_data b)) false; ev WritesDone wd;
      ev FinishPut (g, resp)]) as [-> ->].
    split; [cbn; set_solver|split; [done|right; exists l]].
    split; [cbn; by rewrite app_nil_r|split; [|done]].
    transitivity (concat (l ++ [b])); [|done]. rewrite concat_app. by apply prefix_app_r.
  - apply upload_status_ok in Hok as [Hg Hr]. exists g, resp.
    destruct (upload_projections ctx md l [ev WritesDone wd; ev FinishPut (g, resp)]) as [-> ->].
    split; [cbn; set_solver|split; [done|right; exists l]].
    split; [cbn; by rewrite app_nil_r|by rewrite Hd].
Qed.

(** What the handler of a successful upload read and answered: the announcement
    and a beginning of the data, or at once the end of the stream. *)
Lemma upload_answered quiet ctx md d trc st first tr r :
  upload quiet ctx md d trc st -> ok st = true -> upload_link trc (ev ServerRead first :: tr) (Done r) ->
  grpc.ok r.1 = true /\
  (first = None \/
   first = Some md /\ received tr `prefix_of` d /\ rpc.code (rpc.or_status r.2) = rpc.STATUS_CODE_OK).
Proof.
  intros Hup Hok [[n Hreads] Hans].
  destruct (upload_frames _ _ _ _ _ _ Hup Hok) as (g & resp & Hin & Hg & Hframes).
  specialize (Hans _ Hin Hg). injection Hans as ->. split; [exact Hg|].
  change (server_reads (ev ServerRead first :: tr)) with (first :: server_reads tr) in Hreads.
  destruct Hframes as [E|(l & E & Hl & Hcode)]; rewrite E in Hreads.
  - left. destruct n; [by apply prefix_nil_inv in Hreads|]. by apply prefix_cons_inv_1 in Hreads.
  - right. pose proof (prefix_cons_inv_1 _ _ _ _ Hreads) as ->. apply prefix_cons_inv_2 in Hreads.
    split; [done|split; [|exact Hcode]]. transitivity (concat l); [|exact Hl].
    rewrite received_reads, <- (read_data_frames l n). by apply bind_prefix.
Qed.

(** What the handlers of a successful download answered: the first described the
    object, the second streamed as many bytes as the first had said. *)
Lemma told_answers self id trc head d rh rg trg greq :
  told self id trc head d ->
  inquiry_link trc (rpc.mkHeadChunkRequest (object_id_value id)) (Done rh) -> download_link trc trg greq (Done rg) ->
  rpc.code (rpc.hresp_status rh.2) = rpc.STATUS_CODE_OK /\
  greq = rpc.mkGetChunkRequest (object_id_value id) 0 (rpc.hresp_size rh.2) /\
  grpc.ok rg = true /\ d = sent trg.
Proof.
  intros (g & resp & get & Etr & Hg & Hcode & -> & l & g' & -> & Hg' & ->) [_ Hha] [Hreq Hga].
  destruct (object_projections (client_context self) (rpc.mkHeadChunkRequest (object_id_value id))
    (rpc.mkGetChunkRequest (object_id_value id) 0 (rpc.hresp_size resp)) (g, resp) l [ev ClientRead None; ev FinishGet g'])
    as (E1 & E2 & E3 & E4).
  rewrite <- Etr in E1, E2, E3, E4. cbn in E1, E2, E3, E4. rewrite app_nil_r in E4. rewrite E1 in Hha. rewrite E2 in Hreq. rewrite E3, E4 in Hga.
  pose proof (Hreq _ ltac:(by apply list_elem_of_singleton)) as <-.
  specialize (Hha _ ltac:(by apply list_elem_of_singleton) Hg). injection Hha as ->.
  destruct (Hga _ ltac:(by apply list_elem_of_singleton) Hg') as [Est ->]. injection Est as ->.
  split; [exact Hcode|split; [done|split; [exact Hg'|]]]. by rewrite sent_messages.
Qed.

(** The response of an inquiry that found something. *)
Lemma described_found acc calm m id a resp :
  head_spec acc calm m id a ->
  resp = match so_value a with
         | None => rpc.mkHeadChunkResponse (SetStatus (so_status a)) "" 0 ""
         | Some v => rpc.mkHeadChunkResponse (SetStatus Status_Ok) (chunk_id_value (hr_chunk_id v))
                       (hr_size v) (value (hr_checksum v))
         end ->
  rpc.code (rpc.hresp_status resp) = rpc.STATUS_CODE_OK ->
  exists c p, m id = Some (c, p) /\ rpc.hresp_size resp = blen p.
Proof.
  intros Hs -> Hcode. destruct Hs as [st1 _ _|st1 _ _ _|c p _ Hp|st1 _ _ _]; cbn [so_value SO_error SO_value] in *.
  1,2,4: cbn in Hcode; apply SetStatus_ok in Hcode; by rewrite NormalizeError_not_ok in Hcode.
  exists c, p. by split.
Qed.

(** The data that were stored are all that was sent. *)
Lemma announced_all `{Blake3} id d x :
  data_matches (put_request (rpc.mkPutChunkMetadata id (blen d) (hex_string (blake3 d)))) x ->
  x `prefix_of` d -> x = d.
Proof. intros [Hsz _] Hp. apply prefix_blen; [exact Hp|exact Hsz]. Qed.

Section Linked.
Context `{Libc} {C : Type} `{ChunkStoreContract C}.
Context (store : C).

(** An upload that succeeded has stored the content, and nothing else. *)
Lemma upload_stored addr quiet ctx id d trc st s r s' trw :
  upload quiet ctx (rpc.payload_metadata (rpc.mkPutChunkMetadata id (blen d) (hex_string (blake3 d)))) d trc st ->
  ok st = true -> put_handled store addr s r s' -> s_trace s' = s_trace s ++ trw -> upload_link trc trw (Done r) ->
  cs_chunks store (s_fs s) (mkChunkId id) = None /\
  same_map (<[mkChunkId id := Some (content_checksum d, d)]> (cs_chunks store (s_fs s))) (cs_chunks store (s_fs s')).
Proof.
  intros Hup Hok (first & tr & Htr & Hpost) Htrw Hlink.
  rewrite Htrw in Htr. apply app_inv_head in Htr as ->.
  destruct (upload_answered _ _ _ _ _ _ _ _ _ Hup Hok Hlink) as [Hg [->|(-> & Hpre & Hcode)]].
  { destruct Hpost as [-> _]. done. }
  cbn [rpc.md_chunk_id] in Hpost.
  destruct Hpost as (st' & x & broken & fin & -> & _ & _ & Hfin & _ & Hspec).
  apply SetStatus_ok in Hcode.
  destruct (put_spec_cases _ _ _ _ _ _ _ _ _ Hspec) as [[Hst _]|(_ & Hf & Hdm & Hn & Hm)]; [congruence|].
  destruct (Hfin Hf) as [-> _]. eapply announced_all in Hdm; [|exact Hpre].
  split; [exact Hn|]. by rewrite Hdm in Hm.
Qed.

(** A download that succeeded has fetched what is stored. *)
Lemma told_stored self id trc head d sh rh sh' sg rg sg' trg greq :
  told self id trc head d ->
  head_handled store (rpc.mkHeadChunkRequest (object_id_value id)) sh rh sh' ->
  inquiry_link trc (rpc.mkHeadChunkRequest (object_id_value id)) (Done rh) ->
  get_handled store greq sg rg sg' -> s_trace sg' = s_trace sg ++ trg ->
  download_link trc trg greq (Done rg) ->
  cs_chunks store (s_fs sh) (mkChunkId (object_id_value id)) =
    cs_chunks store (s_fs sg) (mkChunkId (object_id_value id)) ->
  exists c, cs_chunks store (s_fs sg) (mkChunkId (object_id_value id)) = Some (c, d).
Proof.
  intros Htold (_ & a & Hhead & ->) Hinq (_ & st & x & broken & tr & -> & Htr & <- & _ & Hget) Htrg Hdown Hsame.
  rewrite Htrg in Htr. apply app_inv_head in Htr as ->.
  destruct (told_answers _ _ _ _ _ _ _ _ _ Htold Hinq Hdown) as (Hcode & -> & Hok & ->).
  destruct (described_found _ _ _ _ _ _ Hhead eq_refl Hcode) as (c' & p' & Hp' & Hsz). cbn [snd] in Hsz.
  rewrite ToGrpcStatus_ok in Hok.
  destruct (get_spec_cases _ _ _ _ _ _ _ Hget) as [_ Hdone].
  destruct (Hdone Hok) as (c & p & Hp & _ & _ & _ & ->). exists c.
  cbn [get_chunk_id range offset size rpc.gr_chunk_id rpc.gr_offset rpc.gr_size snd] in Hp |- *. rewrite Hp. do 2 f_equal.
  rewrite zdrop_0. cbn [rpc.hq_chunk_id] in Hp'. rewrite Hsame, Hp in Hp'. injection Hp' as <- <-.
  rewrite Hsz. by apply eq_sym, ztake_all.
Qed.

End Linked.

(** ** Sessions

    The client and the worker run on machines of their own; the hash is the
    same function on both. *)
Section TwoMachines.
Context {PC PW : Posix} `{Libc} {C : Type} `{ChunkStoreContract C}.
Context (store : C) (self : StorageClient.t GrpcDataPlaneClient.t).
Abbreviation on_client := (run (H:=PC)).
Abbreviation on_worker := (run (H:=PW)).
Abbreviation state_c := (view (Posix:=PC)).
Abbreviation state_w := (view (Posix:=PW)).
Abbreviation chunks_w w := (cs_chunks store (s_fs (state_w w))).
Abbreviation chunk_of id := (mkChunkId (object_id_value id)).

(** A Put of the client with enough fuel, which ended with [oc] after the traffic
    [trc]; and a Get. *)
Inductive client_put (id : ObjectId) (source : string) (wc : os (Posix:=PC)) : list rpc_event -> outcome Status -> Prop :=
| client_put_intro fuel wc' oc trc :
    fs_wf (s_fs (state_c wc)) ->
    (forall d, lookup_file (s_fs (state_c wc)) source = Some d -> (length d < fuel)%nat) ->
    (s_events (state_c wc) < fuel)%nat ->
    on_client (StorageClient.Put self fuel id source) wc = (oc, wc') ->
    s_trace (state_c wc') = s_trace (state_c wc) ++ trc ->
    client_put id source wc trc oc.

Inductive client_get (id : ObjectId) (dest : string) (wc wc' : os (Posix:=PC))
  : Z -> list rpc_event -> outcome (Status * Z) -> Prop :=
| client_get_intro fuel next oc trc :
    fs_wf (s_fs (state_c wc)) ->
    (max_message * s_events (state_c wc) + max_message + s_events (state_c wc) < fuel)%nat ->
    on_client (StorageClient.Get self fuel next id dest) wc = (oc, wc') ->
    s_trace (state_c wc') = s_trace (state_c wc) ++ trc ->
    client_get id dest wc wc' next trc oc.

(** A Put of the client and the handler that served it with the result [o], linked
    by the RPC library. *)
Inductive put_session (id : ObjectId) (source : string) (wc : os (Posix:=PC)) (ww ww' : os (Posix:=PW))
  : Z -> list rpc_event -> outcome (grpc.Status * rpc.OperationResponse) -> outcome Status -> Prop :=
| put_session_intro fuelw addr oc o trc trw :
    client_put id source wc trc oc ->
    cs_inv store (s_fs (state_w ww)) -> (cs_need store u64_max (s_events (state_w ww)) < fuelw)%nat ->
    on_worker (WorkerService.PutChunk (serving store) fuelw addr) ww = (o, ww') ->
    s_trace (state_w ww') = s_trace (state_w ww) ++ trw ->
    upload_link trc trw o ->
    put_session id source wc ww ww' addr trc o oc.

(** A Get of the client, the handler that answered its inquiry with [oh], and the one
    that streamed the object and ended with [og]. *)
Inductive get_session (id : ObjectId) (dest : string) (wc wc' : os (Posix:=PC)) (wh wg : os (Posix:=PW))
  : Z -> list rpc_event -> outcome (grpc.Status * rpc.HeadChunkResponse) -> list rpc_event -> outcome grpc.Status ->
    outcome (Status * Z) -> Prop :=
| get_session_intro fuelh fuelg next oc greq oh wh' og wg' trc trg :
    client_get id dest wc wc' next trc oc ->
    cs_inv store (s_fs (state_w wh)) -> (cs_need store 0 (s_events (state_w wh)) < fuelh)%nat ->
    cs_inv store (s_fs (state_w wg)) -> is_u64 (rpc.gr_offset greq) -> is_u64 (rpc.gr_size greq) ->
    (cs_need store (rpc.gr_size greq) (s_events (state_w wg)) < fuelg)%nat ->
    on_worker (WorkerService.HeadChunk (serving store) fuelh (rpc.mkHeadChunkRequest (object_id_value id))) wh = (oh, wh') ->
    on_worker (WorkerService.GetChunk (serving store) fuelg greq) wg = (og, wg') ->
    s_trace (state_w wg') = s_trace (state_w wg) ++ trg ->
    inquiry_link trc (rpc.mkHeadChunkRequest (object_id_value id)) oh -> download_link trc trg greq og ->
    get_session id dest wc wc' wh wg next trc oh trg og oc.

(** What a client that reports success has sent, or was told. *)
Lemma client_put_sent id source wc trc st :
  client_put id source wc trc (Done st) -> ok st = true ->
  exists d quiet ctx, lookup_file (s_fs (state_c wc)) source = Some d /\
    upload quiet ctx (rpc.payload_metadata (rpc.mkPutChunkMetadata (object_id_value id) (blen d) (hex_string (blake3 d)))) d trc st.
Proof.
  intros Hput. remember (Done st) as oc eqn:Eoc. revert Eoc.
  destruct Hput as [fuel wc' oc trc Hwf Hlen Hfuel Hrc Htrc]. intros -> Hok.
  destruct (returns_run _ _ wc (Object_Put_wp self fuel id source (state_c wc) Hwf Hlen Hfuel)) as (st' & Hr & Hpost).
  rewrite Hrc in Hr, Hpost. injection Hr as <-.
  destruct (put_object_sent _ _ _ _ _ _ Hpost) as [[Hno _]|(d & tr & Hd & Htr & Hup)]; [congruence|].
  cbn [snd] in Htr. rewrite Htrc in Htr. apply app_inv_head in Htr as <-. by eauto.
Qed.

Lemma client_get_told id dest wc wc' next trc st next' :
  client_get id dest wc wc' next trc (Done (st, next')) -> ok st = true ->
  exists d head, told self id trc head d /\
    lookup_file (s_fs (state_c wc)) dest = None /\ lookup_file (s_fs (state_c wc')) dest = Some d.
Proof.
  intros Hget. remember (Done (st, next')) as oc eqn:Eoc. revert Eoc.
  destruct Hget as [fuel next oc trc Hwf Hfuel Hrc Htrc]. intros -> Hok.
  pose proof (wp_run _ _ wc (Object_Get_wp self fuel next id dest (state_c wc) Hwf
    (fun r s1 s2 => grpc_heads_built self _ r s1 s2) Hfuel)) as Hget. rewrite Hrc in Hget.
  destruct (get_object_ok self id dest next (state_c wc) st next' (state_c wc') Hwf Hget
    (ex_intro _ trc Htrc) Hok) as (Hn & tr & d & head & Htr & Htold & Hd & _).
  rewrite Htrc in Htr. apply app_inv_head in Htr as <-. exists d, head. split; [exact Htold|].
  split; [unfold lookup_file; by rewrite Hn|exact Hd].
Qed.

(** What the two sessions do, shared by the properties below. *)
Definition put_effect (id : ObjectId) (source : string) (wc : os (Posix:=PC)) (ww ww' : os (Posix:=PW)) : Prop :=
  exists d, lookup_file (s_fs (state_c wc)) source = Some d /\ chunks_w ww (chunk_of id) = None /\
    same_map (<[chunk_of id := Some (content_checksum d, d)]> (chunks_w ww)) (chunks_w ww').

Lemma put_session_effect id source wc ww ww' addr trc o st :
  put_session id source wc ww ww' addr trc o (Done st) -> ok st = true -> put_effect id source wc ww ww'.
Proof.
  intros Hput. remember (Done st) as oc eqn:Eoc. revert Eoc.
  destruct Hput as [fuelw addr oc o trc trw Hclient Hinv Hfuelw Hrw Htrw Hlink]. intros -> Hok.
  destruct (client_put_sent _ _ _ _ _ Hclient Hok) as (d & quiet & ctx & Hd & Hup).
  destruct (returns_run _ _ ww (Handler_PutChunk_wp store fuelw addr (state_w ww) Hinv Hfuelw)) as (r & Hr & Hhandled).
  rewrite Hrw in Hr, Hhandled. cbn [fst snd] in Hr, Hhandled. subst o. exists d. split; [exact Hd|].
  exact (upload_stored store _ _ _ _ _ _ _ _ _ _ _ Hup Hok Hhandled Htrw Hlink).
Qed.

Lemma get_session_effect id dest wc wc' wh wg next trc oh trg og st next' :
  get_session id dest wc wc' wh wg next trc oh trg og (Done (st, next')) -> ok st = true -> chunks_w wh (chunk_of id) = chunks_w wg (chunk_of id) ->
  exists c d, chunks_w wg (chunk_of id) = Some (c, d) /\
    lookup_file (s_fs (state_c wc)) dest = None /\ lookup_file (s_fs (state_c wc')) dest = Some d.
Proof.
  intros Hget. remember (Done (st, next')) as oc eqn:Eoc. revert Eoc.
  destruct Hget as [fuelh fuelg next oc greq oh wh' og wg' trc trg Hclient Hinvh Hfuelh Hinvg Ho Hs Hfuelg
    Hrh Hrg Htrg Hinquiry Hdownload]. intros -> Hok Hsame.
  destruct (client_get_told _ _ _ _ _ _ _ _ Hclient Hok) as (d & head & Htold & Hn & Hd).
  destruct (returns_run _ _ wh (Handler_HeadChunk_wp store fuelh (rpc.mkHeadChunkRequest (object_id_value id))
    (state_w wh) Hinvh Hfuelh)) as (h & Hr & Hh). rewrite Hrh in Hr, Hh. cbn [fst snd] in Hr, Hh. subst oh.
  destruct (returns_run _ _ wg (Handler_GetChunk_wp store fuelg greq (state_w wg) Hinvg Ho Hs Hfuelg))
    as (g & Hr & Hg). rewrite Hrg in Hr, Hg. cbn [fst snd] in Hr, Hg. subst og.
  destruct (told_stored store _ _ _ _ _ _ _ _ _ _ _ _ _ Htold Hh Hinquiry Hg Htrg Hdownload Hsame) as (c & Hc).
  by exists c, d.
Qed.

(** ** Properties *)

(** C6: when the client's Put reports success, the worker that served it has
    gained the object, which was absent: under its identifier the store holds
    exactly the content of the source file with its checksum, and nothing else
    has changed.  This holds in every environment on both sides. *)
Theorem Put_reaches_store id source wc ww ww' addr trc o st
  (Hput : put_session id source wc ww ww' addr trc o (Done st)) (Hok : ok st = true) :
  exists d, lookup_file (s_fs (state_c wc)) source = Some d /\ chunks_w ww (chunk_of id) = None /\
    chunks_w ww' (chunk_of id) = Some (content_checksum d, d) /\
    (forall other, other <> chunk_of id -> chunks_w ww' other = chunks_w ww other).
Proof.
  destruct (put_session_effect _ _ _ _ _ _ _ _ _ Hput Hok) as (d & Hd & Hn & Hm). exists d.
  split; [exact Hd|split; [exact Hn|split]].
  - rewrite (Hm _). apply store_insert_eq.
  - intros other Hne. rewrite (Hm _). by apply store_insert_ne.
Qed.

(** C25: when the client's Get reports success, the destination, which did not
    exist, holds exactly what the worker's store has under the object's
    identifier, provided the chunk is not replaced between the inquiry and the
    download; in every environment on both sides, whatever the hash. *)
Theorem Get_fetches_stored id dest wc wc' wh wg next trc oh trg og st next'
  (Hget : get_session id dest wc wc' wh wg next trc oh trg og (Done (st, next'))) (Hok : ok st = true)
  (Hsame : chunks_w wh (chunk_of id) = chunks_w wg (chunk_of id)) :
  exists c d, chunks_w wg (chunk_of id) = Some (c, d) /\
    lookup_file (s_fs (state_c wc)) dest = None /\ lookup_file (s_fs (state_c wc')) dest = Some d.
Proof. exact (get_session_effect _ _ _ _ _ _ _ _ _ _ _ _ _ Hget Hok Hsame). Qed.

(** C12: what one client stores another one reads: after a successful Put, a
    successful Get of the same object, on any machine and at any later time at
    which the worker still has the chunk, yields the bytes of the source. *)
Theorem Object_roundtrip id source dest wc ww ww' addr trc o st
  wc1 wc2 wh wg next trc' oh trg og st' next'
  (Hput : put_session id source wc ww ww' addr trc o (Done st)) (Hok : ok st = true)
  (Hget : get_session id dest wc1 wc2 wh wg next trc' oh trg og (Done (st', next'))) (Hok' : ok st' = true)
  (Hh : chunks_w wh (chunk_of id) = chunks_w ww' (chunk_of id))
  (Hg : chunks_w wg (chunk_of id) = chunks_w ww' (chunk_of id)) :
  lookup_file (s_fs (state_c wc2)) dest = lookup_file (s_fs (state_c wc)) source.
Proof.
  destruct (put_session_effect _ _ _ _ _ _ _ _ _ Hput Hok) as (d & -> & _ & Hm).
  destruct (get_session_effect _ _ _ _ _ _ _ _ _ _ _ _ _ Hget Hok' ltac:(congruence)) as (c & x & Hx & _ & ->).
  rewrite Hg, (Hm _), store_insert_eq in Hx. by injection Hx as _ <-.
Qed.

End TwoMachines.

(** ** Witnesses *)

(** A client that sends the file "/src", and a worker with an empty store that
    reads the frames this client sent. *)
Definition w_id_c1 : ObjectId := mkObjectId "c1".
Definition w_announced : rpc.PutChunkFrame :=
  rpc.payload_metadata (rpc.mkPutChunkMetadata "c1" 5 (hex_string (blake3 w_hello))).
Definition w_uploaded : grpc.Status * rpc.OperationResponse := (grpc.Status_OK, rpc.OperationResponse_default).
Definition w_sent : list rpc_event :=
  [ev (StartPut (client_context w_client)) tt; ev (ClientWrite w_announced) true;
   ev (ClientWrite (rpc.payload_data w_hello)) true; ev WritesDone true; ev FinishPut w_uploaded].

Abbreviation w_send := (run (StorageClient.Put w_client 100 w_id_c1 "/src") w_machine).

Lemma w_send_run : w_send.1 = Done Status_Ok /\ s_trace (view w_send.2) = w_sent.
Proof. apply (observe fst (fun r => s_trace (view r.2))). vm_compute. reflexivity. Qed.

Definition w_receiver : os := mkMem (quiet_state empty_fs) [] (frame_peer (client_frames w_sent) []).
Abbreviation w_received n := (run (WorkerService.PutChunk (serving w_store) n 77) w_receiver).

Definition w_frames_read : list rpc_event :=
  [ev ServerRead (Some w_announced); ev ServerRead (Some (rpc.payload_data w_hello)); ev ServerRead None].

(** How the worker ends, and what it then has. *)
Lemma w_received_end :
  (w_received 200).1 = Done w_uploaded /\
  (s_trace (view (w_received 200).2) = w_frames_read /\
   cs_chunks w_store (s_fs (view (w_received 200).2)) (mkChunkId "c1") = Some (w_sum, w_data)).
Proof.
  apply (observe_more fst (fun r => s_trace (view r.2)) (fun r => cs_chunks w_store (s_fs (view r.2)) (mkChunkId "c1"))).
  vm_compute. reflexivity.
Qed.

Lemma w_receiver_run : w_received w_bound = w_received 200.
Proof.
  apply extends_run; [apply Worker_PutChunk_mono, w_bound_large|]. by rewrite (proj1 w_received_end).
Qed.

Lemma w_upload_link : upload_link w_sent w_frames_read (Done w_uploaded).
Proof.
  split.
  - exists 1%nat. by exists [].
  - by intros a ->%list_elem_of_singleton _.
Qed.

Lemma w_client_put : client_put w_client w_id_c1 "/src" w_machine w_sent (Done Status_Ok).
Proof.
  apply (client_put_intro w_client w_id_c1 "/src" w_machine 100 w_send.2).
  - exact w_source_wf.
  - apply w_source_short. lia.
  - cbn. lia.
  - rewrite <- (proj1 w_send_run). apply surjective_pairing.
  - exact (proj2 w_send_run).
Qed.

Lemma w_put_session :
  put_session w_store w_client w_id_c1 "/src" w_machine w_receiver (w_received w_bound).2
    77 w_sent (w_received w_bound).1 (Done Status_Ok).
Proof.
  apply (put_session_intro w_store w_client w_id_c1 "/src" w_machine w_receiver (w_received w_bound).2
    w_bound 77 (Done Status_Ok) (w_received w_bound).1 w_sent w_frames_read).
  - exact w_client_put.
  - exact w_inv_empty.
  - apply Nat.lt_succ_diag_r.
  - apply surjective_pairing.
  - rewrite w_receiver_run. exact (proj1 (proj2 w_received_end)).
  - rewrite w_receiver_run, (proj1 w_received_end). exact w_upload_link.
Qed.

Lemma Put_reaches_store_witness :
  exists d, lookup_file w_source "/src" = Some d /\
    cs_chunks w_store (s_fs (view (w_received w_bound).2)) (mkChunkId "c1") = Some (content_checksum d, d).
Proof.
  destruct (Put_reaches_store w_store w_client w_id_c1 "/src" w_machine w_receiver (w_received w_bound).2
    77 w_sent (w_received w_bound).1 Status_Ok w_put_session eq_refl) as (d & Hd & _ & Hc & _).
  exists d. split; [exact Hd|exact Hc].
Defined.

(** A worker that holds the object, and a client that fetches it. *)
Definition w_fetcher : os := mkMem (mkState 0 1 true [] empty_fs) [] (object_peer w_data).
Abbreviation w_fetch n := (run (StorageClient.Get w_client n 0 w_id_c1 "/dst") w_fetcher).
Abbreviation w_serve := (run (WorkerService.GetChunk (serving w_store) 200 (rpc.mkGetChunkRequest "c1" 0 5)) (quiet_world w_fs)).
Abbreviation w_describe := (run (WorkerService.HeadChunk (serving w_store) 200 (rpc.mkHeadChunkRequest "c1")) (quiet_world w_fs)).

Definition w_description : grpc.Status * rpc.HeadChunkResponse :=
  (grpc.Status_OK, rpc.mkHeadChunkResponse rpc.Status_default "c1" 5 (hex_string (blake3 w_data))).
Definition w_fetched : list rpc_event :=
  [ev (CallHead (client_context w_client) (rpc.mkHeadChunkRequest "c1")) w_description;
   ev (StartGet (client_context w_client) (rpc.mkGetChunkRequest "c1" 0 5)) tt;
   ev ClientRead (Some (rpc.mkChunkData w_data)); ev ClientRead None; ev FinishGet grpc.Status_OK].
Definition w_streamed : list rpc_event := [ev (ServerWrite (rpc.mkChunkData w_data)) true].

Lemma w_fetch_end : (w_fetch 100).1 = Done (Status_Ok, 1) /\ s_trace (view (w_fetch 100).2) = w_fetched.
Proof. apply (observe fst (fun r => s_trace (view r.2))). vm_compute. reflexivity. Qed.

Lemma w_serve_end : w_serve.1 = Done grpc.Status_OK /\ s_trace (view w_serve.2) = w_streamed.
Proof. apply (observe fst (fun r => s_trace (view r.2))). vm_compute. reflexivity. Qed.

Lemma w_describe_end : w_describe.1 = Done w_description.
Proof. vm_compute. reflexivity. Qed.

Lemma w_fetch_run : w_fetch w_enough = w_fetch 100.
Proof.
  apply extends_run; [apply Object_Get_mono|by rewrite (proj1 w_fetch_end)].
  assert (Z.to_nat 100 <= max_message)%nat by (apply Z2Nat.inj_le; lia).
  change (Z.to_nat 100) with 100%nat in *. revert H. generalize max_message. lia.
Qed.

Lemma w_inquiry_link : inquiry_link w_fetched (rpc.mkHeadChunkRequest "c1") (Done w_description).
Proof. split; [by intros m ->%list_elem_of_singleton|by intros a ->%list_elem_of_singleton _]. Qed.

Lemma w_download_link : download_link w_fetched w_streamed (rpc.mkGetChunkRequest "c1" 0 5) (Done grpc.Status_OK).
Proof. split; [by intros m ->%list_elem_of_singleton|by intros g ->%list_elem_of_singleton _]. Qed.

Lemma w_client_get :
  client_get w_client w_id_c1 "/dst" w_fetcher (w_fetch w_enough).2 0 w_fetched (Done (Status_Ok, 1)).
Proof.
  apply (client_get_intro w_client w_id_c1 "/dst" w_fetcher (w_fetch w_enough).2 w_enough).
  - exact empty_fs_wf.
  - exact (w_fuel 1 (le_n 1)).
  - rewrite w_fetch_run, <- (proj1 w_fetch_end). apply surjective_pairing.
  - rewrite w_fetch_run. exact (proj2 w_fetch_end).
Qed.

Lemma w_get_session :
  get_session w_store w_client w_id_c1 "/dst" w_fetcher (w_fetch w_enough).2 (quiet_world w_fs) (quiet_world w_fs)
    0 w_fetched w_describe.1 w_streamed w_serve.1 (Done (Status_Ok, 1)).
Proof.
  apply (get_session_intro w_store w_client w_id_c1 "/dst" w_fetcher (w_fetch w_enough).2 (quiet_world w_fs)
    (quiet_world w_fs) 200 200 0 (Done (Status_Ok, 1)) (rpc.mkGetChunkRequest "c1" 0 5) w_describe.1 w_describe.2
    w_serve.1 w_serve.2 w_fetched w_streamed).
  - exact w_client_get.
  - exact w_inv.
  - apply w_cs_need; cbn; lia.
  - exact w_inv.
  - by vm_compute.
  - by vm_compute.
  - apply w_cs_need; cbn; lia.
  - apply surjective_pairing.
  - apply surjective_pairing.
  - exact (proj2 w_serve_end).
  - rewrite w_describe_end. exact w_inquiry_link.
  - rewrite (proj1 w_serve_end). exact w_download_link.
Qed.

Lemma Get_fetches_stored_witness :
  exists c d, cs_chunks w_store w_fs (mkChunkId "c1") = Some (c, d) /\
    lookup_file (s_fs (view (w_fetch w_enough).2)) "/dst" = Some d.
Proof.
  destruct (Get_fetches_stored w_store w_client w_id_c1 "/dst" w_fetcher (w_fetch w_enough).2
    (quiet_world w_fs) (quiet_world w_fs) _ _ _ _ _ _ _ w_get_session eq_refl eq_refl) as (c & d & Hc & _ & Hd).
  exists c, d. split; [exact Hc|exact Hd].
Defined.

Lemma w_held : cs_chunks w_store w_fs (mkChunkId "c1") = Some (w_sum, w_data).
Proof. vm_compute. reflexivity. Qed.

Lemma w_same_chunk :
  cs_chunks w_store w_fs (mkChunkId "c1") =
  cs_chunks w_store (s_fs (view (w_received w_bound).2)) (mkChunkId "c1").
Proof. rewrite w_receiver_run, w_held. by rewrite (proj2 (proj2 w_received_end)). Qed.

Lemma w_source_held : lookup_file w_source "/src" = Some w_hello.
Proof. vm_compute. reflexivity. Qed.

Lemma Object_roundtrip_witness :
  lookup_file (s_fs (view (w_fetch w_enough).2)) "/dst" = Some w_hello.
Proof.
  etransitivity; [exact (Object_roundtrip w_store w_client w_id_c1 "/src" "/dst" w_machine w_receiver
    (w_received w_bound).2 77 w_sent (w_received w_bound).1 Status_Ok w_fetcher (w_fetch w_enough).2 (quiet_world w_fs) (quiet_world w_fs)
    _ _ _ _ _ _ _ w_put_session eq_refl w_get_session eq_refl w_same_chunk w_same_chunk)|exact w_source_held].
Defined.
