(* ===== verification/ServerTheorems.v ===== *)
(** * A worker under load: handlers that overlap on one store. *)
From stdpp Require Import functions.
From S2P Require Import Prelude Status Types Path Proto System Prog UniqueFd Blake3 MemOS FileIO Files.
From S2P Require Import ChunkFormat Streams ChunkStore FileStore StorePaths StoreSpec Sequence StoreTheorems.
From S2P Require Import Concurrent Protocol Interference Names Interleaving Linearize OneWinner Answers ConcurrencyTheorems.
From S2P Require Import DataPlane Services HandlerSpec Client ServiceTheorems ServerConcurrency Fuel StorageClient ObjectSpec EndToEnd.

(** ** Definitions *)

(** Threads that differ in the fuel of their programs only. *)
Definition thread_extends {C A} (t t' : thread (C:=C) (A:=A)) : Prop :=
  match t, t' with
  | Running cmd p l, Running cmd' p' l' => cmd = cmd' /\ l = l' /\ extends p p'
  | Running _ _ _, _ | _, Running _ _ _ => False
  | t, t' => t = t'
  end.

(** ** Lemmas *)

Lemma play_turn_extends {C A} peer (p q : C -> prog A) n ths ths' f c :
  (forall cmd, extends (p cmd) (q cmd)) -> Forall2 thread_extends ths ths' ->
  play_turn peer p n (mkConfig ths f) = Some c ->
  exists ths2, play_turn peer q n (mkConfig ths' f) = Some (mkConfig ths2 (cf_fs c)) /\
    Forall2 thread_extends (cf_threads c) ths2.
Proof.
  intros Hpq Hths. unfold play_turn. cbn [cf_threads cf_fs].
  destruct (ths !! n) as [t|] eqn:En; [|done].
  destruct (Forall2_lookup_l _ _ _ _ _ Hths En) as (t' & -> & Ht).
  assert (Hput : forall u u', thread_extends u u' -> Forall2 thread_extends (<[n:=u]> ths) (<[n:=u']> ths'))
    by (intros; by apply Forall2_insert).
  destruct t as [cmd l|cmd r l|cmd a l], t' as [cmd' l'|cmd' r' l'|cmd' a' l']; try done; cbn in Ht.
  - injection Ht as <- <-. intros [= <-]. eexists. split; [done|]. by apply Hput.
  - destruct Ht as (<- & <- & Hr). destruct Hr as [q'|a|m|c0 k k' Hk]; try done.
    + intros [= <-]. eexists. split; [done|]. by apply Hput.
    + destruct (mem_call peer c0 NoFault (join l f)) as [x s]. intros [= <-]. eexists. split; [done|]. by apply Hput.
Qed.

(** A run that does not use up its fuel is a run with more fuel. *)
Lemma play_extends {C A} peer (p q : C -> prog A) ns ths ths' f c :
  (forall cmd, extends (p cmd) (q cmd)) -> Forall2 thread_extends ths ths' ->
  play peer p ns (mkConfig ths f) = Some c ->
  exists ths2, play peer q ns (mkConfig ths' f) = Some (mkConfig ths2 (cf_fs c)) /\
    Forall2 thread_extends (cf_threads c) ths2.
Proof.
  intros Hpq. revert ths ths' f. induction ns as [|n ns IH]; intros ths ths' f Hths Hp; cbn in *.
  - injection Hp as <-. by exists ths'.
  - destruct (play_turn peer p n _) as [[ths1 f1]|] eqn:E; [|done].
    destruct (play_turn_extends _ _ _ _ _ _ _ _ Hpq Hths E) as (ths2 & -> & H2). cbn in *. by eapply IH.
Qed.

Lemma initial_extends {C A} (cmds : list (C * locals)) f :
  Forall2 thread_extends (cf_threads (initial (A:=A) cmds f)) (cf_threads (initial (A:=A) cmds f)).
Proof. cbn. induction cmds as [|[cmd l] cmds IH]; by constructor. Qed.

Lemma finished_extends {C A} (ths ths' : list (thread (C:=C) (A:=A))) n cmd a l :
  Forall2 thread_extends ths ths' -> ths !! n = Some (Finished cmd a l) -> ths' !! n = Some (Finished cmd a l).
Proof.
  intros Hths Hn. destruct (Forall2_lookup_l _ _ _ _ _ Hths Hn) as ([| |cmd' a' l'] & -> & Ht); try done.
  cbn in Ht. by injection Ht as <- <- <-.
Qed.

Lemma serve_mono `{Libc} `{Blake3} root n m cmd : (n <= m)%nat -> extends (serve root n cmd) (serve root m cmd).
Proof.
  intros Hm. destruct cmd as [addr|req|req|req]; cbn [serve]; [..|done]; (apply extends_bind; [|done]).
  - by apply Worker_PutChunk_mono.
  - by apply Worker_GetChunk_mono.
  - cbn [WorkerService.HeadChunk serving WorkerService.data_plane_]. apply extends_bind; [|done].
    unfold DataPlaneService.HeadChunk. destruct (negb _); [done|]. exact (Head_mono n m root _ Hm).
Qed.

(** What a handler does to the chunk [id]: it stores it, deletes it, or lets it
    be. *)
Definition serve_spares (id : ChunkId) (cmd : worker_call) : Prop :=
  match cmd with ServeDelete req => mkChunkId (rpc.dq_chunk_id req) <> id | _ => True end.
Definition serve_stores (id : ChunkId) (cmd : worker_call) (a : worker_answer) (tr : list rpc_event) (x : chunk) : Prop :=
  match cmd, a with
  | ServePut _, PutServed r =>
      rpc.code (rpc.or_status r.2) = rpc.STATUS_CODE_OK /\
      exists md rest, tr = ev ServerRead (Some (rpc.payload_metadata md)) :: rest /\
        mkChunkId (rpc.md_chunk_id md) = id /\
        x = (mkChecksum kBlake3 (rpc.md_expected_checksum md), received rest)
  | _, _ => False
  end.

Section Chunk.
Context `{Blake3} (root : string) (calm : Prop) (id : ChunkId).
Abbreviation sp_answers := (sp_answers (Specification:=worker_specification root calm)).
Abbreviation sp_twice := (sp_twice (Specification:=worker_specification root calm)).

Lemma serve_spares_ok cmd m a tr m' :
  sp_answers cmd m a tr m' -> serve_spares id cmd -> m' id = m id \/ m id = None /\ exists x, m' id = Some x.
Proof.
  intros Ha Hdel. destruct cmd as [addr|req|req|req], a as [r|g|r|r]; try done; cbn in Ha.
  - destruct Ha as (first & rest & _ & Hc).
    destruct first as [[|md|x]|]; try (left; apply Hc).
    destruct Hc as (st & d & broken & fin & _ & _ & _ & _ & Hs).
    destruct Hs as [? ? _ _ _ Hm|? ? _ _ Hm|? ? _ _ _ Hn Hm _]; [left; apply Hm..|].
    rewrite (Hm id). cbn [put_chunk_id put_request] in *. destruct (decide (mkChunkId (rpc.md_chunk_id md) = id)) as [<-|Hne].
    + right. split; [done|]. eexists. apply store_insert_eq.
    + left. by rewrite store_insert_ne.
  - left. apply Ha.
  - left. destruct Ha as (st & _ & Hs). destruct Hs as [? ? _ _ Hm|? ? _ _ _ Hm|? _ _ Hm|? ? _ _ _ Hm]; rewrite (Hm id); try done.
    by rewrite store_insert_ne.
Qed.

Lemma serve_stores_ok cmd m a tr m' x :
  sp_twice cmd = false -> sp_answers cmd m a tr m' -> serve_stores id cmd a tr x ->
  m id = None /\ m' id = Some x.
Proof.
  intros _ Ha Hs. destruct cmd as [addr| | |], a as [r| | |]; try done. cbn in Ha.
  destruct Hs as (Hcode & md & rest & -> & <- & ->). destruct Ha as (first & rest' & E & Hc).
  assert (Hhd : first :: server_reads rest' = Some (rpc.payload_metadata md) :: server_reads rest)
    by (symmetry; exact (f_equal server_reads E)).
  injection Hhd as -> _. injection E as <-.
  destruct Hc as (st & d & broken & fin & -> & _ & Hf & _ & Hs). cbn in Hcode. apply SetStatus_ok in Hcode.
  destruct (put_spec_cases _ _ _ _ _ _ _ _ _ Hs) as [[Hst _]|(_ & Hfin & _ & Hn & Hm)]; [congruence|].
  destruct (Hf Hfin) as [<- _]. split; [done|]. rewrite (Hm _). apply store_insert_eq.
Qed.

Lemma serve_stores_once cmd a tr x : serve_stores id cmd a tr x -> sp_twice cmd = false.
Proof. by destruct cmd. Qed.

End Chunk.

(** ** Properties *)

Section Theorems.
Context `{Libc} `{Blake3} (root : string) (fuel : nat).

Lemma serve_undisturbed (calm : Prop) cmds f :
  (calm -> store_clean root f /\ distinct_streams (fun x => serve_stream x.1) cmds) ->
  undisturbed root (serve root fuel) (Linearizable0:=serve_linearizable root fuel calm) cmds f.
Proof.
  intros Hcalm. refine (undisturbed_streams root _ calm serve_stream cmds f _ _ Hcalm); intros cmd q Hq; exact Hq.
Qed.

(** C3: any number of handlers of a worker, interleaved at their system calls and at
    their messages in any way, under any faults and with clients that send
    anything, run as on an abstract store: the store is sound at every moment, no
    handler is stuck, and each upload, inspection and deletion answers for one
    moment between its first call and its return, a download for two.  When all is
    [calm], a healthy machine with a clean store and a stream of its own for each
    upload, only requests with names that do not fit meet faults. *)
Theorem Worker_linearizable (calm : Prop) cmds f ns c
  (Hok : store_ok root f)
  (Hfit : Forall (fun x => serve_fits root fuel calm x.1 x.2) cmds)
  (Hcalm : calm -> store_clean root f /\ distinct_streams (fun x => serve_stream x.1) cmds)
  (Hs : schedule (config_step (serve root fuel)) ns (initial cmds f) c) :
  store_ok root (cf_fs c) /\ Forall (fun t => ~ stuck t) (cf_threads c) /\
  exists a, schedule (aturn (spec:=worker_specification root calm)) ns (abstract_initial cmds (chunks root f)) a /\
    same_map (ac_store a) (chunks root (cf_fs c)) /\ Forall2 agree (cf_threads c) (ac_threads a).
Proof.
  exact (linearization root _ (Linearizable0:=serve_linearizable root fuel calm) cmds f ns c Hok Hfit
    (serve_undisturbed calm cmds f Hcalm) Hs).
Qed.

(** C11: overlapping uploads of one chunk: when the worker reports success for one,
    its store holds the data of the frames that this handler received, with the
    checksum they were announced with, and no other handler reports success for
    this chunk, whatever other calls are served, unless one of them deletes it. *)
Theorem Concurrent_uploads_once cmds f ns c n addr g resp l md rest
  (Hok : store_ok root f)
  (Hfit : Forall (fun x => serve_fits root fuel False x.1 x.2) cmds)
  (Hdel : Forall (fun x => serve_spares (mkChunkId (rpc.md_chunk_id md)) x.1) cmds)
  (Hs : schedule (config_step (serve root fuel)) ns (initial cmds f) c)
  (Hn : cf_threads c !! n = Some (Finished (ServePut addr) (PutServed (g, resp)) l))
  (Hcode : rpc.code (rpc.or_status resp) = rpc.STATUS_CODE_OK)
  (Hmd : l_trace l = ev ServerRead (Some (rpc.payload_metadata md)) :: rest) :
  chunks root (cf_fs c) (mkChunkId (rpc.md_chunk_id md)) =
    Some (mkChecksum kBlake3 (rpc.md_expected_checksum md), received rest) /\
  chunk_valid (mkChecksum kBlake3 (rpc.md_expected_checksum md), received rest) /\
  forall k addr' g' resp' l' md' rest', k <> n ->
    cf_threads c !! k = Some (Finished (ServePut addr') (PutServed (g', resp')) l') ->
    rpc.code (rpc.or_status resp') = rpc.STATUS_CODE_OK ->
    l_trace l' = ev ServerRead (Some (rpc.payload_metadata md')) :: rest' ->
    rpc.md_chunk_id md' <> rpc.md_chunk_id md.
Proof.
  pose (id := mkChunkId (rpc.md_chunk_id md)).
  pose proof (one_winner_run id (serve_spares id) (serve_stores id) (serve_spares_ok root False id) (serve_stores_ok root False id)
    (serve_stores_once root False id) root (serve root fuel) (Linearizable0:=serve_linearizable root fuel False) cmds f ns c n (ServePut addr) (PutServed (g, resp)) l
    (mkChecksum kBlake3 (rpc.md_expected_checksum md), received rest) Hok) as Hrun.
  destruct (Hrun Hfit (serve_undisturbed False cmds f (fun c => match c with end)) Hdel Hs Hn) as (Hc & Hv & Hone); [split; [done|by exists md, rest]|].
  split_and!; [done..|]. intros k addr' g' resp' l' md' rest' Hkn Hk Hcode' Hmd' Heq.
  apply (Hone k _ _ _ (mkChecksum kBlake3 (rpc.md_expected_checksum md'), received rest') Hkn Hk).
  split; [done|]. exists md', rest'. unfold id. by rewrite <- Heq.
Qed.

End Theorems.

(** ** Witnesses *)

(** Two uploads of one chunk and a download of it, on an empty store. *)
Definition w_calls : list (worker_call * locals) :=
  [(ServePut 77, quiet_locals); (ServePut 99, quiet_locals);
   (ServeGet (rpc.mkGetChunkRequest "c1" 0 5), quiet_locals)].
Definition w_turns : list nat := concat (replicate 17 [0; 1])%nat ++ [0; 0]%nat ++ replicate 10 2%nat.
Definition w_played (fuel : nat) : option (config (C:=worker_call) (A:=worker_answer)) :=
  play (frame_peer w_frames []) (serve "/r" fuel) w_turns (initial w_calls empty_fs).
Definition w_metadata : rpc.PutChunkMetadata := rpc.mkPutChunkMetadata "c1" 5 (value w_sum).
Definition w_data_read : list rpc_event :=
  (fun x => ev ServerRead x) <$> [Some (rpc.payload_data (string_bytes "he")); Some (rpc.payload_data (string_bytes "llo")); None].
Definition w_read : list rpc_event := ev ServerRead (Some (rpc.payload_metadata w_metadata)) :: w_data_read.
Definition w_served : list worker_answer :=
  [PutServed (grpc.Status_OK, rpc.mkOperationResponse (SetStatus Status_Ok));
   PutServed (grpc.Status_OK, rpc.mkOperationResponse (SetStatus (Status_make kAlreadyExists "chunk already exists: c1")));
   GetServed grpc.Status_OK].
Definition served_of (t : thread (C:=worker_call) (A:=worker_answer)) : option worker_answer :=
  match t with Finished _ a _ => Some a | _ => None end.

Lemma w_calls_fit calm : Forall (fun x => serve_fits "/r" w_bound calm x.1 x.2) w_calls.
Proof.
  assert (Hn : (cs_need w_store 5 0 < w_bound)%nat).
  { eapply Nat.lt_le_trans; [|exact w_bound_large]. apply w_cs_need; lia. }
  repeat apply Forall_cons_2; [split; [done|split; [done|apply Nat.lt_succ_diag_r]]..| |by apply Forall_nil_2].
  split; [done|]. split; [done|]. split; [by vm_compute|]. split; [by vm_compute|exact Hn].
Qed.

Lemma w_calls_calm : store_clean "/r" empty_fs /\ distinct_streams (fun x : worker_call * locals => serve_stream x.1) w_calls.
Proof.
  split; [apply store_clean_empty|]. split.
  - intros [|[|[|n]]] x a [= <-]; cbn; try done; by intros [= <-].
  - intros [|[|[|n]]] [|[|[|k]]] x y a Hnk [= <-] [= <-]; cbn; try done; by intros [= <-].
Qed.

(** A run with little fuel is one with the fuel that always suffices. *)
Lemma w_play_enough peer ns cmds f c :
  play peer (serve "/r" 200) ns (initial cmds f) = Some c ->
  exists ths, schedule (config_step (serve "/r" w_bound)) ns (initial cmds f) (mkConfig ths (cf_fs c)) /\
    Forall2 thread_extends (cf_threads c) ths.
Proof.
  intros Hc.
  destruct (play_extends _ _ (serve "/r" w_bound) _ _ _ _ _ (fun cmd => serve_mono "/r" 200 w_bound cmd w_bound_large)
    (initial_extends cmds f) Hc) as (ths & Hp & Hths).
  exists ths. split; [by eapply play_schedule|exact Hths].
Qed.

(** The run of these calls. *)
Lemma w_load :
  exists c, schedule (config_step (serve "/r" w_bound)) w_turns (initial w_calls empty_fs) c /\
    served_of <$> cf_threads c = Some <$> w_served /\
    cf_threads c !! 0%nat = Some (Finished (ServePut 77)
      (PutServed (grpc.Status_OK, rpc.mkOperationResponse (SetStatus Status_Ok))) (mkLocals 0 0 true w_read)).
Proof.
  assert (E : (fun c => (served_of <$> cf_threads c, cf_threads c !! 0%nat)) <$> w_played 200 =
    Some (Some <$> w_served, Some (Finished (ServePut 77)
      (PutServed (grpc.Status_OK, rpc.mkOperationResponse (SetStatus Status_Ok))) (mkLocals 0 0 true w_read))))
    by (vm_compute; reflexivity).
  destruct (w_played 200) as [c|] eqn:Ec; [|done]. injection E as E1 E2.
  destruct (w_play_enough _ _ _ _ _ Ec) as (ths & Hp & Hths).
  exists (mkConfig ths (cf_fs c)). split; [exact Hp|]. cbn [cf_threads]. split.
  - transitivity (served_of <$> cf_threads c); [|exact E1]. clear -Hths. induction Hths as [|t t' ts ts' Ht _ IH]; [done|]. rewrite !fmap_cons, IH. f_equal.
    by destruct t, t'; try done; cbn in *; try (injection Ht as <- <- <-).
  - by eapply finished_extends.
Qed.

Lemma Worker_linearizable_witness :
  exists c a, served_of <$> cf_threads c = Some <$> w_served /\
    schedule (aturn (spec:=worker_specification "/r" True)) w_turns (abstract_initial w_calls (chunks "/r" empty_fs)) a /\
    same_map (ac_store a) (chunks "/r" (cf_fs c)) /\ Forall2 agree (cf_threads c) (ac_threads a).
Proof.
  destruct w_load as (c & Hc & Hserved & _).
  destruct (Worker_linearizable "/r" w_bound True w_calls empty_fs w_turns c (store_ok_empty "/r") (w_calls_fit True)
    (fun _ => w_calls_calm) Hc)
    as (_ & _ & a & Ha & Hm & Hag).
  exists c, a. exact (conj Hserved (conj Ha (conj Hm Hag))).
Defined.

Lemma Concurrent_uploads_once_witness :
  exists c, served_of <$> cf_threads c = Some <$> w_served /\
    chunks "/r" (cf_fs c) w_id = Some (w_sum, string_bytes "hello").
Proof.
  destruct w_load as (c & Hc & Hserved & Hn).
  assert (Hdel : Forall (fun x => serve_spares (mkChunkId "c1") x.1) w_calls) by (by repeat constructor).
  exists c. exact (conj Hserved (proj1 (Concurrent_uploads_once "/r" w_bound w_calls empty_fs w_turns c 0 77 grpc.Status_OK
    (rpc.mkOperationResponse (SetStatus Status_Ok)) (mkLocals 0 0 true w_read) w_metadata w_data_read
    (store_ok_empty "/r") (w_calls_fit False) Hdel Hc Hn eq_refl eq_refl))).
Defined.
