(* ===== verification/BusyWorker.v ===== *)
(** * Clients and a busy worker: what a client's success means when the worker
    serves other calls at the same time. *)
From stdpp Require Import functions.
From S2P Require Import Prelude Status Types Path Proto System Prog UniqueFd Blake3 MemOS FileIO Files.
From S2P Require Import Streams ChunkStore FileStore StoreSpec StoreTheorems.
From S2P Require Import Concurrent Linearize OneWinner Answers ConcurrencyTheorems.
From S2P Require Import DataPlane Services HandlerSpec ServerConcurrency Client ClientSpec StorageClient ObjectSpec ClientTheorems.
From S2P Require Import ServiceTheorems Fuel EndToEnd ServerTheorems.

(** ** Definitions *)

(** A run of the worker at [root] that ends in [c]: any number of its handlers,
    each with enough fuel, interleaved at their system calls and at their
    messages, under any faults, none of them a deletion of the chunk [id]. *)
Inductive busy_worker `{Libc} `{Blake3} (root : string) (id : ChunkId) (cmds : list (worker_call * locals))
    (f : fs) (c : config (C:=worker_call) (A:=worker_answer)) : Prop :=
| busy_worker_intro fuel ns :
    store_ok root f -> Forall (fun x => serve_fits root fuel False x.1 x.2) cmds ->
    Forall (fun x => serve_spares id x.1) cmds ->
    schedule (config_step (serve root fuel)) ns (initial cmds f) c ->
    busy_worker root id cmds f c.

Section Busy.
Context {PC : Posix} `{Libc} `{Blake3} (root : string) (self : StorageClient.t GrpcDataPlaneClient.t).
Abbreviation state_c := (view (Posix:=PC)).
Abbreviation chunk_of id := (mkChunkId (object_id_value id)).

(** A handler of the run [c] has served the upload with the traffic [trc], and
    answered [o]. *)
Inductive upload_served (c : config (C:=worker_call) (A:=worker_answer)) (n : nat) (trc : list rpc_event)
    (r : grpc.Status * rpc.OperationResponse) : Prop :=
| upload_served_intro addr l :
    cf_threads c !! n = Some (Finished (ServePut addr) (PutServed r) l) ->
    upload_link trc (l_trace l) (Done r) -> upload_served c n trc r.

(** Two handlers have served the inquiry and the download of the object [id]. *)
Inductive download_served (id : ObjectId) (c : config (C:=worker_call) (A:=worker_answer)) (trc : list rpc_event) : Prop :=
| download_served_intro h rh lh g greq rg lg :
    cf_threads c !! h = Some (Finished (ServeHead (rpc.mkHeadChunkRequest (object_id_value id))) (HeadServed rh) lh) ->
    inquiry_link trc (rpc.mkHeadChunkRequest (object_id_value id)) (Done rh) ->
    cf_threads c !! g = Some (Finished (ServeGet greq) (GetServed rg) lg) ->
    download_link trc (l_trace lg) greq (Done rg) ->
    download_served id c trc.

(** ** Lemmas *)

(** What a handler of the run answered, it answered for stores in which the chunk
    was as it is at the end, or not yet there. *)
Lemma busy_explained id cmds f c n cmd a l :
  busy_worker root id cmds f c -> cf_threads c !! n = Some (Finished cmd a l) ->
  exists moments, may_return (spec:=worker_specification root False) cmd moments a (l_trace l) /\
    Forall (fun x => was id (chunks root (cf_fs c)) x.1 /\ was id (chunks root (cf_fs c)) x.2) moments.
Proof.
  intros [fuel ns Hok Hfit Hsp Hs] Hn.
  exact (settled_run id (serve_spares id) (serve_spares_ok root False id) root (serve root fuel)
    (Linearizable0:=serve_linearizable root fuel False) cmds f ns c n cmd a l Hok Hfit
    (serve_undisturbed root fuel False cmds f (fun x => match x with end)) Hsp Hs Hn).
Qed.

Lemma was_some id m m1 x : was id m m1 -> m1 id = Some x -> m id = Some x.
Proof. unfold was. intros [E|E] Hx; congruence. Qed.

(** Whoever stored the chunk is the only one. *)
Lemma busy_winner id cmds f c n cmd a l x :
  busy_worker root id cmds f c -> cf_threads c !! n = Some (Finished cmd a l) -> serve_stores id cmd a (l_trace l) x ->
  forall k cmd' a' l' x', k <> n -> cf_threads c !! k = Some (Finished cmd' a' l') -> ~ serve_stores id cmd' a' (l_trace l') x'.
Proof.
  intros [fuel ns Hok Hfit Hsp Hs] Hn Hx.
  refine (proj2 (proj2 (one_winner_run id (serve_spares id) (serve_stores id) (serve_spares_ok root False id)
    (serve_stores_ok root False id) (serve_stores_once root False id) root (serve root fuel)
    (Linearizable0:=serve_linearizable root fuel False) cmds f ns c n cmd a l x Hok Hfit _ Hsp Hs Hn Hx))).
  exact (serve_undisturbed root fuel False cmds f (fun x => match x with end)).
Qed.

(** What an upload that succeeded has left, and that its handler reported it. *)
Lemma upload_served_stored id cmds f c n trc r quiet ctx d st :
  busy_worker root id cmds f c -> upload_served c n trc r ->
  upload quiet ctx (rpc.payload_metadata (rpc.mkPutChunkMetadata (chunk_id_value id) (blen d) (hex_string (blake3 d)))) d trc st ->
  ok st = true ->
  chunks root (cf_fs c) id = Some (content_checksum d, d) /\
  exists addr l, cf_threads c !! n = Some (Finished (ServePut addr) (PutServed r) l) /\
    serve_stores id (ServePut addr) (PutServed r) (l_trace l) (content_checksum d, d).
Proof.
  intros Hbusy [addr l Hn Hlink] Hup Hok.
  destruct (busy_explained _ _ _ _ _ _ _ _ Hbusy Hn) as (moments & (m & m' & -> & Ha) & Hwas).
  apply Forall_singleton in Hwas as [_ Hwas].
  destruct Ha as (first & rest & Htr & Hc). rewrite Htr in Hlink.
  destruct (upload_answered _ _ _ _ _ _ _ _ _ Hup Hok Hlink) as [Hg [->|(-> & Hpre & Hcode)]].
  { destruct Hc as [-> _]. done. }
  destruct Hc as (st' & x & broken & fin & -> & _ & Hfin & _ & Hspec). pose proof Hcode as Hok'.
  apply SetStatus_ok in Hok'. cbn [rpc.md_chunk_id] in Hspec.
  destruct (put_spec_cases _ _ _ _ _ _ _ _ _ Hspec) as [[Hst _]|(_ & Hf & Hdm & _ & Hm)]; [congruence|].
  destruct (Hfin Hf) as [-> _]. eapply announced_all in Hdm; [|exact Hpre].
  destruct id as [id]. split.
  - eapply was_some; [exact Hwas|]. rewrite (Hm _), Hdm. apply store_insert_eq.
  - exists addr, l. split; [exact Hn|]. split; [exact Hcode|]. eexists _, rest. rewrite Hdm. by split.
Qed.

(** What a download that succeeded has fetched. *)
Lemma download_served_stored id cmds f c trc head d :
  busy_worker root (chunk_of id) cmds f c -> download_served id c trc -> told self id trc head d ->
  exists k, chunks root (cf_fs c) (chunk_of id) = Some (k, d).
Proof.
  intros Hbusy [h rh lh g greq rg lg Hh Hinq Hg Hdown] Htold.
  destruct (told_answers _ _ _ _ _ _ _ _ _ Htold Hinq Hdown) as (Hcode & -> & Hok & ->).
  destruct (busy_explained _ _ _ _ _ _ _ _ Hbusy Hh) as (mh & (m & m' & -> & _ & a & Hhead & Hr) & Hwh).
  destruct (busy_explained _ _ _ _ _ _ _ _ Hbusy Hg) as (mg & (m1 & m1' & m2 & m2' & -> & st & broken & -> & _ & Hget) & Hwg).
  apply Forall_singleton in Hwh as [Hwh _]. apply Forall_cons_1 in Hwg as [_ [Hwg _]%Forall_singleton].
  destruct (described_found _ _ _ _ _ _ Hhead (f_equal snd Hr) Hcode) as (k & p & Hp & Hsz).
  rewrite ToGrpcStatus_ok in Hok. destruct (get_outcomes_ok _ _ _ _ _ _ _ _ Hget Hok) as (k' & p' & Hp' & -> & _).
  apply (was_some _ _ _ _ Hwh) in Hp. apply (was_some _ _ _ _ Hwg) in Hp'.
  cbn [get_chunk_id range offset size get_request rpc.gr_chunk_id rpc.gr_offset rpc.gr_size rpc.hq_chunk_id] in *.
  rewrite Hp in Hp'. injection Hp' as <- <-. exists k. rewrite Hp, zdrop_0, Hsz. do 2 f_equal. by apply eq_sym, ztake_all.
Qed.

(** ** Properties *)

(** C7: when the client's Put reports success, the worker that served it among any
    number of other calls has the object: at the end of every run in which nobody
    deletes it, the store holds exactly the content of the source file with its
    checksum, and no other upload of the object was answered with success. *)
Theorem Put_reaches_busy_worker id source wc trc st cmds f c n r
  (Hput : client_put (PC:=PC) self id source wc trc (Done st)) (Hok : ok st = true)
  (Hbusy : busy_worker root (chunk_of id) cmds f c) (Hserved : upload_served c n trc r) :
  exists d, lookup_file (s_fs (state_c wc)) source = Some d /\
    chunks root (cf_fs c) (chunk_of id) = Some (content_checksum d, d) /\
    forall k cmd a l x, k <> n -> cf_threads c !! k = Some (Finished cmd a l) ->
      ~ serve_stores (chunk_of id) cmd a (l_trace l) x.
Proof.
  destruct (client_put_sent self _ _ _ _ _ Hput Hok) as (d & quiet & ctx & Hd & Hup). exists d. split; [exact Hd|].
  destruct (upload_served_stored (chunk_of id) _ _ _ _ _ _ _ _ _ _ Hbusy Hserved Hup Hok) as (Hc & addr & l & Hn & Hx).
  split; [exact Hc|]. by eapply busy_winner.
Qed.

(** C13: what one client stores another one reads, from a worker that serves any number
    of other calls at the same time, in whatever order their system calls and
    messages come: when both report success, and nobody deletes the object, the
    destination holds the bytes of the source. *)
Theorem Busy_roundtrip id source dest wc wc1 wc2 trc trc' st st' next next' cmds f c n r
  (Hput : client_put (PC:=PC) self id source wc trc (Done st)) (Hok : ok st = true)
  (Hget : client_get (PC:=PC) self id dest wc1 wc2 next trc' (Done (st', next'))) (Hok' : ok st' = true)
  (Hbusy : busy_worker root (chunk_of id) cmds f c)
  (Hup : upload_served c n trc r) (Hdown : download_served id c trc') :
  lookup_file (s_fs (state_c wc2)) dest = lookup_file (s_fs (state_c wc)) source.
Proof.
  destruct (client_put_sent self _ _ _ _ _ Hput Hok) as (d & quiet & ctx & -> & Hsent).
  destruct (client_get_told self _ _ _ _ _ _ _ _ Hget Hok') as (x & head & Htold & _ & ->).
  destruct (upload_served_stored (chunk_of id) _ _ _ _ _ _ _ _ _ _ Hbusy Hup Hsent Hok) as [Hc _].
  destruct (download_served_stored _ _ _ _ _ _ _ Hbusy Hdown Htold) as [k Hk]. congruence.
Qed.

End Busy.

(** ** Witnesses *)

(** The client of [w_machine] and another one upload the object at the same time,
    and the client of [w_fetcher] fetches it while the first upload is still being
    served. *)
Definition w_busy_calls : list (worker_call * locals) :=
  [(ServePut 77, quiet_locals); (ServePut 99, quiet_locals);
   (ServeHead (rpc.mkHeadChunkRequest "c1"), quiet_locals);
   (ServeGet (rpc.mkGetChunkRequest "c1" 0 5), quiet_locals)].
Definition w_busy_turns : list nat :=
  (concat (replicate 13 [0; 1]) ++ [0; 0] ++ concat (replicate 6 [2; 3]) ++ replicate 4 3 ++ [1; 0; 1; 0])%nat.
Definition w_refused : grpc.Status * rpc.OperationResponse :=
  (grpc.Status_OK, rpc.mkOperationResponse (SetStatus (Status_make kAlreadyExists "chunk already exists: c1"))).
Definition w_busy_threads : list (thread (C:=worker_call) (A:=worker_answer)) :=
  [Finished (ServePut 77) (PutServed w_uploaded) (mkLocals 0 0 true w_frames_read);
   Finished (ServePut 99) (PutServed w_refused) (mkLocals EEXIST 0 true w_frames_read);
   Finished (ServeHead (rpc.mkHeadChunkRequest "c1")) (HeadServed w_description) quiet_locals;
   Finished (ServeGet (rpc.mkGetChunkRequest "c1" 0 5)) (GetServed grpc.Status_OK) (mkLocals 0 0 true w_streamed)].

Lemma w_busy_calls_fit : Forall (fun x => serve_fits "/r" w_bound False x.1 x.2) w_busy_calls.
Proof.
  assert (Hn : forall n, 0 <= n <= 5 -> (cs_need w_store n 0 < w_bound)%nat).
  { intros n Hn. eapply Nat.lt_le_trans; [|exact w_bound_large]. apply w_cs_need; lia. }
  repeat apply Forall_cons_2; [split; [done|split; [done|apply Nat.lt_succ_diag_r]]..| | |by apply Forall_nil_2].
  - split; [done|split; [done|]]. apply Hn. lia.
  - split; [done|split; [done|]]. split; [by vm_compute|split; [by vm_compute|]]. apply Hn. cbn. lia.
Qed.

Lemma w_busy_run :
  cf_threads <$> play (frame_peer (client_frames w_sent) []) (serve "/r" 200) w_busy_turns (initial w_busy_calls empty_fs) =
  Some w_busy_threads.
Proof. vm_compute. reflexivity. Qed.

(** This run, with the fuel that always suffices. *)
Lemma w_busy :
  exists c, busy_worker "/r" (mkChunkId "c1") w_busy_calls empty_fs c /\
    forall k cmd a l, w_busy_threads !! k = Some (Finished cmd a l) -> cf_threads c !! k = Some (Finished cmd a l).
Proof.
  destruct (fmap_Some_1 _ _ _ w_busy_run) as (c & Hc & Hths).
  destruct (w_play_enough _ _ _ _ _ Hc) as (ths & Hp & Hext).
  exists (mkConfig ths (cf_fs c)). split.
  - apply (busy_worker_intro "/r" _ _ _ _ w_bound w_busy_turns); [apply store_ok_empty|exact w_busy_calls_fit| |exact Hp].
    by repeat constructor.
  - rewrite Hths. intros k cmd a l Hk. by eapply finished_extends.
Qed.

Lemma w_busy_upload c :
  (forall k cmd a l, w_busy_threads !! k = Some (Finished cmd a l) -> cf_threads c !! k = Some (Finished cmd a l)) ->
  upload_served c 0 w_sent w_uploaded.
Proof. intros Hths. eapply upload_served_intro; [by apply Hths|exact w_upload_link]. Qed.

Lemma w_busy_download c :
  (forall k cmd a l, w_busy_threads !! k = Some (Finished cmd a l) -> cf_threads c !! k = Some (Finished cmd a l)) ->
  download_served w_id_c1 c w_fetched.
Proof.
  intros Hths. apply (download_served_intro w_id_c1 c w_fetched 2 w_description quiet_locals
    3 (rpc.mkGetChunkRequest "c1" 0 5) grpc.Status_OK (mkLocals 0 0 true w_streamed)).
  - by apply Hths.
  - exact w_inquiry_link.
  - by apply Hths.
  - exact w_download_link.
Qed.

Lemma Put_reaches_busy_worker_witness :
  exists (c : config (C:=worker_call) (A:=worker_answer)) d, lookup_file w_source "/src" = Some d /\
    chunks "/r" (cf_fs c) (mkChunkId "c1") = Some (content_checksum d, d).
Proof.
  destruct w_busy as (c & Hbusy & Hths).
  destruct (Put_reaches_busy_worker "/r" w_client w_id_c1 "/src" w_machine w_sent Status_Ok w_busy_calls empty_fs c 0
    w_uploaded w_client_put eq_refl Hbusy (w_busy_upload c Hths)) as (d & Hd & Hc & _).
  exists c, d. exact (conj Hd Hc).
Defined.

Lemma Busy_roundtrip_witness :
  lookup_file (s_fs (view (w_fetch w_enough).2)) "/dst" = Some w_hello.
Proof.
  destruct w_busy as (c & Hbusy & Hths).
  etransitivity; [exact (Busy_roundtrip "/r" w_client w_id_c1 "/src" "/dst" w_machine w_fetcher (w_fetch w_enough).2
    w_sent w_fetched Status_Ok Status_Ok 0 1 w_busy_calls empty_fs c 0 w_uploaded w_client_put eq_refl w_client_get eq_refl Hbusy
    (w_busy_upload c Hths) (w_busy_download c Hths))|exact w_source_held].
Defined.
