(* ===== verification/Availability.v ===== *)
(** * What a client can count on: operations that nothing hinders succeed. *)
From stdpp Require Import functions.
From S2P Require Import Prelude Status Types Path Proto System Prog UniqueFd Blake3 FileIO Files.
From S2P Require Import Streams ChunkStore DataPlane Services HandlerSpec.
From S2P Require Import Client ClientSpec StorageClient ObjectSpec ClientTheorems.
From S2P Require Import MemOS StoreSpec StoreTheorems ServiceTheorems Fuel EndToEnd.

(** ** Definitions *)

(** A message the library did not take from the handler. *)
Definition declined (e : rpc_event) : Prop :=
  match e with ev (ServerWrite _) false => True | _ => False end.

(** The connection delivers: messages arrive in order, the end of the stream is
    seen only after the last of them, and the call then ends as the handler did. *)
Definition delivery (trc trg : list rpc_event) (og : outcome grpc.Status) : Prop :=
  client_messages trc `prefix_of` server_messages trg /\
  (ev ClientRead None ∈ trc ->
   client_messages trc = server_messages trg /\ forall g, g ∈ get_answers trc -> og = Done g).

(** ** Lemmas *)

(** On a healthy machine, an upload whose messages are all taken goes through. *)
Lemma upload_healthy ctx md d tr st :
  upload true ctx md d tr st -> Forall (fun e => ~ refused e) tr ->
  exists l wd g resp, frames_ok l /\ concat l = d /\ st = upload_status g resp /\
    tr = [ev (StartPut ctx) tt; ev (ClientWrite md) true] ++ accepted l ++ [ev WritesDone wd; ev FinishPut (g, resp)].
Proof.
  intros [wd g resp|st' l wd fin Hq|l b wd g resp Hl Hp|l wd g resp Hl Hd] Hno; [| |exfalso|by exists l, wd, g, resp].
  - rewrite !Forall_cons_iff in Hno. destruct Hno as (_ & Hno & _). by destruct Hno.
  - done.
  - rewrite !Forall_app, !Forall_cons_iff in Hno. destruct Hno as (_ & _ & Hno & _). by destruct Hno.
Qed.

(** What was passed over before something that comes later. *)
Lemma prefix_past {A} (l k m : list A) x : l ++ [x] `prefix_of` k ++ m -> x ∉ k -> k `prefix_of` l.
Proof.
  intros Hp Hx. assert (Hl : l `prefix_of` k ++ m) by (transitivity (l ++ [x]); [by eexists|done]).
  destruct (prefix_weak_total _ _ _ Hl (prefix_app_r k k m ltac:(done))) as [[u ->]|]; [|done].
  rewrite <- app_assoc in Hp. apply prefix_app_inv in Hp. destruct u as [|y u]; [by rewrite app_nil_r|].
  apply prefix_cons_inv_1 in Hp as ->. destruct Hx. set_solver.
Qed.

Lemma prefix_antisym_blen {A} (l k : list A) : l `prefix_of` k -> k `prefix_of` l -> l = k.
Proof. intros H1 H2. apply prefix_blen; [done|]. apply prefix_length in H1, H2. unfold blen. lia. Qed.

Section Linked.
Context `{Libc} {C : Type} `{ChunkStoreContract C}.
Context (store : C).

(** What the handler read of an upload that sent the frames [l]: their data, and
    all of them if it saw the end of the stream; no frame without data. *)
Lemma upload_reads l n tr :
  frames_ok l -> server_reads tr `prefix_of` (Some <$> (rpc.payload_data <$> l)) ++ replicate n None ->
  received tr `prefix_of` concat l /\
  (forall mid, tr = mid ++ [ev ServerRead None] -> received tr = concat l) /\
  (forall mid f, tr = mid ++ [ev ServerRead (Some f)] -> data_frame f).
Proof.
  intros Hl Hreads. assert (Hp : received tr `prefix_of` concat l).
  { rewrite received_reads, <- (read_data_frames l n). by apply bind_prefix. }
  assert (Hend : forall mid r, server_reads (mid ++ [ev ServerRead r]) = server_reads mid ++ [r])
    by (intros; unfold server_reads; by rewrite omap_app).
  split; [done|split].
  - intros mid ->. apply prefix_antisym_blen; [done|]. rewrite Hend in Hreads.
    apply prefix_past in Hreads; [|rewrite list_elem_of_fmap; by intros (? & ? & _)].
    rewrite received_more, (received_reads mid), <- (read_data_frames l 0), app_nil_r.
    by apply prefix_app_r, bind_prefix.
  - intros mid f ->. rewrite Hend in Hreads.
    assert (Hin : Some f ∈ (Some <$> (rpc.payload_data <$> l)) ++ replicate n None).
    { destruct Hreads as [k ->]. set_solver. }
    apply elem_of_app in Hin as [Hin|[? _]%elem_of_replicate]; [|done].
    apply list_elem_of_fmap in Hin as (y & [= <-] & (b & -> & Hb)%list_elem_of_fmap).
    unfold frames_ok in Hl. rewrite list.Forall_forall in Hl. apply Hl in Hb. intros E. rewrite E in Hb. by destruct Hb.
Qed.

(** An upload that meets no obstacle succeeds. *)
Lemma upload_completes addr ctx id d trc st s r s' trw :
  upload true ctx (rpc.payload_metadata (rpc.mkPutChunkMetadata id (blen d) (hex_string (blake3 d)))) d trc st ->
  Forall (fun e => ~ refused e) trc ->
  put_handled store addr s r s' -> s_trace s' = s_trace s ++ trw -> upload_link trc trw (Done r) ->
  (forall a, a ∈ put_answers trc -> a = r) ->
  service_accepts (DataPlaneService.mk store) (mkChunkId id) = true ->
  put_calm (DataPlaneService.mk store) s (mkPutChunkRequest (mkChunkId id) (blen d) (content_checksum d)) addr ->
  cs_chunks store (s_fs s) (mkChunkId id) = None -> st = Status_Ok.
Proof.
  intros Hup Hno (first & tr & Htr & Hpost) Htrw [[n Hreads] _] Hans Hacc Hcalm Hfree.
  rewrite Htrw in Htr. apply app_inv_head in Htr as ->.
  destruct (upload_healthy _ _ _ _ _ Hup Hno) as (l & wd & g & resp & Hl & Hd & -> & ->).
  destruct (upload_projections ctx (rpc.payload_metadata (rpc.mkPutChunkMetadata id (blen d) (hex_string (blake3 d))))
    l [ev WritesDone wd; ev FinishPut (g, resp)]) as [E1 E2]. rewrite E1 in Hreads. rewrite E2 in Hans.
  specialize (Hans (g, resp) ltac:(cbn; set_solver)). subst r. clear E1 E2 Hup Hno.
  pose proof (prefix_cons_inv_1 _ _ _ _ Hreads) as ->. apply prefix_cons_inv_2 in Hreads.
  cbn in Hreads. rewrite app_nil_r in Hreads.
  destruct (upload_reads l n tr Hl Hreads) as (Hrec & Hall & Hgood). rewrite Hd in Hrec, Hall.
  destruct Hpost as (st & x & broken & fin & E & _ & Hx & Hfin & Hbroken & Hspec). injection E as -> ->.
  change (put_request (rpc.mkPutChunkMetadata id (blen d) (hex_string (blake3 d)))) with
    (mkPutChunkRequest (mkChunkId id) (blen d) (content_checksum d)) in Hspec.
  cut (st = Status_Ok); [by intros ->|].
  assert (Hxd : fin -> x = d) by (intros [-> [mid Hmid]]%Hfin; by eapply Hall).
  assert (Hok : ok (ValidateChecksum (content_checksum d)) = true).
  { apply ValidateChecksum_ok. exists (blake3 d). split; [apply blake3_length|done]. }
  destruct Hspec as [st m' Ha|st m' _ Hwhy|st m' _ _ _ _ _ [?|[_ Hc]]]; [|exfalso|done|by destruct (Hc Hcalm)].
  { cbn [expected_checksum put_request] in Ha. cbn in Ha. change (service_accepts (DataPlaneService.mk store) (mkChunkId id) &&
      ok (ValidateChecksum (content_checksum d)) = false) in Ha. by rewrite Hacc, Hok in Ha. }
  destruct Hwhy as [st _ Hb|st _ Hm [Hf|Hlt]|st _ _ _ Hs|st _ Hc].
  - destruct (Hbroken Hb) as (mid & f & Hmid & Hnf). by apply Hnf, (Hgood mid).
  - apply Hm. rewrite (Hxd Hf). done.
  - cbn in Hlt. assert (blen x <= blen d); [|lia].
    apply prefix_length in Hx, Hrec. unfold blen. lia.
  - cbn in Hs. rewrite Hfree in Hs. by destruct Hs.
  - by apply Hc.
Qed.

Lemma end_seen a b l e : ev ClientRead None ∈ a :: [b] ++ streamed l ++ [ev ClientRead None; e].
Proof. do 2 apply list_elem_of_further. apply elem_of_app. right. apply list_elem_of_here. Qed.

(** The content that goes with a valid checksum. *)
Lemma chunk_valid_checksum c p : chunk_valid (c, p) -> c = content_checksum p.
Proof. destruct c as [[] v]. intros [_ E]. cbn in E. unfold content_checksum. by rewrite E. Qed.

(** A handler serves the whole of a chunk that it holds, when nothing hinders
    it. *)
Lemma get_serves id s g s' tr c d :
  get_handled store (rpc.mkGetChunkRequest id 0 (blen d)) s g s' -> s_trace s' = s_trace s ++ tr ->
  Forall (fun e => ~ declined e) (s_trace s ++ tr) ->
  service_accepts (DataPlaneService.mk store) (mkChunkId id) = true ->
  read_calm (DataPlaneService.mk store) s (mkChunkId id) ->
  cs_chunks store (s_fs s) (mkChunkId id) = Some (c, d) -> blen d <= off_max ->
  grpc.ok g = true /\ contents (server_messages tr) = d.
Proof.
  intros (_ & st & x & broken & tr' & -> & Htr & <- & Hbroken & Hspec) Htr' Hno Hacc Hcalm Hc Hmax.
  rewrite Htr' in Htr. apply app_inv_head in Htr as <-. rewrite ToGrpcStatus_ok, <- sent_messages.
  assert (Hrange : ok (ValidateByteRange (mkByteRange 0 (blen d)) (blen d)) = true).
  { apply ValidateByteRange_ok; unfold is_u64, u64_modulus, off_max, blen in *; cbn; lia. }
  cbn [get_chunk_id range offset size rpc.gr_chunk_id rpc.gr_offset rpc.gr_size] in Hspec.
  remember (sent tr) as x eqn:Ex.
  destruct Hspec as [st Ha|st _ Hm|c' p _ Hm Hv|c' p _ Hm _|st c' p n _ _ _ _ Hb|st _ _ Hf];
    cbn [get_chunk_id range offset size] in *; try congruence; try by destruct Hf.
  - split; [done|]. rewrite Hc in Hm. injection Hm as <- <-. rewrite zdrop_0. by apply ztake_all.
  - destruct (Hbroken (Hb Hcalm)) as (mid & m & E). exfalso.
    rewrite <- Htr', E, Forall_app, Forall_singleton in Hno. by apply Hno.
Qed.

(** A handler describes a chunk that it holds. *)
Lemma head_describes id s r s' c d :
  head_handled store (rpc.mkHeadChunkRequest id) s r s' ->
  service_accepts (DataPlaneService.mk store) (mkChunkId id) = true ->
  read_calm (DataPlaneService.mk store) s (mkChunkId id) ->
  cs_chunks store (s_fs s) (mkChunkId id) = Some (c, d) ->
  r = (grpc.Status_OK, rpc.mkHeadChunkResponse (SetStatus Status_Ok) id (blen d) (value c)).
Proof.
  intros (_ & a & Hspec & ->) Hacc Hcalm Hc. cbn [rpc.hq_chunk_id] in Hspec.
  destruct Hspec as [st Ha|st _ Hm|c' p _ Hm|st _ _ Hf]; try congruence.
  rewrite Hc in Hm. by injection Hm as <- <-.
Qed.

(** Nothing is left that could stop a download. *)
Lemma download_completes self id trc d c sh rh sh' sg rg sg' trg greq :
  get_obstacle self id trc ->
  head_handled store (rpc.mkHeadChunkRequest (object_id_value id)) sh rh sh' ->
  (forall a, a ∈ head_answers trc -> a = rh) ->
  get_handled store greq sg rg sg' -> s_trace sg' = s_trace sg ++ trg ->
  (forall m, m ∈ get_requests trc -> m = greq) -> delivery trc trg (Done rg) ->
  Forall (fun e => ~ declined e) (s_trace sg ++ trg) ->
  service_accepts (DataPlaneService.mk store) (mkChunkId (object_id_value id)) = true ->
  read_calm (DataPlaneService.mk store) sh (mkChunkId (object_id_value id)) ->
  read_calm (DataPlaneService.mk store) sg (mkChunkId (object_id_value id)) ->
  cs_chunks store (s_fs sh) (mkChunkId (object_id_value id)) = Some (c, d) ->
  cs_chunks store (s_fs sg) (mkChunkId (object_id_value id)) = Some (c, d) ->
  chunk_valid (c, d) -> blen d <= off_max -> False.
Proof.
  intros Hob Hh Hha Hg Htrg Hreq [Hpre Hall] Hno Hacc Hch Hcg Hsh Hsg Hv Hmax.
  pose proof (head_describes _ _ _ _ _ _ Hh Hacc Hch Hsh) as ->. clear Hh Hch Hsh.
  assert (Hserved : forall g resp l e,
    trc = ev (CallHead (client_context self) (rpc.mkHeadChunkRequest (object_id_value id))) (g, resp) ::
          [ev (StartGet (client_context self) (rpc.mkGetChunkRequest (object_id_value id) 0 (rpc.hresp_size resp))) tt] ++
          streamed l ++ e ->
    resp = rpc.mkHeadChunkResponse (SetStatus Status_Ok) (object_id_value id) (blen d) (value c) /\
    grpc.ok rg = true /\ contents (server_messages trg) = d /\ get_answers trc = get_answers e /\
    client_messages trc = l ++ client_messages e).
  { intros g resp l e Etr.
    destruct (object_projections (client_context self) (rpc.mkHeadChunkRequest (object_id_value id))
      (rpc.mkGetChunkRequest (object_id_value id) 0 (rpc.hresp_size resp)) (g, resp) l e) as (E1 & E2 & E3 & E4).
    rewrite <- Etr in E1, E2, E3, E4. rewrite E1 in Hha. rewrite E2 in Hreq.
    specialize (Hha _ ltac:(apply list_elem_of_here)). injection Hha as -> ->. split; [done|].
    pose proof (Hreq _ ltac:(apply list_elem_of_here)) as <-.
    destruct (get_serves _ _ _ _ _ _ _ Hg Htrg Hno Hacc Hcg Hsg Hmax) as [Hok Hd]. by split_and!. }
  destruct Hob as [g resp Etr Hno'|g resp get Etr Hg' Hhind
    |head x (g & resp & get & Etr & Hg' & Hcode & -> & l & g' & -> & Hgok & ->) Hmm].
  - subst trc. specialize (Hha (g, resp) ltac:(by apply list_elem_of_singleton)).
    injection Hha as -> ->. by destruct Hno'.
  - destruct Hhind as [l g' Hg2|l g' Hlarge]; destruct (Hserved _ _ _ _ Etr) as (-> & Hok & Hd & E3 & E4); cycle 1.
    { rewrite E4 in Hpre. destruct Hpre as [k Hk]. rewrite Hk in Hd. unfold contents in Hd, Hlarge.
      rewrite !fmap_app, !concat_app in Hd. subst d. unfold blen in *. rewrite !length_app in Hmax. lia. }
    destruct Hall as [_ Hend]; [rewrite Etr; apply end_seen|]. rewrite E3 in Hend.
    specialize (Hend _ ltac:(by apply list_elem_of_singleton)). injection Hend as ->. congruence.
  - destruct (Hserved _ _ _ _ Etr) as (-> & _ & Hd & _ & E4).
    destruct Hall as [Hl _]; [rewrite Etr; apply end_seen|].
    assert (E : l = server_messages trg) by (rewrite <- Hl, E4; by rewrite app_nil_r).
    rewrite E, Hd in Hmm. apply chunk_valid_checksum in Hv as ->. by destruct Hmm.
Qed.

End Linked.

Section TwoMachines.
Context {PC PW : Posix} `{Libc} {C : Type} `{ChunkStoreContract C}.
Context (store : C) (self : StorageClient.t GrpcDataPlaneClient.t).
Abbreviation state_c := (view (Posix:=PC)).
Abbreviation state_w := (view (Posix:=PW)).
Abbreviation chunks_w w := (cs_chunks store (s_fs (state_w w))).
Abbreviation chunk_of id := (mkChunkId (object_id_value id)).
Abbreviation putting := (put_session (PC:=PC) (PW:=PW) store self).
Abbreviation getting := (get_session (PC:=PC) (PW:=PW) store self).

(** A Put that nothing hinders. *)
Lemma put_session_completes id source wc ww ww' addr trc o oc d :
  putting id source wc ww ww' addr trc o oc ->
  lookup_file (s_fs (state_c wc)) source = Some d -> name_fits source = true -> s_quiet (state_c wc) = true ->
  Forall (fun e => ~ refused e) trc -> (forall a, a ∈ put_answers trc -> o = Done a) ->
  service_accepts (DataPlaneService.mk store) (chunk_of id) = true ->
  put_calm (DataPlaneService.mk store) (state_w ww) (mkPutChunkRequest (chunk_of id) (blen d) (content_checksum d)) addr ->
  chunks_w ww (chunk_of id) = None -> oc = Done Status_Ok.
Proof.
  intros [fuelw addr' oc1 o1 trc1 trw [fuel wc' oc2 trc2 Hwf Hlen Hfuel Hrc Htrc] Hinv Hfuelw Hrw Htrw Hlink]
    Hd Hfit Hquiet Hno Hans Hacc Hcalm Hfree.
  destruct (returns_run _ _ wc (Object_Put_wp self fuel id source (state_c wc) Hwf Hlen Hfuel)) as (st' & Hst & Hpost).
  rewrite Hrc in Hst, Hpost. cbn [fst snd] in Hst, Hpost. rewrite Hst. f_equal.
  assert (Hid : object_id_value id <> ""%string).
  { intros E. unfold service_accepts, ChunkId_valid, id_valid in Hacc. cbn [chunk_id_value] in Hacc. by rewrite E in Hacc. }
  pose proof (put_object_healthy self id source _ _ _ _ Hpost Hid Hquiet Hd Hfit) as (tr & Htr & Hup).
  rewrite Htrc in Htr. apply app_inv_head in Htr as <-.
  destruct (returns_run _ _ ww (Handler_PutChunk_wp store fuelw addr' (state_w ww) Hinv Hfuelw)) as (r & Hr & Hhandled).
  rewrite Hrw in Hr, Hhandled. cbn [fst snd] in Hr, Hhandled. subst o1.
  refine (upload_completes store _ _ _ _ _ _ _ _ _ _ Hup Hno Hhandled Htrw Hlink _ Hacc Hcalm Hfree).
  intros a Ha%Hans. by injection Ha.
Qed.

(** A Get that nothing hinders. *)
Lemma get_session_completes id dest wc wc' wh wg next trc oh trg og oc c d :
  getting id dest wc wc' wh wg next trc oh trg og oc ->
  s_quiet (state_c wc) = true -> get_names_free id dest next (s_fs (state_c wc)) ->
  (forall a, a ∈ head_answers trc -> oh = Done a) -> delivery trc trg og ->
  Forall (fun e => ~ declined e) (s_trace (state_w wg) ++ trg) ->
  service_accepts (DataPlaneService.mk store) (chunk_of id) = true ->
  read_calm (DataPlaneService.mk store) (state_w wh) (chunk_of id) ->
  read_calm (DataPlaneService.mk store) (state_w wg) (chunk_of id) ->
  chunks_w wh (chunk_of id) = Some (c, d) -> chunks_w wg (chunk_of id) = Some (c, d) ->
  exists next', oc = Done (Status_Ok, next').
Proof.
  intros [fuelh fuelg next1 oc1 greq oh1 wh' og1 wg' trc1 trg1 [fuel next2 oc2 trc2 Hwf Hfuel Hrc Htrc]
    Hinvh Hfuelh Hinvg Ho Hs Hfuelg Hrh Hrg Htrg [_ _] [Hreq _]] Hquiet Hfree Hans Hdel Hno Hacc Hch Hcg Hch' Hcg'.
  pose proof (wp_run _ _ wc (Object_Get_wp self fuel next2 id dest (state_c wc) Hwf
    (fun r s1 s2 => grpc_heads_built self _ r s1 s2) Hfuel)) as Hget. rewrite Hrc in Hget. cbn [fst snd] in Hget.
  destruct oc2 as [[st next']|m|]; [|by destruct Hget as (_ & ? & _); congruence|done].
  destruct Hget as (_ & _ & Hgo & Hwhy). exists next'.
  destruct (returns_run _ _ wh (Handler_HeadChunk_wp store fuelh (rpc.mkHeadChunkRequest (object_id_value id))
    (state_w wh) Hinvh Hfuelh)) as (h & Hr & Hh). rewrite Hrh in Hr, Hh. cbn [fst snd] in Hr, Hh. subst oh1.
  destruct (returns_run _ _ wg (Handler_GetChunk_wp store fuelg greq (state_w wg) Hinvg Ho Hs Hfuelg))
    as (g & Hr & Hg). rewrite Hrg in Hr, Hg. cbn [fst snd] in Hr, Hg. subst og1.
  assert (Hok : ok st = true).
  { destruct (ok st) eqn:Hst; [done|]. exfalso.
    refine (download_completes store self id trc2 d c _ _ _ _ _ _ trg1 greq _ Hh _ Hg Htrg Hreq Hdel Hno Hacc Hch Hcg Hch' Hcg' _ _).
    - by eapply get_stopped_obstacle, Hwhy.
    - intros a Ha%Hans. by injection Ha.
    - by eapply cs_valid.
    - by eapply cs_size. }
  destruct Hgo; [congruence..|done].
Qed.

(** ** Properties *)

(** C15: a Put succeeds unless something hinders it: on two healthy machines with
    finitely many interruptions and whatever short transfers, when the source
    can be read, the worker has room for the object and does not hold it yet,
    and the connection takes every message and delivers the handler's answer,
    the client reports OK and the worker holds the content of the source. *)
Theorem Put_succeeds id source wc ww ww' addr trc o oc d
  (Hput : putting id source wc ww ww' addr trc o oc)
  (Hd : lookup_file (s_fs (state_c wc)) source = Some d) (Hfit : name_fits source = true)
  (Hquiet : s_quiet (state_c wc) = true)
  (Hno : Forall (fun e => ~ refused e) trc) (Hans : forall a, a ∈ put_answers trc -> o = Done a)
  (Hacc : service_accepts (DataPlaneService.mk store) (chunk_of id) = true)
  (Hcalm : put_calm (DataPlaneService.mk store) (state_w ww)
             (mkPutChunkRequest (chunk_of id) (blen d) (content_checksum d)) addr)
  (Hfree : chunks_w ww (chunk_of id) = None) :
  oc = Done Status_Ok /\ chunks_w ww' (chunk_of id) = Some (content_checksum d, d).
Proof.
  pose proof (put_session_completes _ _ _ _ _ _ _ _ _ _ Hput Hd Hfit Hquiet Hno Hans Hacc Hcalm Hfree) as ->.
  destruct (put_session_effect store self _ _ _ _ _ _ _ _ _ Hput eq_refl) as (d' & Hd' & _ & Hm).
  split; [done|]. rewrite Hd in Hd'. injection Hd' as <-. rewrite (Hm _). apply store_insert_eq.
Qed.

(** C16: a Get succeeds unless something hinders it: on healthy machines with
    finitely many interruptions and whatever short transfers, when the names the
    client needs are free, the worker holds the object at the inquiry and at the
    download, and the connection takes every message and delivers what was sent,
    the client reports OK and the destination holds what the worker has. *)
Theorem Get_succeeds id dest wc wc' wh wg next trc oh trg og oc c d
  (Hget : getting id dest wc wc' wh wg next trc oh trg og oc)
  (Hquiet : s_quiet (state_c wc) = true) (Hfree : get_names_free id dest next (s_fs (state_c wc)))
  (Hans : forall a, a ∈ head_answers trc -> oh = Done a) (Hdel : delivery trc trg og)
  (Hno : Forall (fun e => ~ declined e) (s_trace (state_w wg) ++ trg))
  (Hacc : service_accepts (DataPlaneService.mk store) (chunk_of id) = true)
  (Hch : read_calm (DataPlaneService.mk store) (state_w wh) (chunk_of id))
  (Hcg : read_calm (DataPlaneService.mk store) (state_w wg) (chunk_of id))
  (Hheld : chunks_w wh (chunk_of id) = Some (c, d)) (Hstill : chunks_w wg (chunk_of id) = Some (c, d)) :
  (exists next', oc = Done (Status_Ok, next')) /\ lookup_file (s_fs (state_c wc')) dest = Some d.
Proof.
  destruct (get_session_completes _ _ _ _ _ _ _ _ _ _ _ _ _ _ Hget Hquiet Hfree Hans Hdel Hno Hacc Hch Hcg Hheld Hstill)
    as [next' ->]. split; [by exists next'|].
  destruct (get_session_effect store self _ _ _ _ _ _ _ _ _ _ _ _ _ Hget eq_refl ltac:(congruence))
    as (c' & d' & Hc & _ & ->). congruence.
Qed.

End TwoMachines.

(** ** Witnesses *)

Lemma w_answered a : a ∈ put_answers w_sent -> (w_received w_bound).1 = Done a.
Proof. intros ->%list_elem_of_singleton. rewrite w_receiver_run. exact (proj1 w_received_end). Qed.

Lemma w_none_refused : Forall (fun e => ~ refused e) w_sent.
Proof. vm_compute. repeat constructor; by intros []. Qed.

Lemma Put_succeeds_witness :
  cs_chunks w_store (s_fs (view (w_received w_bound).2)) (mkChunkId "c1") = Some (content_checksum w_hello, w_hello).
Proof.
  apply (Put_succeeds w_store w_client w_id_c1 "/src" w_machine w_receiver (w_received w_bound).2
    77 w_sent (w_received w_bound).1 (Done Status_Ok) w_hello w_put_session w_source_held eq_refl eq_refl
    w_none_refused w_answered eq_refl).
  - split; [reflexivity|split; [intros pid; apply (store_clean_empty "/r")|]].
    apply store_room_short; by vm_compute.
  - vm_compute. reflexivity.
Defined.

(** The client of [w_get_session], whose worker holds the object. *)
Lemma w_names_free : get_names_free w_id_c1 "/dst" 0 empty_fs.
Proof.
  split; [done|split; [done|split; [done|]]]. intros pid Hpid. split; [exact (lookup_empty _)|].
  unfold name_fits, StorageClient.temp_for. apply bool_decide_eq_true.
  pose proof (to_string_length 10 pid ltac:(lia) ltac:(lia)) as Hlen. rewrite <- length_chars in Hlen.
  rewrite path_filename_append.
  - assert (E : path_filename "/dst" = "dst"%string) by (vm_compute; reflexivity).
    assert (E0 : to_string 0 = "0"%string) by (vm_compute; reflexivity).
    rewrite <- length_chars, !chars_app, !length_app, E, E0. unfold NAME_MAX. cbn. cbn in Hlen. lia.
  - rewrite !chars_app, !no_slash_app. split_and!; try done. apply to_string_no_slash.
  - rewrite !chars_app. intros Hnil%(f_equal length). rewrite !length_app in Hnil. cbn in Hnil. lia.
Qed.

Lemma w_delivery : delivery w_fetched w_streamed w_serve.1.
Proof.
  rewrite (proj1 w_serve_end). split; [by exists []|]. intros _. split; [done|].
  by intros g ->%list_elem_of_singleton.
Qed.

Lemma w_described a : a ∈ head_answers w_fetched -> w_describe.1 = Done a.
Proof. intros ->%list_elem_of_singleton. exact w_describe_end. Qed.

Lemma Get_succeeds_witness :
  lookup_file (s_fs (view (w_fetch w_enough).2)) "/dst" = Some w_data.
Proof.
  exact (proj2 (Get_succeeds w_store w_client w_id_c1 "/dst" w_fetcher (w_fetch w_enough).2 (quiet_world w_fs)
    (quiet_world w_fs) 0 _ _ _ _ _ w_sum w_data w_get_session eq_refl w_names_free w_described w_delivery
    ltac:(vm_compute; repeat constructor; by intros []) eq_refl (conj eq_refl w_reach) (conj eq_refl w_reach)
    w_taken w_taken)).
Defined.
