(* ===== verification/MainTheorems.v ===== *)
(** * The programs as a whole: what an exit status of the client means, and
    which files a running worker may touch. *)
From S2P Require Import Prelude Status Types Path Proto System Prog UniqueFd Blake3 MemOS FileIO Files.
From S2P Require Import ChunkFormat Streams ChunkStore FileStore StorePaths StoreRead StorePut StoreSpec StoreTheorems.
From S2P Require Import DataPlane Services HandlerSpec Client ClientSpec StorageClient ObjectSpec Config Mains ClientTheorems.

(** ** Definitions *)

(** In this traffic, one inquiry, the peer described the object. *)
Definition described (self : StorageClient.t GrpcDataPlaneClient.t) (id : string) (v : HeadChunkResponse)
    (tr : list rpc_event) : Prop :=
  exists g resp, tr = [ev (CallHead (client_context self) (rpc.mkHeadChunkRequest id)) (g, resp)] /\
    grpc.ok g = true /\ rpc.code (rpc.hresp_status resp) = rpc.STATUS_CODE_OK /\
    v = mkHeadChunkResponse (mkChunkId (rpc.hresp_chunk_id resp)) (rpc.hresp_size resp)
          (mkChecksum kBlake3 (rpc.hresp_checksum resp)).

(** In this traffic, one request, the peer confirmed that the object is gone. *)
Definition confirmed (self : StorageClient.t GrpcDataPlaneClient.t) (id : string) (tr : list rpc_event) : Prop :=
  exists g resp, tr = [ev (CallDelete (client_context self) (rpc.mkDeleteChunkRequest id)) (g, resp)] /\
    grpc.ok g = true /\ rpc.code (rpc.or_status resp) = rpc.STATUS_CODE_OK.

(** What a line asks for: the worker's endpoint and one operation. *)
Inductive subcommand :=
| put (object_id path : string)
| get (object_id path : string)
| head (object_id : string)
| remove (object_id : string).
Record client_args := mkArgs { a_endpoint : WorkerEndpoint; a_command : subcommand }.

Definition line_endpoint (line : cli_line) : WorkerEndpoint :=
  mkWorkerEndpoint (ln_text line "--worker-host") (ln_u16 line "--worker-control-port") (ln_u16 line "--worker-data-port").
Definition asked_for (line : cli_line) (name : string) : option subcommand :=
  match name with
  | "put" => Some (put (ln_variable line "object_id") (ln_variable line "path"))
  | "get" => Some (get (ln_variable line "object_id") (ln_variable line "path"))
  | "head" => Some (head (ln_variable line "object_id"))
  | "delete" => Some (remove (ln_variable line "object_id"))
  | _ => None
  end%string.
Definition default_endpoint : WorkerEndpoint := mkWorkerEndpoint "127.0.0.1" 50052 50052.

(** The client object of [main]. *)
Definition main_client (args : client_args) : StorageClient.t GrpcDataPlaneClient.t :=
  StorageClient.mk (GrpcDataPlaneClient.mk 3600) (a_endpoint args).

(** The line the subcommand [head] prints. *)
Definition head_line (id : string) (v : HeadChunkResponse) : string :=
  "object_id=" +:+ id +:+ " size=" +:+ to_string (hr_size v) +:+ " checksum=" +:+ value (hr_checksum v) +:+ newline.

(** What the client did when it exits with 0. *)
Definition accomplished `{Blake3} (args : client_args) (s : state) (p : printed) (s' : state) : Prop :=
  match a_command args with
  | put id path => object_sent (main_client args) (mkObjectId id) path s s' /\ p_out p = ""%string
  | get id path => object_received (main_client args) (mkObjectId id) path s s' /\ p_out p = ""%string
  | head id => exists v tr, s_trace s' = s_trace s ++ tr /\ described (main_client args) id v tr /\
                 p_out p = head_line id v
  | remove id => exists tr, s_trace s' = s_trace s ++ tr /\ confirmed (main_client args) id tr /\
                 p_out p = ""%string
  end.

(** How the client ends: in a normal exit, with 0 and no message or with 1 and
    an error message, or in an exception of the file system library. *)
Definition client_exit `{Blake3} (args : client_args) (s : state) (o : outcome printed) (s' : state) : Prop :=
  (forall q, is_Some (f_names (s_fs s) !! q) -> lookup_file (s_fs s') q = lookup_file (s_fs s) q) /\
  match o with
  | Done p =>
      (p_exit p = 0 /\ p_err p = ""%string /\ accomplished args s p s') \/
      (p_exit p = 1 /\ p_out p = ""%string /\ exists m, p_err p = "error: " +:+ m +:+ newline)
  | Threw _ => s_quiet s = false /\ exists id path, a_command args = get id path
  | OutOfFuel => False
  end.

(** Names that are not entries of the directory [root]. *)
Definition outside (root p : string) : Prop :=
  forall q, no_slash (chars q) -> p <> path_append root q.
Definition keeps_outside (root : string) (f f' : fs) : Prop :=
  forall p, outside root p -> lookup_file f' p = lookup_file f p.

(** ** Lemmas *)

Lemma Report_ok st : ok st = true -> Report st = mkPrinted "" "" 0.
Proof. unfold Report. by intros ->. Qed.

Section Client.
Context `{Libc} `{Blake3}.

(** A status that was reported. *)
Lemma reported_exit args s st s' :
  (forall q, is_Some (f_names (s_fs s) !! q) -> lookup_file (s_fs s') q = lookup_file (s_fs s) q) ->
  (ok st = true -> accomplished args s (Report st) s') -> client_exit args s (Done (Report st)) s'.
Proof.
  intros Hfiles Hok. split; [done|]. unfold Report in *. destruct (ok st); [left; auto|right; split; [done|split; [done|by eexists]]].
Qed.

Lemma same_files (f f' : fs) : f' = f -> forall q, is_Some (f_names f !! q) -> lookup_file f' q = lookup_file f q.
Proof. by intros ->. Qed.

(** The operation of a line. *)
Definition perform (fuel : nat) (args : client_args) : prog printed :=
  match a_command args with
  | put id path => st ← StorageClient.Put (main_client args) fuel (mkObjectId id) path; mret (Report st)
  | get id path => r ← StorageClient.Get (main_client args) fuel 0 (mkObjectId id) path; mret (Report r.1)
  | head id =>
      r ← StorageClient.Head (main_client args) (mkObjectId id);
      mret (match so_value r with
            | None => Report (so_status r)
            | Some v => mkPrinted (head_line id v) "" 0
            end)
  | remove id => st ← StorageClient.Delete (main_client args) (mkObjectId id); mret (Report st)
  end.

(** One subcommand is given, and that is what is done. *)
Lemma client_main_performs `{ClientCli} fuel argv line :
  app_parse client_app argv = inr line ->
  exists name cmd, ln_ran line name = true /\ asked_for line name = Some cmd /\
    (forall other, other ∈ (app_subcommands client_app).*1 -> ln_ran line other = true -> other = name) /\
    client_main fuel argv = perform fuel (mkArgs (line_endpoint line) cmd).
Proof.
  intros Hp. destruct (app_one _ _ _ Hp eq_refl) as (name & Hin & Hone).
  assert (Hran : ln_ran line name = true) by (rewrite (Hone name Hin); by apply bool_decide_eq_true_2).
  assert (Hun : forall other, other ∈ (app_subcommands client_app).*1 -> ln_ran line other = true -> other = name).
  { intros other Ho. rewrite (Hone other Ho). apply bool_decide_eq_true_1. }
  exists name.
  assert (Hcases : name = "put"%string \/ name = "get"%string \/ name = "head"%string \/ name = "delete"%string)
    by (apply list_elem_of_In in Hin; cbn in Hin; intuition).
  assert (Hcmd : is_Some (asked_for line name)) by (destruct Hcases as [-> |[-> |[-> | ->]]]; by eexists).
  destruct Hcmd as [cmd Hcmd]. exists cmd. split; [done|split; [done|split; [done|]]].
  unfold client_main. rewrite Hp. cbn zeta.
  rewrite (Hone "put"%string), (Hone "get"%string), (Hone "delete"%string) by (by repeat constructor).
  destruct Hcases as [-> |[-> |[-> | ->]]]; injection Hcmd as <-; reflexivity.
Qed.

Lemma line_endpoint_fits `{ClientCli} argv line :
  app_parse client_app argv = inr line ->
  0 <= control_port (line_endpoint line) < 65536 /\ 0 <= data_port (line_endpoint line) < 65536 /\
  (Forall (fun word => String.prefix "--worker" word = false) argv -> line_endpoint line = default_endpoint).
Proof.
  intros Hp. cbn.
  split; [eapply app_u16_fits; [exact Hp|by repeat constructor|lia]|split; [eapply app_u16_fits; [exact Hp|by repeat constructor|lia]|]].
  intros Hw. assert (Hpre : forall rest, Forall (fun word => String.prefix ("--worker" +:+ rest) word = false) argv).
  { intros rest. revert Hw. apply Forall_impl. intros word. apply prefix_app_left. }
  unfold line_endpoint, default_endpoint. f_equal.
  - eapply (app_keeps_text _ _ _ "--worker-host"); [exact Hp|by repeat constructor|exact (Hpre "-host"%string)].
  - eapply (app_keeps_u16 _ _ _ "--worker-control-port"); [exact Hp|by repeat constructor|exact (Hpre "-control-port"%string)].
  - eapply (app_keeps_u16 _ _ _ "--worker-data-port"); [exact Hp|by repeat constructor|exact (Hpre "-data-port"%string)].
Qed.

Lemma perform_wp fuel args s :
  fs_wf (s_fs s) ->
  (forall path d, lookup_file (s_fs s) path = Some d -> (length d < fuel)%nat) ->
  (max_message * s_events s + max_message + s_events s < fuel)%nat ->
  wp (perform fuel args) (client_exit args s) s.
Proof.
  intros Hwf Hlen Hfuel. unfold perform.
  destruct (a_command args) as [id path|id path|id|id] eqn:Hcmd.
  - eapply wp_bind_returns; [apply Object_Put_wp; [done|apply Hlen|lia]|].
    intros st s1 Hpost. apply wp_ret, reported_exit; [apply same_files, Hpost|].
    intros Hok. unfold accomplished. rewrite Hcmd, Report_ok by done. split; [|done].
    by eapply put_object_ok.
  - apply wp_bind. eapply wp_mono.
    { exact (wp_and _ _ _ _ (Object_Get_wp (main_client args) fuel 0 (mkObjectId id) path s Hwf
        (fun r s1 s2 => grpc_heads_built (main_client args) _ r s1 s2) Hfuel) (wp_extends _ s)). }
    intros [[st next]|m|] s1 [Hpost Htr]; [|split; [apply same_files|split; [|by eexists _, _]]; apply Hpost|done].
    apply wp_ret, reported_exit.
    + destruct Hpost as (_ & _ & Hgo & _). by apply get_object_frame in Hgo as (_ & Hold & _).
    + intros Hok. unfold accomplished. rewrite Hcmd, Report_ok by done. split; [|done].
      by eapply get_object_ok.
  - eapply wp_bind_returns; [apply Object_Head_wp|]. intros r s1 (_ & Hfs & Hspec). apply wp_ret.
    destruct Hspec as [(_ & _ & st & -> & Hc)|(g & resp & Htr & ->)].
    { apply reported_exit; [by apply same_files|]. intros Hok%ok_code.
      cbn [so_status SO_error] in Hok. rewrite NormalizeError_id in Hok by (apply not_ok_code; congruence). congruence. }
    destruct (grpc.ok g) eqn:Hg; cbn [negb].
    2:{ apply reported_exit; [by apply same_files|]. cbn [so_status SO_error]. by rewrite NormalizeError_not_ok. }
    destruct (ok (FromRpcStatus _)) eqn:Hr; cbn [negb].
    2:{ apply reported_exit; [by apply same_files|]. cbn [so_status SO_error]. by rewrite NormalizeError_not_ok. }
    split; [by apply same_files|]. left. split; [done|split; [done|]]. unfold accomplished. rewrite Hcmd.
    eexists _, _. split; [exact Htr|]. apply FromRpcStatus_ok in Hr. split; [by exists g, resp|done].
  - eapply wp_bind_returns; [apply Object_Delete_wp|]. intros st s1 (_ & Hfs & Hspec).
    apply wp_ret, reported_exit; [by apply same_files|]. intros Hok. unfold accomplished. rewrite Hcmd, Report_ok by done.
    destruct Hspec as [(_ & _ & Hc)|(g & resp & Htr & ->)]; [apply ok_code in Hok; congruence|].
    eexists. split; [exact Htr|]. split; [|done]. apply upload_status_ok in Hok. by exists g, resp.
Qed.

End Client.

(** ** What a worker touches *)

Section Worker.
Context `{Libc} `{Blake3}.
Context (root : string).
Abbreviation store := (mkFileChunkStore root).

Lemma outside_chunk p id : outside root p -> p <> PathFor root id.
Proof. intros Hp. rewrite PathFor_name. apply Hp, chunk_name_plain. Qed.

Lemma outside_temp p id pid addr : outside root p -> p <> temp_path_for root id pid addr.
Proof. intros Hp. rewrite temp_path_name. apply Hp, temp_name_plain. Qed.

Lemma put_keeps_outside quiet broken f req pid addr d fin st f' :
  fs_wf f -> put_result quiet broken f root req (temp_path_for root (put_chunk_id req) pid addr) d fin st f' ->
  keeps_outside root f f'.
Proof.
  intros Hwf Hres p Hp. destruct Hres; try done.
  - apply lookup_left; [done|done|by apply outside_temp].
  - rewrite lookup_committed; [|done|done|by apply outside_temp].
    rewrite decide_False; [done|by apply outside_chunk].
Qed.

Lemma prefix_refl_trace (tr : list rpc_event) : tr `prefix_of` tr.
Proof. done. Qed.

Lemma Handler_PutChunk_outside fuel addr s :
  fs_wf (s_fs s) -> (store_need u64_max (s_events s) < fuel)%nat ->
  wp (WorkerService.PutChunk (serving store) fuel addr)
    (returns (fun _ s' => keeps_outside root (s_fs s) (s_fs s'))) s.
Proof.
  intros Hwf Hfuel. eapply wp_bind_returns; [apply (rpc_rule ServerRead)|].
  intros first s1 (Hq1 & Hfs1 & Htr1 & Hev1 & Hty). cbn in Hev1.
  assert (Hsame : keeps_outside root (s_fs s) (s_fs s1)) by (by rewrite Hfs1).
  destruct first as [[|md|x]|]; [by apply wp_ret| |by apply wp_ret..].
  cbn [rpc_typed] in Hty. apply is_u64b_true in Hty.
  assert (Hf : (kHeaderSize + Z.to_nat (expected_size (put_request md)) + 1 + s_events s1 < fuel)%nat).
  { rewrite <- Hev1. unfold store_need in Hfuel. cbn [expected_size put_request].
    unfold is_u64 in Hty. assert (Z.to_nat (rpc.md_expected_size md) <= Z.to_nat u64_max)%nat
      by (apply Z2Nat.inj_le; unfold u64_max in *; lia). lia. }
  pose proof (Put_wp (H2:=RpcInputStream_contract (s_trace s1)) fuel root addr (put_request md) RpcInputStream_make s1
    Hty (conj (prefix_refl_trace _) (rpc_wf_make _)) Hf) as Hput.
  eapply (wp_bind_returns _ _ (fun _ s' => keeps_outside root (s_fs s) (s_fs s'))); [|intros r s2 H2; by apply wp_ret].
  unfold DataPlaneService.PutChunk.
  destruct (negb _); [by apply wp_ret|]. destruct (negb _); [by apply wp_ret|].
  refine (wp_returns_mono _ _ _ _ Hput _).
  intros r s2 (_ & pid & d & _ & _ & Hres) p Hp. rewrite <- Hfs1 in Hwf |- *.
  exact (put_keeps_outside _ _ _ _ _ _ _ _ _ _ Hwf Hres p Hp).
Qed.

Lemma Handler_GetChunk_outside fuel req s :
  fs_wf (s_fs s) -> is_u64 (rpc.gr_offset req) -> is_u64 (rpc.gr_size req) ->
  (store_need (rpc.gr_size req) (s_events s) < fuel)%nat ->
  wp (WorkerService.GetChunk (serving store) fuel req) (returns (fun _ s' => s_fs s' = s_fs s)) s.
Proof.
  intros Hwf Ho Hs Hf.
  eapply (wp_bind_returns _ _ (fun _ s' => s_fs s' = s_fs s)); [|intros r s2 H2; by apply wp_ret].
  unfold DataPlaneService.GetChunk. destruct (negb _); [by apply wp_ret|].
  refine (wp_returns_mono _ _ _ _ (Get_wp fuel root (mkGetChunkRequest (mkChunkId (rpc.gr_chunk_id req))
    (mkByteRange (rpc.gr_offset req) (rpc.gr_size req))) mkRpcOutputStream s Hwf Ho Hs _) _).
  { unfold store_need in Hf. cbn [range size]. clear -Hf. lia. }
  intros r s2 (_ & Hfs & _). exact Hfs.
Qed.

Lemma Handler_HeadChunk_outside fuel req s :
  fs_wf (s_fs s) -> (store_need 0 (s_events s) < fuel)%nat ->
  wp (WorkerService.HeadChunk (serving store) fuel req) (returns (fun _ s' => s_fs s' = s_fs s)) s.
Proof.
  intros Hwf Hf.
  eapply (wp_bind_returns _ _ (fun _ s' => s_fs s' = s_fs s)); [|intros r s2 H2; by apply wp_ret].
  unfold DataPlaneService.HeadChunk. destruct (negb _); [by apply wp_ret|].
  refine (wp_returns_mono _ _ _ _ (Head_wp fuel root (mkChunkId (rpc.hq_chunk_id req)) s Hwf _) _).
  { unfold store_need in Hf. clear -Hf. lia. }
  intros r s2 (_ & Hfs & _). exact Hfs.
Qed.

Lemma Handler_DeleteChunk_outside req s :
  wp (WorkerService.DeleteChunk (serving store) req)
    (returns (fun _ s' => keeps_outside root (s_fs s) (s_fs s'))) s.
Proof.
  eapply (wp_bind_returns _ _ (fun _ s' => keeps_outside root (s_fs s) (s_fs s'))); [|intros r s2 H2; by apply wp_ret].
  unfold DataPlaneService.DeleteChunk. destruct (negb _); [by apply wp_ret|].
  refine (wp_returns_mono _ _ _ _ (Delete_wp root (mkChunkId (rpc.dq_chunk_id req)) s) _).
  intros st s2 (_ & Hres) p Hp.
  destruct Hres; try done. unfold lookup_file. cbn. rewrite lookup_delete_ne; [done|].
  intros E. by apply (outside_chunk p (mkChunkId (rpc.dq_chunk_id req)) Hp).
Qed.

End Worker.

Section Properties.
Context `{Posix} `{Libc} `{Blake3}.

(** C38: a line that does not parse, or asks for help, ends the client program at once
    with the message and status of the command line library.  For any other line
    it does what the one subcommand on it asks for, at the endpoint of the line,
    whose ports are 16-bit numbers and which is the default one when no word names
    an option.  When it then ends with the exit status 0 it has printed no error,
    and the object was sent with its true size and checksum, or its upload was
    cut short by a library that ended the call with OK all the same, or the
    object was received and verified, was described in the printed line, or is
    gone.  Otherwise it prints one error message and exits with 1; only get can
    also end by an exception of the file system library, and only when a fault
    occurs.  No file that existed is changed in any case. *)
Theorem client_main_exit `{ClientCli} fuel argv (w : os)
  (Hwf : fs_wf (s_fs (view w)))
  (Hlen : forall path d, lookup_file (s_fs (view w)) path = Some d -> (length d < fuel)%nat)
  (Hfuel : (max_message * s_events (view w) + max_message + s_events (view w) < fuel)%nat) :
  let r := run (client_main fuel argv) w in
  match app_parse client_app argv with
  | inl exit => r = (Done exit, w)
  | inr line => exists name cmd, ln_ran line name = true /\ asked_for line name = Some cmd /\
      (forall other, other ∈ (app_subcommands client_app).*1 -> ln_ran line other = true -> other = name) /\
      (0 <= control_port (line_endpoint line) < 65536 /\ 0 <= data_port (line_endpoint line) < 65536 /\
       (Forall (fun word => String.prefix "--worker" word = false) argv -> line_endpoint line = default_endpoint)) /\
      client_exit (mkArgs (line_endpoint line) cmd) (view w) r.1 (view r.2)
  end.
Proof.
  cbv zeta. destruct (app_parse client_app argv) as [exit|line] eqn:Hp; [unfold client_main; by rewrite Hp|].
  destruct (client_main_performs fuel argv line Hp) as (name & cmd & Hran & Hcmd & Hun & ->). exists name, cmd.
  split; [done|split; [done|split; [done|split; [by apply line_endpoint_fits|]]]].
  exact (wp_run _ _ w (perform_wp fuel (mkArgs (line_endpoint line) cmd) (view w) Hwf Hlen Hfuel)).
Qed.

(** C39: a worker that starts offers, under the configured address, a service that
    touches no file outside the directory of the configured storage root,
    whatever identifiers, frames and answers its peers send and whatever faults
    occur; a worker that does not start offers nothing and exits with 1. *)
Theorem worker_main_confined `{Cli} `{Spdlog} starts logging0 argv sv
  (Hmain : worker_main starts logging0 argv = Done sv) :
  match sv_service sv with
  | None => sv_exit sv = 1
  | Some (address, service) => exists config, so_value (LoadWorkerConfig argv) = Some config /\
      address = worker_listen_address config /\ starts address = true /\
      forall (w : os) fuel, fs_wf (s_fs (view w)) -> (store_need u64_max (s_events (view w)) < fuel)%nat ->
        let f := s_fs (view w) in
        (forall addr, keeps_outside (storage_root config) f
           (s_fs (view (run (WorkerService.PutChunk service fuel addr) w).2))) /\
        (forall req, is_u64 (rpc.gr_offset req) -> is_u64 (rpc.gr_size req) ->
           s_fs (view (run (WorkerService.GetChunk service fuel req) w).2) = f) /\
        (forall req, s_fs (view (run (WorkerService.HeadChunk service fuel req) w).2) = f) /\
        (forall req, keeps_outside (storage_root config) f
           (s_fs (view (run (WorkerService.DeleteChunk service req) w).2)))
  end.
Proof.
  unfold worker_main in Hmain. destruct (InitLogging _ _).1 as [st|m|]; [|done..].
  destruct (negb _); [by injection Hmain as <-|].
  destruct (so_value (LoadWorkerConfig argv)) as [c|]; [|by injection Hmain as <-].
  destruct (starts _) eqn:Hs; injection Hmain as <-; [|done]. cbn [sv_service].
  exists c. split; [done|split; [done|split; [done|]]]. intros w fuel Hwf Hfuel.
  assert (Hless : forall n, n <= u64_max -> (store_need n (s_events (view w)) < fuel)%nat).
  { intros n Hn. unfold store_need in *.
    assert (Z.to_nat n <= Z.to_nat u64_max)%nat by lia. lia. }
  split; [|split; [|split]].
  - intros addr. by destruct (returns_run _ _ w (Handler_PutChunk_outside (storage_root c) fuel addr (view w) Hwf Hfuel))
      as (r & _ & Hk).
  - intros req Ho Hz. assert (Hf : (store_need (rpc.gr_size req) (s_events (view w)) < fuel)%nat).
    { apply Hless. unfold is_u64, u64_max in *. lia. }
    by destruct (returns_run _ _ w (Handler_GetChunk_outside (storage_root c) fuel req (view w) Hwf Ho Hz Hf))
      as (r & _ & Hk).
  - intros req. assert (Hf : (store_need 0 (s_events (view w)) < fuel)%nat) by (by apply Hless).
    by destruct (returns_run _ _ w (Handler_HeadChunk_outside (storage_root c) fuel req (view w) Hwf Hf)) as (r & _ & Hk).
  - intros req. by destruct (returns_run _ _ w (Handler_DeleteChunk_outside (storage_root c) req (view w))) as (r & _ & Hk).
Qed.

(** The control plane is offered exactly under a configured address that the
    library can serve; in every other case the program exits with 1. *)
Theorem control_main_offers `{Cli} `{Spdlog} starts logging0 argv sv
  (Hmain : control_main starts logging0 argv = Done sv) :
  match sv_service sv with
  | None => sv_exit sv = 1
  | Some (address, _) => sv_exit sv = 0 /\ starts address = true /\
      exists config, so_value (LoadControlConfig argv) = Some config /\ address = control_listen_address config
  end.
Proof.
  unfold control_main in Hmain. destruct (InitLogging _ _).1 as [st|m|]; [|done..].
  destruct (negb _); [by injection Hmain as <-|].
  destruct (so_value (LoadControlConfig argv)) as [c|]; [|by injection Hmain as <-].
  destruct (starts _) eqn:Hs; injection Hmain as <-; [|done]. split; [done|split; [exact Hs|by exists c]].
Qed.

End Properties.

(** ** Witnesses *)

(** A parser for lines of words "--option=value", a subcommand and its arguments. *)
Definition option_given (name : string) (argv : list string) : bool :=
  existsb (fun word => String.prefix (name +:+ "=") word) argv.

Definition read_u16 (s : string) : option Z :=
  let digit c := Z.of_nat (Ascii.nat_of_ascii c) - 48 in
  let n := fold_left (fun acc c => acc * 10 + digit c) (chars s) 0 in
  if forallb (fun c => (0 <=? digit c) && (digit c <=? 9)) (chars s) && bool_decide (0 <= n < 65536) then Some n else None.

Definition u16_value (name : string) (argv : list string) (v : Z) : Z :=
  if option_given name argv then default 0 (read_u16 (option_value name argv "")) else v.

Lemma option_given_none name argv :
  Forall (fun word => String.prefix name word = false) argv -> option_given name argv = false.
Proof. induction 1 as [|w argv Hw _ IH]; [done|]. cbn. by rewrite prefix_app_left. Qed.

Lemma u16_value_fits name argv v : 0 <= v < 65536 -> 0 <= u16_value name argv v < 65536.
Proof.
  intros Hv. unfold u16_value. destruct (option_given _ _); [|done]. unfold read_u16.
  destruct (_ && bool_decide _) eqn:E; [|cbn; lia]. apply andb_true_iff in E as [_ E%bool_decide_eq_true]. exact E.
Qed.

Definition plain_line (app : cli_app) (argv : list string) (name : string) (arguments : list string)
    (positionals : list (string * string)) : cli_line := {|
  ln_text option := option_value option argv (default ""%string (list_to_map (M:=gmap string string) (app_text app) !! option));
  ln_u16 option := u16_value option argv (default 0 (list_to_map (M:=gmap string Z) (app_u16 app) !! option));
  ln_ran other := bool_decide (other = name);
  ln_variable v := default ""%string (list_to_map (M:=gmap string string) (zip positionals.*2 arguments) !! v) |}.

Definition plain_parse (app : cli_app) (argv : list string) : printed + cli_line :=
  let refused := inl (mkPrinted "" "Run with --help for more information." 106) in
  match List.filter (fun word => negb (String.prefix "--" word)) argv with
  | [] => refused
  | name :: arguments =>
      match list_to_map (M:=gmap string (list (string * string))) (app_subcommands app) !! name with
      | None => refused
      | Some positionals =>
          if bool_decide (NoDup (app_text app).*1 /\ NoDup (app_u16 app).*1 /\ length arguments = length positionals)
          then inr (plain_line app argv name arguments positionals) else refused
      end
  end.

(** A line it takes, by its parts. *)
Lemma plain_parse_line app argv line :
  plain_parse app argv = inr line ->
  NoDup (app_text app).*1 /\ NoDup (app_u16 app).*1 /\
  exists name arguments positionals, (name, positionals) ∈ app_subcommands app /\
    line = plain_line app argv name arguments positionals.
Proof.
  unfold plain_parse. destruct (List.filter _ _) as [|name arguments]; [done|].
  destruct (_ !! name) as [positionals|] eqn:E; [|done]. case_bool_decide as Hd; [|done]. intros [= <-].
  destruct Hd as (? & ? & _). split; [done|split; [done|]]. exists name, arguments, positionals.
  split; [by apply elem_of_list_to_map_2 in E|done].
Qed.

#[program]
Definition plain_client_cli : ClientCli := {| app_parse := plain_parse |}.
Next Obligation.
  intros app argv line name v (Hnd & _ & cmd & args & pos & _ & ->)%plain_parse_line Hin Hw.
  cbn. rewrite option_value_kept by done. by rewrite (proj1 (elem_of_list_to_map (M:=gmap string) _ _ _ Hnd) Hin).
Qed.
Next Obligation.
  intros app argv line name v (_ & Hnd & cmd & args & pos & _ & ->)%plain_parse_line Hin Hw.
  cbn. unfold u16_value. rewrite option_given_none by done.
  by rewrite (proj1 (elem_of_list_to_map (M:=gmap string) _ _ _ Hnd) Hin).
Qed.
Next Obligation.
  intros app argv line name v (_ & Hnd & cmd & args & pos & _ & ->)%plain_parse_line Hin Hv.
  cbn. rewrite (proj1 (elem_of_list_to_map (M:=gmap string) _ _ _ Hnd) Hin). by apply u16_value_fits.
Qed.
Next Obligation.
  intros app argv line (_ & _ & cmd & args & pos & Hin & ->)%plain_parse_line _.
  exists cmd. split; [|done]. apply list_elem_of_fmap. by exists (cmd, pos).
Qed.

Lemma w_only_source path d : lookup_file w_source path = Some d -> (length d < w_enough)%nat.
Proof.
  assert (Hm : (Z.to_nat 10 <= max_message)%nat) by (apply Z2Nat.inj_le; lia).
  change (Z.to_nat 10) with 10%nat in Hm. revert Hm. generalize max_message. intros m Hm.
  destruct (decide (path = "/src"%string)) as [->|Hne]; [apply w_source_short; lia|].
  unfold lookup_file, w_source, one_file. cbn [f_names f_inodes]. by rewrite lookup_singleton_ne.
Qed.

Definition w_line : list string := ["--worker-data-port=7000"; "get"; "a"; "/dst"]%string.

Definition w_parsed : cli_line :=
  plain_line client_app w_line "get" ["a"; "/dst"]%string [("object-id", "object_id"); ("destination", "path")]%string.

Lemma w_line_parsed : plain_parse client_app w_line = inr w_parsed.
Proof.
  assert (E : list_to_map (M:=gmap string (list (string * string))) (app_subcommands client_app) !! "get"%string =
    Some [("object-id", "object_id"); ("destination", "path")]%string) by (vm_compute; reflexivity).
  assert (F : List.filter (fun word => negb (String.prefix "--" word)) w_line = ["get"; "a"; "/dst"]%string) by reflexivity.
  unfold plain_parse. rewrite F, E.
  rewrite bool_decide_true; [reflexivity|]. split; [|split; [|reflexivity]]; apply (bool_decide_eq_true_1 _); vm_compute; reflexivity.
Qed.

Lemma client_main_exit_witness :
  let r := run (client_main (H1:=plain_client_cli) w_enough w_line) w_machine in
  client_exit (mkArgs (mkWorkerEndpoint "127.0.0.1" 50052 7000) (get "a" "/dst")) (view w_machine) r.1 (view r.2).
Proof.
  pose proof (client_main_exit (H2:=plain_client_cli) w_enough w_line w_machine w_source_wf w_only_source (w_fuel 1 (le_n 1)))
    as Hexit. cbv zeta in *.
  change (app_parse client_app w_line) with (plain_parse client_app w_line) in Hexit. rewrite w_line_parsed in Hexit.
  destruct Hexit as (name & cmd & Hran & Hcmd & _ & _ & Hexit).
  assert (Hline : line_endpoint w_parsed = mkWorkerEndpoint "127.0.0.1" 50052 7000) by (vm_compute; reflexivity).
  assert (Hget : asked_for w_parsed "get" = Some (get "a" "/dst")) by (vm_compute; reflexivity).
  apply bool_decide_eq_true in Hran as ->. rewrite Hget in Hcmd. injection Hcmd as <-. rewrite Hline in Hexit. exact Hexit.
Defined.

(** Lines run to their end. *)
Example w_client_exit :
  (run (client_main (H1:=plain_client_cli) 100 w_line) w_machine).1 = Done (mkPrinted "" "" 0) /\
  (run (client_main (H1:=plain_client_cli) 100 ["head"; ""]%string) w_machine).1 =
    Done (mkPrinted "" ("error: object_id cannot be empty" +:+ newline) 1) /\
  (run (client_main (H1:=plain_client_cli) 100 ["put"; "a"]%string) w_machine).1 =
    Done (mkPrinted "" "Run with --help for more information." 106).
Proof. split; [|split]; vm_compute; reflexivity. Qed.

Definition w_worker_main : outcome (served (WorkerService.t FileChunkStore)) :=
  worker_main (H:=plain_cli) (H0:=plain_spdlog) (fun _ => true)
    (mkLogging (H:=plain_spdlog) false kStdout 2%nat "") ["--storage-root=/data"%string].

Lemma worker_main_confined_witness :
  match w_worker_main with
  | Done sv => sv_exit sv = 0 /\ (forall fuel, (store_need u64_max 0 < fuel)%nat ->
      keeps_outside "/data" w_source
        (s_fs (view (run (WorkerService.DeleteChunk (serving (mkFileChunkStore "/data"))
           (rpc.mkDeleteChunkRequest "../src")) (quiet_world w_source)).2)))
  | _ => False
  end.
Proof.
  destruct w_worker_main as [sv|m|] eqn:E; [|vm_compute in E; discriminate..].
  pose proof (worker_main_confined (H2:=plain_cli) (H3:=plain_spdlog) _ _ _ sv E) as Hc.
  assert (Esv : w_worker_main = Done (mkServed
     ["worker worker-v0 listening on 127.0.0.1:50052"; "worker storage root: /data"]%string
     (Some ("127.0.0.1:50052"%string, serving (mkFileChunkStore "/data"))) 0)) by (vm_compute; reflexivity).
  rewrite Esv in E. injection E as <-. split; [done|]. intros fuel Hfuel. cbn [sv_service] in Hc.
  destruct Hc as (c & Hload & _ & _ & Hall).
  assert (Hroot : storage_root c = "/data"%string).
  { assert (El : so_value (LoadWorkerConfig (H:=plain_cli) ["--storage-root=/data"%string]) =
      Some (mkWorkerConfig (mkWorkerId "worker-v0") "127.0.0.1:50052" "/data")) by (vm_compute; reflexivity).
    rewrite El in Hload. by injection Hload as <-. }
  rewrite Hroot in Hall.
  exact (proj2 (proj2 (proj2 (Hall (quiet_world w_source) fuel w_source_wf Hfuel))) (rpc.mkDeleteChunkRequest "../src")).
Defined.
